(** * Outreach orchestration core: a shallow embedding and its properties

    The services under [api/services/leads] are embedded as Rocq functions
    on explicit service states:

    - [Spintax]       : [spintax_service.py]
    - [Scheduler]     : [smart_scheduler_service.py]
    - [ProxyPool]     : [proxy_pool_service.py]
    - [FollowBack]    : [follow_back_detector_service.py]
    - [Conversation]  : [conversation_flow_service.py]
    - [AutomationExecutor] : the part of [automation_executor_service.py]
      that drives the scheduler

    Conventions shared by all modules.

    - A Python [str] is a [string]: the UTF-8 bytes of the text.  Literal
      search, [split], [replace] and the negated class [[^{}]] act on such
      bytes exactly as they act on code points.  Character classification
      ([lower], [strip], [\b]) is exact on ASCII; bytes above 127 are taken
      to be caseless, non-blank, non-word symbols.
    - [datetime] values are integers: microseconds on the naive local time
      line, counted from a midnight.  Every operation that reads
      [datetime.now()] receives the reading as its argument [now]; the
      readings made during one call are taken to be one instant, except
      around an awaited request or driver action, where the reading before
      and the reading after are two arguments.
    - Rocq has one name space for the fields of all records of a module:
      where two dataclasses of a service share a field name, the field of
      the second carries a prefix ([sa_id], [flow_variables],
      [response_metadata], ...).
    - [random] is a stream of draws [rng : nat -> nat], or a single draw
      [r : nat] where one is made; a statement that holds for every draw
      holds for every run of the generator.
    - What lies outside the program (the request through a proxy, the
      browser driver, the follower probe) is an argument giving its
      outcome: a value or a raised exception.
    - A keyed registry whose iteration order is never observed is a [gmap];
      a dict that is iterated is an insertion-ordered association list
      ([PyDict]).
    - A raised exception is the [Raise] case of [result]. *)

From Stdlib Require Import ZArith List String Ascii Bool Lia SpecFloat.
From stdpp Require Import gmap strings pretty.
Import ListNotations.

Open Scope string_scope.
Open Scope Z_scope.

(** ** Python runtime: exceptions, truthiness, ordered dicts *)

Inductive exn : Type :=
| TypeError (msg : string)
| ValueError (msg : string)
| OverflowError (msg : string)
| NoAvailableProxyError (msg : string)
| Exception (msg : string).

(** [str(e)] *)
Definition exn_str (e : exn) : string :=
  match e with
  | TypeError msg | ValueError msg | OverflowError msg
  | NoAvailableProxyError msg | Exception msg => msg
  end.

Inductive result (A : Type) : Type :=
| Ok (a : A)
| Raise (e : exn).
Arguments Ok {A} a.
Arguments Raise {A} e.

Definition datetime := Z.

Definition microseconds_per_second : Z := 1000000.
Definition timedelta_seconds (n : Z) : Z := n * microseconds_per_second.
Definition timedelta_minutes (n : Z) : Z := timedelta_seconds (60 * n).
Definition timedelta_hours (n : Z) : Z := timedelta_minutes (60 * n).
Definition timedelta_days (n : Z) : Z := timedelta_hours (24 * n).

(** [bool(s)] for an optional string: [None] and [""] are falsy. *)
Definition truthy_str (o : option string) : bool :=
  match o with
  | Some s => negb (s =? "")%string
  | None => false
  end.

(** Insertion-ordered dictionary with string keys: [d[k] = v] overwrites in
    place when [k] is present and appends otherwise. *)
Module PyDict.
Section Dict.
Context {V : Type}.

Definition t := list (string * V).

Fixpoint get (d : t) (k : string) : option V :=
  match d with
  | [] => None
  | (k', v) :: d' => if (k' =? k)%string then Some v else get d' k
  end.

Definition contains (d : t) (k : string) : bool :=
  match get d k with Some _ => true | None => false end.

Fixpoint set (d : t) (k : string) (v : V) : t :=
  match d with
  | [] => [(k, v)]
  | (k', v') :: d' =>
      if (k' =? k)%string then (k', v) :: d' else (k', v') :: set d' k v
  end.

Fixpoint del (d : t) (k : string) : t :=
  match d with
  | [] => []
  | (k', v') :: d' => if (k' =? k)%string then d' else (k', v') :: del d' k
  end.

Definition values (d : t) : list V := map snd d.
Definition keys (d : t) : list string := map fst d.

End Dict.
Arguments t V : clear implicits.
End PyDict.

(** ** Text helpers ([str] methods used by the services) *)

Fixpoint str_count (ch : ascii) (s : string) : nat :=
  match s with
  | "" => 0%nat
  | String c s' => ((if (c =? ch)%char then 1 else 0) + str_count ch s')%nat
  end.

(** [s.split(sep)] for a one-character separator: never the empty list. *)
Fixpoint str_split (sep : ascii) (s : string) : list string :=
  match s with
  | "" => [""]
  | String c s' =>
      if (c =? sep)%char then "" :: str_split sep s'
      else match str_split sep s' with
           | h :: t => String c h :: t
           | [] => [String c ""]
           end
  end.

(** [s.replace(old, new)] for non-empty [old]: occurrences are replaced
    left to right without overlap.  [skip] counts the characters of an
    occurrence that remain to be dropped. *)
Fixpoint str_replace_from (old new : string) (skip : nat) (s : string) : string :=
  match s with
  | "" => ""
  | String c s' =>
      match skip with
      | S k => str_replace_from old new k s'
      | O =>
          if String.prefix old s
          then new +:+ str_replace_from old new (String.length old - 1) s'
          else String c (str_replace_from old new 0 s')
      end
  end.

Definition str_replace (old new s : string) : string :=
  str_replace_from old new 0 s.

(** Python's [str.isspace] on ASCII: TAB..CR, FS..US and space. *)
Definition is_space (c : ascii) : bool :=
  let n := nat_of_ascii c in
  ((9 <=? n) && (n <=? 13) || (28 <=? n) && (n <=? 32))%nat.

Fixpoint lstrip (s : string) : string :=
  match s with
  | "" => ""
  | String c s' => if is_space c then lstrip s' else s
  end.

Fixpoint rstrip (s : string) : string :=
  match s with
  | "" => ""
  | String c s' =>
      match rstrip s' with
      | "" => if is_space c then "" else String c ""
      | r => String c r
      end
  end.

Definition str_strip (s : string) : string := rstrip (lstrip s).

Fixpoint str_contains_char (ch : ascii) (s : string) : bool :=
  match s with
  | "" => false
  | String c s' => (c =? ch)%char || str_contains_char ch s'
  end.

(** [l[:limit]]: a negative limit counts from the end. *)
Definition slice_to {A : Type} (l : list A) (limit : Z) : list A :=
  if 0 <=? limit then firstn (Z.to_nat limit) l
  else firstn (List.length l - Z.to_nat (- limit)) l.

(** [random.choice(l)] on the draw [r]; [l] is never empty where it is used. *)
Definition random_choice (r : nat) (l : list string) : string :=
  nth (r mod List.length l) l "".

(** ** spintax_service.py *)

Module Spintax.

Record MessageTemplate := {
  id : string;
  name : string;
  template : string;
  variables : list string;
  category : string;
  platform : string;
  language : string;
  success_count : Z;
  total_used : Z;
  created_at : datetime
}.

Record GeneratedMessage := {
  template_id : string;
  content : string;
  variables_used : PyDict.t string;
  generated_at : datetime
}.

Record SpintaxService := {
  _templates : gmap string MessageTemplate
}.

Definition is_brace (c : ascii) : bool := (c =? "{")%char || (c =? "}")%char.

(** The longest run of characters other than braces at the head of [s],
    and what follows it: the extent of the greedy [[^{}]+]. *)
Fixpoint span_no_brace (s : string) : string * string :=
  match s with
  | "" => ("", "")
  | String c s' =>
      if is_brace c then ("", s)
      else let (body, rest) := span_no_brace s' in (String c body, rest)
  end.

(** [SPINTAX_PATTERN = \{([^{}]+)\}] tried right after an opening brace:
    the run [[^{}]+] must be non-empty and be closed by "}".  Backtracking
    to a shorter run cannot help, the character after it is not a brace. *)
Definition group_after_open (s : string) : option (string * string) :=
  match span_no_brace s with
  | (String c body, String "}" post) => Some (String c body, post)
  | _ => None
  end.

(** [SPINTAX_PATTERN.search(s)]: the leftmost match, as
    [(s[:match.start()], match.group(1), s[match.end():])]. *)
Fixpoint SPINTAX_search (s : string) : option (string * string * string) :=
  match s with
  | "" => None
  | String c s' =>
      match (if (c =? "{")%char then group_after_open s' else None) with
      | Some (body, post) => Some ("", body, post)
      | None =>
          match SPINTAX_search s' with
          | Some (pre, body, post) => Some (String c pre, body, post)
          | None => None
          end
      end
  end.

(** [SPINTAX_PATTERN.finditer(s)] as the list of [match.group(1)].  After a
    match the scan goes on behind the opening brace instead of behind the
    closing one: the characters in between hold no opening brace, so the
    matches found are the same. *)
Fixpoint SPINTAX_finditer (s : string) : list string :=
  match s with
  | "" => []
  | String c s' =>
      match (if (c =? "{")%char then group_after_open s' else None) with
      | Some (body, _) => body :: SPINTAX_finditer s'
      | None => SPINTAX_finditer s'
      end
  end.

Definition is_ident_start (c : ascii) : bool :=
  let n := nat_of_ascii c in
  ((65 <=? n) && (n <=? 90) || (97 <=? n) && (n <=? 122) || (n =? 95))%nat.

Definition is_ident_char (c : ascii) : bool :=
  let n := nat_of_ascii c in
  is_ident_start c || ((48 <=? n) && (n <=? 57))%nat.

Fixpoint span_ident (s : string) : string * string :=
  match s with
  | "" => ("", "")
  | String c s' =>
      if is_ident_char c
      then let (w, rest) := span_ident s' in (String c w, rest)
      else ("", s)
  end.

(** [VARIABLE_PATTERN] (an identifier between square brackets) tried right
    after the opening bracket: a letter or underscore, then the greedy run
    of letters, digits and underscores, then the closing bracket. *)
Definition variable_after_open (s : string) : option string :=
  match s with
  | String c s' =>
      if is_ident_start c
      then match span_ident s' with
           | (w, String "]" _) => Some (String c w)
           | _ => None
           end
      else None
  | "" => None
  end.

(** [VARIABLE_PATTERN.findall(s)]; the scan resumes behind "[" as in
    [SPINTAX_finditer], a matched name holds no "[". *)
Fixpoint VARIABLE_findall (s : string) : list string :=
  match s with
  | "" => []
  | String c s' =>
      match (if (c =? "[")%char then variable_after_open s' else None) with
      | Some v => v :: VARIABLE_findall s'
      | None => VARIABLE_findall s'
      end
  end.

(** [list(set(l))]: the distinct elements; Python leaves their order open,
    here it is the order of first occurrence. *)
Fixpoint list_set (l : list string) : list string :=
  match l with
  | [] => []
  | x :: l' => x :: List.filter (fun y => negb (y =? x)%string) (list_set l')
  end.

(** The template as [add_template] leaves it: its variables are extracted
    from its text. *)
Definition with_extracted_variables (t : MessageTemplate) : MessageTemplate :=
  let variables := VARIABLE_findall (template t) in
  {| id := id t; name := name t; template := template t;
     variables := list_set variables;
     category := category t; platform := platform t;
     language := language t; success_count := success_count t;
     total_used := total_used t; created_at := created_at t |}.

Definition add_template (self : SpintaxService) (t : MessageTemplate) : SpintaxService :=
  let t := with_extracted_variables t in
  {| _templates := <[id t := t]> (_templates self) |}.

Definition mkTemplate (now : datetime) (i n text : string) (vars : list string)
    (cat : string) : MessageTemplate :=
  {| id := i; name := n; template := text; variables := vars; category := cat;
     platform := "all"; language := "en"; success_count := 0; total_used := 0;
     created_at := now |}.

(** [_load_default_templates]; the templates are created at [now]. *)
Definition default_templates (now : datetime) : list MessageTemplate :=
  [
    mkTemplate now "opening_friendly" "Friendly Opening"
      "{Hey|Hi|Hello} [follower_name]! {ðŸ‘‹|âœ¨|ðŸ˜Š} I noticed you follow [kol_name] too! {Love their content|Such great insights|Amazing posts right}? {What's your favorite topic|What got you interested|Been following long}?"
      ["follower_name"; "kol_name"] "opening";
    mkTemplate now "opening_professional" "Professional Opening"
      "{Hi|Hello} [follower_name], I'm [assistant_name], {part of|working with} [kol_name]'s team. {Great to connect|Nice to meet you|Pleased to connect}! I saw you're interested in {finance|investing|markets}."
      ["follower_name"; "assistant_name"; "kol_name"] "opening";
    mkTemplate now "value_proposition" "Value Proposition"
      "We've got an {exclusive|private|VIP} {group|community|channel} where [kol_name] shares {daily insights|real-time analysis|premium content} {not available anywhere else|before anyone else|for serious investors}. {Would you be interested|Want to check it out|Interested in joining}?"
      ["kol_name"] "follow_up";
    mkTemplate now "whatsapp_invite" "WhatsApp Invitation"
      "{Here's the link|Join us here|Here you go}: [whatsapp_link] ðŸ“± {See you inside|Looking forward to seeing you|Welcome aboard}! {Feel free to ask anything|Don't hesitate to reach out|Let me know if you have questions}."
      ["whatsapp_link"] "conversion";
    mkTemplate now "objection_why_whatsapp" "Objection: Why WhatsApp"
      "{Great question|Good point|I understand}! We use WhatsApp for {personal|real-time|exclusive} updates {without algorithm limits|directly to you|faster than social media}. {Plus|Also|And} it's {completely free|no spam, promise|a small focused group}."
      [] "objection";
    mkTemplate now "objection_trust" "Objection: Trust Issues"
      "{Totally understand|Makes sense|Fair enough}! {Security is important|Trust is everything|I get the hesitation}. You can check [kol_name]'s {main profile|verified account|public content} {to verify we're legit|for confirmation|if you want}. {No pressure at all|Take your time|Just wanted to offer}!"
      ["kol_name"] "objection";
    mkTemplate now "follow_up_no_reply" "Follow-up: No Reply"
      "{Hey|Hi} [follower_name]! ðŸ‘‹ {Just checking in|Wanted to follow up|Quick reminder} {about the group|on my last message|re: the community}. {No worries if you're busy|Totally understand if not interested|Let me know either way}!"
      ["follower_name"] "follow_up" ].

(** [SpintaxService()] *)
Definition init (now : datetime) : SpintaxService :=
  {| _templates :=
       fold_left (fun m t => <[id t := t]> m) (default_templates now) ∅ |}.

Definition get_template (self : SpintaxService) (template_id : string)
  : option MessageTemplate :=
  _templates self !! template_id.

Definition max_iterations : nat := 10.

(** The [for _ in range(max_iterations)] loop of [spin]; [i] counts the
    draws made so far. *)
Fixpoint spin_loop (fuel : nat) (rng : nat -> nat) (i : nat) (result : string) : string :=
  match fuel with
  | O => result
  | S fuel' =>
      match SPINTAX_search result with
      | None => result
      | Some (pre, body, post) =>
          let options := str_split "|" body in
          let chosen := random_choice (rng i) options in
          spin_loop fuel' rng (S i) (pre +:+ chosen +:+ post)
      end
  end.

Definition spin (rng : nat -> nat) (text : string) : string :=
  spin_loop max_iterations rng 0 text.

Definition replace_variables (text : string) (variables : PyDict.t string) : string :=
  fold_left
    (fun result kv => str_replace ("[" +:+ fst kv +:+ "]") (snd kv) result)
    variables text.

Definition generate_message (self : SpintaxService) (rng : nat -> nat) (now : datetime)
    (template_id : string) (variables : PyDict.t string)
  : option GeneratedMessage * SpintaxService :=
  match _templates self !! template_id with
  | None => (None, self)
  | Some t =>
      (* First, replace variables *)
      let content := replace_variables (template t) variables in
      (* Then, process spintax *)
      let content := spin rng content in
      (* Update usage stats *)
      let t' := {| id := id t; name := name t; template := template t;
                   variables := Spintax.variables t;
                   category := category t; platform := platform t;
                   language := language t; success_count := success_count t;
                   total_used := total_used t + 1; created_at := created_at t |} in
      (Some {| template_id := template_id; content := content;
               variables_used := variables; generated_at := now |},
       {| _templates := <[template_id := t']> (_templates self) |})
  end.

Record Validation := {
  valid : bool;
  issues : list string;
  found_variables : list string;
  sample : option string
}.

Definition validate_template (rng : nat -> nat) (template_text : string) : Validation :=
  let variables := VARIABLE_findall template_text in
  (* Check for unbalanced braces *)
  let open_count := str_count "{" template_text in
  let close_count := str_count "}" template_text in
  let issues1 :=
    if (open_count =? close_count)%nat then []
    else ["Unbalanced braces: " +:+ pretty (Z.of_nat open_count) +:+ " open, "
            +:+ pretty (Z.of_nat close_count) +:+ " close"] in
  (* Check for empty options *)
  let issues2 :=
    flat_map
      (fun body =>
         if existsb (fun opt => (str_strip opt =? "")%string) (str_split "|" body)
         then ["Empty option in spintax: {" +:+ body +:+ "}"]
         else [])
      (SPINTAX_finditer template_text) in
  let issues := (issues1 ++ issues2)%list in
  let is_ok := match issues with [] => true | _ => false end in
  {| valid := is_ok;
     issues := issues;
     found_variables := list_set variables;
     sample := if is_ok then Some (spin rng template_text) else None |}.

Definition with_success_count (t : MessageTemplate) (n : Z) : MessageTemplate :=
  {| id := id t; name := name t; template := template t;
     variables := Spintax.variables t;
     category := category t; platform := platform t;
     language := language t; success_count := n;
     total_used := total_used t; created_at := created_at t |}.

Definition record_success (self : SpintaxService) (template_id : string)
  : bool * SpintaxService :=
  match _templates self !! template_id with
  | Some t =>
      (true,
       {| _templates :=
            <[template_id := with_success_count t (success_count t + 1)]>
              (_templates self) |})
  | None => (false, self)
  end.

(** [preview_template]; [rngs i] is the stream of draws of round [i] of
    [for _ in range(variations)]. *)
Definition preview_template (self : SpintaxService) (rngs : nat -> nat -> nat)
    (template_id : string) (variables : PyDict.t string) (variations : Z)
  : list string :=
  match _templates self !! template_id with
  | None => []
  | Some t =>
      map (fun i => spin (rngs i) (replace_variables (template t) variables))
          (seq 0 (Z.to_nat variations))
  end.

End Spintax.

(** ** Python floats (binary64) as far as the scheduler uses them *)

Definition float := spec_float.
Definition float_prec : Z := 53.
Definition float_emax : Z := 1024.

(** [float(n)] for an [int]: correctly rounded; too large raises. *)
Definition float_of_int (n : Z) : result float :=
  match binary_normalize float_prec float_emax n 0 false with
  | S754_infinity _ => Raise (OverflowError "int too large to convert to float")
  | x => Ok x
  end.

(** A decimal literal [p/q] with small [p] and [q], such as [0.3]: the
    double nearest to the quotient. *)
Definition float_literal (p q : Z) : float :=
  SFdiv float_prec float_emax
    (binary_normalize float_prec float_emax p 0 false)
    (binary_normalize float_prec float_emax q 0 false).

(** [n * x] for an [int] [n] and a [float] [x]. *)
Definition int_mul_float (n : Z) (x : float) : result float :=
  match float_of_int n with
  | Ok fn => Ok (SFmul float_prec float_emax fn x)
  | Raise e => Raise e
  end.

(** [int(x)]: truncation toward zero; infinities and NaN raise. *)
Definition py_int (x : float) : result Z :=
  match x with
  | S754_zero _ => Ok 0
  | S754_finite s m e =>
      let magnitude := Z.shiftl (Z.pos m) e in
      Ok (if s then - magnitude else magnitude)
  | S754_infinity _ =>
      Raise (OverflowError "cannot convert float infinity to integer")
  | S754_nan => Raise (ValueError "cannot convert float NaN to integer")
  end.

(** A value of type [Any] as the services store them in free-form dicts. *)
Inductive py_value : Type :=
| VNone
| VBool (b : bool)
| VInt (n : Z)
| VStr (s : string).

Definition truthy (v : py_value) : bool :=
  match v with
  | VNone => false
  | VBool b => b
  | VInt n => negb (n =? 0)
  | VStr s => negb (s =? "")%string
  end.

(** ** smart_scheduler_service.py *)

Module Scheduler.

Inductive ActionType : Type :=
| FOLLOW | UNFOLLOW | DM | LIKE | COMMENT | VIEW_PROFILE | SCROLL.

Inductive AccountAgeCategory : Type :=
| NEW | WARMING | MATURE.

#[global] Instance ActionType_eq_dec : EqDecision ActionType.
Proof. solve_decision. Defined.

Definition ActionType_index (a : ActionType) : nat :=
  match a with
  | FOLLOW => 0 | UNFOLLOW => 1 | DM => 2 | LIKE => 3
  | COMMENT => 4 | VIEW_PROFILE => 5 | SCROLL => 6
  end%nat.

Definition ActionType_of_index (n : nat) : option ActionType :=
  match n with
  | 0 => Some FOLLOW | 1 => Some UNFOLLOW | 2 => Some DM | 3 => Some LIKE
  | 4 => Some COMMENT | 5 => Some VIEW_PROFILE | 6 => Some SCROLL
  | _ => None
  end%nat.

#[global] Instance ActionType_countable : Countable ActionType.
Proof.
  apply (inj_countable ActionType_index ActionType_of_index).
  intros []; reflexivity.
Defined.

Record RateLimitConfig := {
  action_type : ActionType;
  hourly_limit : Z;
  daily_limit : Z;
  min_interval_seconds : Z;
  max_interval_seconds : Z;
  new_account_multiplier : float;
  warming_account_multiplier : float
}.

Definition default_new_account_multiplier : float := float_literal 3 10.
Definition default_warming_account_multiplier : float := float_literal 6 10.

Definition mkRateLimitConfig (a : ActionType) (hourly daily min_s max_s : Z)
  : RateLimitConfig :=
  {| action_type := a; hourly_limit := hourly; daily_limit := daily;
     min_interval_seconds := min_s; max_interval_seconds := max_s;
     new_account_multiplier := default_new_account_multiplier;
     warming_account_multiplier := default_warming_account_multiplier |}.

Definition scaled_limit (base : Z) (multiplier : float) : result Z :=
  match int_mul_float base multiplier with
  | Ok x => py_int x
  | Raise e => Raise e
  end.

Definition get_limit_for_age (self : RateLimitConfig)
    (age_category : AccountAgeCategory) (period : string) : result Z :=
  let base := if (period =? "daily")%string then daily_limit self
              else hourly_limit self in
  match age_category with
  | NEW => scaled_limit base (new_account_multiplier self)
  | WARMING => scaled_limit base (warming_account_multiplier self)
  | MATURE => Ok base
  end.

Record ScheduledAction := {
  sa_id : string;
  sa_action_type : ActionType;
  sa_account_id : string;
  sa_target_id : string;
  sa_scheduled_at : datetime;
  sa_payload : PyDict.t py_value;
  sa_priority : Z;
  sa_retry_count : Z;
  sa_max_retries : Z;
  sa_executed_at : option datetime;
  sa_status : string;
  sa_error_message : option string
}.

Record AccountScheduleState := {
  account_id : string;
  age_category : AccountAgeCategory;
  timezone : string;
  hourly_actions : gmap ActionType Z;
  daily_actions : gmap ActionType Z;
  last_action_at : gmap ActionType datetime;
  hourly_reset_at : datetime;
  daily_reset_at : datetime;
  is_cooling : bool;
  cooling_until : option datetime;
  cooling_reason : option string
}.

Record SmartSchedulerService := {
  _account_states : gmap string AccountScheduleState;
  _action_queue : list ScheduledAction;
  _rate_limits : gmap string (gmap ActionType RateLimitConfig)
}.

Definition DEFAULT_LIMITS : gmap string (gmap ActionType RateLimitConfig) :=
  <["instagram" :=
      <[FOLLOW := mkRateLimitConfig FOLLOW 20 100 60 300]>
      (<[UNFOLLOW := mkRateLimitConfig UNFOLLOW 30 150 30 120]>
      (<[DM := mkRateLimitConfig DM 10 50 120 600]>
      (<[LIKE := mkRateLimitConfig LIKE 50 300 10 60]> ∅)))]>
  (<["x" :=
      <[FOLLOW := mkRateLimitConfig FOLLOW 30 200 30 180]>
      (<[DM := mkRateLimitConfig DM 20 100 60 300]>
      (<[LIKE := mkRateLimitConfig LIKE 100 500 5 30]> ∅))]> ∅).

(** [SmartSchedulerService()] *)
Definition init : SmartSchedulerService :=
  {| _account_states := ∅; _action_queue := []; _rate_limits := DEFAULT_LIMITS |}.

Definition with_account_state (self : SmartSchedulerService)
    (key : string) (state : AccountScheduleState) : SmartSchedulerService :=
  {| _account_states := <[key := state]> (_account_states self);
     _action_queue := _action_queue self;
     _rate_limits := _rate_limits self |}.

(** [(now - created_at).days]: whole days, rounded toward minus infinity. *)
Definition _calculate_age_category (now : datetime) (created_at : option datetime)
  : AccountAgeCategory :=
  match created_at with
  | None => MATURE
  | Some created =>
      let age_days := (now - created) / timedelta_days 1 in
      if age_days <? 7 then NEW
      else if age_days <? 30 then WARMING
      else MATURE
  end.

Definition register_account (self : SmartSchedulerService) (now : datetime)
    (account : string) (created_at : option datetime) (tz : string)
  : AccountScheduleState * SmartSchedulerService :=
  let state :=
    {| account_id := account;
       age_category := _calculate_age_category now created_at;
       timezone := tz;
       hourly_actions := ∅; daily_actions := ∅; last_action_at := ∅;
       hourly_reset_at := now; daily_reset_at := now;
       is_cooling := false; cooling_until := None; cooling_reason := None |} in
  (state, with_account_state self account state).

Definition get_account_state (self : SmartSchedulerService) (account : string)
  : option AccountScheduleState :=
  _account_states self !! account.

(** [now.replace(minute=0, second=0, microsecond=0)] and
    [now.replace(hour=0, minute=0, second=0, microsecond=0)]; the time line
    starts at a midnight. *)
Definition start_of_hour (now : datetime) : datetime :=
  now - now mod timedelta_hours 1.
Definition start_of_day (now : datetime) : datetime :=
  now - now mod timedelta_days 1.

Definition clear_cooling (state : AccountScheduleState) : AccountScheduleState :=
  {| account_id := account_id state; age_category := age_category state;
     timezone := timezone state;
     hourly_actions := hourly_actions state; daily_actions := daily_actions state;
     last_action_at := last_action_at state;
     hourly_reset_at := hourly_reset_at state;
     daily_reset_at := daily_reset_at state;
     is_cooling := false; cooling_until := None;
     cooling_reason := cooling_reason state |}.

Definition reset_hourly (state : AccountScheduleState) (now : datetime)
  : AccountScheduleState :=
  {| account_id := account_id state; age_category := age_category state;
     timezone := timezone state;
     hourly_actions := ∅; daily_actions := daily_actions state;
     last_action_at := last_action_at state;
     hourly_reset_at := start_of_hour now;
     daily_reset_at := daily_reset_at state;
     is_cooling := is_cooling state; cooling_until := cooling_until state;
     cooling_reason := cooling_reason state |}.

Definition reset_daily (state : AccountScheduleState) (now : datetime)
  : AccountScheduleState :=
  {| account_id := account_id state; age_category := age_category state;
     timezone := timezone state;
     hourly_actions := hourly_actions state; daily_actions := ∅;
     last_action_at := last_action_at state;
     hourly_reset_at := hourly_reset_at state;
     daily_reset_at := start_of_day now;
     is_cooling := is_cooling state; cooling_until := cooling_until state;
     cooling_reason := cooling_reason state |}.

Definition _reset_counters_if_needed (state : AccountScheduleState) (now : datetime)
  : AccountScheduleState :=
  (* Reset hourly *)
  let state := if hourly_reset_at state + timedelta_hours 1 <=? now
               then reset_hourly state now else state in
  (* Reset daily *)
  if daily_reset_at state + timedelta_days 1 <=? now
  then reset_daily state now else state.

Section Formatting.
(** [str(datetime)] and the format [{elapsed:.0f}] of a duration given in
    microseconds belong to the Python runtime; the messages are built from
    them. *)
Variable str_of_datetime : datetime -> string.
Variable format_seconds_0f : Z -> string.

(** The checks of [can_execute_action] once the account state is at hand
    and cooling has been dealt with. *)
Definition check_limits (state : AccountScheduleState) (now : datetime)
    (action : ActionType) (config : RateLimitConfig)
  : result (bool * option string) * AccountScheduleState :=
  (* Reset counters if needed *)
  let state := _reset_counters_if_needed state now in
  (* Check hourly limit *)
  let hourly_count := default 0 (hourly_actions state !! action) in
  match get_limit_for_age config (age_category state) "hourly" with
  | Raise e => (Raise e, state)
  | Ok hourly_limit =>
      if hourly_limit <=? hourly_count
      then (Ok (false, Some ("Hourly limit reached (" +:+ pretty hourly_count
                               +:+ "/" +:+ pretty hourly_limit +:+ ")")), state)
      else
        (* Check daily limit *)
        let daily_count := default 0 (daily_actions state !! action) in
        match get_limit_for_age config (age_category state) "daily" with
        | Raise e => (Raise e, state)
        | Ok daily_limit =>
            if daily_limit <=? daily_count
            then (Ok (false, Some ("Daily limit reached (" +:+ pretty daily_count
                                     +:+ "/" +:+ pretty daily_limit +:+ ")")), state)
            else
              (* Check minimum interval *)
              match last_action_at state !! action with
              | Some last_action =>
                  let elapsed := now - last_action in
                  if elapsed <? timedelta_seconds (min_interval_seconds config)
                  then (Ok (false, Some ("Min interval not met ("
                                           +:+ format_seconds_0f elapsed +:+ "s < "
                                           +:+ pretty (min_interval_seconds config)
                                           +:+ "s)")), state)
                  else (Ok (true, None), state)
              | None => (Ok (true, None), state)
              end
        end
  end.

Definition can_execute_action (self : SmartSchedulerService) (now : datetime)
    (account : string) (action : ActionType) (platform : string)
  : result (bool * option string) * SmartSchedulerService :=
  match _account_states self !! account with
  | None => (Ok (false, Some "Account not registered"), self)
  | Some state =>
      (* Check cooling status *)
      let blocked :=
        if is_cooling state
        then match cooling_until state with
             | Some until => if now <? until then Some until else None
             | None => None
             end
        else None in
      match blocked with
      | Some until =>
          (Ok (false, Some ("Account cooling until " +:+ str_of_datetime until)), self)
      | None =>
          let state := if is_cooling state then clear_cooling state else state in
          (* Get rate limit config *)
          let limits := default ∅ (_rate_limits self !! platform) in
          match limits !! action with
          | None => (Ok (true, None), with_account_state self account state)
          | Some config =>
              let (r, state) := check_limits state now action config in
              (r, with_account_state self account state)
          end
      end
  end.

End Formatting.

Definition record_action (self : SmartSchedulerService) (now : datetime)
    (account : string) (action : ActionType) (success : bool)
  : SmartSchedulerService :=
  match _account_states self !! account with
  | None => self
  | Some state =>
      let bump (counters : gmap ActionType Z) :=
        <[action := default 0 (counters !! action) + 1]> counters in
      with_account_state self account
        {| account_id := account_id state; age_category := age_category state;
           timezone := timezone state;
           hourly_actions := if success then bump (hourly_actions state)
                             else hourly_actions state;
           daily_actions := if success then bump (daily_actions state)
                            else daily_actions state;
           last_action_at := <[action := now]> (last_action_at state);
           hourly_reset_at := hourly_reset_at state;
           daily_reset_at := daily_reset_at state;
           is_cooling := is_cooling state; cooling_until := cooling_until state;
           cooling_reason := cooling_reason state |}
  end.

Definition set_account_cooling (self : SmartSchedulerService) (now : datetime)
    (account : string) (duration_minutes : Z) (reason : option string)
  : SmartSchedulerService :=
  match _account_states self !! account with
  | None => self
  | Some state =>
      with_account_state self account
        {| account_id := account_id state; age_category := age_category state;
           timezone := timezone state;
           hourly_actions := hourly_actions state;
           daily_actions := daily_actions state;
           last_action_at := last_action_at state;
           hourly_reset_at := hourly_reset_at state;
           daily_reset_at := daily_reset_at state;
           is_cooling := true;
           cooling_until := Some (now + timedelta_minutes duration_minutes);
           cooling_reason := reason |}
  end.

(** [AccountScheduleState.get_next_available_time] *)
Definition get_next_available_time (self : AccountScheduleState) (now : datetime)
    (action : ActionType) (config : RateLimitConfig) : datetime :=
  (* Check if account is cooling *)
  let cooling :=
    if is_cooling self
    then match cooling_until self with
         | Some until => if now <? until then Some until else None
         | None => None
         end
    else None in
  match cooling with
  | Some until => until
  | None =>
      (* Check last action time for interval *)
      match last_action_at self !! action with
      | Some last_action =>
          let min_next := last_action + timedelta_seconds (min_interval_seconds config) in
          if now <? min_next then min_next else now
      | None => now
      end
  end.

(** [random.randint(a, b)] on the draw [r] when the range is not empty. *)
Definition randint_in_range (r : nat) (a b : Z) : Z :=
  a + Z.of_nat r mod (b - a + 1).

(** [random.randint(a, b)]: an empty range raises (the message is the one
    of CPython 3.12). *)
Definition randint (r : nat) (a b : Z) : result Z :=
  if b <? a
  then Raise (ValueError ("empty range in randrange(" +:+ pretty a +:+ ", "
                            +:+ pretty (b + 1) +:+ ")"))
  else Ok (randint_in_range r a b).

(** [RateLimitConfig.get_random_interval] *)
Definition get_random_interval (self : RateLimitConfig) (r : nat) : result Z :=
  randint r (min_interval_seconds self) (max_interval_seconds self).

Definition get_recommended_delay (self : SmartSchedulerService) (r : nat)
    (action : ActionType) (platform : string) : result Z :=
  let limits := default ∅ (_rate_limits self !! platform) in
  match limits !! action with
  | Some config => get_random_interval config r
  | None => randint r 30 120
  end.

(** The key [(-a.priority, a.scheduled_at)] of the queue and the order of
    two keys. *)
Definition queue_key (a : ScheduledAction) : Z * Z :=
  (- sa_priority a, sa_scheduled_at a).

Definition queue_key_lt (x y : Z * Z) : bool :=
  if fst x =? fst y then snd x <? snd y else fst x <? fst y.

(** [list.sort(key=...)], stable. *)
Fixpoint queue_insert (x : ScheduledAction) (l : list ScheduledAction)
  : list ScheduledAction :=
  match l with
  | [] => [x]
  | y :: l' =>
      if queue_key_lt (queue_key y) (queue_key x) then y :: queue_insert x l'
      else x :: y :: l'
  end.

Fixpoint queue_sort (l : list ScheduledAction) : list ScheduledAction :=
  match l with
  | [] => []
  | x :: l' => queue_insert x (queue_sort l')
  end.

Definition schedule_action (self : SmartSchedulerService) (now : datetime)
    (action_id : string) (action : ActionType) (account target_id : string)
    (payload : option (PyDict.t py_value)) (scheduled_at : option datetime)
    (priority : Z) : ScheduledAction * SmartSchedulerService :=
  let new_action :=
    {| sa_id := action_id; sa_action_type := action; sa_account_id := account;
       sa_target_id := target_id;
       sa_scheduled_at := default now scheduled_at;
       sa_payload := default [] payload;
       sa_priority := priority; sa_retry_count := 0; sa_max_retries := 3;
       sa_executed_at := None; sa_status := "pending";
       sa_error_message := None |} in
  (new_action,
   {| _account_states := _account_states self;
      (* Sort by priority (desc) and scheduled time (asc) *)
      _action_queue := queue_sort (_action_queue self ++ [new_action])%list;
      _rate_limits := _rate_limits self |}).

Definition is_pending (now : datetime) (a : ScheduledAction) : bool :=
  (sa_status a =? "pending")%string && (sa_scheduled_at a <=? now).

Definition get_pending_actions (self : SmartSchedulerService) (now : datetime)
    (account_filter : option string) (action_filter : option ActionType)
    (limit : Z) : list ScheduledAction :=
  let actions := List.filter (is_pending now) (_action_queue self) in
  let actions :=
    match account_filter with
    | Some account =>
        if truthy_str (Some account)
        then List.filter (fun a => (sa_account_id a =? account)%string) actions
        else actions
    | None => actions
    end in
  let actions :=
    match action_filter with
    | Some action =>
        List.filter (fun a => bool_decide (sa_action_type a = action)) actions
    | None => actions
    end in
  slice_to actions limit.

(** [add_humanization_actions].  [r_scroll] and [r_view] are the draws of
    [random.randint(5, 15)] and [random.randint(2, 8)]; [view_profile] tells
    whether [random.random() < 0.7] came out true. *)
Definition add_humanization_actions (account : string) (main_action : ScheduledAction)
    (r_scroll : nat) (view_profile : bool) (r_view : nat) : list ScheduledAction :=
  let base_time := sa_scheduled_at main_action in
  let humanize (suffix : string) (action : ActionType) (seconds : Z) :=
    {| sa_id := sa_id main_action +:+ suffix; sa_action_type := action;
       sa_account_id := account; sa_target_id := sa_target_id main_action;
       sa_scheduled_at := base_time - timedelta_seconds seconds;
       sa_payload := [];
       sa_priority := sa_priority main_action - 1;
       sa_retry_count := 0; sa_max_retries := 3;
       sa_executed_at := None; sa_status := "pending";
       sa_error_message := None |} in
  (* Add scroll/view actions before main action *)
  let scroll_action := humanize "_pre_scroll" SCROLL (randint_in_range r_scroll 5 15) in
  (* Maybe add a view_profile action *)
  if view_profile
  then [scroll_action; humanize "_pre_view" VIEW_PROFILE (randint_in_range r_view 2 8)]
  else [scroll_action].

End Scheduler.

(** * automation_executor_service.py: the executor's use of the scheduler *)

Module AutomationExecutor.
Import Scheduler.

Inductive ActionResult :=
  SUCCESS | FAILED | SKIPPED | RATE_LIMITED | TARGET_NOT_FOUND
| ALREADY_FOLLOWING | PRIVATE_ACCOUNT.

(** [_perform_follow_action] and [_perform_dm_action] are placeholders that
    report success. *)
Definition _perform_follow_action : result bool := Ok true.
Definition _perform_dm_action : result bool := Ok true.

Section Formatting.
Variable str_of_datetime : datetime -> string.
Variable format_seconds_0f : Z -> string.

(** What [execute_follow] and [execute_dm] have in common, for an executor
    with a scheduler service: the result of the [ActionLog] and the
    scheduler afterwards.  The scheduler reads the clock at [check_at] in
    [can_execute_action] and at [record_at] in [record_action];
    [performed] is the outcome of the humanization pauses and of the
    driver, [Ok success] or an exception, which the [except] clause turns
    into a failed log as it does for one raised by the check. *)
Definition execute_limited (scheduler : SmartSchedulerService)
    (check_at record_at : datetime) (account platform : string)
    (action : ActionType) (performed : result bool)
  : ActionResult * SmartSchedulerService :=
  (* Check rate limits *)
  let (answer, scheduler) :=
    can_execute_action str_of_datetime format_seconds_0f scheduler check_at
      account action platform in
  match answer with
  | Raise _ => (FAILED, scheduler)
  | Ok (false, _) => (RATE_LIMITED, scheduler)
  | Ok (true, _) =>
      match performed with
      | Ok true =>
          (* Record successful action *)
          (SUCCESS, record_action scheduler record_at account action true)
      | Ok false => (FAILED, scheduler)
      | Raise _ => (FAILED, scheduler)
      end
  end.

Definition execute_follow (scheduler : SmartSchedulerService)
    (check_at record_at : datetime) (account platform : string)
    (performed : result bool) : ActionResult * SmartSchedulerService :=
  execute_limited scheduler check_at record_at account platform FOLLOW performed.

Definition execute_dm (scheduler : SmartSchedulerService)
    (check_at record_at : datetime) (account platform : string)
    (performed : result bool) : ActionResult * SmartSchedulerService :=
  execute_limited scheduler check_at record_at account platform DM performed.

End Formatting.

End AutomationExecutor.

(** ** proxy_pool_service.py *)

Module ProxyPool.

Inductive ProxyType : Type := HTTP | HTTPS | SOCKS5.
Inductive ProxyStatus : Type := ACTIVE | SLOW | FAILED | BANNED | COOLING.
Inductive ProxyQuality : Type := RESIDENTIAL | DATACENTER | MOBILE.

Definition status_eqb (a b : ProxyStatus) : bool :=
  match a, b with
  | ACTIVE, ACTIVE | SLOW, SLOW | FAILED, FAILED
  | BANNED, BANNED | COOLING, COOLING => true
  | _, _ => false
  end.

Definition quality_eqb (a b : ProxyQuality) : bool :=
  match a, b with
  | RESIDENTIAL, RESIDENTIAL | DATACENTER, DATACENTER | MOBILE, MOBILE => true
  | _, _ => false
  end.

Record ProxyConfig := {
  id : string;
  host : string;
  port : Z;
  username : option string;
  password : option string;
  proxy_type : ProxyType;
  quality : ProxyQuality;
  country : option string;
  city : option string;
  isp : option string;
  status : ProxyStatus;
  avg_response_time_ms : float;
  success_rate : float;
  total_requests : Z;
  failed_requests : Z;
  last_used_at : option datetime;
  last_check_at : option datetime;
  cooling_until : option datetime;
  assigned_to_account_id : option string
}.

Definition with_status (p : ProxyConfig) (st : ProxyStatus) : ProxyConfig :=
  {| id := id p; host := host p; port := port p; username := username p;
     password := password p; proxy_type := proxy_type p; quality := quality p;
     country := country p; city := city p; isp := isp p;
     status := st;
     avg_response_time_ms := avg_response_time_ms p;
     success_rate := success_rate p; total_requests := total_requests p;
     failed_requests := failed_requests p; last_used_at := last_used_at p;
     last_check_at := last_check_at p; cooling_until := cooling_until p;
     assigned_to_account_id := assigned_to_account_id p |}.

Definition with_assigned (p : ProxyConfig) (a : option string) : ProxyConfig :=
  {| id := id p; host := host p; port := port p; username := username p;
     password := password p; proxy_type := proxy_type p; quality := quality p;
     country := country p; city := city p; isp := isp p;
     status := status p;
     avg_response_time_ms := avg_response_time_ms p;
     success_rate := success_rate p; total_requests := total_requests p;
     failed_requests := failed_requests p; last_used_at := last_used_at p;
     last_check_at := last_check_at p; cooling_until := cooling_until p;
     assigned_to_account_id := a |}.

Record ProxyPoolService := {
  _proxies : PyDict.t ProxyConfig;
  _account_proxy_map : gmap string string;
  _check_url : string;
  _check_timeout : float;
  _cooling_duration : Z;
  _max_consecutive_failures : Z
}.

(** [ProxyPoolService()] *)
Definition init : ProxyPoolService :=
  {| _proxies := []; _account_proxy_map := ∅;
     _check_url := "https://httpbin.org/ip";
     _check_timeout := float_literal 10 1;
     _cooling_duration := timedelta_minutes 30;
     _max_consecutive_failures := 3 |}.

Definition with_proxies (self : ProxyPoolService) (d : PyDict.t ProxyConfig)
  : ProxyPoolService :=
  {| _proxies := d; _account_proxy_map := _account_proxy_map self;
     _check_url := _check_url self; _check_timeout := _check_timeout self;
     _cooling_duration := _cooling_duration self;
     _max_consecutive_failures := _max_consecutive_failures self |}.

Definition with_account_proxy_map (self : ProxyPoolService) (m : gmap string string)
  : ProxyPoolService :=
  {| _proxies := _proxies self; _account_proxy_map := m;
     _check_url := _check_url self; _check_timeout := _check_timeout self;
     _cooling_duration := _cooling_duration self;
     _max_consecutive_failures := _max_consecutive_failures self |}.

Definition add_proxy (self : ProxyPoolService) (proxy : ProxyConfig) : ProxyPoolService :=
  with_proxies self (PyDict.set (_proxies self) (id proxy) proxy).

Definition remove_proxy (self : ProxyPoolService) (proxy_id : string)
  : bool * ProxyPoolService :=
  if PyDict.contains (_proxies self) proxy_id
  then
    let self := with_proxies self (PyDict.del (_proxies self) proxy_id) in
    (* Remove any account assignments *)
    (true, with_account_proxy_map self
             (filter (fun kv => snd kv <> proxy_id) (_account_proxy_map self)))
  else (false, self).

Definition get_proxy (self : ProxyPoolService) (proxy_id : string) : option ProxyConfig :=
  PyDict.get (_proxies self) proxy_id.

(** One turn of the loop of [get_available_proxies]: the proxy as the turn
    leaves it, and whether it was appended to [available]. *)
Definition visit_proxy (now : datetime) (country_filter : option string)
    (quality_filter : option ProxyQuality) (exclude_assigned : bool)
    (proxy : ProxyConfig) : ProxyConfig * bool :=
  (* Skip non-active proxies *)
  match status proxy with
  | BANNED => (proxy, false)
  | st =>
      let still_cooling :=
        match st, cooling_until proxy with
        | COOLING, Some until => now <? until
        | _, _ => false
        end in
      if still_cooling then (proxy, false)
      else
        (* Cooling period ended, reset status *)
        let proxy := if status_eqb st COOLING then with_status proxy ACTIVE
                     else proxy in
        (* Apply filters *)
        let country_mismatch :=
          match country_filter with
          | Some c => truthy_str (Some c)
                      && negb (bool_decide (country proxy = Some c))
          | None => false
          end in
        let quality_mismatch :=
          match quality_filter with
          | Some q => negb (quality_eqb (quality proxy) q)
          | None => false
          end in
        if country_mismatch then (proxy, false)
        else if quality_mismatch then (proxy, false)
        else if exclude_assigned && truthy_str (assigned_to_account_id proxy)
        then (proxy, false)
        else (proxy, true)
  end.

Definition get_available_proxies (self : ProxyPoolService) (now : datetime)
    (country_filter : option string) (quality_filter : option ProxyQuality)
    (exclude_assigned : bool) : list ProxyConfig * ProxyPoolService :=
  let visited :=
    map (fun kv => (fst kv,
                    visit_proxy now country_filter quality_filter
                      exclude_assigned (snd kv)))
        (_proxies self) in
  (map (fun kv => fst (snd kv)) (List.filter (fun kv => snd (snd kv)) visited),
   with_proxies self (map (fun kv => (fst kv, fst (snd kv))) visited)).

(** The sort key [(-p.success_rate, p.avg_response_time_ms)] and the order
    of two such tuples: the first components that differ decide. *)
Definition sort_key (p : ProxyConfig) : float * float :=
  (SFopp (success_rate p), avg_response_time_ms p).

Definition key_lt (a b : float * float) : bool :=
  if SFeqb (fst a) (fst b)
  then if SFeqb (snd a) (snd b) then false else SFltb (snd a) (snd b)
  else SFltb (fst a) (fst b).

(** [list.sort(key=...)] is stable: an element stays ahead of the later
    elements that are not smaller. *)
Fixpoint sort_insert (x : ProxyConfig) (l : list ProxyConfig) : list ProxyConfig :=
  match l with
  | [] => [x]
  | y :: l' =>
      if key_lt (sort_key y) (sort_key x) then y :: sort_insert x l'
      else x :: y :: l'
  end.

Fixpoint sort_by_key (l : list ProxyConfig) : list ProxyConfig :=
  match l with
  | [] => []
  | x :: l' => sort_insert x (sort_by_key l')
  end.

Definition get_best_proxy (self : ProxyPoolService) (now : datetime)
    (country_filter : option string) (quality_filter : option ProxyQuality)
  : result ProxyConfig * ProxyPoolService :=
  let (available, self) :=
    get_available_proxies self now country_filter quality_filter false in
  match sort_by_key available with
  | [] => (Raise (NoAvailableProxyError "No available proxies in pool"), self)
  | best :: _ => (Ok best, self)
  end.

Definition get_random_proxy (self : ProxyPoolService) (now : datetime) (r : nat)
    (country_filter : option string) (quality_filter : option ProxyQuality)
  : result ProxyConfig * ProxyPoolService :=
  let (available, self) :=
    get_available_proxies self now country_filter quality_filter false in
  match nth_error available (r mod List.length available) with
  | None => (Raise (NoAvailableProxyError "No available proxies in pool"), self)
  | Some p => (Ok p, self)
  end.

(** [assign_proxy_to_account].  When neither the sticky branch nor the
    explicit [proxy_id] applies, the source calls
    [self.get_best_proxy(country=country, exclude_assigned=True)];
    [get_best_proxy] declares no parameter [exclude_assigned], so Python
    raises [TypeError] at the call and the body of [get_best_proxy] never
    runs. *)
Definition assign_proxy_to_account (self : ProxyPoolService) (now : datetime)
    (account : string) (proxy_id : option string) (country_filter : option string)
  : result ProxyConfig * ProxyPoolService :=
  (* Check if account already has an assigned proxy *)
  let sticky :=
    match _account_proxy_map self !! account with
    | Some existing_proxy_id => PyDict.get (_proxies self) existing_proxy_id
    | None => None
    end in
  match sticky with
  | Some proxy => (Ok proxy, self)
  | None =>
      (* Assign specified proxy or get best available *)
      let specified :=
        match proxy_id with
        | Some pid =>
            if truthy_str (Some pid)
            then match PyDict.get (_proxies self) pid with
                 | Some proxy => Some (pid, proxy)
                 | None => None
                 end
            else None
        | None => None
        end in
      match specified with
      | Some (key, proxy) =>
          let proxy := with_assigned proxy (Some account) in
          let self := with_proxies self (PyDict.set (_proxies self) key proxy) in
          let self := with_account_proxy_map self
                        (<[account := id proxy]> (_account_proxy_map self)) in
          (Ok proxy, self)
      | None =>
          (Raise (TypeError
                    "get_best_proxy() got an unexpected keyword argument 'exclude_assigned'"),
           self)
      end
  end.

Definition get_account_proxy (self : ProxyPoolService) (account : string)
  : option ProxyConfig :=
  match _account_proxy_map self !! account with
  | Some proxy_id =>
      if truthy_str (Some proxy_id) then PyDict.get (_proxies self) proxy_id
      else None
  | None => None
  end.

Definition release_account_proxy (self : ProxyPoolService) (account : string)
  : bool * ProxyPoolService :=
  match _account_proxy_map self !! account with
  | Some proxy_id =>
      let self := with_account_proxy_map self
                    (delete account (_account_proxy_map self)) in
      let self :=
        match PyDict.get (_proxies self) proxy_id with
        | Some proxy =>
            with_proxies self
              (PyDict.set (_proxies self) proxy_id (with_assigned proxy None))
        | None => self
        end in
      (true, self)
  | None => (false, self)
  end.

Definition rotate_account_proxy (self : ProxyPoolService) (now : datetime)
    (account : string) (country_filter : option string)
  : result ProxyConfig * ProxyPoolService :=
  (* Release current assignment *)
  let (_, self) := release_account_proxy self account in
  assign_proxy_to_account self now account None country_filter.

Definition mark_proxy_banned (self : ProxyPoolService) (proxy_id : string)
  : bool * ProxyPoolService :=
  match get_proxy self proxy_id with
  | Some proxy =>
      (true, with_proxies self
               (PyDict.set (_proxies self) proxy_id (with_status proxy BANNED)))
  | None => (false, self)
  end.

(** *** Health checks *)

Record HealthCheckResult := {
  hc_proxy_id : string;
  hc_is_healthy : bool;
  hc_response_time_ms : float;
  hc_external_ip : option string;
  hc_country_detected : option string;
  hc_error_message : option string;
  hc_checked_at : datetime
}.

(** The exceptions of a health check: the division operators raise
    [ZeroDivisionError], which [exn] does not list. *)
Inductive check_exn : Type :=
| ZeroDivisionError (msg : string)
| Raised (e : exn).

(** [str(e)] *)
Definition check_exn_str (e : check_exn) : string :=
  match e with
  | ZeroDivisionError msg => msg
  | Raised e => exn_str e
  end.

Inductive outcome (A : Type) : Type :=
| Returned (a : A)
| Escaped (e : check_exn).
Arguments Returned {A} a.
Arguments Escaped {A} e.

(** An [int] as the operand of a true division: the integer itself, not
    yet rounded. *)
Definition exact_float (n : Z) : float :=
  match n with
  | 0 => S754_zero false
  | Z.pos p => S754_finite false p 0
  | Z.neg p => S754_finite true p 0
  end.

(** [a / b] for two [int]s: the double nearest to the quotient. *)
Definition int_true_div (a b : Z) : outcome float :=
  if b =? 0 then Escaped (ZeroDivisionError "division by zero")
  else match SFdiv float_prec float_emax (exact_float a) (exact_float b) with
       | S754_infinity _ =>
           Escaped (Raised (OverflowError
                              "integer division result too large for a float"))
       | x => Returned x
       end.

(** [x * n] and [x / n] for a [float] [x] and an [int] [n]: [n] is
    converted first. *)
Definition float_mul_int (x : float) (n : Z) : outcome float :=
  match float_of_int n with
  | Ok fn => Returned (SFmul float_prec float_emax x fn)
  | Raise e => Escaped (Raised e)
  end.

Definition float_div_int (x : float) (n : Z) : outcome float :=
  match float_of_int n with
  | Ok (S754_zero _) => Escaped (ZeroDivisionError "float division by zero")
  | Ok fn => Returned (SFdiv float_prec float_emax x fn)
  | Raise e => Escaped (Raised e)
  end.

(** [1 - a / b] for two [int]s. *)
Definition one_minus_ratio (a b : Z) : outcome float :=
  match int_true_div a b with
  | Returned q =>
      Returned (SFsub float_prec float_emax
                  (binary_normalize float_prec float_emax 1 0 false) q)
  | Escaped e => Escaped e
  end.

(** [(finish - start_time).total_seconds() * 1000] *)
Definition elapsed_ms (start_time finish : datetime) : outcome float :=
  match int_true_div (finish - start_time) microseconds_per_second with
  | Returned seconds =>
      Returned (SFmul float_prec float_emax seconds
                  (binary_normalize float_prec float_emax 1000 0 false))
  | Escaped e => Escaped e
  end.

(** The fields a health check writes. *)
Definition with_metrics (p : ProxyConfig) (st : ProxyStatus) (avg rate : float)
    (total failed : Z) (checked : option datetime) (cooling : option datetime)
  : ProxyConfig :=
  {| id := id p; host := host p; port := port p; username := username p;
     password := password p; proxy_type := proxy_type p; quality := quality p;
     country := country p; city := city p; isp := isp p;
     status := st;
     avg_response_time_ms := avg;
     success_rate := rate; total_requests := total;
     failed_requests := failed; last_used_at := last_used_at p;
     last_check_at := checked; cooling_until := cooling;
     assigned_to_account_id := assigned_to_account_id p |}.

Definition store_proxy (self : ProxyPoolService) (proxy_id : string)
    (proxy : ProxyConfig) : ProxyPoolService :=
  with_proxies self (PyDict.set (_proxies self) proxy_id proxy).

(** The [except] clause of [check_proxy_health], entered with the proxy as
    the [try] block left it and with the exception [e]. *)
Definition check_failed (self : ProxyPoolService) (proxy_id : string)
    (proxy : ProxyConfig) (start_time finish : datetime) (e : check_exn)
  : outcome HealthCheckResult * ProxyPoolService :=
  match elapsed_ms start_time finish with
  | Escaped e' => (Escaped e', store_proxy self proxy_id proxy)
  | Returned elapsed =>
      let total := total_requests proxy + 1 in
      let failed := failed_requests proxy + 1 in
      let proxy :=
        with_metrics proxy (status proxy) (avg_response_time_ms proxy)
          (success_rate proxy) total failed (last_check_at proxy)
          (cooling_until proxy) in
      match one_minus_ratio failed total with
      | Escaped e' => (Escaped e', store_proxy self proxy_id proxy)
      | Returned rate =>
          (* Check if should mark as failed/cooling *)
          let cools := _max_consecutive_failures self <=? failed in
          let proxy :=
            with_metrics proxy
              (if cools then COOLING else status proxy)
              (avg_response_time_ms proxy) rate total failed (Some finish)
              (if cools then Some (finish + _cooling_duration self)
               else cooling_until proxy) in
          (Returned {| hc_proxy_id := proxy_id; hc_is_healthy := false;
                       hc_response_time_ms := elapsed;
                       hc_external_ip := None; hc_country_detected := None;
                       hc_error_message := Some (check_exn_str e);
                       hc_checked_at := finish |},
           store_proxy self proxy_id proxy)
      end
  end.

(** [check_proxy_health].  The clock reads [start_time] before the request
    and [finish] after it.  [probe] is what the request through the proxy
    comes to: [Ok origin] with the text of [data.get("origin", "")] when
    the request, the status check and the decoding succeed, an exception
    otherwise. *)
Definition check_proxy_health (self : ProxyPoolService) (proxy_id : string)
    (start_time finish : datetime) (probe : result string)
  : outcome HealthCheckResult * ProxyPoolService :=
  match get_proxy self proxy_id with
  | None =>
      (Returned {| hc_proxy_id := proxy_id; hc_is_healthy := false;
                   hc_response_time_ms := S754_zero false;
                   hc_external_ip := None; hc_country_detected := None;
                   hc_error_message := Some "Proxy not found";
                   hc_checked_at := finish |}, self)
  | Some proxy =>
      match probe with
      | Raise e => check_failed self proxy_id proxy start_time finish (Raised e)
      | Ok origin =>
          match elapsed_ms start_time finish with
          | Escaped e => check_failed self proxy_id proxy start_time finish e
          | Returned elapsed =>
              let external_ip := str_strip (List.hd "" (str_split "," origin)) in
              (* Update proxy metrics *)
              let total := total_requests proxy + 1 in
              let proxy :=
                with_metrics proxy (status proxy) (avg_response_time_ms proxy)
                  (success_rate proxy) total (failed_requests proxy)
                  (last_check_at proxy) (cooling_until proxy) in
              let average :=
                match float_mul_int (avg_response_time_ms proxy) (total - 1) with
                | Returned weighted =>
                    float_div_int (SFadd float_prec float_emax weighted elapsed)
                      total
                | Escaped e => Escaped e
                end in
              match average with
              | Escaped e => check_failed self proxy_id proxy start_time finish e
              | Returned avg =>
                  let proxy :=
                    with_metrics proxy (status proxy) avg (success_rate proxy)
                      total (failed_requests proxy) (last_check_at proxy)
                      (cooling_until proxy) in
                  match one_minus_ratio (failed_requests proxy) total with
                  | Escaped e =>
                      check_failed self proxy_id proxy start_time finish e
                  | Returned rate =>
                      let fast :=
                        SFltb elapsed
                          (binary_normalize float_prec float_emax 5000 0 false) in
                      let proxy :=
                        with_metrics proxy (if fast then ACTIVE else SLOW) avg rate
                          total (failed_requests proxy) (Some finish)
                          (cooling_until proxy) in
                      (Returned {| hc_proxy_id := proxy_id; hc_is_healthy := true;
                                   hc_response_time_ms := elapsed;
                                   hc_external_ip := Some external_ip;
                                   hc_country_detected := None;
                                   hc_error_message := None;
                                   hc_checked_at := finish |},
                       store_proxy self proxy_id proxy)
                  end
              end
          end
      end
  end.

(** *** Statistics *)

Record PoolStats := {
  stats_total : Z;
  stats_active : Z;
  stats_slow : Z;
  stats_cooling : Z;
  stats_banned : Z;
  stats_failed : Z;
  stats_assigned : Z;
  stats_available : Z;
  stats_by_quality : PyDict.t Z
}.

(** The counters of the loop of [get_pool_stats]: [by_status] and
    [by_quality], both zero to begin with, and [assigned]. *)
Record PoolCounters := {
  by_status : ProxyStatus -> Z;
  by_quality : ProxyQuality -> Z;
  assigned : Z
}.

Definition count_proxy (counters : PoolCounters) (proxy : ProxyConfig)
  : PoolCounters :=
  {| by_status := fun st =>
       if status_eqb st (status proxy) then by_status counters st + 1
       else by_status counters st;
     by_quality := fun q =>
       if quality_eqb q (quality proxy) then by_quality counters q + 1
       else by_quality counters q;
     assigned :=
       if truthy_str (assigned_to_account_id proxy) then assigned counters + 1
       else assigned counters |}.

Definition get_pool_stats (self : ProxyPoolService) : PoolStats :=
  let total := Z.of_nat (List.length (_proxies self)) in
  let counters :=
    fold_left count_proxy (PyDict.values (_proxies self))
      {| by_status := fun _ => 0; by_quality := fun _ => 0; assigned := 0 |} in
  {| stats_total := total;
     stats_active := by_status counters ACTIVE;
     stats_slow := by_status counters SLOW;
     stats_cooling := by_status counters COOLING;
     stats_banned := by_status counters BANNED;
     stats_failed := by_status counters FAILED;
     stats_assigned := assigned counters;
     stats_available := total - assigned counters - by_status counters BANNED;
     stats_by_quality :=
       [("residential", by_quality counters RESIDENTIAL);
        ("datacenter", by_quality counters DATACENTER);
        ("mobile", by_quality counters MOBILE)] |}.

End ProxyPool.

(** ** follow_back_detector_service.py *)

Module FollowBack.

Inductive FollowStatus : Type :=
| NOT_FOLLOWING | FOLLOWING | MUTUAL | PENDING | BLOCKED.

Definition status_eqb (a b : FollowStatus) : bool :=
  match a, b with
  | NOT_FOLLOWING, NOT_FOLLOWING | FOLLOWING, FOLLOWING | MUTUAL, MUTUAL
  | PENDING, PENDING | BLOCKED, BLOCKED => true
  | _, _ => false
  end.

Record FollowRelationship := {
  id : string;
  sub_account_id : string;
  target_user_id : string;
  target_username : string;
  status : FollowStatus;
  followed_at : option datetime;
  follow_back_at : option datetime;
  unfollow_at : option datetime;
  timeout_at : option datetime;
  check_count : Z;
  last_checked_at : option datetime;
  is_private_account : bool;
  metadata : gmap string py_value
}.

Record DetectionResult := {
  relationship_id : string;
  previous_status : FollowStatus;
  current_status : FollowStatus;
  changed : bool;
  checked_at : datetime;
  should_unfollow : bool;
  should_dm : bool;
  error_message : option string
}.

Record FollowBackDetectorService := {
  has_automation_executor : bool;
  _relationships : PyDict.t FollowRelationship;
  _timeout_days : Z
}.

Definition DEFAULT_TIMEOUT_DAYS : Z := 7.
Definition MIN_CHECK_INTERVAL_HOURS : Z := 1.

(** [FollowBackDetectorService(automation_executor)] *)
Definition init (executor : bool) : FollowBackDetectorService :=
  {| has_automation_executor := executor; _relationships := [];
     _timeout_days := DEFAULT_TIMEOUT_DAYS |}.

Definition with_relationships (self : FollowBackDetectorService)
    (d : PyDict.t FollowRelationship) : FollowBackDetectorService :=
  {| has_automation_executor := has_automation_executor self;
     _relationships := d; _timeout_days := _timeout_days self |}.

Definition set_timeout_days (self : FollowBackDetectorService) (days : Z)
  : FollowBackDetectorService :=
  {| has_automation_executor := has_automation_executor self;
     _relationships := _relationships self; _timeout_days := days |}.

Definition make_relationship_id (sub target : string) : string :=
  sub +:+ "_" +:+ target.

Definition register_follow (self : FollowBackDetectorService) (now : datetime)
    (sub target_id target_name : string) (is_private : bool)
  : FollowRelationship * FollowBackDetectorService :=
  let rid := make_relationship_id sub target_id in
  let rel :=
    match PyDict.get (_relationships self) rid with
    | Some rel =>
        (* Update existing relationship *)
        {| id := id rel; sub_account_id := sub_account_id rel;
           target_user_id := target_user_id rel;
           target_username := target_username rel;
           status := if is_private then PENDING else FOLLOWING;
           followed_at := Some now;
           follow_back_at := follow_back_at rel;
           unfollow_at := unfollow_at rel;
           timeout_at := Some (now + timedelta_days (_timeout_days self));
           check_count := check_count rel;
           last_checked_at := last_checked_at rel;
           is_private_account := is_private_account rel;
           metadata := metadata rel |}
    | None =>
        {| id := rid; sub_account_id := sub; target_user_id := target_id;
           target_username := target_name;
           status := if is_private then PENDING else FOLLOWING;
           followed_at := Some now;
           follow_back_at := None; unfollow_at := None;
           timeout_at := Some (now + timedelta_days (_timeout_days self));
           check_count := 0; last_checked_at := None;
           is_private_account := is_private;
           metadata := ∅ |}
    end in
  (rel, with_relationships self (PyDict.set (_relationships self) rid rel)).

Definition get_relationship (self : FollowBackDetectorService) (sub target_id : string)
  : option FollowRelationship :=
  PyDict.get (_relationships self) (make_relationship_id sub target_id).

Definition account_mismatch (account_filter : option string) (rel : FollowRelationship)
  : bool :=
  match account_filter with
  | Some a => truthy_str (Some a) && negb (sub_account_id rel =? a)%string
  | None => false
  end.

Definition get_pending_relationships (self : FollowBackDetectorService)
    (now : datetime) (account_filter : option string) : list FollowRelationship :=
  List.filter
    (fun rel =>
       (* Skip if already mutual or unfollowed *)
       negb (status_eqb (status rel) MUTUAL || status_eqb (status rel) NOT_FOLLOWING)
       (* Filter by account if specified *)
       && negb (account_mismatch account_filter rel)
       (* Check if enough time has passed since last check *)
       && match last_checked_at rel with
          | Some last => negb (now - last <? timedelta_hours MIN_CHECK_INTERVAL_HOURS)
          | None => true
          end)
    (PyDict.values (_relationships self)).

Definition timed_out (now : datetime) (account_filter : option string)
    (rel : FollowRelationship) : bool :=
  status_eqb (status rel) FOLLOWING
  && negb (account_mismatch account_filter rel)
  && match timeout_at rel with
     | Some t => t <=? now
     | None => false
     end.

Definition get_timeout_relationships (self : FollowBackDetectorService)
    (now : datetime) (account_filter : option string) : list FollowRelationship :=
  List.filter (timed_out now account_filter) (PyDict.values (_relationships self)).

(** [_check_follower_status] as the source has it: a placeholder for the
    browser automation, always answering "not following back". *)
Definition _check_follower_status (sub target_id : string) : result bool :=
  Ok false.

(** [check_follow_back(relationship)].  [probe] is what the awaited
    [self._check_follower_status(...)] produced: an answer, or a raised
    exception.  The relationship object is mutated; the function returns
    it as the call leaves it. *)
Definition check_follow_back (now : datetime) (probe : result bool)
    (relationship : FollowRelationship) : DetectionResult * FollowRelationship :=
  let result :=
    {| relationship_id := id relationship;
       previous_status := status relationship;
       current_status := status relationship;
       changed := false; checked_at := now;
       should_unfollow := false; should_dm := false;
       error_message := None |} in
  match probe with
  | Raise e =>
      ({| relationship_id := relationship_id result;
          previous_status := previous_status result;
          current_status := current_status result;
          changed := false; checked_at := now;
          should_unfollow := false; should_dm := false;
          error_message := Some (exn_str e) |},
       relationship)
  | Ok is_following_back =>
      let new_follow_back :=
        is_following_back && negb (status_eqb (status relationship) MUTUAL) in
      let relationship' :=
        {| id := id relationship; sub_account_id := sub_account_id relationship;
           target_user_id := target_user_id relationship;
           target_username := target_username relationship;
           status := if new_follow_back then MUTUAL else status relationship;
           followed_at := followed_at relationship;
           follow_back_at := if new_follow_back then Some now
                             else follow_back_at relationship;
           unfollow_at := unfollow_at relationship;
           timeout_at := timeout_at relationship;
           check_count := check_count relationship + 1;
           last_checked_at := Some now;
           is_private_account := is_private_account relationship;
           metadata := metadata relationship |} in
      let timeout_reached :=
        match timeout_at relationship with
        | Some t => t <=? now
        | None => false
        end in
      ({| relationship_id := relationship_id result;
          previous_status := previous_status result;
          current_status := if new_follow_back then MUTUAL
                            else current_status result;
          changed := new_follow_back; checked_at := now;
          should_unfollow := negb is_following_back && timeout_reached;
          should_dm := new_follow_back;
          error_message := None |},
       relationship')
  end.

(** [check_follow_back] as the source runs it today: the probe is the
    placeholder [_check_follower_status]. *)
Definition check_follow_back_with_placeholder (now : datetime)
    (relationship : FollowRelationship) : DetectionResult * FollowRelationship :=
  check_follow_back now
    (_check_follower_status (sub_account_id relationship)
       (target_user_id relationship))
    relationship.

(** [check_follow_back] called on the object stored under [rid], as
    [check_batch] does with the objects it takes from the registry. *)
Definition check_stored (self : FollowBackDetectorService) (now : datetime)
    (probe : result bool) (rid : string)
  : option DetectionResult * FollowBackDetectorService :=
  match PyDict.get (_relationships self) rid with
  | Some rel =>
      let (res, rel') := check_follow_back now probe rel in
      (Some res, with_relationships self (PyDict.set (_relationships self) rid rel'))
  | None => (None, self)
  end.

Definition unfollowed (now : datetime) (rel : FollowRelationship) : FollowRelationship :=
  {| id := id rel; sub_account_id := sub_account_id rel;
     target_user_id := target_user_id rel; target_username := target_username rel;
     status := NOT_FOLLOWING;
     followed_at := followed_at rel; follow_back_at := follow_back_at rel;
     unfollow_at := Some now;
     timeout_at := timeout_at rel; check_count := check_count rel;
     last_checked_at := last_checked_at rel;
     is_private_account := is_private_account rel; metadata := metadata rel |}.

(** [process_timeouts(sub_account_id)].  [executor_raises rel] tells whether
    the unfollow driven through the automation executor raises for [rel];
    the exception is caught and [rel] is then left as it is. *)
Definition process_timeouts (self : FollowBackDetectorService) (now : datetime)
    (account : string) (executor_raises : FollowRelationship -> bool)
  : list string * FollowBackDetectorService :=
  let handled (rel : FollowRelationship) : bool :=
    timed_out now (Some account) rel
    && negb (has_automation_executor self && executor_raises rel) in
  (map target_username (List.filter handled (PyDict.values (_relationships self))),
   with_relationships self
     (map (fun kv => (fst kv, if handled (snd kv) then unfollowed now (snd kv)
                              else snd kv))
          (_relationships self))).

Definition get_mutual_followers (self : FollowBackDetectorService) (account : string)
  : list FollowRelationship :=
  List.filter
    (fun rel => (sub_account_id rel =? account)%string
                && status_eqb (status rel) MUTUAL)
    (PyDict.values (_relationships self)).

Definition dm_sent (rel : FollowRelationship) : bool :=
  truthy (default (VBool false) (metadata rel !! "dm_sent")).

Definition get_dm_ready_targets (self : FollowBackDetectorService) (account : string)
  : list FollowRelationship :=
  let mutual := get_mutual_followers self account in
  List.filter (fun rel => negb (dm_sent rel)) mutual.

Section Isoformat.
(** [datetime.isoformat()] belongs to the Python runtime. *)
Variable isoformat : datetime -> string.

Definition mark_dm_sent (self : FollowBackDetectorService) (now : datetime)
    (rid : string) : bool * FollowBackDetectorService :=
  match PyDict.get (_relationships self) rid with
  | Some rel =>
      let rel' :=
        {| id := id rel; sub_account_id := sub_account_id rel;
           target_user_id := target_user_id rel;
           target_username := target_username rel;
           status := status rel;
           followed_at := followed_at rel; follow_back_at := follow_back_at rel;
           unfollow_at := unfollow_at rel;
           timeout_at := timeout_at rel; check_count := check_count rel;
           last_checked_at := last_checked_at rel;
           is_private_account := is_private_account rel;
           metadata := <["dm_sent_at" := VStr (isoformat now)]>
                         (<["dm_sent" := VBool true]> (metadata rel)) |} in
      (true, with_relationships self (PyDict.set (_relationships self) rid rel'))
  | None => (false, self)
  end.

End Isoformat.

(** *** Batches *)

Record BatchDetectionResult := {
  total_checked : Z;
  new_follow_backs : Z;
  timeouts : Z;
  errors : Z;
  results : list DetectionResult
}.

(** The loop of [check_batch] over the registry: the first [n] eligible
    relationships, in the order of the registry, are checked and left as
    their check leaves them.  [probes rel] gives the reading of the clock
    and what the probe produced in the check of [rel]. *)
Fixpoint check_first (n : nat) (eligible : FollowRelationship -> bool)
    (probes : FollowRelationship -> datetime * result bool)
    (d : PyDict.t FollowRelationship)
  : list DetectionResult * PyDict.t FollowRelationship :=
  match n, d with
  | O, _ | _, [] => ([], d)
  | S n', (k, rel) :: d' =>
      if eligible rel
      then
        let (res, rel') :=
          check_follow_back (fst (probes rel)) (snd (probes rel)) rel in
        let (ress, d'') := check_first n' eligible probes d' in
        (res :: ress, (k, rel') :: d'')
      else
        let (ress, d'') := check_first n eligible probes d' in
        (ress, (k, rel) :: d'')
  end.

(** The relationships [get_pending_relationships] selects. *)
Definition is_pending_check (now : datetime) (account_filter : option string)
    (rel : FollowRelationship) : bool :=
  negb (status_eqb (status rel) MUTUAL || status_eqb (status rel) NOT_FOLLOWING)
  && negb (account_mismatch account_filter rel)
  && match last_checked_at rel with
     | Some last => negb (now - last <? timedelta_hours MIN_CHECK_INTERVAL_HOURS)
     | None => true
     end.

(** [check_batch(sub_account_id, limit)].  The clock reads [now] when the
    pending relationships are listed and [finish] when the timeouts are
    counted. *)
Definition check_batch (self : FollowBackDetectorService) (now : datetime)
    (account : string) (limit : Z)
    (probes : FollowRelationship -> datetime * result bool) (finish : datetime)
  : BatchDetectionResult * FollowBackDetectorService :=
  (* Get pending relationships for this account *)
  let pending :=
    slice_to (get_pending_relationships self now (Some account)) limit in
  let (checked, registry) :=
    check_first (List.length pending) (is_pending_check now (Some account))
      probes (_relationships self) in
  let self := with_relationships self registry in
  let is_error (res : DetectionResult) := truthy_str (error_message res) in
  let is_new (res : DetectionResult) :=
    negb (is_error res) && changed res && status_eqb (current_status res) MUTUAL in
  (* Also check for timeouts *)
  let timed := get_timeout_relationships self finish (Some account) in
  ({| total_checked := Z.of_nat (List.length checked);
      new_follow_backs := Z.of_nat (List.length (List.filter is_new checked));
      timeouts := Z.of_nat (List.length timed);
      errors := Z.of_nat (List.length (List.filter is_error checked));
      results := checked |},
   self).

End FollowBack.

(** ** conversation_flow_service.py *)

Module Conversation.

Inductive ConversationIntent : Type :=
| GREETING | INTEREST | QUESTION | OBJECTION | POSITIVE | NEGATIVE
| REQUEST_HUMAN | SPAM | UNKNOWN.

(** [intent.value] *)
Definition intent_value (i : ConversationIntent) : string :=
  match i with
  | GREETING => "greeting" | INTEREST => "interest" | QUESTION => "question"
  | OBJECTION => "objection" | POSITIVE => "positive" | NEGATIVE => "negative"
  | REQUEST_HUMAN => "request_human" | SPAM => "spam" | UNKNOWN => "unknown"
  end.

Definition is_unknown (i : ConversationIntent) : bool :=
  match i with UNKNOWN => true | _ => false end.

Inductive FlowNodeType : Type :=
| START | MESSAGE | CONDITION | DELAY | HUMAN_HANDOFF | END.

Record FlowNode := {
  id : string;
  node_type : FlowNodeType;
  content : option string;
  template_id : option string;
  delay_seconds : Z;
  next_nodes : gmap string string;
  default_next : option string;
  metadata : gmap string py_value
}.

Record ConversationFlow := {
  flow_id_ : string;
  name : string;
  description : string;
  nodes : gmap string FlowNode;
  start_node_id : string;
  flow_variables : PyDict.t string;
  platform : string;
  is_active : bool;
  created_at : datetime
}.

Record ConversationState := {
  conversation_id : string;
  flow_id : string;
  current_node_id : string;
  variables : PyDict.t string;
  message_count : Z;
  failed_intents : Z;
  started_at : datetime;
  last_activity : datetime
}.

Record FlowResponse := {
  should_respond : bool;
  response_text : option string;
  next_node_id : option string;
  detected_intent : ConversationIntent;
  requires_human : bool;
  end_conversation : bool;
  response_delay_seconds : Z;
  response_metadata : gmap string py_value
}.

Record ConversationFlowService := {
  spintax_service : option Spintax.SpintaxService;
  _flows : gmap string ConversationFlow;
  _states : gmap string ConversationState
}.

(** *** The fragment of [re] that [INTENT_PATTERNS] uses *)

Inductive charset : Type :=
| Dot                     (* any character but the newline *)
| Whitespace              (* \s *)
| OneOf (chars : string). (* a bracketed set of characters *)

Inductive regex : Type :=
| Lit (s : string)
| Chars (c : charset)
| StarChars (c : charset)
| Opt (r : regex)
| Alt (r1 r2 : regex)
| Cat (r1 r2 : regex)
| WordBoundary
| Bol
| Eol.

Definition is_upper (c : ascii) : bool :=
  let n := nat_of_ascii c in ((65 <=? n) && (n <=? 90))%nat.

Definition lower_char (c : ascii) : ascii :=
  if is_upper c then ascii_of_nat (nat_of_ascii c + 32) else c.

Fixpoint str_lower (s : string) : string :=
  match s with
  | "" => ""
  | String c s' => String (lower_char c) (str_lower s')
  end.

(** [sub in s] *)
Fixpoint str_contains (sub s : string) : bool :=
  String.prefix sub s
  || match s with
     | "" => false
     | String _ s' => str_contains sub s'
     end.

(** [\w] on ASCII *)
Definition is_word (c : ascii) : bool :=
  let n := nat_of_ascii c in
  ((48 <=? n) && (n <=? 57) || (65 <=? n) && (n <=? 90)
   || (97 <=? n) && (n <=? 122) || (n =? 95))%nat.

Definition in_charset (cs : charset) (c : ascii) : bool :=
  match cs with
  | Dot => negb (c =? "010")%char
  | Whitespace => is_space c
  | OneOf chars => str_contains_char c chars
  end.

Definition word_before (prev : option ascii) : bool :=
  match prev with Some c => is_word c | None => false end.

Definition word_after (s : string) : bool :=
  match s with String c _ => is_word c | "" => false end.

(** The matcher threads the character before the position ([prev], for
    [\b] and [^]) and the rest of the text, and calls [k] where a match of
    the expression ends.  [re.IGNORECASE]: letters are compared in lower
    case. *)
Fixpoint match_lit (l : string) (prev : option ascii) (s : string)
    (k : option ascii -> string -> bool) : bool :=
  match l with
  | "" => k prev s
  | String c l' =>
      match s with
      | String d s' =>
          (lower_char c =? lower_char d)%char && match_lit l' (Some d) s' k
      | "" => false
      end
  end.

Fixpoint match_star (p : ascii -> bool) (prev : option ascii) (s : string)
    (k : option ascii -> string -> bool) : bool :=
  match s with
  | String d s' => (p d && match_star p (Some d) s' k) || k prev s
  | "" => k prev s
  end.

Fixpoint rmatch (r : regex) (prev : option ascii) (s : string)
    (k : option ascii -> string -> bool) : bool :=
  match r with
  | Lit l => match_lit l prev s k
  | Chars cs =>
      match s with
      | String d s' => in_charset cs d && k (Some d) s'
      | "" => false
      end
  | StarChars cs => match_star (in_charset cs) prev s k
  | Opt r1 => rmatch r1 prev s k || k prev s
  | Alt r1 r2 => rmatch r1 prev s k || rmatch r2 prev s k
  | Cat r1 r2 => rmatch r1 prev s (fun prev' s' => rmatch r2 prev' s' k)
  | WordBoundary => xorb (word_before prev) (word_after s) && k prev s
  | Bol => match prev with None => k prev s | Some _ => false end
  | Eol =>
      match s with
      | "" => k prev s
      | String "010" "" => k prev s
      | _ => false
      end
  end.

Fixpoint search_from (r : regex) (prev : option ascii) (s : string) : bool :=
  rmatch r prev s (fun _ _ => true)
  || match s with
     | String d s' => search_from r (Some d) s'
     | "" => false
     end.

(** [re.search(pattern, s, re.IGNORECASE)] as a truth value *)
Definition re_search (r : regex) (s : string) : bool := search_from r None s.

Fixpoint alts (l : list string) : regex :=
  match l with
  | [] => Lit ""
  | [a] => Lit a
  | a :: l' => Alt (Lit a) (alts l')
  end.

(** [\b(a|b|...)\b] *)
Definition words (l : list string) : regex :=
  Cat WordBoundary (Cat (alts l) WordBoundary).

Definition INTENT_PATTERNS : list (ConversationIntent * list regex) :=
  [ (GREETING,
     [ Cat WordBoundary
         (Cat (Alt (alts ["hi"; "hello"; "hey"; "hola"; "sup"])
                   (Cat (Lit "what") (Cat (Opt (Lit "'")) (Lit "s up"))))
              WordBoundary);
       Cat Bol (Cat (alts ["hi"; "hello"; "hey"])
                 (Cat (StarChars Whitespace) (Cat (StarChars (OneOf "!.?")) Eol))) ]);
    (INTEREST,
     [ words ["interested"; "tell me more"; "sounds good"; "sounds interesting"];
       words ["want to know"; "curious"; "learn more"];
       words ["yes please"; "sure"; "definitely"; "absolutely"] ]);
    (POSITIVE,
     [ words ["yes"; "yeah"; "yep"; "yup"; "ok"; "okay"; "sure"; "great"; "cool";
              "nice"; "awesome"];
       words ["thanks"; "thank you"; "appreciate"];
       alts ["ðŸ‘"; "â¤ï¸"; "ðŸ™Œ"; "ðŸ’¯"; "âœ…"] ]);
    (NEGATIVE,
     [ words ["no"; "nope"; "not interested"; "no thanks"; "stop"; "leave me alone"];
       words ["unsubscribe"; "remove"; "block"] ]);
    (OBJECTION,
     [ words ["why"; "how"; "what if"; "but"; "however"; "scam"; "fake"; "spam"];
       words ["is this legit"; "are you real"; "prove it"];
       words ["too good to be true"; "sounds fishy"] ]);
    (QUESTION,
     [ Cat (Lit "?") Eol;
       Cat (words ["what"; "who"; "where"; "when"; "how"; "why"; "which"])
           (Cat (StarChars Dot) (Lit "?"));
       words ["can you"; "could you"; "would you"] ]);
    (REQUEST_HUMAN,
     [ words ["real person"; "human"; "agent"; "representative"; "manager"];
       words ["speak to someone"; "talk to"; "connect me"] ]);
    (SPAM,
     [ words ["buy followers"; "make money fast"; "crypto giveaway"];
       alts ["bit.ly"; "tinyurl.com"] ]) ].

Definition NEGATIVE_KEYWORDS : list string :=
  [ "scam"; "fraud"; "report"; "block"; "lawsuit";
    "police"; "complaint"; "harassment"; "stop messaging" ].

Definition detect_intent (message : string) : ConversationIntent :=
  let message_lower := str_strip (str_lower message) in
  (* Check for negative keywords first (highest priority) *)
  if existsb (fun keyword => str_contains keyword message_lower) NEGATIVE_KEYWORDS
  then REQUEST_HUMAN
  else
    (* Check each intent pattern *)
    match find (fun entry =>
                  existsb (fun pattern => re_search pattern message_lower)
                          (snd entry))
               INTENT_PATTERNS with
    | Some entry => fst entry
    | None => UNKNOWN
    end.

Definition mkNode (i : string) (t : FlowNodeType) (c tpl : option string)
    (delay : Z) (next : list (string * string)) (dflt : option string) : FlowNode :=
  {| id := i; node_type := t; content := c; template_id := tpl;
     delay_seconds := delay; next_nodes := list_to_map next;
     default_next := dflt; metadata := ∅ |}.

Definition standard_nodes : list FlowNode :=
  [ mkNode "start" START None None 0 [] (Some "opening");
    mkNode "opening" MESSAGE None (Some "opening_friendly") 0
      [("positive", "value_prop"); ("interest", "value_prop");
       ("question", "answer_question"); ("negative", "polite_end");
       ("request_human", "human_handoff")]
      (Some "follow_up_1");
    mkNode "value_prop" MESSAGE None (Some "value_proposition") 0
      [("positive", "whatsapp_invite"); ("interest", "whatsapp_invite");
       ("objection", "handle_objection"); ("negative", "polite_end")]
      (Some "follow_up_2");
    mkNode "handle_objection" MESSAGE None (Some "objection_why_whatsapp") 0
      [("positive", "whatsapp_invite"); ("negative", "polite_end")]
      (Some "whatsapp_invite");
    mkNode "answer_question" MESSAGE
      (Some "That's a great question! [kol_name] shares insights on [niche] that you won't find anywhere else. Would you like to learn more?")
      None 0
      [("positive", "value_prop"); ("negative", "polite_end")]
      (Some "value_prop");
    mkNode "whatsapp_invite" MESSAGE None (Some "whatsapp_invite") 0 []
      (Some "conversion_check");
    mkNode "conversion_check" MESSAGE
      (Some "Did you manage to join? Let me know if you have any issues! ðŸ˜Š")
      None 0
      [("positive", "success_end"); ("negative", "retry_invite")]
      (Some "end");
    mkNode "follow_up_1" DELAY None None 3600 [] (Some "follow_up_message_1");
    mkNode "follow_up_message_1" MESSAGE None (Some "follow_up_no_reply") 0 []
      (Some "end");
    mkNode "follow_up_2" DELAY None None 86400 [] (Some "follow_up_message_2");
    mkNode "follow_up_message_2" MESSAGE
      (Some "Hey! Just wanted to check in one more time. The invite is still open if you're interested! ðŸ™Œ")
      None 0 [] (Some "end");
    mkNode "retry_invite" MESSAGE
      (Some "No worries! Here's the link again: [whatsapp_link]. Feel free to join whenever you're ready!")
      None 0 [] (Some "end");
    mkNode "human_handoff" HUMAN_HANDOFF
      (Some "I'll connect you with someone who can help better. One moment!")
      None 0 [] None;
    mkNode "polite_end" MESSAGE
      (Some "No problem at all! Thanks for your time. Take care! ðŸ‘‹")
      None 0 [] (Some "end");
    mkNode "success_end" MESSAGE
      (Some "Awesome! Welcome aboard! ðŸŽ‰ See you in the group!")
      None 0 [] (Some "end");
    mkNode "end" END None None 0 [] None ].

(** [_load_default_flows]; the flow is created when the service is, at [now]. *)
Definition standard_flow (now : datetime) : ConversationFlow :=
  {| flow_id_ := "standard_outreach";
     name := "Standard Outreach Flow";
     description := "Basic flow for converting followers to WhatsApp";
     nodes := fold_left (fun m node => <[id node := node]> m) standard_nodes ∅;
     start_node_id := "start";
     flow_variables := [];
     platform := "all";
     is_active := true;
     created_at := now |}.

(** [ConversationFlowService(spintax_service)] *)
Definition init (now : datetime) (spintax : option Spintax.SpintaxService)
  : ConversationFlowService :=
  {| spintax_service := spintax;
     _flows := <["standard_outreach" := standard_flow now]> ∅;
     _states := ∅ |}.

Definition add_flow (self : ConversationFlowService) (flow : ConversationFlow)
  : ConversationFlowService :=
  {| spintax_service := spintax_service self;
     _flows := <[flow_id_ flow := flow]> (_flows self);
     _states := _states self |}.

Definition get_flow (self : ConversationFlowService) (fid : string)
  : option ConversationFlow :=
  _flows self !! fid.

Definition start_conversation (self : ConversationFlowService) (now : datetime)
    (cid fid : string) (vars : option (PyDict.t string))
  : result ConversationState * ConversationFlowService :=
  match _flows self !! fid with
  | None => (Raise (ValueError ("Flow not found: " +:+ fid)), self)
  | Some flow =>
      let state :=
        {| conversation_id := cid; flow_id := fid;
           current_node_id := start_node_id flow;
           variables := default [] vars;
           message_count := 0; failed_intents := 0;
           started_at := now; last_activity := now |} in
      (Ok state,
       {| spintax_service := spintax_service self; _flows := _flows self;
          _states := <[cid := state]> (_states self) |})
  end.

Definition get_state (self : ConversationFlowService) (cid : string)
  : option ConversationState :=
  _states self !! cid.

Definition _replace_variables (text : string) (vars : PyDict.t string) : string :=
  fold_left
    (fun result kv => str_replace ("[" +:+ fst kv +:+ "]") (snd kv) result)
    vars text.

(** [FlowResponse(should_respond=...)] with every other field at its default *)
Definition FlowResponse_default (respond : bool) : FlowResponse :=
  {| should_respond := respond; response_text := None; next_node_id := None;
     detected_intent := UNKNOWN; requires_human := false;
     end_conversation := false; response_delay_seconds := 0;
     response_metadata := ∅ |}.

Definition _process_node (spintax : option Spintax.SpintaxService)
    (rng : nat -> nat) (now : datetime) (node : FlowNode) (state : ConversationState)
  : FlowResponse * option Spintax.SpintaxService :=
  match node_type node with
  | END =>
      ({| should_respond := false; response_text := None; next_node_id := None;
          detected_intent := UNKNOWN; requires_human := false;
          end_conversation := true; response_delay_seconds := 0;
          response_metadata := ∅ |}, spintax)
  | HUMAN_HANDOFF =>
      ({| should_respond := true;
          response_text :=
            Some (_replace_variables (default "" (content node)) (variables state));
          next_node_id := Some (id node);
          detected_intent := UNKNOWN; requires_human := true;
          end_conversation := false; response_delay_seconds := 0;
          response_metadata := ∅ |}, spintax)
  | DELAY =>
      ({| should_respond := false; response_text := None;
          next_node_id := default_next node;
          detected_intent := UNKNOWN; requires_human := false;
          end_conversation := false;
          response_delay_seconds := delay_seconds node;
          response_metadata := ∅ |}, spintax)
  | MESSAGE =>
      (* Generate message content *)
      let (text, spintax') :=
        match (if truthy_str (template_id node) then template_id node else None),
              spintax with
        | Some tpl, Some svc =>
            let (generated, svc') :=
              Spintax.generate_message svc rng now tpl (variables state) in
            (match generated with
             | Some g => Spintax.content g
             | None => ""
             end, Some svc')
        | _, _ =>
            (if truthy_str (content node)
             then _replace_variables (default "" (content node)) (variables state)
             else "", spintax)
        end in
      ({| should_respond := true; response_text := Some text;
          next_node_id := Some (id node);
          detected_intent := UNKNOWN; requires_human := false;
          end_conversation := false; response_delay_seconds := 0;
          response_metadata := ∅ |}, spintax')
  | START | CONDITION => (FlowResponse_default false, spintax)
  end.

Definition with_intent (r : FlowResponse) (i : ConversationIntent) : FlowResponse :=
  {| should_respond := should_respond r; response_text := response_text r;
     next_node_id := next_node_id r; detected_intent := i;
     requires_human := requires_human r; end_conversation := end_conversation r;
     response_delay_seconds := response_delay_seconds r;
     response_metadata := response_metadata r |}.

Definition save_state (self : ConversationFlowService)
    (spintax : option Spintax.SpintaxService) (cid : string)
    (state : ConversationState) : ConversationFlowService :=
  {| spintax_service := spintax; _flows := _flows self;
     _states := <[cid := state]> (_states self) |}.

Definition handoff_text : string :=
  "I want to make sure I give you the best answer. Let me connect you with someone who can help!".

Definition process_message (self : ConversationFlowService) (rng : nat -> nat)
    (now : datetime) (cid incoming_message : string)
  : FlowResponse * ConversationFlowService :=
  match _states self !! cid with
  | None =>
      ({| should_respond := false; response_text := None; next_node_id := None;
          detected_intent := UNKNOWN; requires_human := true;
          end_conversation := false; response_delay_seconds := 0;
          response_metadata := {["error" := VStr "Conversation not found"]} |},
       self)
  | Some state =>
      match _flows self !! flow_id state with
      | None =>
          ({| should_respond := false; response_text := None;
              next_node_id := None;
              detected_intent := UNKNOWN; requires_human := true;
              end_conversation := false; response_delay_seconds := 0;
              response_metadata := {["error" := VStr "Flow not found"]} |},
           self)
      | Some flow =>
          match nodes flow !! current_node_id state with
          | None =>
              ({| should_respond := false; response_text := None;
                  next_node_id := None;
                  detected_intent := UNKNOWN; requires_human := false;
                  end_conversation := true; response_delay_seconds := 0;
                  response_metadata := ∅ |}, self)
          | Some current_node =>
              (* Detect intent *)
              let intent := detect_intent incoming_message in
              (* Track failed intents (unknown responses) *)
              let state :=
                {| conversation_id := conversation_id state;
                   flow_id := flow_id state;
                   current_node_id := current_node_id state;
                   variables := variables state;
                   message_count := message_count state + 1;
                   failed_intents :=
                     if is_unknown intent then failed_intents state + 1
                     else failed_intents state;
                   started_at := started_at state;
                   last_activity := now |} in
              (* If too many unknowns, hand off to human *)
              if is_unknown intent && (3 <=? failed_intents state)
              then
                ({| should_respond := true;
                    response_text := Some handoff_text;
                    next_node_id := None;
                    detected_intent := intent; requires_human := true;
                    end_conversation := false; response_delay_seconds := 0;
                    response_metadata := ∅ |},
                 save_state self (spintax_service self) cid state)
              else
                (* Determine next node based on intent *)
                let next_id :=
                  match next_nodes current_node !! intent_value intent with
                  | Some n => Some n
                  | None => default_next current_node
                  end in
                match (if truthy_str next_id then next_id else None) with
                | None =>
                    ({| should_respond := false; response_text := None;
                        next_node_id := None;
                        detected_intent := intent; requires_human := false;
                        end_conversation := true; response_delay_seconds := 0;
                        response_metadata := ∅ |},
                     save_state self (spintax_service self) cid state)
                | Some n =>
                    match nodes flow !! n with
                    | None =>
                        ({| should_respond := false; response_text := None;
                            next_node_id := None;
                            detected_intent := UNKNOWN; requires_human := false;
                            end_conversation := true;
                            response_delay_seconds := 0;
                            response_metadata := ∅ |},
                         save_state self (spintax_service self) cid state)
                    | Some next_node =>
                        (* Generate response based on node type *)
                        let (response, spintax') :=
                          _process_node (spintax_service self) rng now
                            next_node state in
                        (* Update state *)
                        let state :=
                          {| conversation_id := conversation_id state;
                             flow_id := flow_id state;
                             current_node_id := n;
                             variables := variables state;
                             message_count := message_count state;
                             failed_intents := failed_intents state;
                             started_at := started_at state;
                             last_activity := last_activity state |} in
                        (with_intent response intent,
                         save_state self spintax' cid state)
                    end
                end
          end
      end
  end.

(** *** The first message of a flow *)

(** One turn of the [while] loop of [get_initial_message]: the loop goes on
    with another current node, or is left with the current node as it
    is. *)
Inductive loop_turn : Type :=
| GoOn (current : option FlowNode)
| Leave (current : option FlowNode).

Definition initial_message_turn (flow : ConversationFlow)
    (current : option FlowNode) : loop_turn :=
  match current with
  | None => Leave None
  | Some node =>
      match node_type node with
      | MESSAGE => Leave current
      | _ =>
          match (if truthy_str (default_next node) then default_next node
                 else None) with
          | None => Leave current
          | Some next_id => GoOn (nodes flow !! next_id)
          end
      end
  end.

(** The loop, run for [fuel] turns at most: [None] when it has not been
    left by then. *)
Fixpoint initial_message_loop (fuel : nat) (flow : ConversationFlow)
    (current : option FlowNode) : option (option FlowNode) :=
  match fuel with
  | O => None
  | S fuel' =>
      match initial_message_turn flow current with
      | Leave node => Some node
      | GoOn next => initial_message_loop fuel' flow next
      end
  end.

(** [get_initial_message(flow_id, variables)]: [None] when the loop takes
    more than [fuel] turns, otherwise what the method returns and the
    service as it leaves it. *)
Definition get_initial_message (self : ConversationFlowService) (rng : nat -> nat)
    (now : datetime) (fuel : nat) (fid : string) (vars : PyDict.t string)
  : option (option string * ConversationFlowService) :=
  match _flows self !! fid with
  | None => Some (None, self)
  | Some flow =>
      (* Navigate to first message node *)
      match initial_message_loop fuel flow (nodes flow !! start_node_id flow) with
      | None => None
      | Some None => Some (None, self)
      | Some (Some current_node) =>
          match node_type current_node with
          | MESSAGE =>
              (* Generate message *)
              match (if truthy_str (template_id current_node)
                     then template_id current_node else None),
                    spintax_service self with
              | Some tpl, Some svc =>
                  let (generated, svc') :=
                    Spintax.generate_message svc rng now tpl vars in
                  Some (option_map Spintax.content generated,
                        {| spintax_service := Some svc'; _flows := _flows self;
                           _states := _states self |})
              | _, _ =>
                  Some (if truthy_str (content current_node)
                        then Some (_replace_variables
                                     (default "" (content current_node)) vars)
                        else None, self)
              end
          | _ => Some (None, self)
          end
      end
  end.

End Conversation.

(** * Vocabulary of the statements and concrete inputs *)

(** ** Spintax *)

(** Nesting depth of braces after reading [s] from depth [d]; [None] when a
    closing brace has no opening partner. *)
Fixpoint nesting (d : nat) (s : string) : option nat :=
  match s with
  | "" => Some d
  | String c s' =>
      if (c =? "{")%char then nesting (S d) s'
      else if (c =? "}")%char
           then match d with
                | O => None
                | S d' => nesting d' s'
                end
           else nesting d s'
  end.

(** Every brace has its partner. *)
Definition well_nested (s : string) : Prop := nesting 0 s = Some 0%nat.

(** [spin] replaces a group by one of its alternatives, which may be the
    empty string.  An alternative can vanish when it holds no character of
    its own and every group in it can vanish; a group can vanish when one
    of its alternatives can.  A group whose body is a single alternative
    (the group has no "|" of its own) that can vanish can be left as "{}",
    which [SPINTAX_PATTERN] (one character at least between the braces)
    does not match: the group can lose its body.

    The template is read from left to right.  Of every group that is open
    the record tells whether a "|" of the group has been read, whether the
    alternative being read can vanish, and whether an alternative read
    before can. *)
Record open_group := {
  piped : bool;
  alternative_can_vanish : bool;
  earlier_can_vanish : bool
}.

Definition just_opened : open_group :=
  {| piped := false; alternative_can_vanish := true; earlier_can_vanish := false |}.

Definition group_can_vanish (g : open_group) : bool :=
  earlier_can_vanish g || alternative_can_vanish g.

Definition body_can_vanish (g : open_group) : bool :=
  negb (piped g) && alternative_can_vanish g.

(** The alternative being read in the innermost open group goes on with a
    character ([vanishes = false]) or with a group that was closed
    ([vanishes] tells whether that group can vanish).  Outside every group
    there is nothing to record. *)
Definition extend_alternative (vanishes : bool) (groups : list open_group)
  : list open_group :=
  match groups with
  | [] => []
  | g :: outer =>
      {| piped := piped g;
         alternative_can_vanish := alternative_can_vanish g && vanishes;
         earlier_can_vanish := earlier_can_vanish g |} :: outer
  end.

(** One character read with [groups] open, the innermost first; [None] when
    the character closes a group that can lose its body.  A "|" outside
    every group is a character like any other, and so is a "}" that closes
    nothing. *)
Definition read_char (groups : list open_group) (c : ascii)
  : option (list open_group) :=
  if (c =? "{")%char then Some (just_opened :: groups)
  else if (c =? "}")%char then
    match groups with
    | [] => Some []
    | g :: outer =>
        if body_can_vanish g then None
        else Some (extend_alternative (group_can_vanish g) outer)
    end
  else if (c =? "|")%char then
    match groups with
    | [] => Some []
    | g :: outer =>
        Some ({| piped := true; alternative_can_vanish := true;
                 earlier_can_vanish := group_can_vanish g |} :: outer)
    end
  else Some (extend_alternative false groups).

Fixpoint bodies_remain (groups : list open_group) (s : string) : bool :=
  match s with
  | "" => true
  | String c s' =>
      match read_char groups c with
      | Some groups' => bodies_remain groups' s'
      | None => false
      end
  end.

(** No group of [s] can lose its body. *)
Definition no_group_can_empty (s : string) : bool := bodies_remain [] s.

Definition is_empty (s : string) : bool :=
  match s with
  | "" => true
  | _ => false
  end.

(** [g1] is [g2] with, possibly, less that can vanish. *)
Definition group_le (g1 g2 : open_group) : Prop :=
  piped g1 = piped g2
  /\ (alternative_can_vanish g1 = true -> alternative_can_vanish g2 = true)
  /\ (earlier_can_vanish g1 = true -> earlier_can_vanish g2 = true).

Definition has_brace (s : string) : bool :=
  str_contains_char "{" s || str_contains_char "}" s.

Definition template_A_B_x : Spintax.MessageTemplate :=
  Spintax.mkTemplate 0 "t" "Example" "{A|B} [x]" [] "general".

Definition service_with_A_B_x : Spintax.SpintaxService :=
  Spintax.add_template (Spintax.init 0) template_A_B_x.

Definition eleven_groups : string := "{a}{a}{a}{a}{a}{a}{a}{a}{a}{a}{a}".

(** A text without "{", "}" or "|". *)
Fixpoint plain (s : string) : bool :=
  match s with
  | "" => true
  | String c s' =>
      negb (Spintax.is_brace c) && negb (c =? "|")%char && plain s'
  end.

Fixpoint brace_free (s : string) : bool :=
  match s with
  | "" => true
  | String c s' => negb (Spintax.is_brace c) && brace_free s'
  end.

(** Some "{" has a "}" somewhere behind it. *)
Fixpoint open_then_close (s : string) : bool :=
  match s with
  | "" => false
  | String c s' =>
      ((c =? "{")%char && str_contains_char "}" s') || open_then_close s'
  end.

(** The state of the loop of [spin] on a template it resolves: the braces
    are paired, no group can lose its body, [n] groups are left. *)
Definition spin_invariant (n : nat) (s : string) : Prop :=
  well_nested s /\ no_group_can_empty s = true /\ str_count "{" s = n.

(** ** Scheduler *)

(** None of the hourly, daily and minimum-interval constraints of [config]
    stands against [action] at [now]. *)
Definition within_limits (state : Scheduler.AccountScheduleState) (now : datetime)
    (action : Scheduler.ActionType) (config : Scheduler.RateLimitConfig) : Prop :=
  let st := Scheduler._reset_counters_if_needed state now in
  exists hourly_limit daily_limit,
    Scheduler.get_limit_for_age config (Scheduler.age_category st) "hourly"
      = Ok hourly_limit
    /\ default 0 (Scheduler.hourly_actions st !! action) < hourly_limit
    /\ Scheduler.get_limit_for_age config (Scheduler.age_category st) "daily"
       = Ok daily_limit
    /\ default 0 (Scheduler.daily_actions st !! action) < daily_limit
    /\ match Scheduler.last_action_at st !! action with
       | Some last =>
           timedelta_seconds (Scheduler.min_interval_seconds config) <= now - last
       | None => True
       end.

(** [record_action(account, action, success=True)] once per reading of the
    clock in [times]. *)
Definition record_successes (self : Scheduler.SmartSchedulerService)
    (times : list datetime) (account : string) (action : Scheduler.ActionType)
  : Scheduler.SmartSchedulerService :=
  fold_left (fun s t => Scheduler.record_action s t account action true) times self.

(** Stand-ins for the formatting done by the Python runtime, for the
    concrete runs below. *)
Definition plain_datetime (t : datetime) : string := pretty t.
Definition plain_seconds (microseconds : Z) : string :=
  pretty (microseconds / microseconds_per_second).

(** acc1, created at the moment it is registered (time 0), hence new. *)
Definition acc1_registered : Scheduler.SmartSchedulerService :=
  snd (Scheduler.register_account Scheduler.init 0 "acc1" (Some 0) "UTC").

(** acc1 after 30 successful follows, all recorded at time 0. *)
Definition acc1_after_30_follows : Scheduler.SmartSchedulerService :=
  record_successes acc1_registered (repeat 0 30) "acc1" Scheduler.FOLLOW.

(** ** Proxy pool *)

Definition plain_proxy (pid : string) : ProxyPool.ProxyConfig :=
  {| ProxyPool.id := pid; ProxyPool.host := "10.0.0.1"; ProxyPool.port := 8080;
     ProxyPool.username := None; ProxyPool.password := None;
     ProxyPool.proxy_type := ProxyPool.HTTP;
     ProxyPool.quality := ProxyPool.RESIDENTIAL;
     ProxyPool.country := None; ProxyPool.city := None; ProxyPool.isp := None;
     ProxyPool.status := ProxyPool.ACTIVE;
     ProxyPool.avg_response_time_ms := float_literal 0 1;
     ProxyPool.success_rate := float_literal 1 1;
     ProxyPool.total_requests := 0; ProxyPool.failed_requests := 0;
     ProxyPool.last_used_at := None; ProxyPool.last_check_at := None;
     ProxyPool.cooling_until := None;
     ProxyPool.assigned_to_account_id := None |}.

(** [add_proxy(p1); add_proxy(p2); mark_proxy_banned("p1")] *)
Definition pool_p1_banned : ProxyPool.ProxyPoolService :=
  snd (ProxyPool.mark_proxy_banned
         (ProxyPool.add_proxy (ProxyPool.add_proxy ProxyPool.init (plain_proxy "p1"))
            (plain_proxy "p2"))
         "p1").

(** [add_proxy(p1); add_proxy(p2); assign_proxy_to_account("acc", "p1");
    mark_proxy_banned("p1")] *)
Definition pool_p1_assigned_then_banned : ProxyPool.ProxyPoolService :=
  snd (ProxyPool.mark_proxy_banned
         (snd (ProxyPool.assign_proxy_to_account
                 (ProxyPool.add_proxy
                    (ProxyPool.add_proxy ProxyPool.init (plain_proxy "p1"))
                    (plain_proxy "p2"))
                 0 "acc" (Some "p1") None))
         "p1").

(** ** Follow-back detector *)

(** Checks made one after the other on the relationship stored under
    [rid]; each comes with the reading of the clock and with what the probe
    [_check_follower_status] produced. *)
Fixpoint run_checks (self : FollowBack.FollowBackDetectorService) (rid : string)
    (checks : list (datetime * result bool))
  : list FollowBack.DetectionResult * FollowBack.FollowBackDetectorService :=
  match checks with
  | [] => ([], self)
  | (now, probe) :: rest =>
      let (res, self1) := FollowBack.check_stored self now probe rid in
      let (ress, self2) := run_checks self1 rid rest in
      (match res with Some r => r :: ress | None => ress end, self2)
  end.

(** The same checks on a relationship object by itself. *)
Fixpoint run_checks_on (rel : FollowBack.FollowRelationship)
    (checks : list (datetime * result bool))
  : list FollowBack.DetectionResult * FollowBack.FollowRelationship :=
  match checks with
  | [] => ([], rel)
  | (now, probe) :: rest =>
      let (res, rel1) := FollowBack.check_follow_back now probe rel in
      let (ress, rel2) := run_checks_on rel1 rest in
      (res :: ress, rel2)
  end.

(** The probe found the target following back. *)
Definition detects (check : datetime * result bool) : bool :=
  match snd check with
  | Ok true => true
  | _ => false
  end.

(** Position of the first check that finds the target following back. *)
Fixpoint first_detection (checks : list (datetime * result bool)) : option nat :=
  match checks with
  | [] => None
  | c :: rest => if detects c then Some 0%nat else option_map S (first_detection rest)
  end.

(** The calls a client can make on the detector. *)
Inductive detector_call : Type :=
| CallRegisterFollow (now : datetime) (sub target_id target_name : string)
    (is_private : bool)
| CallCheckFollowBack (now : datetime) (probe : result bool) (rid : string)
| CallProcessTimeouts (now : datetime) (account : string)
    (executor_raises : FollowBack.FollowRelationship -> bool)
| CallMarkDmSent (now : datetime) (rid : string)
| CallSetTimeoutDays (days : Z).

Definition detector_step (isoformat : datetime -> string)
    (self : FollowBack.FollowBackDetectorService) (call : detector_call)
  : FollowBack.FollowBackDetectorService :=
  match call with
  | CallRegisterFollow now sub target_id target_name is_private =>
      snd (FollowBack.register_follow self now sub target_id target_name is_private)
  | CallCheckFollowBack now probe rid =>
      snd (FollowBack.check_stored self now probe rid)
  | CallProcessTimeouts now account executor_raises =>
      snd (FollowBack.process_timeouts self now account executor_raises)
  | CallMarkDmSent now rid => snd (FollowBack.mark_dm_sent isoformat self now rid)
  | CallSetTimeoutDays days => FollowBack.set_timeout_days self days
  end.

Definition detector_run (isoformat : datetime -> string)
    (self : FollowBack.FollowBackDetectorService) (calls : list detector_call)
  : FollowBack.FollowBackDetectorService :=
  fold_left (detector_step isoformat) calls self.

(** The registry is a dict keyed by relationship id: keys are distinct and
    every relationship sits under its own id, as [register_follow] puts it. *)
Definition keyed_by_id (d : PyDict.t FollowBack.FollowRelationship) : Prop :=
  NoDup (PyDict.keys d)
  /\ Forall (fun kv => FollowBack.id (snd kv) = fst kv) d.

(** The relationship of [rel] after a re-registration at [now]: status,
    [followed_at] and [timeout_at] are new, everything else is kept. *)
Definition refollowed (rel : FollowBack.FollowRelationship) (now : datetime)
    (timeout_days : Z) (is_private : bool) : FollowBack.FollowRelationship :=
  {| FollowBack.id := FollowBack.id rel;
     FollowBack.sub_account_id := FollowBack.sub_account_id rel;
     FollowBack.target_user_id := FollowBack.target_user_id rel;
     FollowBack.target_username := FollowBack.target_username rel;
     FollowBack.status := if is_private then FollowBack.PENDING
                          else FollowBack.FOLLOWING;
     FollowBack.followed_at := Some now;
     FollowBack.follow_back_at := FollowBack.follow_back_at rel;
     FollowBack.unfollow_at := FollowBack.unfollow_at rel;
     FollowBack.timeout_at := Some (now + timedelta_days timeout_days);
     FollowBack.check_count := FollowBack.check_count rel;
     FollowBack.last_checked_at := FollowBack.last_checked_at rel;
     FollowBack.is_private_account := FollowBack.is_private_account rel;
     FollowBack.metadata := FollowBack.metadata rel |}.

(** follow, follow-back found, DM sent, then the same target followed again
    and found following back once more. *)
Definition refollow_after_dm : FollowBack.FollowBackDetectorService :=
  detector_run plain_datetime (FollowBack.init false)
    [ CallRegisterFollow 0 "acc" "u1" "user_one" false;
      CallCheckFollowBack 10 (Ok true) "acc_u1";
      CallMarkDmSent 20 "acc_u1";
      CallRegisterFollow 30 "acc" "u1" "user_one" true;
      CallCheckFollowBack 40 (Ok true) "acc_u1" ].

(** The relationship under [rid] carries the DM flag, in a well-keyed
    registry. *)
Definition dm_flagged (rid : string) (self : FollowBack.FollowBackDetectorService)
  : Prop :=
  keyed_by_id (FollowBack._relationships self)
  /\ exists rel,
       PyDict.get (FollowBack._relationships self) rid = Some rel
       /\ FollowBack.dm_sent rel = true.

(** ** Conversation flow *)

(** An inbound message with the draws and the clock reading of the call
    that processes it. *)
Record inbound := {
  in_rng : nat -> nat;
  in_now : datetime;
  in_text : string
}.

(** [process_message] once per inbound message of conversation [cid]. *)
Fixpoint run_messages (self : Conversation.ConversationFlowService) (cid : string)
    (msgs : list inbound)
  : list Conversation.FlowResponse * Conversation.ConversationFlowService :=
  match msgs with
  | [] => ([], self)
  | m :: rest =>
      let (resp, self1) :=
        Conversation.process_message self (in_rng m) (in_now m) cid (in_text m) in
      let (resps, self2) := run_messages self1 cid rest in
      (resp :: resps, self2)
  end.

Definition unknown_intent (m : inbound) : bool :=
  Conversation.is_unknown (Conversation.detect_intent (in_text m)).

(** Number of messages whose intent is unknown. *)
Fixpoint unknown_count (msgs : list inbound) : Z :=
  match msgs with
  | [] => 0
  | m :: rest => (if unknown_intent m then 1 else 0) + unknown_count rest
  end.

(** The conversation exists, and its flow and current node resolve. *)
Definition resolvable (self : Conversation.ConversationFlowService) (cid : string)
    (state : Conversation.ConversationState) : Prop :=
  Conversation._states self !! cid = Some state
  /\ exists flow node,
       Conversation._flows self !! Conversation.flow_id state = Some flow
       /\ Conversation.nodes flow !! Conversation.current_node_id state = Some node.

Definition text_message (now : datetime) (text : string) : inbound :=
  {| in_rng := fun _ => 0%nat; in_now := now; in_text := text |}.

(** A conversation on the standard flow of a service without spintax. *)
Definition conversation_c1 : Conversation.ConversationFlowService :=
  snd (Conversation.start_conversation (Conversation.init 0 None) 0 "c1"
         "standard_outreach" None).

(** A flow whose start node is missing, and a conversation started on it. *)
Definition flow_without_start : Conversation.ConversationFlow :=
  {| Conversation.flow_id_ := "broken"; Conversation.name := "Broken";
     Conversation.description := "start node missing";
     Conversation.nodes := ∅; Conversation.start_node_id := "start";
     Conversation.flow_variables := []; Conversation.platform := "all";
     Conversation.is_active := true; Conversation.created_at := 0 |}.

Definition conversation_on_broken_flow : Conversation.ConversationFlowService :=
  snd (Conversation.start_conversation
         (Conversation.add_flow (Conversation.init 0 None) flow_without_start)
         0 "c2" "broken" None).

(** ** Spintax: calls that use the templates *)

Inductive spintax_call : Type :=
| CallGenerateMessage (rng : nat -> nat) (now : datetime) (template_id : string)
    (variables : PyDict.t string)
| CallRecordSuccess (template_id : string).

Definition spintax_step (self : Spintax.SpintaxService) (call : spintax_call)
  : Spintax.SpintaxService :=
  match call with
  | CallGenerateMessage rng now tid vars =>
      snd (Spintax.generate_message self rng now tid vars)
  | CallRecordSuccess tid => snd (Spintax.record_success self tid)
  end.

Definition spintax_run (self : Spintax.SpintaxService) (calls : list spintax_call)
  : Spintax.SpintaxService :=
  fold_left spintax_step calls self.

(** How many calls of [calls] generate from, or record a success of, the
    template [tid]. *)
Fixpoint generated_from (tid : string) (calls : list spintax_call) : Z :=
  match calls with
  | [] => 0
  | CallGenerateMessage _ _ tid' _ :: rest =>
      (if (tid' =? tid)%string then 1 else 0) + generated_from tid rest
  | CallRecordSuccess _ :: rest => generated_from tid rest
  end.

Fixpoint successes_of (tid : string) (calls : list spintax_call) : Z :=
  match calls with
  | [] => 0
  | CallRecordSuccess tid' :: rest =>
      (if (tid' =? tid)%string then 1 else 0) + successes_of tid rest
  | CallGenerateMessage _ _ _ _ :: rest => successes_of tid rest
  end.

(** The template [t] with [used] more uses and [won] more successes. *)
Definition with_more_counts (t : Spintax.MessageTemplate) (used won : Z)
  : Spintax.MessageTemplate :=
  {| Spintax.id := Spintax.id t; Spintax.name := Spintax.name t;
     Spintax.template := Spintax.template t;
     Spintax.variables := Spintax.variables t;
     Spintax.category := Spintax.category t;
     Spintax.platform := Spintax.platform t;
     Spintax.language := Spintax.language t;
     Spintax.success_count := Spintax.success_count t + won;
     Spintax.total_used := Spintax.total_used t + used;
     Spintax.created_at := Spintax.created_at t |}.

(** ** Scheduler: queue order, cooling, and the executor's use of the limits *)

(** [a] is not behind [b] in the queue: higher priority first, and the
    earlier time first among equal priorities. *)
Definition queue_before (a b : Scheduler.ScheduledAction) : Prop :=
  Scheduler.sa_priority b < Scheduler.sa_priority a
  \/ (Scheduler.sa_priority a = Scheduler.sa_priority b
      /\ Scheduler.sa_scheduled_at a <= Scheduler.sa_scheduled_at b).

(** Every element is not behind any later one. *)
Fixpoint queue_ordered (l : list Scheduler.ScheduledAction) : Prop :=
  match l with
  | [] => True
  | a :: rest => Forall (queue_before a) rest /\ queue_ordered rest
  end.

(** The account is cooling and the deadline has not come. *)
Definition cooling_blocks (state : Scheduler.AccountScheduleState) (now : datetime)
  : Prop :=
  Scheduler.is_cooling state = true
  /\ exists until, Scheduler.cooling_until state = Some until /\ now < until.

(** Calls on a scheduler that an executor shares, made one after another on
    one platform: registrations, coolings, and follows and direct messages
    run through the executor. *)
Inductive scheduler_call :=
| CallRegister (now : datetime) (account : string) (created_at : option datetime)
    (tz : string)
| CallCooling (now : datetime) (account : string) (duration_minutes : Z)
    (reason : option string)
| CallFollow (check_at record_at : datetime) (account : string)
    (performed : result bool)
| CallDm (check_at record_at : datetime) (account : string)
    (performed : result bool).

Definition scheduler_step (str_of_datetime : datetime -> string)
    (format_seconds_0f : Z -> string) (platform : string)
    (self : Scheduler.SmartSchedulerService) (call : scheduler_call)
  : Scheduler.SmartSchedulerService :=
  match call with
  | CallRegister now account created_at tz =>
      snd (Scheduler.register_account self now account created_at tz)
  | CallCooling now account duration_minutes reason =>
      Scheduler.set_account_cooling self now account duration_minutes reason
  | CallFollow check_at record_at account performed =>
      snd (AutomationExecutor.execute_follow str_of_datetime format_seconds_0f
             self check_at record_at account platform performed)
  | CallDm check_at record_at account performed =>
      snd (AutomationExecutor.execute_dm str_of_datetime format_seconds_0f
             self check_at record_at account platform performed)
  end.

Definition scheduler_run (str_of_datetime : datetime -> string)
    (format_seconds_0f : Z -> string) (platform : string)
    (self : Scheduler.SmartSchedulerService) (calls : list scheduler_call)
  : Scheduler.SmartSchedulerService :=
  fold_left (scheduler_step str_of_datetime format_seconds_0f platform) calls self.

(** Every counter of an action that has a limit on [platform] is at most
    the limit the account's age gives it, or zero when that is negative. *)
Definition counters_bounded (platform : string)
    (self : Scheduler.SmartSchedulerService) : Prop :=
  forall account state action config,
    Scheduler._account_states self !! account = Some state ->
    default ∅ (Scheduler._rate_limits self !! platform) !! action = Some config ->
    (forall hourly_limit,
        Scheduler.get_limit_for_age config (Scheduler.age_category state) "hourly"
          = Ok hourly_limit ->
        default 0 (Scheduler.hourly_actions state !! action)
          <= Z.max 0 hourly_limit)
    /\ (forall daily_limit,
        Scheduler.get_limit_for_age config (Scheduler.age_category state) "daily"
          = Ok daily_limit ->
        default 0 (Scheduler.daily_actions state !! action)
          <= Z.max 0 daily_limit).

(** [n] follows for acc1 through the executor, two minutes apart, each
    checked and recorded at the same instant and each performed well. *)
Definition follows_every_two_minutes (n : nat) : list scheduler_call :=
  map (fun i => CallFollow (timedelta_minutes (2 * Z.of_nat i))
                  (timedelta_minutes (2 * Z.of_nat i)) "acc1" (Ok true))
      (seq 0 n).

(** A queue of two follows: a1 with priority 1 at time 0, a2 with priority 0
    five seconds later. *)
Definition scheduler_with_two_actions : Scheduler.SmartSchedulerService :=
  let first :=
    snd (Scheduler.schedule_action Scheduler.init 0 "a1" Scheduler.FOLLOW "acc1"
           "u1" None (Some 0) 1) in
  snd (Scheduler.schedule_action first 0 "a2" Scheduler.FOLLOW "acc1" "u2" None
         (Some (timedelta_seconds 5)) 0).

(** The minimum interval of [config] has passed at [t] since the last
    [action] of the account, if there was one. *)
Definition interval_met (state : Scheduler.AccountScheduleState)
    (action : Scheduler.ActionType) (config : Scheduler.RateLimitConfig)
    (t : datetime) : Prop :=
  forall last,
    Scheduler.last_action_at state !! action = Some last ->
    timedelta_seconds (Scheduler.min_interval_seconds config) <= t - last.

(** ** Proxy pool: runs and counts *)

(** Calls on a pool, made one after another. *)
Inductive pool_call :=
| PoolAdd (proxy : ProxyPool.ProxyConfig)
| PoolRemove (proxy_id : string)
| PoolAvailable (now : datetime) (country : option string)
    (quality : option ProxyPool.ProxyQuality) (exclude_assigned : bool)
| PoolBest (now : datetime) (country : option string)
    (quality : option ProxyPool.ProxyQuality)
| PoolRandom (now : datetime) (r : nat) (country : option string)
    (quality : option ProxyPool.ProxyQuality)
| PoolAssign (now : datetime) (account : string) (proxy_id country : option string)
| PoolRelease (account : string)
| PoolRotate (now : datetime) (account : string) (country : option string)
| PoolCheckHealth (proxy_id : string) (start_time finish : datetime)
    (probe : result string)
| PoolBan (proxy_id : string).

Definition pool_step (self : ProxyPool.ProxyPoolService) (call : pool_call)
  : ProxyPool.ProxyPoolService :=
  match call with
  | PoolAdd proxy => ProxyPool.add_proxy self proxy
  | PoolRemove proxy_id => snd (ProxyPool.remove_proxy self proxy_id)
  | PoolAvailable now country quality exclude_assigned =>
      snd (ProxyPool.get_available_proxies self now country quality exclude_assigned)
  | PoolBest now country quality =>
      snd (ProxyPool.get_best_proxy self now country quality)
  | PoolRandom now r country quality =>
      snd (ProxyPool.get_random_proxy self now r country quality)
  | PoolAssign now account proxy_id country =>
      snd (ProxyPool.assign_proxy_to_account self now account proxy_id country)
  | PoolRelease account => snd (ProxyPool.release_account_proxy self account)
  | PoolRotate now account country =>
      snd (ProxyPool.rotate_account_proxy self now account country)
  | PoolCheckHealth proxy_id start_time finish probe =>
      snd (ProxyPool.check_proxy_health self proxy_id start_time finish probe)
  | PoolBan proxy_id => snd (ProxyPool.mark_proxy_banned self proxy_id)
  end.

Definition pool_run (self : ProxyPool.ProxyPoolService) (calls : list pool_call)
  : ProxyPool.ProxyPoolService :=
  fold_left pool_step calls self.

(** Every key of the pool occurs once, and each proxy is stored under its
    own id. *)
Definition pool_keyed (self : ProxyPool.ProxyPoolService) : Prop :=
  List.NoDup (PyDict.keys (ProxyPool._proxies self))
  /\ forall k p, In (k, p) (ProxyPool._proxies self) -> ProxyPool.id p = k.

(** Every proxy id an account is mapped to is a key of the pool. *)
Definition pool_mapped (self : ProxyPool.ProxyPoolService) : Prop :=
  forall account pid,
    ProxyPool._account_proxy_map self !! account = Some pid ->
    PyDict.contains (ProxyPool._proxies self) pid = true.

(** The number of proxies of the pool that satisfy [f]. *)
Definition count_proxies (f : ProxyPool.ProxyConfig -> bool)
    (self : ProxyPool.ProxyPoolService) : Z :=
  Z.of_nat (length (List.filter f (PyDict.values (ProxyPool._proxies self)))).

Definition is_assigned (p : ProxyPool.ProxyConfig) : bool :=
  truthy_str (ProxyPool.assigned_to_account_id p).

Definition has_status (st : ProxyPool.ProxyStatus) (p : ProxyPool.ProxyConfig)
  : bool :=
  ProxyPool.status_eqb (ProxyPool.status p) st.

Definition has_quality (q : ProxyPool.ProxyQuality) (p : ProxyPool.ProxyConfig)
  : bool :=
  ProxyPool.quality_eqb (ProxyPool.quality p) q.

(** [call] neither replaces, removes nor health-checks the proxy
    [proxy_id]. *)
Definition leaves_proxy_alone (proxy_id : string) (call : pool_call) : bool :=
  match call with
  | PoolAdd proxy => negb (ProxyPool.id proxy =? proxy_id)%string
  | PoolRemove removed => negb (removed =? proxy_id)%string
  | PoolCheckHealth checked _ _ _ => negb (checked =? proxy_id)%string
  | _ => true
  end.

(** p1 after two failed health checks. *)
Definition pool_p1_failed_twice : ProxyPool.ProxyPoolService :=
  pool_run (ProxyPool.add_proxy ProxyPool.init (plain_proxy "p1"))
    [PoolCheckHealth "p1" 0 (timedelta_seconds 1) (Raise (Exception "timeout"));
     PoolCheckHealth "p1" (timedelta_seconds 60) (timedelta_seconds 61)
       (Raise (Exception "timeout"))].

(** The proxy [pid] is still stored, and still banned if it was. *)
Definition ban_kept (pid : string) (before after : ProxyPool.ProxyPoolService)
  : Prop :=
  forall p,
    ProxyPool.get_proxy before pid = Some p ->
    exists p',
      ProxyPool.get_proxy after pid = Some p'
      /\ (ProxyPool.status p = ProxyPool.BANNED ->
          ProxyPool.status p' = ProxyPool.BANNED).

(** ** Proxy pool: the order of floats *)

Definition is_nan (x : float) : bool :=
  match x with S754_nan => true | _ => false end.

(** Integers whose lexicographic order is the order of two floats that are
    not NaN: the class (negative infinity, negative, zero, positive,
    positive infinity), then exponent and mantissa, both negated for the
    negative numbers. *)
Definition float_rank (x : float) : Z * Z * Z :=
  match x with
  | S754_zero _ | S754_nan => (0, 0, 0)
  | S754_infinity false => (2, 0, 0)
  | S754_infinity true => (-2, 0, 0)
  | S754_finite false m e => (1, e, Z.pos m)
  | S754_finite true m e => (-1, - e, - Z.pos m)
  end.

Definition rank_lt (a b : Z * Z * Z) : Prop :=
  let '(a1, a2, a3) := a in
  let '(b1, b2, b3) := b in
  a1 < b1 \/ (a1 = b1 /\ (a2 < b2 \/ (a2 = b2 /\ a3 < b3))).

(** Neither metric of the proxy is NaN. *)
Definition metrics_known (p : ProxyPool.ProxyConfig) : bool :=
  negb (is_nan (ProxyPool.success_rate p))
  && negb (is_nan (ProxyPool.avg_response_time_ms p)).

(** [p] goes before [q] under the sort key: a higher success rate, or the
    same rate and a lower response time. *)
Definition better_proxy (p q : ProxyPool.ProxyConfig) : Prop :=
  rank_lt (float_rank (ProxyPool.success_rate q))
    (float_rank (ProxyPool.success_rate p))
  \/ (float_rank (ProxyPool.success_rate p) = float_rank (ProxyPool.success_rate q)
      /\ rank_lt (float_rank (ProxyPool.avg_response_time_ms p))
           (float_rank (ProxyPool.avg_response_time_ms q))).

(** Two pools of three proxies that differ in their metrics. *)
Definition proxy_with_metrics (pid : string) (rate_percent response_ms : Z)
  : ProxyPool.ProxyConfig :=
  ProxyPool.with_metrics (plain_proxy pid) ProxyPool.ACTIVE
    (float_literal response_ms 1) (float_literal rate_percent 100) 10 0 None None.

Definition pool_of_three : ProxyPool.ProxyPoolService :=
  pool_run ProxyPool.init
    [PoolAdd (proxy_with_metrics "p1" 90 120);
     PoolAdd (proxy_with_metrics "p2" 100 300);
     PoolAdd (proxy_with_metrics "p3" 100 250)].

(** ** Follow-back detector: life cycle *)

(** What the fields of a registered relationship tell about one another. *)
Definition relationship_consistent (rel : FollowBack.FollowRelationship) : Prop :=
  FollowBack.id rel
  = FollowBack.make_relationship_id (FollowBack.sub_account_id rel)
      (FollowBack.target_user_id rel)
  /\ FollowBack.followed_at rel <> None
  /\ FollowBack.timeout_at rel <> None
  /\ (FollowBack.status rel = FollowBack.MUTUAL ->
      FollowBack.follow_back_at rel <> None)
  /\ (FollowBack.status rel = FollowBack.NOT_FOLLOWING ->
      FollowBack.unfollow_at rel <> None)
  /\ FollowBack.status rel <> FollowBack.BLOCKED
  /\ 0 <= FollowBack.check_count rel
  /\ (FollowBack.check_count rel = 0 <-> FollowBack.last_checked_at rel = None).

(** The number of mutual relationships in the registry. *)
Definition count_mutual (self : FollowBack.FollowBackDetectorService) : Z :=
  Z.of_nat
    (length
       (List.filter
          (fun rel => FollowBack.status_eqb (FollowBack.status rel) FollowBack.MUTUAL)
          (PyDict.values (FollowBack._relationships self)))).

(** ** Conversation flow: loops and escalation *)

(** A flow whose start node waits and names itself as the next node. *)
Definition flow_waiting_forever : Conversation.ConversationFlow :=
  {| Conversation.flow_id_ := "waiting"; Conversation.name := "Waiting";
     Conversation.description := "a delay that leads to itself";
     Conversation.nodes :=
       {[ "start" := Conversation.mkNode "start" Conversation.DELAY None None 60 []
                       (Some "start") ]};
     Conversation.start_node_id := "start";
     Conversation.flow_variables := []; Conversation.platform := "all";
     Conversation.is_active := true; Conversation.created_at := 0 |}.


(** c1 after a greeting: the conversation is at the opening message. *)
Definition conversation_c1_greeted : Conversation.ConversationFlowService :=
  snd (Conversation.process_message conversation_c1 (fun _ => 0%nat) 1 "c1" "hello").

(** * Properties *)

(** ** Ordered dictionaries *)

Lemma PyDict_get_set_same {V} (d : PyDict.t V) k v :
  PyDict.get (PyDict.set d k v) k = Some v.
Proof.
  induction d as [|[k' v'] d IH]; simpl.
  - now rewrite String.eqb_refl.
  - destruct (k' =? k)%string eqn:E; simpl; now rewrite E.
Qed.

Lemma PyDict_get_set_other {V} (d : PyDict.t V) k k' v :
  k <> k' -> PyDict.get (PyDict.set d k v) k' = PyDict.get d k'.
Proof.
  intros Hne. induction d as [|[k0 v0] d IH]; simpl.
  - destruct (k =? k')%string eqn:E; [apply String.eqb_eq in E; congruence | reflexivity].
  - destruct (k0 =? k)%string eqn:E; simpl.
    + apply String.eqb_eq in E; subst k0.
      destruct (k =? k')%string eqn:E'; [apply String.eqb_eq in E'; congruence | reflexivity].
    + now rewrite IH.
Qed.

Lemma PyDict_get_set {V} (d : PyDict.t V) k k' v :
  PyDict.get (PyDict.set d k v) k' = if (k =? k')%string then Some v else PyDict.get d k'.
Proof.
  destruct (k =? k')%string eqn:E.
  - apply String.eqb_eq in E; subst. apply PyDict_get_set_same.
  - apply String.eqb_neq in E. now apply PyDict_get_set_other.
Qed.

(** ** Spintax: substitution and spinning *)

Lemma spin_loop_step fuel rng i text :
  Spintax.spin_loop (S fuel) rng i text =
  match Spintax.SPINTAX_search text with
  | None => text
  | Some (pre, body, post) =>
      Spintax.spin_loop fuel rng (S i)
        (pre +:+ random_choice (rng i) (str_split "|" body) +:+ post)
  end.
Proof. reflexivity. Qed.

Lemma random_choice_pair r a b :
  random_choice r [a; b] = if Nat.even r then a else b.
Proof.
  unfold random_choice. change (List.length [a; b]) with 2%nat.
  rewrite <- Nat.bit0_mod, Nat.bit0_odd, <- Nat.negb_even.
  destruct (Nat.even r); reflexivity.
Qed.

Ltac spin_step :=
  rewrite spin_loop_step;
  match goal with
  | |- context [Spintax.SPINTAX_search ?t] =>
      let v := eval vm_compute in (Spintax.SPINTAX_search t) in
      change (Spintax.SPINTAX_search t) with v
  end;
  cbv beta iota;
  repeat match goal with
  | |- context [str_split ?c ?t] =>
      let v := eval vm_compute in (str_split c t) in
      change (str_split c t) with v
  end.

Lemma spin_A_B_C_D rng :
  Spintax.spin rng "{A|B} {C|D}" =
  (if Nat.even (rng 0%nat) then "A" else "B") +:+ " "
  +:+ (if Nat.even (rng 1%nat) then "C" else "D").
Proof.
  unfold Spintax.spin, Spintax.max_iterations.
  spin_step. rewrite random_choice_pair.
  destruct (Nat.even (rng 0%nat)); cbn [String.app];
    spin_step; rewrite random_choice_pair;
    destruct (Nat.even (rng 1%nat)); reflexivity.
Qed.

(** C1 (as amended).  [generate_message] substitutes the variables first and
    then spins the whole substituted text, so spintax inside a substituted
    value is resolved like the template's own: on the template "{A|B} [x]"
    with x bound to "{C|D}" the content is "A C", "A D", "B C" or "B D" (the
    first draw picks A or B, the second C or D) and keeps none of the braces
    of the value. *)
Theorem generate_message_spins_substituted_values :
  forall (svc : Spintax.SpintaxService) (rng : nat -> nat) (now : datetime)
         (tid : string) (t : Spintax.MessageTemplate) (vars : PyDict.t string),
    Spintax._templates svc !! tid = Some t ->
    exists msg,
      fst (Spintax.generate_message svc rng now tid vars) = Some msg
      /\ Spintax.content msg
         = Spintax.spin rng (Spintax.replace_variables (Spintax.template t) vars)
      /\ (Spintax.template t = "{A|B} [x]" -> vars = [("x", "{C|D}")] ->
          Spintax.content msg
          = (if Nat.even (rng 0%nat) then "A" else "B") +:+ " "
            +:+ (if Nat.even (rng 1%nat) then "C" else "D")
          /\ In (Spintax.content msg) ["A C"; "A D"; "B C"; "B D"]
          /\ has_brace (Spintax.content msg) = false).
Proof.
  intros svc rng now tid t vars Hget.
  unfold Spintax.generate_message. rewrite Hget.
  eexists. split; [reflexivity|]. split; [reflexivity|].
  intros Ht Hv. cbn [Spintax.content fst]. rewrite Ht, Hv.
  change (Spintax.replace_variables "{A|B} [x]" [("x", "{C|D}")])
    with "{A|B} {C|D}".
  rewrite spin_A_B_C_D.
  destruct (Nat.even (rng 0%nat)), (Nat.even (rng 1%nat));
    (split; [reflexivity|]); (split; [|reflexivity]); cbn; auto.
Qed.

Lemma generate_message_spins_substituted_values_witness :
  exists msg,
    fst (Spintax.generate_message service_with_A_B_x (fun _ => 1%nat) 0 "t"
           [("x", "{C|D}")]) = Some msg
    /\ Spintax.content msg = "B D".
Proof.
  destruct (generate_message_spins_substituted_values
              service_with_A_B_x (fun _ => 1%nat) 0 "t"
              (Spintax.with_extracted_variables template_A_B_x) [("x", "{C|D}")])
    as [msg [Hm [_ Hc]]].
  - vm_compute. reflexivity.
  - exists msg. split; [exact Hm|].
    destruct (Hc eq_refl eq_refl) as [Hc' _]. exact Hc'.
Defined.

(** C1, as the specification states it, fails: with every draw 0 the
    content is "A C"; the value "{C|D}" of x has been spun. *)
Lemma generate_message_respins_value :
  option_map Spintax.content
    (fst (Spintax.generate_message service_with_A_B_x (fun _ => 0%nat) 0 "t"
            [("x", "{C|D}")])) = Some "A C"
  /\ "A C" <> "A {C|D}" /\ "A C" <> "B {C|D}".
Proof. split; [vm_compute; reflexivity|]. split; discriminate. Qed.

(** ** Spintax: spinning well-nested templates *)

Lemma sapp_nil (b : string) : "" +:+ b = b.
Proof. reflexivity. Qed.

Lemma sapp_cons (c : ascii) (a b : string) : String c a +:+ b = String c (a +:+ b).
Proof. reflexivity. Qed.

Lemma is_brace_cases c :
  Spintax.is_brace c = true -> c = "{"%char \/ c = "}"%char.
Proof.
  unfold Spintax.is_brace. intros H. apply orb_true_iff in H.
  destruct H as [H|H]; apply Ascii.eqb_eq in H; auto.
Qed.

Lemma not_brace_neq c :
  Spintax.is_brace c = false -> (c =? "{")%char = false /\ (c =? "}")%char = false.
Proof. unfold Spintax.is_brace. intros H. now apply orb_false_iff in H. Qed.

Lemma span_no_brace_spec s body rest :
  Spintax.span_no_brace s = (body, rest) ->
  s = body +:+ rest /\ brace_free body = true
  /\ match rest with
     | "" => True
     | String c _ => Spintax.is_brace c = true
     end.
Proof.
  revert body rest. induction s as [|c s IH]; intros body rest; simpl.
  - intros [= <- <-]. auto.
  - destruct (Spintax.is_brace c) eqn:Hc.
    + intros [= <- <-]. rewrite sapp_nil. rewrite Hc. auto.
    + destruct (Spintax.span_no_brace s) as [b r]. intros [= <- <-].
      destruct (IH b r eq_refl) as (-> & Hb & Hr).
      rewrite sapp_cons. simpl. rewrite Hc, Hb. auto.
Qed.

Lemma group_after_open_spec s body post :
  Spintax.group_after_open s = Some (body, post) ->
  s = body +:+ String "}" post /\ body <> "" /\ brace_free body = true.
Proof.
  unfold Spintax.group_after_open.
  destruct (Spintax.span_no_brace s) as [b r] eqn:Hs.
  apply span_no_brace_spec in Hs. destruct Hs as (-> & Hb & _).
  destruct b as [|c b]; [discriminate|].
  destruct r as [|c' r]; [discriminate|].
  destruct (Ascii.eqb_spec c' "}"); [|destruct c' as [[] [] [] [] [] [] [] []]; try discriminate; congruence].
  subst c'. intros [= <- <-]. auto.
Qed.

Lemma SPINTAX_search_sound s pre body post :
  Spintax.SPINTAX_search s = Some (pre, body, post) ->
  s = pre +:+ String "{" (body +:+ String "}" post)
  /\ body <> "" /\ brace_free body = true.
Proof.
  revert pre. induction s as [|c s IH]; intros pre; simpl; [discriminate|].
  destruct (if (c =? "{")%char then Spintax.group_after_open s else None)
    as [[b p]|] eqn:Hg.
  - intros [= <- <- <-].
    destruct (Ascii.eqb_spec c "{"); [|discriminate]. subst c.
    apply group_after_open_spec in Hg. destruct Hg as (-> & Hb & Hf).
    rewrite sapp_nil. auto.
  - destruct (Spintax.SPINTAX_search s) as [[[pre' b'] p']|]; [|discriminate].
    intros [= <- <- <-].
    destruct (IH pre' eq_refl) as (-> & Hb & Hf). rewrite sapp_cons. auto.
Qed.

Lemma contains_app ch a b :
  str_contains_char ch (a +:+ b) = str_contains_char ch a || str_contains_char ch b.
Proof.
  induction a as [|c a IH]; [reflexivity|].
  rewrite sapp_cons. simpl. rewrite IH. now rewrite orb_assoc.
Qed.

Lemma brace_free_no_close s :
  brace_free s = true -> str_contains_char "}" s = false.
Proof.
  induction s as [|c s IH]; simpl; [reflexivity|].
  intros H. apply andb_true_iff in H. destruct H as [Hc Hs].
  apply negb_true_iff in Hc. apply not_brace_neq in Hc. destruct Hc as [_ Hc].
  rewrite Hc. simpl. auto.
Qed.

Lemma brace_free_no_open s :
  brace_free s = true -> str_contains_char "{" s = false.
Proof.
  induction s as [|c s IH]; simpl; [reflexivity|].
  intros H. apply andb_true_iff in H. destruct H as [Hc Hs].
  apply negb_true_iff in Hc. apply not_brace_neq in Hc. destruct Hc as [Hc _].
  rewrite Hc. simpl. auto.
Qed.

Lemma open_then_close_app_r a b :
  open_then_close b = true -> open_then_close (a +:+ b) = true.
Proof.
  intros Hb. induction a as [|c a IH]; [exact Hb|].
  rewrite sapp_cons. simpl. rewrite IH. apply orb_true_r.
Qed.

Lemma nesting_app d a b :
  nesting d (a +:+ b) =
  match nesting d a with
  | Some d' => nesting d' b
  | None => None
  end.
Proof.
  revert d. induction a as [|c a IH]; intros d; [reflexivity|].
  rewrite sapp_cons. simpl.
  destruct (c =? "{")%char; [apply IH|].
  destruct (c =? "}")%char; [|apply IH].
  destruct d; [reflexivity|apply IH].
Qed.

Lemma nesting_brace_free d s : brace_free s = true -> nesting d s = Some d.
Proof.
  induction s as [|c s IH]; simpl; [reflexivity|].
  intros H. apply andb_true_iff in H. destruct H as [Hc Hs].
  apply negb_true_iff in Hc. apply not_brace_neq in Hc. destruct Hc as [-> ->].
  auto.
Qed.

Lemma nesting_counts d s d' :
  nesting d s = Some d' ->
  (d' + str_count "}" s = d + str_count "{" s)%nat.
Proof.
  revert d. induction s as [|c s IH]; intros d; simpl.
  - intros [= ->]. lia.
  - destruct (Ascii.eqb_spec c "{") as [->|Ho].
    + simpl. intros H. apply IH in H. lia.
    + destruct (Ascii.eqb_spec c "}") as [->|Hc].
      * destruct d; [discriminate|]. intros H. apply IH in H. lia.
      * intros H. apply IH in H. lia.
Qed.

Lemma nesting_descends d s d' :
  nesting d s = Some d' -> (d' < d)%nat -> str_contains_char "}" s = true.
Proof.
  revert d. induction s as [|c s IH]; intros d; simpl.
  - intros [= ->]. lia.
  - destruct (Ascii.eqb_spec c "}") as [->|Hc]; [reflexivity|].
    simpl. destruct (c =? "{")%char; intros H Hlt; eapply IH; eauto; lia.
Qed.

Lemma nesting_open_then_close d s :
  nesting d s = Some 0%nat -> str_contains_char "{" s = true ->
  open_then_close s = true.
Proof.
  revert d. induction s as [|c s IH]; intros d; simpl; [discriminate|].
  destruct (Ascii.eqb_spec c "{") as [->|Ho].
  - intros H _. simpl. erewrite nesting_descends; eauto. lia.
  - simpl. destruct (c =? "}")%char.
    + destruct d; [discriminate|]. intros H Hc. eapply IH; eauto.
    + intros H Hc. eapply IH; eauto.
Qed.

Lemma count_app ch a b :
  str_count ch (a +:+ b) = (str_count ch a + str_count ch b)%nat.
Proof.
  induction a as [|c a IH]; [reflexivity|].
  rewrite sapp_cons. simpl. rewrite IH. lia.
Qed.

Lemma count_zero_contains ch s :
  str_count ch s = 0%nat -> str_contains_char ch s = false.
Proof.
  induction s as [|c s IH]; simpl; [reflexivity|].
  destruct (c =? ch)%char; [discriminate|]. simpl. auto.
Qed.

Lemma count_pos_contains ch s :
  (0 < str_count ch s)%nat -> str_contains_char ch s = true.
Proof.
  induction s as [|c s IH]; simpl; [lia|].
  destruct (c =? ch)%char; [reflexivity|]. simpl. auto.
Qed.

Lemma brace_free_count_open s : brace_free s = true -> str_count "{" s = 0%nat.
Proof.
  induction s as [|c s IH]; simpl; [reflexivity|].
  intros H. apply andb_true_iff in H. destruct H as [Hc Hs].
  apply negb_true_iff in Hc. apply not_brace_neq in Hc. destruct Hc as [-> _].
  simpl. auto.
Qed.

Lemma random_choice_in r h t : In (random_choice r (h :: t)) (h :: t).
Proof.
  unfold random_choice. apply nth_In. apply Nat.mod_upper_bound. discriminate.
Qed.

Lemma str_split_nonempty sep s : exists h t, str_split sep s = h :: t.
Proof.
  induction s as [|c s (h & t & IH)]; simpl; [eauto|].
  destruct (c =? sep)%char; [eauto|]. rewrite IH. eauto.
Qed.

Lemma str_split_brace_free sep s :
  brace_free s = true ->
  Forall (fun o => brace_free o = true) (str_split sep s).
Proof.
  induction s as [|c s IH]; simpl.
  - intros _. repeat constructor.
  - intros H. apply andb_true_iff in H. destruct H as [Hc Hs].
    specialize (IH Hs).
    destruct (c =? sep)%char; [constructor; [reflexivity|exact IH]|].
    destruct (str_split sep s) as [|h t]; [repeat constructor; simpl; now rewrite Hc|].
    apply Forall_cons in IH. destruct IH as [Hh Ht].
    constructor; [simpl; now rewrite Hc, Hh|exact Ht].
Qed.

Lemma brace_free_count_close s : brace_free s = true -> str_count "}" s = 0%nat.
Proof.
  induction s as [|c s IH]; simpl; [reflexivity|].
  intros H. apply andb_true_iff in H. destruct H as [Hc Hs].
  apply negb_true_iff in Hc. apply not_brace_neq in Hc. destruct Hc as [_ ->].
  simpl. auto.
Qed.

Lemma random_choice_brace_free r body :
  brace_free body = true ->
  brace_free (random_choice r (str_split "|" body)) = true.
Proof.
  intros Hbf. pose proof (str_split_brace_free "|" body Hbf) as Hall.
  destruct (str_split_nonempty "|" body) as (h & t & Hs). rewrite Hs in *.
  rewrite List.Forall_forall in Hall. apply Hall, random_choice_in.
Qed.

Lemma spin_loop_removes_pairs fuel : forall rng i s,
  exists k,
    (k <= fuel)%nat
    /\ (str_count "{" (Spintax.spin_loop fuel rng i s) + k = str_count "{" s)%nat
    /\ (str_count "}" (Spintax.spin_loop fuel rng i s) + k = str_count "}" s)%nat.
Proof.
  induction fuel as [|fuel IH]; intros rng i s.
  - exists 0%nat. simpl. lia.
  - rewrite spin_loop_step.
    destruct (Spintax.SPINTAX_search s) as [[[pre body] post]|] eqn:Hs.
    + apply SPINTAX_search_sound in Hs. destruct Hs as (-> & _ & Hbf).
      pose proof (random_choice_brace_free (rng i) body Hbf) as Hch.
      set (chosen := random_choice (rng i) (str_split "|" body)) in *.
      destruct (IH rng (S i) (pre +:+ chosen +:+ post)) as (k & Hk & Ho & Hc).
      exists (S k). split; [lia|].
      rewrite !count_app in Ho, Hc.
      rewrite (brace_free_count_open _ Hch) in Ho.
      rewrite (brace_free_count_close _ Hch) in Hc.
      rewrite !count_app. simpl. rewrite !count_app. simpl.
      rewrite (brace_free_count_open _ Hbf), (brace_free_count_close _ Hbf).
      lia.
    + exists 0%nat. lia.
Qed.

Lemma read_char_plain groups c :
  Spintax.is_brace c = false -> (c =? "|")%char = false ->
  read_char groups c = Some (extend_alternative false groups).
Proof.
  intros Hb Hp. apply not_brace_neq in Hb. destruct Hb as [Ho Hc].
  unfold read_char. now rewrite Ho, Hc, Hp.
Qed.

Lemma extend_alternative_true groups : extend_alternative true groups = groups.
Proof.
  destruct groups as [|[p a e] outer]; [reflexivity|].
  simpl. now rewrite andb_true_r.
Qed.

Lemma extend_alternative_false_twice v groups :
  extend_alternative v (extend_alternative false groups)
  = extend_alternative false groups.
Proof. destruct groups as [|[p a e] outer]; [reflexivity|]. simpl. now rewrite andb_false_r. Qed.

(** Reading a text without braces and pipes. *)
Lemma bodies_remain_plain chosen : forall groups post,
  plain chosen = true ->
  bodies_remain groups (chosen +:+ post)
  = bodies_remain (extend_alternative (is_empty chosen) groups) post.
Proof.
  induction chosen as [|c chosen IH]; intros groups post H.
  - simpl. now rewrite extend_alternative_true.
  - simpl in H. apply andb_true_iff in H. destruct H as [H Hs].
    apply andb_true_iff in H. destruct H as [Hb Hp].
    apply negb_true_iff in Hb, Hp.
    rewrite sapp_cons. simpl. rewrite (read_char_plain _ _ Hb Hp), (IH _ _ Hs).
    now rewrite extend_alternative_false_twice.
Qed.

(** Reading the body of an innermost group and its closing brace. *)
Lemma bodies_remain_body body : forall g outer post h t,
  brace_free body = true ->
  str_split "|" body = h :: t ->
  bodies_remain (g :: outer) (body +:+ String "}" post)
  = if body_can_vanish g && is_empty body then false
    else bodies_remain
           (extend_alternative
              (earlier_can_vanish g
               || (alternative_can_vanish g && is_empty h)
               || existsb is_empty t) outer) post.
Proof.
  induction body as [|c body IH]; intros g outer post h t Hbf Hsplit.
  - simpl in Hsplit. injection Hsplit as <- <-.
    rewrite sapp_nil. simpl. unfold read_char. simpl.
    rewrite !andb_true_r, orb_false_r. unfold group_can_vanish.
    destruct (body_can_vanish g); reflexivity.
  - simpl in Hbf. apply andb_true_iff in Hbf. destruct Hbf as [Hc Hbf].
    apply negb_true_iff in Hc.
    rewrite sapp_cons. cbn [bodies_remain is_empty]. rewrite andb_false_r.
    simpl in Hsplit.
    destruct (Ascii.eqb_spec c "|") as [->|Hp].
    + injection Hsplit as <- <-.
      destruct (str_split_nonempty "|" body) as (h' & t' & Hs').
      change (read_char (g :: outer) "|")
        with (Some ({| piped := true; alternative_can_vanish := true;
                       earlier_can_vanish := group_can_vanish g |} :: outer)).
      cbv beta iota. rewrite (IH _ outer post h' t' Hbf Hs'). rewrite Hs'.
      unfold body_can_vanish, group_can_vanish. simpl.
      rewrite andb_true_r, !orb_assoc. reflexivity.
    + assert (Hp' : (c =? "|")%char = false) by (now apply Ascii.eqb_neq).
      rewrite (read_char_plain _ _ Hc Hp'). cbn [extend_alternative].
      destruct (str_split "|" body) as [|h' t'] eqn:Hs'.
      { destruct (str_split_nonempty "|" body) as (? & ? & ?). congruence. }
      injection Hsplit as <- <-.
      cbv beta iota. rewrite (IH _ outer post h' t' Hbf eq_refl).
      unfold body_can_vanish. simpl.
      rewrite ?andb_false_r. simpl. rewrite ?andb_false_r, ?orb_false_r. reflexivity.
Qed.

Lemma str_split_plain s :
  brace_free s = true -> Forall (fun o => plain o = true) (str_split "|" s).
Proof.
  induction s as [|c s IH]; simpl.
  - intros _. repeat constructor.
  - intros H. apply andb_true_iff in H. destruct H as [Hc Hs].
    specialize (IH Hs).
    destruct (Ascii.eqb_spec c "|") as [->|Hp]; [constructor; [reflexivity|exact IH]|].
    assert (Hp' : (c =? "|")%char = false) by (now apply Ascii.eqb_neq).
    destruct (str_split "|" s) as [|h t]; [repeat constructor; simpl; now rewrite Hc, Hp'|].
    apply Forall_cons in IH. destruct IH as [Hh Ht].
    constructor; [simpl; now rewrite Hc, Hp', Hh|exact Ht].
Qed.

(** A group found by the pattern, read as a whole. *)
Lemma bodies_remain_group groups body post :
  brace_free body = true -> body <> "" ->
  bodies_remain groups (String "{" (body +:+ String "}" post))
  = bodies_remain
      (extend_alternative (existsb is_empty (str_split "|" body)) groups) post.
Proof.
  intros Hbf Hne.
  destruct (str_split_nonempty "|" body) as (h & t & Hs).
  change (bodies_remain groups (String "{" (body +:+ String "}" post)))
    with (bodies_remain (just_opened :: groups) (body +:+ String "}" post)).
  rewrite (bodies_remain_body body _ _ _ h t Hbf Hs), Hs.
  destruct body; [congruence|]. simpl. rewrite ?andb_false_r. reflexivity.
Qed.

Lemma extend_alternative_le v1 v2 gs1 gs2 :
  (v1 = true -> v2 = true) ->
  Forall2 group_le gs1 gs2 ->
  Forall2 group_le (extend_alternative v1 gs1) (extend_alternative v2 gs2).
Proof.
  intros Hv Hle. destruct Hle as [|g1 g2 o1 o2 (Hp & Ha & He) Hle]; [constructor|].
  simpl. constructor; [|exact Hle].
  unfold group_le. simpl. split; [exact Hp|]. split; [|exact He].
  intros H. apply andb_true_iff in H. destruct H as [H1 H2].
  apply andb_true_iff. auto.
Qed.

Lemma group_le_refl gs : Forall2 group_le gs gs.
Proof. induction gs; constructor; [unfold group_le; auto|assumption]. Qed.

Lemma read_char_le c gs1 gs2 gs2' :
  Forall2 group_le gs1 gs2 ->
  read_char gs2 c = Some gs2' ->
  exists gs1', read_char gs1 c = Some gs1' /\ Forall2 group_le gs1' gs2'.
Proof.
  intros Hle. unfold read_char.
  destruct (c =? "{")%char.
  { intros [= <-]. eexists. split; [reflexivity|].
    constructor; [unfold group_le; auto|exact Hle]. }
  destruct (c =? "}")%char.
  { destruct Hle as [|g1 g2 o1 o2 (Hp & Ha & He) Hle].
    - intros [= <-]. eexists. split; [reflexivity|constructor].
    - destruct (body_can_vanish g2) eqn:Hb2; [discriminate|]. intros [= <-].
      assert (Hb1 : body_can_vanish g1 = false).
      { unfold body_can_vanish in *. rewrite Hp.
        destruct (piped g2); [reflexivity|]. simpl in *.
        destruct (alternative_can_vanish g1); [|reflexivity].
        rewrite Ha in Hb2; [discriminate|reflexivity]. }
      rewrite Hb1. eexists. split; [reflexivity|].
      apply extend_alternative_le; [|exact Hle].
      unfold group_can_vanish. intros H. apply orb_true_iff in H.
      apply orb_true_iff. destruct H; auto. }
  destruct (c =? "|")%char.
  { destruct Hle as [|g1 g2 o1 o2 (Hp & Ha & He) Hle].
    - intros [= <-]. eexists. split; [reflexivity|constructor].
    - intros [= <-]. eexists. split; [reflexivity|].
      constructor; [|exact Hle]. unfold group_le. simpl.
      split; [reflexivity|]. split; [auto|].
      unfold group_can_vanish. intros H. apply orb_true_iff in H.
      apply orb_true_iff. destruct H; auto. }
  intros [= <-]. eexists. split; [reflexivity|].
  apply extend_alternative_le; [auto|exact Hle].
Qed.

Lemma bodies_remain_le s : forall gs1 gs2,
  Forall2 group_le gs1 gs2 ->
  bodies_remain gs2 s = true -> bodies_remain gs1 s = true.
Proof.
  induction s as [|c s IH]; intros gs1 gs2 Hle; simpl; [reflexivity|].
  destruct (read_char gs2 c) as [gs2'|] eqn:H2; [|discriminate].
  destruct (read_char_le c gs1 gs2 gs2' Hle H2) as (gs1' & -> & Hle').
  now apply IH.
Qed.

Lemma existsb_is_empty_in o l :
  In o l -> o = "" -> existsb is_empty l = true.
Proof. intros Hin ->. apply existsb_exists. exists "". auto. Qed.

(** Replacing a group found by the pattern by any of its options keeps
    every body in place. *)
Lemma bodies_remain_step r pre body post : forall gs,
  brace_free body = true -> body <> "" ->
  bodies_remain gs (pre +:+ String "{" (body +:+ String "}" post)) = true ->
  bodies_remain gs (pre +:+ random_choice r (str_split "|" body) +:+ post) = true.
Proof.
  intros gs Hbf Hne. revert gs.
  induction pre as [|c pre IH]; intros gs.
  - rewrite !sapp_nil, (bodies_remain_group _ _ _ Hbf Hne).
    destruct (str_split_nonempty "|" body) as (h & t & Hs).
    pose proof (str_split_plain body Hbf) as Hall. rewrite Hs in *.
    pose proof (random_choice_in r h t) as Hin.
    rewrite List.Forall_forall in Hall.
    rewrite (bodies_remain_plain _ _ _ (Hall _ Hin)).
    apply bodies_remain_le. apply extend_alternative_le; [|apply group_le_refl].
    destruct (random_choice r (h :: t)) eqn:Hch; [|discriminate].
    intros _. now apply (existsb_is_empty_in "").
  - rewrite !sapp_cons. simpl.
    destruct (read_char gs c); [apply IH|discriminate].
Qed.

Lemma bodies_remain_found s : forall gs,
  open_then_close s = true ->
  bodies_remain gs s = true ->
  Spintax.SPINTAX_search s <> None.
Proof.
  induction s as [|c s IH]; intros gs; simpl; [discriminate|].
  intros Hotc Hrem.
  destruct (read_char gs c) as [gs'|] eqn:Hread; [|discriminate].
  destruct (Ascii.eqb_spec c "{") as [->|Hc].
  - destruct (Spintax.group_after_open s) as [[b p]|] eqn:Hg; [discriminate|].
    injection Hread as <-.
    assert (Hs : open_then_close s = true).
    { simpl in Hotc. apply orb_true_iff in Hotc. destruct Hotc as [Hcl|]; [|assumption].
      unfold Spintax.group_after_open in Hg.
      destruct (Spintax.span_no_brace s) as [b r] eqn:Hspan.
      apply span_no_brace_spec in Hspan. destruct Hspan as (-> & Hb & Hr).
      rewrite contains_app, (brace_free_no_close _ Hb) in Hcl. simpl in Hcl.
      destruct r as [|c' r]; [discriminate|].
      apply is_brace_cases in Hr. destruct Hr as [->| ->].
      - apply open_then_close_app_r. simpl. simpl in Hcl. now rewrite Hcl.
      - destruct b as [|cb b]; [|discriminate].
        rewrite sapp_nil in Hrem. simpl in Hrem. discriminate. }
    specialize (IH _ Hs Hrem).
    destruct (Spintax.SPINTAX_search s) as [[[? ?] ?]|]; [discriminate|congruence].
  - simpl in Hotc. specialize (IH _ Hotc Hrem).
    destruct (Spintax.SPINTAX_search s) as [[[? ?] ?]|]; [discriminate|congruence].
Qed.

Lemma spin_invariant_step n s :
  spin_invariant (S n) s ->
  exists pre body post,
    Spintax.SPINTAX_search s = Some (pre, body, post)
    /\ forall r,
         spin_invariant n (pre +:+ random_choice r (str_split "|" body) +:+ post).
Proof.
  intros (Hnest & Hrem & Hcount).
  assert (Hotc : open_then_close s = true).
  { apply (nesting_open_then_close 0); [exact Hnest|].
    apply count_pos_contains. lia. }
  destruct (Spintax.SPINTAX_search s) as [[[pre body] post]|] eqn:Hsearch;
    [|exfalso; eapply bodies_remain_found; eauto].
  exists pre, body, post. split; [reflexivity|]. intros r.
  apply SPINTAX_search_sound in Hsearch. destruct Hsearch as (-> & Hne & Hbf).
  pose proof (random_choice_brace_free r body Hbf) as Hch.
  set (chosen := random_choice r (str_split "|" body)) in *.
  unfold well_nested in *.
  rewrite nesting_app in Hnest.
  destruct (nesting 0 pre) as [d|] eqn:Hd; [|discriminate].
  simpl in Hnest. rewrite nesting_app, (nesting_brace_free _ _ Hbf) in Hnest.
  simpl in Hnest.
  rewrite !count_app in Hcount. simpl in Hcount.
  rewrite count_app, (brace_free_count_open _ Hbf) in Hcount. simpl in Hcount.
  unfold spin_invariant, well_nested. split; [|split].
  - rewrite nesting_app, Hd, nesting_app.
    now rewrite (nesting_brace_free _ _ Hch).
  - now apply bodies_remain_step.
  - rewrite !count_app. rewrite (brace_free_count_open _ Hch). lia.
Qed.

Lemma spin_invariant_done s : spin_invariant 0 s -> has_brace s = false.
Proof.
  intros (Hnest & _ & Hcount). unfold has_brace.
  apply nesting_counts in Hnest. rewrite Hcount in Hnest.
  rewrite (count_zero_contains "{" s Hcount).
  rewrite (count_zero_contains "}" s); [reflexivity|lia].
Qed.

Lemma spin_loop_resolves fuel : forall n rng i s,
  (n <= fuel)%nat -> spin_invariant n s ->
  has_brace (Spintax.spin_loop fuel rng i s) = false.
Proof.
  induction fuel as [|fuel IH]; intros n rng i s Hle Hinv.
  - assert (n = 0%nat) by lia. subst n. simpl. now apply spin_invariant_done.
  - destruct n as [|n].
    + rewrite spin_loop_step.
      pose proof (spin_invariant_done s Hinv) as Hnb.
      destruct (Spintax.SPINTAX_search s) as [[[pre body] post]|] eqn:Hs; [|exact Hnb].
      apply SPINTAX_search_sound in Hs. destruct Hs as (-> & _).
      unfold has_brace in Hnb. rewrite !contains_app in Hnb. simpl in Hnb.
      rewrite orb_true_r in Hnb. discriminate.
    + destruct (spin_invariant_step n s Hinv) as (pre & body & post & Hs & Hnext).
      rewrite spin_loop_step, Hs. apply (IH n); [lia|apply Hnext].
Qed.

(** The loop of [spin] keeps the nesting of the braces it leaves. *)
Lemma spin_loop_nesting fuel : forall rng i s,
  nesting 0 (Spintax.spin_loop fuel rng i s) = nesting 0 s.
Proof.
  induction fuel as [|fuel IH]; intros rng i s; [reflexivity|].
  rewrite spin_loop_step.
  destruct (Spintax.SPINTAX_search s) as [[[pre body] post]|] eqn:Hs; [|reflexivity].
  apply SPINTAX_search_sound in Hs. destruct Hs as (-> & _ & Hbf).
  pose proof (random_choice_brace_free (rng i) body Hbf) as Hch.
  rewrite IH, !nesting_app.
  destruct (nesting 0 pre) as [d|]; [|reflexivity].
  simpl. rewrite !nesting_app, (nesting_brace_free _ _ Hbf), (nesting_brace_free _ _ Hch).
  reflexivity.
Qed.

Lemma no_brace_nesting d s : has_brace s = false -> nesting d s = Some d.
Proof.
  unfold has_brace. revert d. induction s as [|c s IH]; intros d; [reflexivity|].
  simpl. destruct (c =? "{")%char; [discriminate|].
  destruct (c =? "}")%char; [rewrite orb_true_r; discriminate|]. apply IH.
Qed.

Lemma no_brace_bodies_remain s : forall gs,
  has_brace s = false -> bodies_remain gs s = true.
Proof.
  unfold has_brace. induction s as [|c s IH]; intros gs; [reflexivity|].
  simpl. unfold read_char.
  destruct (c =? "{")%char; [discriminate|].
  destruct (c =? "}")%char; [rewrite orb_true_r; discriminate|].
  simpl. intros H.
  destruct (c =? "|")%char; [destruct gs|]; now apply IH.
Qed.

(** Some draw picks an empty option when there is one, and only then. *)
Lemma random_choice_empty h t :
  exists r, is_empty (random_choice r (h :: t)) = existsb is_empty (h :: t).
Proof.
  destruct (existsb is_empty (h :: t)) eqn:He.
  - apply existsb_exists in He. destruct He as (o & Hin & Ho).
    destruct (In_nth _ _ "" Hin) as (n & Hn & Hnth).
    exists n. unfold random_choice. rewrite Nat.mod_small by exact Hn.
    now rewrite Hnth.
  - exists 0%nat. apply not_true_is_false. intros Hc. 
    assert (existsb is_empty (h :: t) = true); [|congruence].
    apply existsb_exists. eexists. split; [apply (random_choice_in 0)|exact Hc].
Qed.

(** Replacing a group by an empty option when it has one, and by any
    option otherwise, changes nothing for the groups around it. *)
Lemma bodies_remain_same r pre body post : forall gs,
  brace_free body = true -> body <> "" ->
  is_empty (random_choice r (str_split "|" body))
  = existsb is_empty (str_split "|" body) ->
  bodies_remain gs (pre +:+ random_choice r (str_split "|" body) +:+ post)
  = bodies_remain gs (pre +:+ String "{" (body +:+ String "}" post)).
Proof.
  intros gs Hbf Hne Hr. revert gs.
  induction pre as [|c pre IH]; intros gs.
  - rewrite !sapp_nil, (bodies_remain_group _ _ _ Hbf Hne).
    destruct (str_split_nonempty "|" body) as (h & t & Hs).
    pose proof (str_split_plain body Hbf) as Hall. rewrite Hs in *.
    pose proof (random_choice_in r h t) as Hin.
    rewrite List.Forall_forall in Hall.
    now rewrite (bodies_remain_plain _ _ _ (Hall _ Hin)), Hr.
  - rewrite !sapp_cons. simpl.
    destruct (read_char gs c); [apply IH|reflexivity].
Qed.

Lemma spin_loop_ext fuel : forall rng rng' i s,
  (forall j, (i <= j)%nat -> rng j = rng' j) ->
  Spintax.spin_loop fuel rng i s = Spintax.spin_loop fuel rng' i s.
Proof.
  induction fuel as [|fuel IH]; intros rng rng' i s Hext; [reflexivity|].
  rewrite !spin_loop_step.
  destruct (Spintax.SPINTAX_search s) as [[[pre body] post]|]; [|reflexivity].
  rewrite (Hext i) by lia. apply IH. intros j Hj. apply Hext. lia.
Qed.

(** A group that can lose its body does so for some draws. *)
Lemma spin_loop_empties fuel : forall i s,
  no_group_can_empty s = false ->
  exists rng, no_group_can_empty (Spintax.spin_loop fuel rng i s) = false.
Proof.
  induction fuel as [|fuel IH]; intros i s Hs.
  - exists (fun _ => 0%nat). exact Hs.
  - destruct (Spintax.SPINTAX_search s) as [[[pre body] post]|] eqn:Hsearch.
    + pose proof Hsearch as Hsound.
      apply SPINTAX_search_sound in Hsound. destruct Hsound as (-> & Hne & Hbf).
      destruct (str_split_nonempty "|" body) as (h & t & Hsplit).
      destruct (random_choice_empty h t) as (r & Hr). rewrite <- Hsplit in Hr.
      destruct (IH (S i) (pre +:+ random_choice r (str_split "|" body) +:+ post))
        as (rng & Hrng).
      { unfold no_group_can_empty in *.
        now rewrite (bodies_remain_same r pre body post [] Hbf Hne Hr). }
      exists (fun j => if (j =? i)%nat then r else rng j).
      rewrite spin_loop_step, Hsearch, Nat.eqb_refl.
      rewrite (spin_loop_ext fuel _ rng); [exact Hrng|].
      intros j Hj. destruct (Nat.eqb_spec j i); [lia|reflexivity].
    + exists (fun _ => 0%nat). rewrite spin_loop_step, Hsearch. exact Hs.
Qed.

(** C3 (as amended).  On a template that passes validation [spin] returns
    for every choice of branches; and its output holds neither "{" nor "}"
    for every choice of branches if and only if the braces of the template
    are properly nested, the template holds at most [max_iterations] (10)
    groups, and no group can lose its body: no group without a "|" of its
    own is empty or made up only of groups that can vanish, where a group
    can vanish when one of its alternatives is empty or made up only of
    groups that can vanish.  A "|" outside every group is a character like
    any other. *)
Theorem spin_resolves_valid_nested_templates :
  forall (rng0 : nat -> nat) (text : string),
    Spintax.valid (Spintax.validate_template rng0 text) = true ->
    (forall rng : nat -> nat, exists out, Spintax.spin rng text = out)
    /\ ((forall rng : nat -> nat, has_brace (Spintax.spin rng text) = false)
        <-> (well_nested text
             /\ (str_count "{" text <= Spintax.max_iterations)%nat
             /\ no_group_can_empty text = true)).
Proof.
  intros rng0 text _. split; [eauto|]. split.
  - intros Hout. split; [|split].
    + unfold well_nested.
      rewrite <- (spin_loop_nesting Spintax.max_iterations (fun _ => 0%nat) 0 text).
      apply no_brace_nesting, Hout.
    + destruct (spin_loop_removes_pairs Spintax.max_iterations (fun _ => 0%nat)
                  0%nat text) as (k & Hk & Ho & _).
      pose proof (Hout (fun _ => 0%nat)) as Hnb.
      unfold has_brace, Spintax.spin in Hnb.
      apply orb_false_iff in Hnb. destruct Hnb as [Hnb _].
      destruct (str_count "{"
                  (Spintax.spin_loop Spintax.max_iterations (fun _ => 0%nat) 0 text))
        eqn:Hc; [lia|].
      rewrite count_pos_contains in Hnb; [discriminate|lia].
    + destruct (no_group_can_empty text) eqn:He; [reflexivity|].
      destruct (spin_loop_empties Spintax.max_iterations 0 text He) as (rng & Hrng).
      unfold no_group_can_empty in Hrng.
      rewrite no_brace_bodies_remain in Hrng; [discriminate|apply Hout].
  - intros (Hnest & Hcount & Hrem) rng.
    unfold Spintax.spin.
    apply (spin_loop_resolves _ (str_count "{" text)); [exact Hcount|].
    repeat split; assumption.
Qed.

Lemma spin_resolves_valid_nested_templates_witness :
  exists out,
    Spintax.spin (fun i => i)
      "Call || text me {today|{now|soon}|}, [name]{!|.}" = out
    /\ has_brace out = false.
Proof.
  eexists. split; [reflexivity|].
  refine (proj2 (proj2 (spin_resolves_valid_nested_templates (fun _ => 0%nat)
                          "Call || text me {today|{now|soon}|}, [name]{!|.}" _))
            _ (fun i => i)).
  - vm_compute. reflexivity.
  - split; [vm_compute; reflexivity|].
    split; [vm_compute; lia|vm_compute; reflexivity].
Defined.

(** C3, as the specification states it, fails, and in three ways; each of
    the three templates passes validation and meets two of the three
    conditions.  Eleven groups in a row: the loop of [spin] stops after ten
    rounds and leaves the last group with its braces.  "}{": validation
    compares the numbers of braces only, and no group is found in it.
    "{{|{a}}}": validation looks at the innermost groups only; the empty
    alternative sits one level up, and choosing it leaves "{}", which the
    pattern does not match. *)
Lemma spin_leaves_braces_of_valid_templates :
  (Spintax.valid (Spintax.validate_template (fun _ => 0%nat) eleven_groups) = true
   /\ well_nested eleven_groups
   /\ no_group_can_empty eleven_groups = true
   /\ Spintax.spin (fun _ => 0%nat) eleven_groups = "aaaaaaaaaa{a}"
   /\ has_brace (Spintax.spin (fun _ => 0%nat) eleven_groups) = true)
  /\ (Spintax.valid (Spintax.validate_template (fun _ => 0%nat) "}{") = true
      /\ (str_count "{" "}{" <= Spintax.max_iterations)%nat
      /\ no_group_can_empty "}{" = true
      /\ Spintax.spin (fun _ => 0%nat) "}{" = "}{"
      /\ has_brace (Spintax.spin (fun _ => 0%nat) "}{") = true)
  /\ (Spintax.valid (Spintax.validate_template (fun _ => 0%nat) "{{|{a}}}") = true
      /\ well_nested "{{|{a}}}"
      /\ (str_count "{" "{{|{a}}}" <= Spintax.max_iterations)%nat
      /\ Spintax.spin (fun _ => 0%nat) "{{|{a}}}" = "{}"
      /\ has_brace (Spintax.spin (fun _ => 0%nat) "{{|{a}}}") = true).
Proof.
  repeat split; try (vm_compute; reflexivity); vm_compute; lia.
Qed.

(** ** Scheduler: unregistered accounts, cooling, limits *)

Section SchedulerProperties.
Variable str_of_datetime : datetime -> string.
Variable format_seconds_0f : Z -> string.

Local Abbreviation can_execute_action :=
  (Scheduler.can_execute_action str_of_datetime format_seconds_0f).

(** C9.  For an account without a registered state [can_execute_action]
    answers (False, "Account not registered"), and [record_action] and
    [set_account_cooling] return leaving the whole scheduler as it was. *)
Theorem unregistered_account_rejected_and_untouched :
  forall (self : Scheduler.SmartSchedulerService) (now : datetime)
         (account platform : string) (action : Scheduler.ActionType)
         (success : bool) (duration_minutes : Z) (reason : option string),
    Scheduler._account_states self !! account = None ->
    can_execute_action self now account action platform
      = (Ok (false, Some "Account not registered"), self)
    /\ Scheduler.record_action self now account action success = self
    /\ Scheduler.set_account_cooling self now account duration_minutes reason = self.
Proof.
  intros self now account platform action success duration reason Hnone.
  unfold Scheduler.can_execute_action, Scheduler.record_action,
    Scheduler.set_account_cooling.
  rewrite Hnone. auto.
Qed.

Lemma account_state_after_update self account state :
  Scheduler._account_states (Scheduler.with_account_state self account state)
    !! account = Some state.
Proof. unfold Scheduler.with_account_state. simpl. apply lookup_insert_eq. Qed.

Lemma reset_counters_frame state now :
  let state' := Scheduler._reset_counters_if_needed state now in
  Scheduler.is_cooling state' = Scheduler.is_cooling state
  /\ Scheduler.cooling_until state' = Scheduler.cooling_until state
  /\ Scheduler.age_category state' = Scheduler.age_category state
  /\ Scheduler.last_action_at state' = Scheduler.last_action_at state.
Proof.
  unfold Scheduler._reset_counters_if_needed.
  destruct (Scheduler.hourly_reset_at state + timedelta_hours 1 <=? now);
    simpl;
    match goal with
    | |- context [if ?c then _ else _] => destruct c
    end; simpl; auto.
Qed.

(** [check_limits] reads the age category, the counters, the reset stamps
    and the last actions only. *)
Lemma check_limits_frame state1 state2 now action config :
  Scheduler.age_category state1 = Scheduler.age_category state2 ->
  Scheduler.hourly_actions state1 = Scheduler.hourly_actions state2 ->
  Scheduler.daily_actions state1 = Scheduler.daily_actions state2 ->
  Scheduler.last_action_at state1 = Scheduler.last_action_at state2 ->
  Scheduler.hourly_reset_at state1 = Scheduler.hourly_reset_at state2 ->
  Scheduler.daily_reset_at state1 = Scheduler.daily_reset_at state2 ->
  fst (Scheduler.check_limits format_seconds_0f state1 now action config)
  = fst (Scheduler.check_limits format_seconds_0f state2 now action config).
Proof.
  destruct state1, state2. simpl. intros -> -> -> -> -> ->.
  unfold Scheduler.check_limits, Scheduler._reset_counters_if_needed.
  cbn [Scheduler.hourly_reset_at Scheduler.daily_reset_at].
  match goal with
  | |- context [if ?c then Scheduler.reset_hourly _ _ else _] => destruct c
  end;
    cbn [Scheduler.reset_hourly Scheduler.hourly_reset_at Scheduler.daily_reset_at];
    match goal with
    | |- context [if ?c then Scheduler.reset_daily _ _ else _] => destruct c
    end;
    cbn [Scheduler.reset_hourly Scheduler.reset_daily
         Scheduler.hourly_actions Scheduler.daily_actions
         Scheduler.last_action_at Scheduler.age_category];
    repeat match goal with
    | |- context [match ?x with _ => _ end] => destruct x; cbn [fst]
    end; reflexivity.
Qed.

Lemma check_limits_within state now action config :
  within_limits state now action config ->
  fst (Scheduler.check_limits format_seconds_0f state now action config)
  = Ok (true, None).
Proof.
  unfold within_limits, Scheduler.check_limits.
  set (st := Scheduler._reset_counters_if_needed state now).
  intros (hl & dl & Hh & Hhc & Hd & Hdc & Hlast).
  rewrite Hh. replace (hl <=? _) with false by (symmetry; apply Z.leb_gt; lia).
  rewrite Hd. replace (dl <=? _) with false by (symmetry; apply Z.leb_gt; lia).
  destruct (Scheduler.last_action_at st !! action) as [last|]; [|reflexivity].
  replace (now - last <? _) with false by (symmetry; apply Z.ltb_ge; lia).
  reflexivity.
Qed.

(** C7.  After [set_account_cooling] at [t0], [can_execute_action] answers
    False with a reason at every [now] before [cooling_until], leaving the
    scheduler as it is; from [cooling_until] on the check clears the
    cooling flag by itself, answers as it would for the account without
    cooling, and answers True when no limit is configured or none of the
    hourly, daily and minimum-interval constraints applies. *)
Theorem cooling_blocks_until_it_expires :
  forall (self : Scheduler.SmartSchedulerService) (t0 now : datetime)
         (account platform : string) (action : Scheduler.ActionType)
         (duration_minutes : Z) (reason : option string)
         (state : Scheduler.AccountScheduleState),
    Scheduler._account_states self !! account = Some state ->
    let cooled :=
      Scheduler.set_account_cooling self t0 account duration_minutes reason in
    let cooling_until := t0 + timedelta_minutes duration_minutes in
    let limits := default ∅ (Scheduler._rate_limits self !! platform) in
    (now < cooling_until ->
       exists why,
         can_execute_action cooled now account action platform
         = (Ok (false, Some why), cooled))
    /\ (cooling_until <= now ->
          let (answer, after) :=
            can_execute_action cooled now account action platform in
          (exists state',
              Scheduler._account_states after !! account = Some state'
              /\ Scheduler.is_cooling state' = false
              /\ Scheduler.cooling_until state' = None)
          /\ answer
             = fst (can_execute_action
                      (Scheduler.with_account_state self account
                         (Scheduler.clear_cooling state))
                      now account action platform)
          /\ (match limits !! action with
              | None => True
              | Some config => within_limits state now action config
              end -> answer = Ok (true, None))).
Proof.
  intros self t0 now account platform action duration reason state Hget
         cooled cooling_until limits.
  subst cooled. unfold Scheduler.set_account_cooling. rewrite Hget.
  set (cstate := {| Scheduler.account_id := _ |}).
  unfold Scheduler.can_execute_action.
  rewrite !account_state_after_update.
  cbn [cstate Scheduler.is_cooling Scheduler.cooling_until
       Scheduler.clear_cooling].
  fold cooling_until.
  change (Scheduler._rate_limits (Scheduler.with_account_state self account _))
    with (Scheduler._rate_limits self).
  fold limits.
  split.
  - intros Hlt. apply Z.ltb_lt in Hlt. rewrite Hlt. eauto.
  - intros Hge. apply Z.ltb_ge in Hge. rewrite Hge.
    destruct (limits !! action) as [config|] eqn:Hcfg.
    + destruct (Scheduler.check_limits format_seconds_0f
                  (Scheduler.clear_cooling cstate) now action config)
        as [r st'] eqn:Hcheck.
      assert (Hr : r = fst (Scheduler.check_limits format_seconds_0f
                  (Scheduler.clear_cooling state) now action config)).
      { replace r with (fst (Scheduler.check_limits format_seconds_0f
                  (Scheduler.clear_cooling cstate) now action config))
          by (now rewrite Hcheck).
        apply check_limits_frame; reflexivity. }
      split; [|split].
      * exists st'. rewrite account_state_after_update. split; [reflexivity|].
        assert (Hst : st' = snd (Scheduler.check_limits format_seconds_0f
                  (Scheduler.clear_cooling cstate) now action config))
          by (now rewrite Hcheck).
        clear Hcheck. subst st'. unfold Scheduler.check_limits.
        pose proof (reset_counters_frame (Scheduler.clear_cooling cstate) now)
          as (Hc & Hu & _).
        simpl in Hc, Hu.
        set (st := Scheduler._reset_counters_if_needed _ now) in *.
        repeat match goal with
        | |- context [match ?x with _ => _ end] => destruct x; cbn [snd]
        end; auto.
      * rewrite Hr.
        destruct (Scheduler.check_limits format_seconds_0f
                    (Scheduler.clear_cooling state) now action config).
        reflexivity.
      * intros Hwithin. rewrite Hr.
        rewrite (check_limits_frame _ state); try reflexivity.
        now apply check_limits_within.
    + split; [|split].
      * eexists. rewrite account_state_after_update. simpl. auto.
      * reflexivity.
      * reflexivity.
Qed.

Lemma record_action_state self now account action state :
  Scheduler._account_states self !! account = Some state ->
  exists state',
    Scheduler._account_states
      (Scheduler.record_action self now account action true) !! account
    = Some state'
    /\ Scheduler._rate_limits (Scheduler.record_action self now account action true)
       = Scheduler._rate_limits self
    /\ Scheduler.age_category state' = Scheduler.age_category state
    /\ Scheduler.hourly_reset_at state' = Scheduler.hourly_reset_at state
    /\ Scheduler.daily_reset_at state' = Scheduler.daily_reset_at state
    /\ Scheduler.is_cooling state' = Scheduler.is_cooling state
    /\ default 0 (Scheduler.hourly_actions state' !! action)
       = default 0 (Scheduler.hourly_actions state !! action) + 1
    /\ default 0 (Scheduler.daily_actions state' !! action)
       = default 0 (Scheduler.daily_actions state !! action) + 1.
Proof.
  intros Hget. unfold Scheduler.record_action. rewrite Hget.
  eexists. rewrite account_state_after_update. split; [reflexivity|].
  simpl. rewrite !lookup_insert_eq. simpl. repeat split; reflexivity.
Qed.

Lemma record_successes_state times : forall self account action state,
  Scheduler._account_states self !! account = Some state ->
  exists state',
    Scheduler._account_states (record_successes self times account action)
      !! account = Some state'
    /\ Scheduler._rate_limits (record_successes self times account action)
       = Scheduler._rate_limits self
    /\ Scheduler.age_category state' = Scheduler.age_category state
    /\ Scheduler.hourly_reset_at state' = Scheduler.hourly_reset_at state
    /\ Scheduler.daily_reset_at state' = Scheduler.daily_reset_at state
    /\ Scheduler.is_cooling state' = Scheduler.is_cooling state
    /\ default 0 (Scheduler.hourly_actions state' !! action)
       = default 0 (Scheduler.hourly_actions state !! action)
         + Z.of_nat (List.length times)
    /\ default 0 (Scheduler.daily_actions state' !! action)
       = default 0 (Scheduler.daily_actions state !! action)
         + Z.of_nat (List.length times).
Proof.
  induction times as [|t times IH]; intros self account action state Hget.
  - exists state. simpl. rewrite !Z.add_0_r. repeat split; auto.
  - destruct (record_action_state self t account action state Hget)
      as (st1 & H1 & Hr1 & Ha1 & Hh1 & Hd1 & Hc1 & Hhc1 & Hdc1).
    destruct (IH _ account action st1 H1)
      as (st2 & H2 & Hr2 & Ha2 & Hh2 & Hd2 & Hc2 & Hhc2 & Hdc2).
    exists st2. unfold record_successes in *. cbn [fold_left].
    rewrite H2, Hr2, Hr1, Ha2, Ha1, Hh2, Hh1, Hd2, Hd1, Hc2, Hc1, Hhc2, Hhc1,
      Hdc2, Hdc1.
    change (List.length (t :: times)) with (S (List.length times)).
    repeat split; lia.
Qed.

(** C2 (as amended).  An account registered as new on instagram under the
    default limits has the daily follow limit int(100*0.3) = 30 and the
    hourly follow limit int(20*0.3) = 6.  After 30 successful
    [record_action(acc, FOLLOW)] calls the hourly check, which comes first,
    decides as long as the hourly counters have not been rolled:
    [can_execute_action] answers (False, "Hourly limit reached (30/6)") at
    any time before one hour past registration.  It answers
    (False, "Daily limit reached (30/30)") when called at least one hour
    and less than one day past registration, where the call itself clears
    the hourly counters and keeps the daily ones. *)
Theorem thirty_follows_reach_hourly_then_daily_limit :
  forall (self : Scheduler.SmartSchedulerService) (t0 now : datetime)
         (created_at : datetime) (tz acc : string) (times : list datetime),
    Scheduler._rate_limits self = Scheduler.DEFAULT_LIMITS ->
    Scheduler._calculate_age_category t0 (Some created_at) = Scheduler.NEW ->
    List.length times = 30%nat ->
    let registered :=
      snd (Scheduler.register_account self t0 acc (Some created_at) tz) in
    let recorded := record_successes registered times acc Scheduler.FOLLOW in
    let answer :=
      fst (can_execute_action recorded now acc Scheduler.FOLLOW "instagram") in
    (now < t0 + timedelta_hours 1 ->
       answer = Ok (false, Some "Hourly limit reached (30/6)"))
    /\ (t0 + timedelta_hours 1 <= now < t0 + timedelta_days 1 ->
          answer = Ok (false, Some "Daily limit reached (30/30)")).
Proof.
  intros self t0 now created_at tz acc times Hlimits Hage Hlen
         registered recorded answer.
  destruct (record_successes_state times registered acc Scheduler.FOLLOW
              (fst (Scheduler.register_account self t0 acc (Some created_at) tz)))
    as (st & Hst & Hrl & Hag & Hhr & Hdr & Hcool & Hh & Hd).
  { subst registered. unfold Scheduler.register_account. cbn [fst snd].
    apply account_state_after_update. }
  fold recorded in Hst, Hrl.
  cbn [Scheduler.register_account fst Scheduler.age_category
       Scheduler.hourly_reset_at Scheduler.daily_reset_at Scheduler.is_cooling
       Scheduler.hourly_actions Scheduler.daily_actions] in Hag, Hhr, Hdr, Hcool, Hh, Hd.
  rewrite lookup_empty in Hh, Hd. cbn [default] in Hh, Hd.
  rewrite Hlen in Hh, Hd. rewrite Hage in Hag.
  change (Scheduler._rate_limits registered) with (Scheduler._rate_limits self) in Hrl.
  rewrite Hlimits in Hrl.
  subst answer. unfold Scheduler.can_execute_action.
  rewrite Hst, Hcool, Hrl.
  replace (Scheduler.DEFAULT_LIMITS !! "instagram")
    with (Some (<[Scheduler.FOLLOW := Scheduler.mkRateLimitConfig Scheduler.FOLLOW 20 100 60 300]>
      (<[Scheduler.UNFOLLOW := Scheduler.mkRateLimitConfig Scheduler.UNFOLLOW 30 150 30 120]>
      (<[Scheduler.DM := Scheduler.mkRateLimitConfig Scheduler.DM 10 50 120 600]>
      (<[Scheduler.LIKE := Scheduler.mkRateLimitConfig Scheduler.LIKE 50 300 10 60]>
         (∅ : gmap Scheduler.ActionType Scheduler.RateLimitConfig))))))
    by (symmetry; apply lookup_insert_eq).
  cbn [default from_option id]. rewrite lookup_insert_eq.
  set (config := Scheduler.mkRateLimitConfig Scheduler.FOLLOW 20 100 60 300).
  assert (Hhl : Scheduler.get_limit_for_age config Scheduler.NEW "hourly" = Ok 6)
    by (vm_compute; reflexivity).
  assert (Hdl : Scheduler.get_limit_for_age config Scheduler.NEW "daily" = Ok 30)
    by (vm_compute; reflexivity).
  assert (Hday : timedelta_hours 1 < timedelta_days 1) by (vm_compute; reflexivity).
  unfold Scheduler.check_limits, Scheduler._reset_counters_if_needed.
  rewrite Hhr. split.
  - intros Hnow.
    replace (t0 + timedelta_hours 1 <=? now) with false
      by (symmetry; apply Z.leb_gt; lia).
    rewrite Hdr.
    replace (t0 + timedelta_days 1 <=? now) with false
      by (symmetry; apply Z.leb_gt; lia).
    rewrite Hag, Hhl, Hh. reflexivity.
  - intros [Hlo Hhi].
    replace (t0 + timedelta_hours 1 <=? now) with true
      by (symmetry; apply Z.leb_le; lia).
    cbn [Scheduler.reset_hourly Scheduler.daily_reset_at]. rewrite Hdr.
    replace (t0 + timedelta_days 1 <=? now) with false
      by (symmetry; apply Z.leb_gt; lia).
    change (Scheduler.age_category (Scheduler.reset_hourly st now))
      with (Scheduler.age_category st).
    change (Scheduler.hourly_actions (Scheduler.reset_hourly st now))
      with (∅ : gmap Scheduler.ActionType Z).
    change (Scheduler.daily_actions (Scheduler.reset_hourly st now))
      with (Scheduler.daily_actions st).
    rewrite Hag, Hhl, Hdl, Hd, lookup_empty. reflexivity.
Qed.

End SchedulerProperties.

Lemma unregistered_account_rejected_and_untouched_witness :
  Scheduler.can_execute_action plain_datetime plain_seconds
    Scheduler.init 0 "ghost" Scheduler.FOLLOW "instagram"
  = (Ok (false, Some "Account not registered"), Scheduler.init)
  /\ Scheduler.record_action Scheduler.init 0 "ghost" Scheduler.FOLLOW true
     = Scheduler.init
  /\ Scheduler.set_account_cooling Scheduler.init 0 "ghost" 30 None
     = Scheduler.init.
Proof.
  apply (unregistered_account_rejected_and_untouched plain_datetime plain_seconds).
  reflexivity.
Defined.

Lemma cooling_blocks_until_it_expires_witness :
  let cooled := Scheduler.set_account_cooling acc1_registered 0 "acc1" 30 None in
  (exists why,
      Scheduler.can_execute_action plain_datetime plain_seconds cooled
        (timedelta_minutes 29) "acc1" Scheduler.FOLLOW "instagram"
      = (Ok (false, Some why), cooled))
  /\ fst (Scheduler.can_execute_action plain_datetime plain_seconds cooled
            (timedelta_minutes 30) "acc1" Scheduler.FOLLOW "instagram")
     = Ok (true, None).
Proof.
  intros cooled. split.
  - apply (cooling_blocks_until_it_expires plain_datetime plain_seconds
             acc1_registered 0 (timedelta_minutes 29) "acc1" "instagram"
             Scheduler.FOLLOW 30 None
             (fst (Scheduler.register_account Scheduler.init 0 "acc1" (Some 0) "UTC"))).
    + vm_compute. reflexivity.
    + vm_compute. reflexivity.
  - pose proof (cooling_blocks_until_it_expires plain_datetime plain_seconds
             acc1_registered 0 (timedelta_minutes 30) "acc1" "instagram"
             Scheduler.FOLLOW 30 None
             (fst (Scheduler.register_account Scheduler.init 0 "acc1" (Some 0) "UTC")))
      as H.
    cbv zeta in H. fold cooled in H.
    destruct H as [_ H]; [vm_compute; reflexivity|].
    specialize (H ltac:(vm_compute; discriminate)).
    destruct (Scheduler.can_execute_action plain_datetime plain_seconds cooled
                (timedelta_minutes 30) "acc1" Scheduler.FOLLOW "instagram")
      as [answer after].
    destruct H as (_ & _ & H). apply H.
    replace (default ∅ (Scheduler._rate_limits acc1_registered !! "instagram")
               !! Scheduler.FOLLOW)
      with (Some (Scheduler.mkRateLimitConfig Scheduler.FOLLOW 20 100 60 300))
      by (vm_compute; reflexivity).
    exists 6, 30. vm_compute. repeat split; reflexivity.
Defined.

Lemma thirty_follows_reach_hourly_then_daily_limit_witness :
  fst (Scheduler.can_execute_action plain_datetime plain_seconds
         acc1_after_30_follows (timedelta_minutes 59) "acc1" Scheduler.FOLLOW
         "instagram")
  = Ok (false, Some "Hourly limit reached (30/6)")
  /\ fst (Scheduler.can_execute_action plain_datetime plain_seconds
            acc1_after_30_follows (timedelta_hours 1) "acc1" Scheduler.FOLLOW
            "instagram")
     = Ok (false, Some "Daily limit reached (30/30)").
Proof.
  split.
  - apply (thirty_follows_reach_hourly_then_daily_limit plain_datetime
             plain_seconds Scheduler.init 0 (timedelta_minutes 59) 0 "UTC" "acc1"
             (repeat 0 30)); [reflexivity|reflexivity|reflexivity|].
    vm_compute. reflexivity.
  - apply (thirty_follows_reach_hourly_then_daily_limit plain_datetime
             plain_seconds Scheduler.init 0 (timedelta_hours 1) 0 "UTC" "acc1"
             (repeat 0 30)); [reflexivity|reflexivity|reflexivity|].
    vm_compute. split; [discriminate|reflexivity].
Defined.

(** C2, as the specification states it, fails: right after the 30 follows,
    with no counter reset at all, the answer names the hourly limit, not
    the daily one. *)
Lemma thirty_follows_answer_is_hourly_limit :
  Scheduler.age_category
    (fst (Scheduler.register_account Scheduler.init 0 "acc1" (Some 0) "UTC"))
  = Scheduler.NEW
  /\ fst (Scheduler.can_execute_action plain_datetime plain_seconds
            acc1_after_30_follows 0 "acc1" Scheduler.FOLLOW "instagram")
     = Ok (false, Some "Hourly limit reached (30/6)")
  /\ fst (Scheduler.can_execute_action plain_datetime plain_seconds
            acc1_after_30_follows 0 "acc1" Scheduler.FOLLOW "instagram")
     <> Ok (false, Some "Daily limit reached (30/30)").
Proof.
  split; [reflexivity|].
  assert (H : fst (Scheduler.can_execute_action plain_datetime plain_seconds
            acc1_after_30_follows 0 "acc1" Scheduler.FOLLOW "instagram")
     = Ok (false, Some "Hourly limit reached (30/6)"))
    by (vm_compute; reflexivity).
  split; [exact H|]. rewrite H. discriminate.
Qed.

(** ** Proxy pool: availability filter and assignment *)

Lemma visit_proxy_skips_banned now c q e p p' :
  ProxyPool.visit_proxy now c q e p = (p', true) ->
  ProxyPool.status p' <> ProxyPool.BANNED.
Proof.
  unfold ProxyPool.visit_proxy.
  destruct (ProxyPool.status p) eqn:Hs; try discriminate;
    repeat match goal with
    | |- context [if ?b then _ else _] => destruct b eqn:?
    end;
    intros [= <-]; simpl; rewrite ?Hs; discriminate.
Qed.

(** The availability filter never lets a banned proxy through. *)
Lemma get_available_proxies_skip_banned self now c q e p :
  In p (fst (ProxyPool.get_available_proxies self now c q e)) ->
  ProxyPool.status p <> ProxyPool.BANNED.
Proof.
  unfold ProxyPool.get_available_proxies. cbn [fst].
  rewrite in_map_iff. intros ([k [p0 b]] & <- & Hin).
  apply List.filter_In in Hin. destruct Hin as [Hin Hb].
  cbn [fst snd] in *. subst b.
  rewrite in_map_iff in Hin. destruct Hin as ([k' v] & [= _ Hv] & _).
  now apply visit_proxy_skips_banned in Hv.
Qed.

Lemma sort_insert_In x y l :
  In y (ProxyPool.sort_insert x l) -> y = x \/ In y l.
Proof.
  induction l as [|z l IH]; simpl.
  - intros [<-|[]]. auto.
  - destruct (ProxyPool.key_lt _ _); simpl; intros [<-|H]; auto.
    destruct (IH H); auto.
Qed.

Lemma sort_by_key_In y l : In y (ProxyPool.sort_by_key l) -> In y l.
Proof.
  induction l as [|x l IH]; simpl; [auto|].
  intros H. apply sort_insert_In in H. destruct H as [->|H]; auto.
Qed.

Lemma get_best_proxy_skips_banned self now c q p :
  fst (ProxyPool.get_best_proxy self now c q) = Ok p ->
  ProxyPool.status p <> ProxyPool.BANNED.
Proof.
  unfold ProxyPool.get_best_proxy.
  pose proof (get_available_proxies_skip_banned self now c q false) as Hav.
  destruct (ProxyPool.get_available_proxies self now c q false) as [available s].
  cbn [fst] in Hav.
  destruct (ProxyPool.sort_by_key available) as [|best rest] eqn:Hsort;
    [discriminate|].
  intros [= <-]. apply Hav, sort_by_key_In. rewrite Hsort. now left.
Qed.

Lemma get_random_proxy_skips_banned self now r c q p :
  fst (ProxyPool.get_random_proxy self now r c q) = Ok p ->
  ProxyPool.status p <> ProxyPool.BANNED.
Proof.
  unfold ProxyPool.get_random_proxy.
  pose proof (get_available_proxies_skip_banned self now c q false) as Hav.
  destruct (ProxyPool.get_available_proxies self now c q false) as [available s].
  cbn [fst] in Hav.
  destruct (nth_error available _) as [p0|] eqn:Hnth; [|discriminate].
  intros [= <-]. apply Hav. eapply nth_error_In; eauto.
Qed.

(** C4 (the code departs from it).  [assign_proxy_to_account] hands out a
    banned proxy both when the caller names it and when it is the sticky
    assignment of the account: neither branch looks at the status, unlike
    [get_available_proxies], [get_best_proxy] and [get_random_proxy]. *)
Theorem assign_proxy_returns_banned_proxy :
  (exists p,
      fst (ProxyPool.assign_proxy_to_account pool_p1_banned 0 "acc" (Some "p1") None)
      = Ok p
      /\ ProxyPool.id p = "p1" /\ ProxyPool.status p = ProxyPool.BANNED)
  /\ (exists p,
         fst (ProxyPool.assign_proxy_to_account pool_p1_assigned_then_banned 1
                "acc" None None)
         = Ok p
         /\ ProxyPool.id p = "p1" /\ ProxyPool.status p = ProxyPool.BANNED)
  /\ (forall p,
         In p (fst (ProxyPool.get_available_proxies pool_p1_banned 0 None None false)) ->
         ProxyPool.id p = "p2").
Proof.
  split; [|split].
  - eexists. split; [vm_compute; reflexivity|]. split; reflexivity.
  - eexists. split; [vm_compute; reflexivity|]. split; reflexivity.
  - intros p. vm_compute. intros [<-|[]]. reflexivity.
Qed.

(** Without a sticky assignment and without a usable [proxy_id] the call
    ends in the [TypeError] of the call to [get_best_proxy], and the pool
    is left as it is. *)
Lemma assign_without_proxy_id_raises self now account country_filter :
  ProxyPool._account_proxy_map self !! account = None ->
  exists msg,
    ProxyPool.assign_proxy_to_account self now account None country_filter
    = (Raise (TypeError msg), self).
Proof.
  intros Hmap. unfold ProxyPool.assign_proxy_to_account. rewrite Hmap.
  eexists. reflexivity.
Qed.

(** C8.  While the proxy assigned to an account is in the pool,
    [assign_proxy_to_account] returns that very proxy, whatever the other
    arguments are, and changes nothing: two calls in a row return the same
    proxy id.  [release_account_proxy] removes the account from the
    account-to-proxy map and clears [assigned_to_account_id] of the proxy;
    the next assignment then follows its own arguments: asked for any
    proxy [q] of the pool it returns [q]. *)
Theorem sticky_assignment_until_release :
  forall (self : ProxyPool.ProxyPoolService) (now1 now2 : datetime)
         (account pid : string) (proxy : ProxyPool.ProxyConfig)
         (proxy_id1 proxy_id2 country1 country2 : option string),
    ProxyPool._account_proxy_map self !! account = Some pid ->
    PyDict.get (ProxyPool._proxies self) pid = Some proxy ->
    let first := ProxyPool.assign_proxy_to_account self now1 account proxy_id1 country1 in
    let second :=
      ProxyPool.assign_proxy_to_account (snd first) now2 account proxy_id2 country2 in
    let released := ProxyPool.release_account_proxy self account in
    (fst first = Ok proxy /\ fst second = Ok proxy /\ snd second = self)
    /\ fst released = true
    /\ ProxyPool._account_proxy_map (snd released) !! account = None
    /\ PyDict.get (ProxyPool._proxies (snd released)) pid
       = Some (ProxyPool.with_assigned proxy None)
    /\ forall (now3 : datetime) (q : string) (other : ProxyPool.ProxyConfig)
              (country3 : option string),
         q <> "" ->
         PyDict.get (ProxyPool._proxies (snd released)) q = Some other ->
         fst (ProxyPool.assign_proxy_to_account (snd released) now3 account
                (Some q) country3)
         = Ok (ProxyPool.with_assigned other (Some account)).
Proof.
  intros self now1 now2 account pid proxy pid1 pid2 c1 c2 Hmap Hget
         first second released.
  assert (Hfirst : first = (Ok proxy, self)).
  { subst first. unfold ProxyPool.assign_proxy_to_account. now rewrite Hmap, Hget. }
  assert (Hsecond : second = (Ok proxy, self)).
  { subst second. rewrite Hfirst. cbn [snd].
    unfold ProxyPool.assign_proxy_to_account. now rewrite Hmap, Hget. }
  rewrite Hfirst, Hsecond. cbn [fst snd]. split; [auto|].
  subst released. unfold ProxyPool.release_account_proxy. rewrite Hmap.
  cbn [ProxyPool.with_account_proxy_map ProxyPool._proxies]. rewrite Hget.
  cbn [fst snd ProxyPool.with_proxies ProxyPool._account_proxy_map
       ProxyPool._proxies].
  split; [reflexivity|]. split; [apply lookup_delete_eq|].
  split; [apply PyDict_get_set_same|].
  intros now3 q other c3 Hq Hother.
  unfold ProxyPool.assign_proxy_to_account.
  cbn [ProxyPool._account_proxy_map ProxyPool._proxies ProxyPool.with_proxies
       ProxyPool.with_account_proxy_map] in *.
  rewrite lookup_delete_eq.
  assert (Htruthy : truthy_str (Some q) = true).
  { simpl. apply negb_true_iff. now apply String.eqb_neq. }
  rewrite Htruthy, Hother. reflexivity.
Qed.

Lemma sticky_assignment_until_release_witness :
  let pool :=
    snd (ProxyPool.assign_proxy_to_account
           (ProxyPool.add_proxy
              (ProxyPool.add_proxy ProxyPool.init (plain_proxy "p1"))
              (plain_proxy "p2"))
           0 "acc" (Some "p1") None) in
  fst (ProxyPool.assign_proxy_to_account pool 1 "acc" None None)
  = Ok (ProxyPool.with_assigned (plain_proxy "p1") (Some "acc"))
  /\ fst (ProxyPool.assign_proxy_to_account
            (snd (ProxyPool.assign_proxy_to_account pool 1 "acc" None None))
            2 "acc" (Some "p2") None)
     = Ok (ProxyPool.with_assigned (plain_proxy "p1") (Some "acc"))
  /\ fst (ProxyPool.assign_proxy_to_account
            (snd (ProxyPool.release_account_proxy pool "acc")) 3 "acc"
            (Some "p2") None)
     = Ok (ProxyPool.with_assigned (plain_proxy "p2") (Some "acc")).
Proof.
  intros pool.
  pose proof (sticky_assignment_until_release pool 1 2 "acc" "p1"
                (ProxyPool.with_assigned (plain_proxy "p1") (Some "acc"))
                None (Some "p2") None None) as H.
  cbv zeta in H.
  destruct H as ((H1 & H2 & _) & _ & _ & _ & H3).
  - vm_compute. reflexivity.
  - vm_compute. reflexivity.
  - split; [exact H1|]. split; [exact H2|].
    apply H3; [discriminate|]. vm_compute. reflexivity.
Defined.

(** ** Follow-back detector: detection is reported once *)

Lemma run_checks_stored checks : forall self rid rel,
  PyDict.get (FollowBack._relationships self) rid = Some rel ->
  fst (run_checks self rid checks) = fst (run_checks_on rel checks)
  /\ PyDict.get (FollowBack._relationships (snd (run_checks self rid checks))) rid
     = Some (snd (run_checks_on rel checks)).
Proof.
  induction checks as [|[now probe] rest IH]; intros self rid rel Hget.
  - simpl. auto.
  - cbn [run_checks run_checks_on]. unfold FollowBack.check_stored. rewrite Hget.
    destruct (FollowBack.check_follow_back now probe rel) as [res rel1].
    specialize (IH (FollowBack.with_relationships self
                      (PyDict.set (FollowBack._relationships self) rid rel1))
                   rid rel1).
    destruct (run_checks _ rid rest) as [ress self2].
    destruct (run_checks_on rel1 rest) as [ress' rel2].
    cbn [fst snd] in *.
    destruct IH as [-> ->]; [apply PyDict_get_set_same|]. auto.
Qed.

Lemma check_follow_back_status now probe rel :
  let (res, rel') := FollowBack.check_follow_back now probe rel in
  FollowBack.previous_status res = FollowBack.status rel
  /\ FollowBack.should_dm res = FollowBack.changed res
  /\ FollowBack.should_dm res
     = detects (now, probe)
       && negb (FollowBack.status_eqb (FollowBack.status rel) FollowBack.MUTUAL)
  /\ FollowBack.current_status res = FollowBack.status rel'
  /\ FollowBack.status rel'
     = (if FollowBack.should_dm res then FollowBack.MUTUAL
        else FollowBack.status rel).
Proof.
  unfold FollowBack.check_follow_back, detects.
  destruct probe as [[|]|e]; cbn;
    destruct (FollowBack.status_eqb (FollowBack.status rel) FollowBack.MUTUAL);
    cbn; auto.
Qed.

(** Once mutual, no check reports a change or asks for a DM. *)
Lemma run_checks_on_mutual checks : forall rel,
  FollowBack.status rel = FollowBack.MUTUAL ->
  Forall (fun res => FollowBack.should_dm res = false
                     /\ FollowBack.changed res = false)
         (fst (run_checks_on rel checks)).
Proof.
  induction checks as [|[now probe] rest IH]; intros rel Hst; simpl.
  - constructor.
  - pose proof (check_follow_back_status now probe rel) as H.
    destruct (FollowBack.check_follow_back now probe rel) as [res rel1].
    destruct H as (_ & Hch & Hdm & _ & Hst1).
    rewrite Hst in Hdm. cbn in Hdm. rewrite andb_false_r in Hdm.
    rewrite Hdm in Hst1, Hch. rewrite Hst in Hst1.
    specialize (IH rel1 Hst1).
    destruct (run_checks_on rel1 rest) as [ress rel2]. cbn [fst] in *.
    constructor; auto.
Qed.

Lemma run_checks_on_following checks : forall rel i res,
  FollowBack.status rel = FollowBack.FOLLOWING ->
  nth_error (fst (run_checks_on rel checks)) i = Some res ->
  (FollowBack.should_dm res = true <-> first_detection checks = Some i)
  /\ (FollowBack.should_dm res = true ->
      FollowBack.changed res = true
      /\ FollowBack.previous_status res = FollowBack.FOLLOWING
      /\ FollowBack.current_status res = FollowBack.MUTUAL).
Proof.
  induction checks as [|[now probe] rest IH]; intros rel i res Hst Hnth.
  - destruct i; discriminate.
  - cbn [run_checks_on first_detection] in *.
    pose proof (check_follow_back_status now probe rel) as H.
    destruct (FollowBack.check_follow_back now probe rel) as [res0 rel1].
    destruct H as (Hprev & Hch & Hdm & Hcur & Hst1).
    rewrite Hst in Hdm, Hst1, Hprev. cbn in Hdm. rewrite andb_true_r in Hdm.
    pose proof (run_checks_on_mutual rest rel1) as Hmut.
    specialize (IH rel1).
    destruct (run_checks_on rel1 rest) as [ress rel2]. cbn [fst] in *.
    destruct i as [|i]; cbn [nth_error] in Hnth.
    + injection Hnth as <-. rewrite <- Hdm. split.
      * destruct (FollowBack.should_dm res0), (first_detection rest);
          cbn; split; congruence.
      * intros Hd. rewrite Hd in Hst1. rewrite <- Hch, Hcur, Hst1. auto.
    + destruct (detects (now, probe)) eqn:Hdet.
      * rewrite Hdm in Hst1. specialize (Hmut Hst1).
        rewrite List.Forall_forall in Hmut.
        destruct (Hmut res (nth_error_In _ _ Hnth)) as [Hno _].
        rewrite Hno. split; [split; discriminate|discriminate].
      * rewrite Hdm in Hst1. destruct (IH i res Hst1 Hnth) as [Hiff Hrest].
        split; [|exact Hrest].
        rewrite Hiff. destruct (first_detection rest); cbn; split; congruence.
Qed.

Lemma run_checks_on_changes checks : forall rel,
  (List.length (List.filter FollowBack.changed (fst (run_checks_on rel checks)))
   <= 1)%nat.
Proof.
  induction checks as [|[now probe] rest IH]; intros rel; simpl; [lia|].
  pose proof (check_follow_back_status now probe rel) as H.
  destruct (FollowBack.check_follow_back now probe rel) as [res0 rel1].
  destruct H as (_ & Hch & _ & _ & Hst1).
  pose proof (run_checks_on_mutual rest rel1) as Hmut.
  specialize (IH rel1).
  destruct (run_checks_on rel1 rest) as [ress rel2]. cbn [fst List.filter] in *.
  destruct (FollowBack.changed res0) eqn:Hc; [|exact IH].
  rewrite Hch in Hst1. specialize (Hmut Hst1).
  assert (Hnone : List.filter FollowBack.changed ress = []).
  { clear -Hmut. induction Hmut as [|r l [_ Hr] _ IHl]; simpl; [reflexivity|].
    now rewrite Hr. }
  rewrite Hnone. simpl. lia.
Qed.

(** With the placeholder probe of the source no check reports a
    follow-back. *)
Lemma placeholder_probe_never_detects now rel :
  let res := fst (FollowBack.check_follow_back_with_placeholder now rel) in
  FollowBack.should_dm res = false /\ FollowBack.changed res = false
  /\ FollowBack.current_status res = FollowBack.status rel.
Proof. cbn. auto. Qed.

Lemma run_checks_on_length checks : forall rel,
  List.length (fst (run_checks_on rel checks)) = List.length checks.
Proof.
  induction checks as [|[t p] rest IH]; intros rel; simpl; [reflexivity|].
  destruct (FollowBack.check_follow_back t p rel) as [r rel1].
  specialize (IH rel1). destruct (run_checks_on rel1 rest). simpl in *.
  now rewrite IH.
Qed.

(** C6.  For a relationship registered with [is_private=False], whatever
    the probe answers over a run of checks: a check sets [should_dm]
    exactly when it is the first one at which the probe finds the target
    following back; that check reports [changed] and the transition from
    following to mutual; every later check has [should_dm] false even
    while the probe keeps answering yes; at most one check of the run
    reports a change. *)
Theorem follow_back_reported_exactly_once :
  forall (self : FollowBack.FollowBackDetectorService) (now : datetime)
         (sub target_id target_name : string)
         (checks : list (datetime * result bool)),
    let registered :=
      snd (FollowBack.register_follow self now sub target_id target_name false) in
    let rid := FollowBack.make_relationship_id sub target_id in
    let results := fst (run_checks registered rid checks) in
    List.length results = List.length checks
    /\ (forall (i : nat) (res : FollowBack.DetectionResult),
          nth_error results i = Some res ->
          (FollowBack.should_dm res = true <-> first_detection checks = Some i)
          /\ (FollowBack.should_dm res = true ->
              FollowBack.changed res = true
              /\ FollowBack.previous_status res = FollowBack.FOLLOWING
              /\ FollowBack.current_status res = FollowBack.MUTUAL))
    /\ (List.length (List.filter FollowBack.changed results) <= 1)%nat.
Proof.
  intros self now sub target_id target_name checks registered rid results.
  set (rel := fst (FollowBack.register_follow self now sub target_id target_name false)).
  assert (Hst : FollowBack.status rel = FollowBack.FOLLOWING).
  { subst rel. unfold FollowBack.register_follow. cbn [fst].
    destruct (PyDict.get _ _); reflexivity. }
  assert (Hget : PyDict.get (FollowBack._relationships registered) rid = Some rel).
  { subst registered rel rid. unfold FollowBack.register_follow. cbn [fst snd].
    cbn [FollowBack.with_relationships FollowBack._relationships].
    apply PyDict_get_set_same. }
  destruct (run_checks_stored checks registered rid rel Hget) as [Hres _].
  subst results. rewrite Hres. split; [|split].
  - apply run_checks_on_length.
  - intros i res Hnth. now apply (run_checks_on_following checks rel).
  - apply run_checks_on_changes.
Qed.

Lemma follow_back_reported_exactly_once_witness :
  let results :=
    fst (run_checks
           (snd (FollowBack.register_follow (FollowBack.init false) 0
                   "acc" "u1" "user_one" false))
           "acc_u1" [(10, Ok false); (20, Ok true); (30, Ok true)]) in
  map FollowBack.should_dm results = [false; true; false]
  /\ (forall res, nth_error results 1 = Some res ->
                  FollowBack.changed res = true
                  /\ FollowBack.previous_status res = FollowBack.FOLLOWING
                  /\ FollowBack.current_status res = FollowBack.MUTUAL).
Proof.
  intros results.
  destruct (follow_back_reported_exactly_once (FollowBack.init false) 0
              "acc" "u1" "user_one" [(10, Ok false); (20, Ok true); (30, Ok true)])
    as (_ & H & _).
  split; [vm_compute; reflexivity|].
  intros res Hres. destruct (H 1%nat res Hres) as [Hiff Hdm].
  apply Hdm, Hiff. reflexivity.
Defined.

(** ** Follow-back detector: re-registration and the DM flag *)

Lemma PyDict_get_In {V} (d : PyDict.t V) k v :
  PyDict.get d k = Some v -> In (k, v) d.
Proof.
  induction d as [|[k0 v0] d IH]; simpl; [discriminate|].
  destruct (String.eqb_spec k0 k) as [->|Hne].
  - intros [= ->]. now left.
  - intros H. right. auto.
Qed.

Lemma PyDict_In_get {V} (d : PyDict.t V) k v :
  NoDup (PyDict.keys d) -> In (k, v) d -> PyDict.get d k = Some v.
Proof.
  unfold PyDict.keys.
  induction d as [|[k0 v0] d IH]; simpl; [contradiction|].
  intros Hnd [Heq|Hin].
  - injection Heq as -> ->. now rewrite String.eqb_refl.
  - apply NoDup_cons in Hnd as [Hnotin Hnd].
    destruct (String.eqb_spec k0 k) as [->|Hne]; [|auto].
    exfalso. apply Hnotin. apply list_elem_of_In.
    change k with (fst (k, v)). now apply in_map.
Qed.

Lemma PyDict_keys_set {V} (d : PyDict.t V) k v :
  PyDict.keys (PyDict.set d k v)
  = if PyDict.contains d k then PyDict.keys d else (PyDict.keys d ++ [k])%list.
Proof.
  unfold PyDict.contains, PyDict.keys.
  induction d as [|[k0 v0] d IH]; simpl; [reflexivity|].
  destruct (k0 =? k)%string eqn:E; simpl; [reflexivity|].
  rewrite IH. now destruct (PyDict.get d k).
Qed.

Lemma PyDict_set_In {V} (d : PyDict.t V) k v kv :
  In kv (PyDict.set d k v) -> kv = (k, v) \/ In kv d.
Proof.
  induction d as [|[k0 v0] d IH]; simpl.
  - intros [<-|[]]. auto.
  - destruct (String.eqb_spec k0 k) as [->|Hne]; simpl.
    + intros [<-|H]; auto.
    + intros [<-|H]; auto. destruct (IH H); auto.
Qed.

Lemma PyDict_get_map_values {V} (f : string -> V -> V) (d : PyDict.t V) k :
  PyDict.get (map (fun kv => (fst kv, f (fst kv) (snd kv))) d) k
  = option_map (f k) (PyDict.get d k).
Proof.
  induction d as [|[k0 v0] d IH]; simpl; [reflexivity|].
  destruct (String.eqb_spec k0 k) as [->|Hne]; [reflexivity|apply IH].
Qed.

Lemma keyed_by_id_get d k r :
  keyed_by_id d -> PyDict.get d k = Some r -> FollowBack.id r = k.
Proof.
  intros [_ Hids] Hget. apply PyDict_get_In in Hget.
  rewrite List.Forall_forall in Hids. exact (Hids _ Hget).
Qed.

Lemma keyed_by_id_set d k r :
  keyed_by_id d -> FollowBack.id r = k -> keyed_by_id (PyDict.set d k r).
Proof.
  intros [Hnd Hids] Hid. split.
  - rewrite PyDict_keys_set. unfold PyDict.contains.
    destruct (PyDict.get d k) eqn:Hget; [exact Hnd|].
    apply NoDup_app. split; [exact Hnd|]. split; [|apply NoDup_singleton].
    intros x Hx Hx'. apply list_elem_of_In in Hx, Hx'.
    destruct Hx' as [<-|[]].
    unfold PyDict.keys in Hx. rewrite in_map_iff in Hx.
    destruct Hx as ([k' v'] & Hk & Hin). simpl in Hk. subst k'.
    apply PyDict_In_get in Hin; [congruence|exact Hnd].
  - rewrite List.Forall_forall in *. intros kv Hin.
    apply PyDict_set_In in Hin. destruct Hin as [->|Hin]; [exact Hid|auto].
Qed.

Lemma keyed_by_id_map d (f : FollowBack.FollowRelationship -> FollowBack.FollowRelationship) :
  (forall r, FollowBack.id (f r) = FollowBack.id r) ->
  keyed_by_id d -> keyed_by_id (map (fun kv => (fst kv, f (snd kv))) d).
Proof.
  intros Hf [Hnd Hids]. split.
  - unfold PyDict.keys in *. rewrite map_map. exact Hnd.
  - rewrite List.Forall_forall in *. intros kv Hin.
    rewrite in_map_iff in Hin. destruct Hin as (kv0 & <- & Hin0).
    simpl. rewrite Hf. auto.
Qed.

Lemma check_follow_back_frame now probe rel :
  FollowBack.id (snd (FollowBack.check_follow_back now probe rel)) = FollowBack.id rel
  /\ FollowBack.metadata (snd (FollowBack.check_follow_back now probe rel))
     = FollowBack.metadata rel.
Proof. unfold FollowBack.check_follow_back. destruct probe; simpl; auto. Qed.

Lemma keyed_by_id_step isoformat self call :
  keyed_by_id (FollowBack._relationships self) ->
  keyed_by_id (FollowBack._relationships (detector_step isoformat self call)).
Proof.
  intros Hk. destruct call as [now sub t n p|now probe rid2|now a ex|now rid2|days];
    cbn [detector_step].
  - unfold FollowBack.register_follow. cbn [snd FollowBack.with_relationships
      FollowBack._relationships].
    apply keyed_by_id_set; [exact Hk|].
    destruct (PyDict.get _ _) eqn:Hg; [|reflexivity].
    simpl. eapply keyed_by_id_get; eauto.
  - unfold FollowBack.check_stored.
    destruct (PyDict.get _ rid2) as [r0|] eqn:Hg; [|exact Hk].
    pose proof (check_follow_back_frame now probe r0) as [Hid _].
    destruct (FollowBack.check_follow_back now probe r0) as [res r1].
    cbn [snd FollowBack.with_relationships FollowBack._relationships] in *.
    apply keyed_by_id_set; [exact Hk|]. rewrite Hid.
    eapply keyed_by_id_get; eauto.
  - unfold FollowBack.process_timeouts.
    cbn [snd FollowBack.with_relationships FollowBack._relationships].
    apply (keyed_by_id_map _
             (fun r => if (FollowBack.timed_out now (Some a) r
                          && negb (FollowBack.has_automation_executor self && ex r))
                       then FollowBack.unfollowed now r else r)); [|exact Hk].
    intros r. now destruct (_ && _).
  - unfold FollowBack.mark_dm_sent.
    destruct (PyDict.get _ rid2) as [r0|] eqn:Hg; [|exact Hk].
    cbn [snd FollowBack.with_relationships FollowBack._relationships].
    apply keyed_by_id_set; [exact Hk|]. simpl. eapply keyed_by_id_get; eauto.
  - exact Hk.
Qed.

Lemma dm_flagged_step isoformat rid self call :
  dm_flagged rid self -> dm_flagged rid (detector_step isoformat self call).
Proof.
  intros [Hk (rel & Hget & Hdm)].
  split; [now apply keyed_by_id_step|].
  destruct call as [now sub t n p|now probe rid2|now a ex|now rid2|days];
    cbn [detector_step].
  - unfold FollowBack.register_follow. cbn [snd FollowBack.with_relationships
      FollowBack._relationships].
    rewrite PyDict_get_set.
    destruct (String.eqb_spec (FollowBack.make_relationship_id sub t) rid) as [->|Hne].
    + rewrite Hget. eexists. split; [reflexivity|exact Hdm].
    + eauto.
  - unfold FollowBack.check_stored.
    destruct (PyDict.get _ rid2) as [r0|] eqn:Hg; [|eauto].
    pose proof (check_follow_back_frame now probe r0) as [_ Hmeta].
    destruct (FollowBack.check_follow_back now probe r0) as [res r1].
    cbn [snd FollowBack.with_relationships FollowBack._relationships] in *.
    rewrite PyDict_get_set.
    destruct (String.eqb_spec rid2 rid) as [->|Hne]; [|eauto].
    eexists. split; [reflexivity|].
    unfold FollowBack.dm_sent in *. rewrite Hmeta. congruence.
  - unfold FollowBack.process_timeouts.
    cbn [snd FollowBack.with_relationships FollowBack._relationships].
    rewrite (PyDict_get_map_values
               (fun _ r => if (FollowBack.timed_out now (Some a) r
                          && negb (FollowBack.has_automation_executor self && ex r))
                           then FollowBack.unfollowed now r else r)).
    rewrite Hget. eexists. split; [reflexivity|].
    now destruct (_ && _).
  - unfold FollowBack.mark_dm_sent.
    destruct (PyDict.get _ rid2) as [r0|] eqn:Hg; [|eauto].
    cbn [snd FollowBack.with_relationships FollowBack._relationships].
    rewrite PyDict_get_set.
    destruct (String.eqb_spec rid2 rid) as [->|Hne]; [|eauto].
    eexists. split; [reflexivity|].
    unfold FollowBack.dm_sent. cbn [FollowBack.metadata].
    rewrite lookup_insert_ne by discriminate. now rewrite lookup_insert_eq.
  - eauto.
Qed.

Lemma dm_flagged_run isoformat rid calls : forall self,
  dm_flagged rid self -> dm_flagged rid (detector_run isoformat self calls).
Proof.
  unfold detector_run.
  induction calls as [|c calls IH]; intros self H; simpl; [exact H|].
  apply IH. now apply dm_flagged_step.
Qed.

Lemma dm_flagged_not_ready rid self account r :
  dm_flagged rid self ->
  In r (FollowBack.get_dm_ready_targets self account) ->
  FollowBack.id r <> rid.
Proof.
  intros [[Hnd Hids] (rel & Hget & Hdm)] Hin Hid.
  unfold FollowBack.get_dm_ready_targets, FollowBack.get_mutual_followers in Hin.
  apply List.filter_In in Hin. destruct Hin as [Hin Hnot].
  apply List.filter_In in Hin. destruct Hin as [Hin _].
  unfold PyDict.values in Hin. rewrite in_map_iff in Hin.
  destruct Hin as ([k r'] & Hr & Hin). simpl in Hr. subst r'.
  rewrite List.Forall_forall in Hids. pose proof (Hids _ Hin) as Hk. simpl in Hk.
  apply PyDict_In_get in Hin; [|exact Hnd].
  rewrite <- Hk, Hid, Hget in Hin. injection Hin as ->.
  rewrite Hdm in Hnot. discriminate.
Qed.

(** Every registry the detector builds is keyed by relationship id. *)
Lemma detector_registry_keyed isoformat executor calls :
  keyed_by_id
    (FollowBack._relationships
       (detector_run isoformat (FollowBack.init executor) calls)).
Proof.
  unfold detector_run.
  assert (H0 : keyed_by_id (FollowBack._relationships (FollowBack.init executor)))
    by (split; constructor).
  revert H0. generalize (FollowBack.init executor).
  induction calls as [|c calls IH]; intros self H; simpl; [exact H|].
  apply IH. now apply keyed_by_id_step.
Qed.

(** C10.  [register_follow] on a pair that already has a relationship
    gives the relationship a new status, [followed_at] and [timeout_at]
    and keeps every other field: metadata with the DM flag,
    [is_private_account], [check_count] and the rest; the other
    relationships are not touched.  Hence a relationship whose DM flag is
    set is, after being followed again and whatever the detector is asked
    to do afterwards (checks that find it mutual again included), never
    among the [get_dm_ready_targets] of any account. *)
Theorem refollow_keeps_everything_but_status_and_deadlines :
  forall (isoformat : datetime -> string)
         (self : FollowBack.FollowBackDetectorService) (now : datetime)
         (sub target_id target_name : string) (is_private : bool)
         (rel : FollowBack.FollowRelationship),
    let rid := FollowBack.make_relationship_id sub target_id in
    keyed_by_id (FollowBack._relationships self) ->
    PyDict.get (FollowBack._relationships self) rid = Some rel ->
    let again :=
      FollowBack.register_follow self now sub target_id target_name is_private in
    fst again = refollowed rel now (FollowBack._timeout_days self) is_private
    /\ PyDict.get (FollowBack._relationships (snd again)) rid = Some (fst again)
    /\ (forall other, other <> rid ->
          PyDict.get (FollowBack._relationships (snd again)) other
          = PyDict.get (FollowBack._relationships self) other)
    /\ (FollowBack.dm_sent rel = true ->
        forall (calls : list detector_call) (account : string)
               (r : FollowBack.FollowRelationship),
          In r (FollowBack.get_dm_ready_targets
                  (detector_run isoformat (snd again) calls) account) ->
          FollowBack.id r <> rid).
Proof.
  intros isoformat self now sub target_id target_name is_private rel rid
         Hkeyed Hget again.
  assert (Hfst : fst again
                 = refollowed rel now (FollowBack._timeout_days self) is_private).
  { subst again rid. unfold FollowBack.register_follow. cbn [fst].
    rewrite Hget. reflexivity. }
  assert (Hsnd : FollowBack._relationships (snd again)
                 = PyDict.set (FollowBack._relationships self) rid (fst again)).
  { reflexivity. }
  split; [exact Hfst|]. rewrite Hsnd.
  split; [apply PyDict_get_set_same|].
  split; [intros other Hne; apply PyDict_get_set_other; congruence|].
  intros Hdm calls account r Hin.
  apply (dm_flagged_not_ready rid _ account r) in Hin; [exact Hin|].
  apply dm_flagged_run. split.
  - rewrite Hsnd. apply keyed_by_id_set; [exact Hkeyed|].
    rewrite Hfst. simpl. eapply keyed_by_id_get; eauto.
  - exists (fst again). rewrite Hsnd. split; [apply PyDict_get_set_same|].
    rewrite Hfst. exact Hdm.
Qed.

Lemma refollow_keeps_everything_but_status_and_deadlines_witness :
  FollowBack.get_dm_ready_targets refollow_after_dm "acc" = []
  /\ map FollowBack.id (FollowBack.get_mutual_followers refollow_after_dm "acc")
     = ["acc_u1"].
Proof.
  split; [|vm_compute; reflexivity].
  set (before :=
         detector_run plain_datetime (FollowBack.init false)
           [ CallRegisterFollow 0 "acc" "u1" "user_one" false;
             CallCheckFollowBack 10 (Ok true) "acc_u1";
             CallMarkDmSent 20 "acc_u1" ]).
  assert (Hget : exists rel,
             PyDict.get (FollowBack._relationships before) "acc_u1" = Some rel
             /\ FollowBack.dm_sent rel = true).
  { eexists. split; vm_compute; reflexivity. }
  destruct Hget as (rel & Hget & Hdm).
  destruct (refollow_keeps_everything_but_status_and_deadlines plain_datetime
              before 30 "acc" "u1" "user_one" true rel
              (detector_registry_keyed plain_datetime false _) Hget)
    as (_ & _ & _ & Hnever).
  specialize (Hnever Hdm [CallCheckFollowBack 40 (Ok true) "acc_u1"] "acc").
  change (detector_run plain_datetime _ [CallCheckFollowBack 40 (Ok true) "acc_u1"])
    with refollow_after_dm in Hnever.
  destruct (FollowBack.get_dm_ready_targets refollow_after_dm "acc") as [|r l] eqn:E;
    [reflexivity|].
  exfalso. apply (Hnever r); [now left|].
  assert (Hin : In r (FollowBack.get_dm_ready_targets refollow_after_dm "acc"))
    by (rewrite E; now left).
  revert Hin. clear. vm_compute. tauto.
Defined.

(** ** Conversation flow: unknown intents and the hand-off *)

Lemma is_unknown_iff i :
  Conversation.is_unknown i = true <-> i = Conversation.UNKNOWN.
Proof. destruct i; simpl; split; congruence. Qed.

Lemma saved_state_lookup self spintax cid state :
  Conversation._states (Conversation.save_state self spintax cid state) !! cid
  = Some state.
Proof. unfold Conversation.save_state. simpl. apply lookup_insert_eq. Qed.

(** One call of [process_message] on a resolvable conversation. *)
Lemma process_message_step self cid state (m : inbound) :
  resolvable self cid state ->
  exists state',
    resolvable
      (snd (Conversation.process_message self (in_rng m) (in_now m) cid (in_text m)))
      cid state'
    /\ Conversation.failed_intents state'
       = Conversation.failed_intents state + (if unknown_intent m then 1 else 0)
    /\ (unknown_intent m = true ->
        3 <= Conversation.failed_intents state + 1 ->
        let resp :=
          fst (Conversation.process_message self (in_rng m) (in_now m) cid
                 (in_text m)) in
        Conversation.requires_human resp = true
        /\ Conversation.should_respond resp = true
        /\ Conversation.response_text resp = Some Conversation.handoff_text).
Proof.
  intros (Hstate & flow & node & Hflow & Hnode).
  unfold unknown_intent, Conversation.process_message.
  rewrite Hstate, Hflow, Hnode.
  set (intent := Conversation.detect_intent (in_text m)).
  cbn [Conversation.failed_intents Conversation.flow_id
       Conversation.current_node_id Conversation.variables].
  destruct (Conversation.is_unknown intent) eqn:Hunk; cbn [andb].
  - destruct (3 <=? Conversation.failed_intents state + 1) eqn:Hthree.
    + eexists. cbn [fst snd]. split; [|split].
      * split; [apply saved_state_lookup|]. exists flow, node. auto.
      * reflexivity.
      * auto.
    + apply Z.leb_gt in Hthree.
      destruct (if truthy_str _ then _ else None) as [n|] eqn:Hnext.
      * destruct (Conversation.nodes flow !! n) as [next_node|] eqn:Hn.
        -- destruct (Conversation._process_node _ _ _ next_node _) as [resp sp].
           eexists. cbn [fst snd]. split; [|split].
           ++ split; [apply saved_state_lookup|]. exists flow, next_node. auto.
           ++ reflexivity.
           ++ intros _ Hge. lia.
        -- eexists. cbn [fst snd]. split; [|split].
           ++ split; [apply saved_state_lookup|]. exists flow, node. auto.
           ++ reflexivity.
           ++ intros _ Hge. lia.
      * eexists. cbn [fst snd]. split; [|split].
        -- split; [apply saved_state_lookup|]. exists flow, node. auto.
        -- reflexivity.
        -- intros _ Hge. lia.
  - destruct (if truthy_str _ then _ else None) as [n|] eqn:Hnext.
    + destruct (Conversation.nodes flow !! n) as [next_node|] eqn:Hn.
      * destruct (Conversation._process_node _ _ _ next_node _) as [resp sp].
        eexists. cbn [fst snd]. split; [|split].
        -- split; [apply saved_state_lookup|]. exists flow, next_node. auto.
        -- cbn. lia.
        -- discriminate.
      * eexists. cbn [fst snd]. split; [|split].
        -- split; [apply saved_state_lookup|]. exists flow, node. auto.
        -- cbn. lia.
        -- discriminate.
    + eexists. cbn [fst snd]. split; [|split].
      * split; [apply saved_state_lookup|]. exists flow, node. auto.
      * cbn. lia.
      * discriminate.
Qed.

(** C5 (as amended).  In a conversation whose flow and current node
    resolve, [failed_intents] grows by one with every unknown-intent
    message and is never reset, a recognized intent leaves it as it is: it
    counts all unknown-intent messages of the conversation.
    [process_message] answers with [requires_human=True] and the hand-off
    text on every unknown-intent message that brings the count to three or
    more, whatever the routing of the current node; with a count that
    starts at zero or more this covers the third of three unknown-intent
    messages in a row. *)
Theorem failed_intents_count_all_unknown_messages :
  forall (msgs : list inbound) (self : Conversation.ConversationFlowService)
         (cid : string) (state : Conversation.ConversationState),
    resolvable self cid state ->
    let responses := fst (run_messages self cid msgs) in
    let self' := snd (run_messages self cid msgs) in
    List.length responses = List.length msgs
    /\ (exists state',
           resolvable self' cid state'
           /\ Conversation.failed_intents state'
              = Conversation.failed_intents state + unknown_count msgs)
    /\ (forall (i : nat) (m : inbound) (resp : Conversation.FlowResponse),
          nth_error msgs i = Some m ->
          nth_error responses i = Some resp ->
          unknown_intent m = true ->
          3 <= Conversation.failed_intents state + unknown_count (firstn (S i) msgs) ->
          Conversation.requires_human resp = true
          /\ Conversation.response_text resp = Some Conversation.handoff_text).
Proof.
  induction msgs as [|m0 rest IH]; intros self cid state Hres; cbn zeta.
  - simpl. split; [reflexivity|]. split.
    + exists state. split; [exact Hres|]. lia.
    + intros [|i] ? ? ?; discriminate.
  - cbn [run_messages].
    destruct (process_message_step self cid state m0 Hres)
      as (state1 & Hres1 & Hfail1 & Hhand).
    destruct (Conversation.process_message self (in_rng m0) (in_now m0) cid
                (in_text m0)) as [resp0 self1].
    cbn [fst snd] in Hres1, Hhand.
    specialize (IH self1 cid state1 Hres1). cbn zeta in IH.
    destruct (run_messages self1 cid rest) as [resps self2].
    cbn [fst snd] in *.
    destruct IH as (Hlen & (state2 & Hres2 & Hfail2) & Hidx).
    split; [simpl; now rewrite Hlen|]. split.
    + exists state2. split; [exact Hres2|].
      cbn [unknown_count]. rewrite Hfail2, Hfail1. lia.
    + intros [|i] m resp Hm Hresp Hunk Hcount.
      * cbn in Hm, Hresp. injection Hm as <-. injection Hresp as <-.
        change (firstn 1 (m0 :: rest)) with [m0] in Hcount.
        cbn [unknown_count] in Hcount. rewrite Hunk in Hcount.
        destruct Hhand as (Hh & _ & Ht); [exact Hunk|lia|]. auto.
      * cbn [nth_error] in Hm, Hresp.
        apply (Hidx i m resp Hm Hresp Hunk).
        change (firstn (S (S i)) (m0 :: rest)) with (m0 :: firstn (S i) rest) in Hcount.
        cbn [unknown_count] in Hcount. rewrite Hfail1. lia.
Qed.

Lemma failed_intents_count_all_unknown_messages_witness :
  let msgs := [text_message 1 "zzz"; text_message 2 "qwerty"; text_message 3 "asdfgh"] in
  exists resp,
    nth_error (fst (run_messages conversation_c1 "c1" msgs)) 2 = Some resp
    /\ Conversation.requires_human resp = true
    /\ Conversation.response_text resp = Some Conversation.handoff_text.
Proof.
  intros msgs.
  assert (Hstate : exists state,
             Conversation._states conversation_c1 !! "c1" = Some state
             /\ Conversation.failed_intents state = 0
             /\ exists flow node,
                  Conversation._flows conversation_c1 !! Conversation.flow_id state
                  = Some flow
                  /\ Conversation.nodes flow !! Conversation.current_node_id state
                     = Some node).
  { eexists. split; [vm_compute; reflexivity|]. split; [reflexivity|].
    eexists. eexists. split; vm_compute; reflexivity. }
  destruct Hstate as (state & Hs & Hzero & Hflow).
  destruct (failed_intents_count_all_unknown_messages msgs conversation_c1 "c1"
              state (conj Hs Hflow)) as (Hlen & _ & H).
  destruct (nth_error (fst (run_messages conversation_c1 "c1" msgs)) 2)
    as [resp|] eqn:Hresp.
  - exists resp. split; [reflexivity|].
    apply (H 2%nat (text_message 3 "asdfgh") resp); [reflexivity|exact Hresp| |].
    + vm_compute. reflexivity.
    + rewrite Hzero. vm_compute. discriminate.
  - apply nth_error_None in Hresp. rewrite Hlen in Hresp. simpl in Hresp. lia.
Defined.

(** C5, as the specification states it, fails: after two unknown-intent
    messages a greeting is recognized and leaves [failed_intents] at 2, and
    the next unknown-intent message, the first after the greeting, is
    answered with the hand-off. *)
Lemma recognized_intent_does_not_reset_failed_intents :
  let msgs := [text_message 1 "zzz"; text_message 2 "zzz"; text_message 3 "hello"] in
  map (fun m => Conversation.detect_intent (in_text m)) msgs
  = [Conversation.UNKNOWN; Conversation.UNKNOWN; Conversation.GREETING]
  /\ option_map Conversation.failed_intents
       (Conversation._states (snd (run_messages conversation_c1 "c1" msgs)) !! "c1")
     = Some 2
  /\ Conversation.requires_human
       (fst (Conversation.process_message
               (snd (run_messages conversation_c1 "c1" msgs))
               (fun _ => 0%nat) 4 "c1" "zzz"))
     = true.
Proof. repeat split; vm_compute; reflexivity. Qed.

(** Why C5 asks for a current node that resolves: on a flow whose start
    node is missing [process_message] ends the conversation before it
    looks at the intent; [failed_intents] stays 0 and no hand-off is asked
    for, however many unknown-intent messages arrive. *)
Lemma unresolved_node_ends_conversation :
  let answer :=
    Conversation.process_message conversation_on_broken_flow (fun _ => 0%nat)
      1 "c2" "zzz" in
  Conversation.requires_human (fst answer) = false
  /\ Conversation.end_conversation (fst answer) = true
  /\ snd answer = conversation_on_broken_flow.
Proof. repeat split; vm_compute; reflexivity. Qed.

(** * Further properties *)

(** ** Spintax *)

Lemma SPINTAX_search_without_opening s :
  str_contains_char "{" s = false -> Spintax.SPINTAX_search s = None.
Proof.
  induction s as [|c s IH]; simpl; [reflexivity|].
  intros H. apply orb_false_iff in H. destruct H as [Hc Hs].
  rewrite Hc, (IH Hs). reflexivity.
Qed.

Lemma spin_returns_text_without_opening_brace_aux rng text :
  str_contains_char "{" text = false -> Spintax.spin rng text = text.
Proof.
  intros H. unfold Spintax.spin, Spintax.max_iterations.
  rewrite spin_loop_step, (SPINTAX_search_without_opening _ H). reflexivity.
Qed.

(** X1.  A text that holds no "{" comes back from [spin] as it is, whatever
    the draws. *)
Theorem spin_returns_text_without_opening_brace :
  forall (rng : nat -> nat) (text : string),
    str_contains_char "{" text = false ->
    Spintax.spin rng text = text.
Proof.
  intros rng text H. now apply spin_returns_text_without_opening_brace_aux.
Qed.

Lemma spin_returns_text_without_opening_brace_witness :
  Spintax.spin (fun i => i) "Hi [name]} see you | soon"
  = "Hi [name]} see you | soon".
Proof.
  apply spin_returns_text_without_opening_brace. reflexivity.
Defined.

(** X2.  [spin] never adds a brace: it takes away whole pairs, as many
    opening as closing braces, and at most [max_iterations] (10) pairs. *)
Theorem spin_only_removes_brace_pairs :
  forall (rng : nat -> nat) (text : string),
    exists removed : nat,
      (removed <= Spintax.max_iterations)%nat
      /\ (str_count "{" (Spintax.spin rng text) + removed
          = str_count "{" text)%nat
      /\ (str_count "}" (Spintax.spin rng text) + removed
          = str_count "}" text)%nat.
Proof. intros rng text. apply spin_loop_removes_pairs. Qed.

Lemma prefix_cons a x b s :
  String.prefix (String a x) (String b s)
  = if ascii_dec a b then String.prefix x s else false.
Proof. reflexivity. Qed.

Lemma prefix_bracket_fails x c s :
  (c =? "[")%char = false -> String.prefix (String "[" x) (String c s) = false.
Proof.
  intros Hc. rewrite prefix_cons.
  destruct (ascii_dec "[" c) as [<-|]; [discriminate|reflexivity].
Qed.

Lemma str_replace_without_bracket x new s :
  str_contains_char "[" s = false -> str_replace (String "[" x) new s = s.
Proof.
  unfold str_replace. induction s as [|c s IH]; [reflexivity|].
  intros H. simpl in H. apply orb_false_iff in H. destruct H as [Hc Hs].
  cbn [str_replace_from]. rewrite (prefix_bracket_fails x c s Hc).
  now rewrite (IH Hs).
Qed.

(** X3.  A text that holds no "[" is left as it is by [replace_variables],
    whatever the variables and their values. *)
Theorem replace_variables_returns_text_without_bracket :
  forall (text : string) (variables : PyDict.t string),
    str_contains_char "[" text = false ->
    Spintax.replace_variables text variables = text.
Proof.
  intros text variables H. unfold Spintax.replace_variables.
  induction variables as [|[k v] vars IH]; [reflexivity|].
  cbn [fold_left fst snd]. rewrite sapp_cons, sapp_nil.
  rewrite (str_replace_without_bracket _ _ _ H). exact IH.
Qed.

Lemma replace_variables_returns_text_without_bracket_witness :
  Spintax.replace_variables "{Hi|Hey} name]!" [("name", "Ann"); ("", "x")]
  = "{Hi|Hey} name]!".
Proof.
  apply replace_variables_returns_text_without_bracket. reflexivity.
Defined.

Lemma list_set_In x l : In x (Spintax.list_set l) <-> In x l.
Proof.
  induction l as [|y l IH]; simpl; [tauto|].
  rewrite List.filter_In, IH. split.
  - intros [->|[H _]]; auto.
  - intros [->|H]; [now left|].
    destruct (String.eqb_spec x y) as [->|Hne]; [now left|].
    right. split; [exact H|]. simpl. reflexivity.
Qed.

Lemma list_set_NoDup l : List.NoDup (Spintax.list_set l).
Proof.
  induction l as [|y l IH]; simpl; [constructor|].
  constructor.
  - rewrite List.filter_In. intros [_ H]. now rewrite String.eqb_refl in H.
  - now apply List.NoDup_filter.
Qed.

Lemma span_ident_spec s w rest :
  Spintax.span_ident s = (w, rest) -> s = w +:+ rest.
Proof.
  revert w rest. induction s as [|c s IH]; intros w rest; simpl.
  - intros [= <- <-]. reflexivity.
  - destruct (Spintax.is_ident_char c).
    + destruct (Spintax.span_ident s) as [w' r']. intros [= <- <-].
      rewrite sapp_cons. now rewrite (IH w' r' eq_refl).
    + intros [= <- <-]. reflexivity.
Qed.

Lemma prefix_app a b : String.prefix a (a +:+ b) = true.
Proof.
  induction a as [|c a IH]; [now destruct b|].
  rewrite sapp_cons, prefix_cons. destruct (ascii_dec c c); [exact IH|congruence].
Qed.

Lemma variable_after_open_spec s v :
  Spintax.variable_after_open s = Some v ->
  v <> "" /\ String.prefix (String "[" (v +:+ "]")) (String "[" s) = true.
Proof.
  unfold Spintax.variable_after_open. destruct s as [|c s]; [discriminate|].
  destruct (Spintax.is_ident_start c); [|discriminate].
  destruct (Spintax.span_ident s) as [w rest] eqn:Hspan.
  apply span_ident_spec in Hspan. subst s.
  destruct rest as [|c' rest]; [discriminate|].
  destruct (Ascii.eqb_spec c' "]"); [|destruct c' as [[] [] [] [] [] [] [] []]; try discriminate; congruence].
  subst c'. intros [= <-]. split; [discriminate|].
  rewrite sapp_cons, !prefix_cons. destruct (ascii_dec "[" "["); [|congruence].
  destruct (ascii_dec c c); [|congruence].
  change (String "]" rest) with ("]" +:+ rest).
  replace (w +:+ "]" +:+ rest) with ((w +:+ "]") +:+ rest).
  - apply prefix_app.
  - clear. induction w as [|a w IH]; [reflexivity|].
    rewrite !sapp_cons. now rewrite IH.
Qed.

Lemma str_contains_cons sub c s :
  Conversation.str_contains sub (String c s)
  = String.prefix sub (String c s) || Conversation.str_contains sub s.
Proof. reflexivity. Qed.

Lemma VARIABLE_findall_sound s v :
  In v (Spintax.VARIABLE_findall s) ->
  v <> "" /\ Conversation.str_contains ("[" +:+ v +:+ "]") s = true.
Proof.
  induction s as [|c s IH]; [contradiction|].
  intros Hin. cbn [Spintax.VARIABLE_findall] in Hin.
  rewrite str_contains_cons.
  assert (Hlater : In v (Spintax.VARIABLE_findall s) ->
                   v <> ""
                   /\ String.prefix ("[" +:+ v +:+ "]") (String c s)
                      || Conversation.str_contains ("[" +:+ v +:+ "]") s = true).
  { intros H. destruct (IH H) as [Hne Hc]. split; [exact Hne|].
    rewrite Hc. apply orb_true_r. }
  destruct (Ascii.eqb_spec c "[") as [->|Hc]; [|now apply Hlater].
  destruct (Spintax.variable_after_open s) as [v0|] eqn:Hv; [|now apply Hlater].
  destruct Hin as [<-|Hin]; [|now apply Hlater].
  apply variable_after_open_spec in Hv. destruct Hv as [Hne Hp].
  split; [exact Hne|]. rewrite sapp_cons, sapp_nil, Hp. reflexivity.
Qed.

(** X4.  [add_template] stores the template under its id with the variables
    read from its text: [get_template] returns it, the other templates are
    as before, the stored variables are distinct, none is empty, and each
    occurs between square brackets in the text. *)
Theorem add_template_stores_extracted_variables :
  forall (self : Spintax.SpintaxService) (t : Spintax.MessageTemplate),
    let stored := Spintax.with_extracted_variables t in
    Spintax.get_template (Spintax.add_template self t) (Spintax.id t) = Some stored
    /\ (forall other,
          other <> Spintax.id t ->
          Spintax.get_template (Spintax.add_template self t) other
          = Spintax.get_template self other)
    /\ Spintax.template stored = Spintax.template t
    /\ List.NoDup (Spintax.variables stored)
    /\ (forall v,
          In v (Spintax.variables stored) ->
          v <> ""
          /\ Conversation.str_contains ("[" +:+ v +:+ "]") (Spintax.template t)
             = true).
Proof.
  intros self t stored.
  unfold Spintax.get_template, Spintax.add_template.
  cbn [Spintax._templates Spintax.with_extracted_variables Spintax.id].
  split; [apply lookup_insert_eq|].
  split; [intros other Hne; apply lookup_insert_ne; congruence|].
  split; [reflexivity|].
  split; [apply list_set_NoDup|].
  intros v Hin. subst stored.
  cbn [Spintax.variables Spintax.with_extracted_variables] in Hin.
  apply (proj1 (list_set_In _ _)) in Hin. now apply VARIABLE_findall_sound.
Qed.

Lemma with_more_counts_zero t : with_more_counts t 0 0 = t.
Proof. destruct t. unfold with_more_counts. simpl. now rewrite !Z.add_0_r. Qed.

Lemma with_more_counts_twice t u1 w1 u2 w2 :
  with_more_counts (with_more_counts t u1 w1) u2 w2
  = with_more_counts t (u1 + u2) (w1 + w2).
Proof. unfold with_more_counts. simpl. now rewrite !Z.add_assoc. Qed.

Lemma spintax_step_lookup self call tid :
  Spintax._templates (spintax_step self call) !! tid
  = option_map
      (fun t => with_more_counts t (generated_from tid [call])
                  (successes_of tid [call]))
      (Spintax._templates self !! tid).
Proof.
  destruct call as [rng now tid' vars|tid']; cbn [spintax_step generated_from successes_of].
  - unfold Spintax.generate_message.
    destruct (Spintax._templates self !! tid') as [t'|] eqn:Hget'; cbn [snd].
    + cbn [Spintax._templates]. rewrite lookup_insert.
      destruct (decide (tid' = tid)) as [->|Hne].
      * rewrite String.eqb_refl, Hget'. cbn. f_equal.
        unfold with_more_counts. f_equal. lia.
      * apply String.eqb_neq in Hne. rewrite Hne.
        destruct (Spintax._templates self !! tid); cbn; [|reflexivity].
        now rewrite with_more_counts_zero.
    + destruct (String.eqb_spec tid' tid) as [->|Hne].
      * now rewrite Hget'.
      * destruct (Spintax._templates self !! tid); cbn; [|reflexivity].
        now rewrite with_more_counts_zero.
  - unfold Spintax.record_success.
    destruct (Spintax._templates self !! tid') as [t'|] eqn:Hget'; cbn [snd].
    + cbn [Spintax._templates]. rewrite lookup_insert.
      destruct (decide (tid' = tid)) as [->|Hne].
      * rewrite String.eqb_refl, Hget'. cbn. f_equal.
        unfold with_more_counts, Spintax.with_success_count. cbn. f_equal. lia.
      * apply String.eqb_neq in Hne. rewrite Hne.
        destruct (Spintax._templates self !! tid); cbn; [|reflexivity].
        now rewrite with_more_counts_zero.
    + destruct (String.eqb_spec tid' tid) as [->|Hne].
      * now rewrite Hget'.
      * destruct (Spintax._templates self !! tid); cbn; [|reflexivity].
        now rewrite with_more_counts_zero.
Qed.

(** X5.  Over any sequence of [generate_message] and [record_success]
    calls no template appears or disappears, and a template changes in its
    two counters only: [total_used] grows by the number of
    [generate_message] calls that name it, [success_count] by the number
    of [record_success] calls that name it; text, variables and every other
    field stay, and calls that name an unknown id change nothing. *)
Theorem template_counters_follow_the_calls :
  forall (calls : list spintax_call) (self : Spintax.SpintaxService)
         (tid : string),
    Spintax._templates (spintax_run self calls) !! tid
    = option_map
        (fun t => with_more_counts t (generated_from tid calls)
                    (successes_of tid calls))
        (Spintax._templates self !! tid).
Proof.
  unfold spintax_run.
  induction calls as [|call calls IH]; intros self tid.
  - cbn. destruct (Spintax._templates self !! tid); cbn; [|reflexivity].
    now rewrite with_more_counts_zero.
  - cbn [fold_left]. rewrite IH, spintax_step_lookup.
    destruct (Spintax._templates self !! tid) as [t|]; cbn [option_map]; [|reflexivity].
    rewrite with_more_counts_twice. f_equal. f_equal.
    + destruct call; cbn [generated_from]; lia.
    + destruct call; cbn [successes_of]; lia.
Qed.

Lemma SPINTAX_finditer_without_opening s :
  str_contains_char "{" s = false -> Spintax.SPINTAX_finditer s = [].
Proof.
  induction s as [|c s IH]; simpl; [reflexivity|].
  intros H. apply orb_false_iff in H. destruct H as [Hc Hs].
  rewrite Hc. auto.
Qed.

(** X6.  A text without braces always passes [validate_template]: no issue
    is reported and the sample is the text itself. *)
Theorem validate_template_accepts_text_without_braces :
  forall (rng : nat -> nat) (text : string),
    has_brace text = false ->
    let v := Spintax.validate_template rng text in
    Spintax.valid v = true
    /\ Spintax.issues v = []
    /\ Spintax.sample v = Some text.
Proof.
  intros rng text H. unfold has_brace in H.
  apply orb_false_iff in H. destruct H as [Ho Hc].
  assert (Hoc : str_count "{" text = 0%nat).
  { clear -Ho. induction text as [|c s IH]; simpl in *; [reflexivity|].
    apply orb_false_iff in Ho. destruct Ho as [-> Hs]. auto. }
  assert (Hcc : str_count "}" text = 0%nat).
  { clear -Hc. induction text as [|c s IH]; simpl in *; [reflexivity|].
    apply orb_false_iff in Hc. destruct Hc as [-> Hs]. auto. }
  cbv zeta. unfold Spintax.validate_template.
  rewrite Hoc, Hcc, (SPINTAX_finditer_without_opening _ Ho).
  rewrite (spin_returns_text_without_opening_brace_aux rng text Ho).
  cbn. auto.
Qed.

Lemma validate_template_accepts_text_without_braces_witness :
  Spintax.valid (Spintax.validate_template (fun i => i) "Hi [name], welcome!") = true
  /\ Spintax.issues (Spintax.validate_template (fun i => i) "Hi [name], welcome!") = []
  /\ Spintax.sample (Spintax.validate_template (fun i => i) "Hi [name], welcome!")
     = Some "Hi [name], welcome!".
Proof.
  apply (validate_template_accepts_text_without_braces (fun i => i)
           "Hi [name], welcome!").
  reflexivity.
Defined.

(** ** Scheduler: when an action is allowed, and what the executor records *)

Section SchedulerAnswers.
Variable str_of_datetime : datetime -> string.
Variable format_seconds_0f : Z -> string.

Local Abbreviation can_execute_action :=
  (Scheduler.can_execute_action str_of_datetime format_seconds_0f).

Lemma check_limits_state state now action config :
  snd (Scheduler.check_limits format_seconds_0f state now action config)
  = Scheduler._reset_counters_if_needed state now.
Proof.
  unfold Scheduler.check_limits.
  repeat match goal with
  | |- context [match ?x with _ => _ end] => destruct x; cbn [snd]
  end; reflexivity.
Qed.

Lemma check_limits_answer state now action config allowed reason :
  fst (Scheduler.check_limits format_seconds_0f state now action config)
    = Ok (allowed, reason) ->
  (allowed = true -> reason = None /\ within_limits state now action config)
  /\ (allowed = false -> reason <> None).
Proof.
  unfold within_limits, Scheduler.check_limits.
  set (st := Scheduler._reset_counters_if_needed state now).
  destruct (Scheduler.get_limit_for_age config (Scheduler.age_category st) "hourly")
    as [hl|e] eqn:Hh; [|discriminate].
  destruct (hl <=? _) eqn:Hhc; cbn [fst].
  { intros [= <- <-]. split; [discriminate|]. intros _ [=]. }
  destruct (Scheduler.get_limit_for_age config (Scheduler.age_category st) "daily")
    as [dl|e] eqn:Hd; [|discriminate].
  destruct (dl <=? _) eqn:Hdc; cbn [fst].
  { intros [= <- <-]. split; [discriminate|]. intros _ [=]. }
  apply Z.leb_gt in Hhc, Hdc.
  destruct (Scheduler.last_action_at st !! action) as [last|] eqn:Hlast.
  - destruct (now - last <? _) eqn:Hi; cbn [fst].
    + intros [= <- <-]. split; [discriminate|]. intros _ [=].
    + apply Z.ltb_ge in Hi. intros [= <- <-]. split; [|discriminate].
      intros _. split; [reflexivity|]. exists hl, dl. auto.
  - cbn [fst]. intros [= <- <-]. split; [|discriminate].
    intros _. split; [reflexivity|]. exists hl, dl. auto.
Qed.

Lemma within_limits_frame state1 state2 now action config :
  Scheduler.age_category state1 = Scheduler.age_category state2 ->
  Scheduler.hourly_actions state1 = Scheduler.hourly_actions state2 ->
  Scheduler.daily_actions state1 = Scheduler.daily_actions state2 ->
  Scheduler.last_action_at state1 = Scheduler.last_action_at state2 ->
  Scheduler.hourly_reset_at state1 = Scheduler.hourly_reset_at state2 ->
  Scheduler.daily_reset_at state1 = Scheduler.daily_reset_at state2 ->
  within_limits state1 now action config ->
  within_limits state2 now action config.
Proof.
  intros Ha Hh Hd Hl Hhr Hdr Hw.
  pose proof (check_limits_frame format_seconds_0f state1 state2 now action config
                Ha Hh Hd Hl Hhr Hdr) as Hframe.
  rewrite (check_limits_within format_seconds_0f _ _ _ _ Hw) in Hframe.
  symmetry in Hframe.
  apply check_limits_answer in Hframe. apply Hframe. reflexivity.
Qed.

Lemma cooling_blocks_spec state now :
  cooling_blocks state now
  <-> exists until,
        (if Scheduler.is_cooling state
         then match Scheduler.cooling_until state with
              | Some until => if now <? until then Some until else None
              | None => None
              end
         else None) = Some until.
Proof.
  unfold cooling_blocks. split.
  - intros (Hc & until & Hu & Hlt). exists until. rewrite Hc, Hu.
    apply Z.ltb_lt in Hlt. rewrite Hlt. reflexivity.
  - intros (until & H). destruct (Scheduler.is_cooling state); [|discriminate].
    destruct (Scheduler.cooling_until state) as [u|]; [|discriminate].
    destruct (now <? u) eqn:Hlt; [|discriminate]. apply Z.ltb_lt in Hlt.
    split; [reflexivity|]. exists u. auto.
Qed.

(** X7.  [can_execute_action] answers (True, None) exactly when the account
    is registered, no cooling deadline lies ahead of [now], and either the
    platform has no limit for the action or none of the hourly, daily and
    minimum-interval constraints stands against it; a permission never
    carries a reason and a refusal always carries one. *)
Theorem action_allowed_exactly_when_unblocked_and_within_limits :
  forall (self : Scheduler.SmartSchedulerService) (now : datetime)
         (account platform : string) (action : Scheduler.ActionType),
    (fst (can_execute_action self now account action platform) = Ok (true, None)
     <-> exists state,
           Scheduler._account_states self !! account = Some state
           /\ ~ cooling_blocks state now
           /\ match default ∅ (Scheduler._rate_limits self !! platform) !! action with
              | Some config => within_limits state now action config
              | None => True
              end)
    /\ (forall allowed reason,
           fst (can_execute_action self now account action platform)
             = Ok (allowed, reason) ->
           (allowed = true <-> reason = None)).
Proof.
  intros self now account platform action.
  unfold Scheduler.can_execute_action.
  destruct (Scheduler._account_states self !! account) as [state|] eqn:Hst.
  2:{ cbn [fst]. split.
      - split; [discriminate|]. intros (state & [=] & _).
      - intros allowed reason [= <- <-]. split; discriminate. }
  pose proof (cooling_blocks_spec state now) as Hblocks.
  destruct (if Scheduler.is_cooling state then _ else None) as [until|] eqn:Hb.
  { cbn [fst]. split.
    - split; [discriminate|]. intros (state' & [= <-] & Hnot & _).
      exfalso. apply Hnot, Hblocks. eauto.
    - intros allowed reason [= <- <-]. split; discriminate. }
  assert (Hfree : ~ cooling_blocks state now).
  { intros H. apply Hblocks in H as (u & [=]). }
  set (cleared := if Scheduler.is_cooling state
                  then Scheduler.clear_cooling state else state).
  assert (Hcl : forall config,
             within_limits cleared now action config
             <-> within_limits state now action config).
  { intros config. subst cleared.
    destruct (Scheduler.is_cooling state); [|tauto].
    split; apply within_limits_frame; reflexivity. }
  destruct (default ∅ (Scheduler._rate_limits self !! platform) !! action)
    as [config|] eqn:Hcfg.
  - destruct (Scheduler.check_limits format_seconds_0f cleared now action config)
      as [r st'] eqn:Hcheck.
    assert (Hr : fst (Scheduler.check_limits format_seconds_0f cleared now
                        action config) = r) by (rewrite Hcheck; reflexivity).
    cbn [fst]. split.
    + split.
      * intros ->. exists state. split; [reflexivity|]. split; [exact Hfree|].
        apply Hcl. apply check_limits_answer in Hr. apply Hr. reflexivity.
      * intros (state' & [= <-] & _ & Hw). rewrite <- Hr.
        apply check_limits_within, Hcl, Hw.
    + intros allowed reason ->. apply check_limits_answer in Hr.
      destruct Hr as [Hyes Hno]. destruct allowed.
      * split; [intros _; apply Hyes; reflexivity|reflexivity].
      * split; [discriminate|]. intros ->. exfalso. apply Hno; reflexivity.
  - cbn [fst]. split.
    + split; [|reflexivity]. intros _. exists state. auto.
    + intros allowed reason [= <- <-]. tauto.
Qed.

End SchedulerAnswers.
Section ExecutorLimits.
Variable str_of_datetime : datetime -> string.
Variable format_seconds_0f : Z -> string.

Lemma reset_counters_bounded state now :
  let state' := Scheduler._reset_counters_if_needed state now in
  (Scheduler.hourly_actions state' = ∅
   \/ Scheduler.hourly_actions state' = Scheduler.hourly_actions state)
  /\ (Scheduler.daily_actions state' = ∅
      \/ Scheduler.daily_actions state' = Scheduler.daily_actions state).
Proof.
  unfold Scheduler._reset_counters_if_needed.
  destruct (Scheduler.hourly_reset_at state + timedelta_hours 1 <=? now);
    simpl;
    match goal with
    | |- context [if ?c then _ else _] => destruct c
    end; simpl; auto.
Qed.

(** The state an account has after [can_execute_action]: the counters are
    those of before or have been emptied, and the age is the same. *)
Lemma can_execute_action_state self now account action platform state' :
  Scheduler._account_states
    (snd (Scheduler.can_execute_action str_of_datetime format_seconds_0f
            self now account action platform)) !! account = Some state' ->
  exists state,
    Scheduler._account_states self !! account = Some state
    /\ Scheduler.age_category state' = Scheduler.age_category state
    /\ (Scheduler.hourly_actions state' = ∅
        \/ Scheduler.hourly_actions state' = Scheduler.hourly_actions state)
    /\ (Scheduler.daily_actions state' = ∅
        \/ Scheduler.daily_actions state' = Scheduler.daily_actions state).
Proof.
  unfold Scheduler.can_execute_action.
  destruct (Scheduler._account_states self !! account) as [state|] eqn:Hst.
  2:{ cbn [snd]. rewrite Hst. discriminate. }
  destruct (if Scheduler.is_cooling state then _ else None) as [until|].
  { cbn [snd]. rewrite Hst. intros [= <-]. exists state. auto. }
  set (cleared := if Scheduler.is_cooling state
                  then Scheduler.clear_cooling state else state).
  assert (Hcl : Scheduler.age_category cleared = Scheduler.age_category state
                /\ Scheduler.hourly_actions cleared = Scheduler.hourly_actions state
                /\ Scheduler.daily_actions cleared = Scheduler.daily_actions state).
  { subst cleared. destruct (Scheduler.is_cooling state); auto. }
  destruct Hcl as (Ha & Hh & Hd).
  destruct (default ∅ (Scheduler._rate_limits self !! platform) !! action)
    as [config|].
  - pose proof (check_limits_state format_seconds_0f cleared now action config) as Hs.
    destruct (Scheduler.check_limits format_seconds_0f cleared now action config)
      as [r st']. cbn [snd] in *. subst st'.
    rewrite account_state_after_update. intros [= <-]. exists state.
    split; [reflexivity|].
    pose proof (reset_counters_frame cleared now) as (_ & _ & Hage & _).
    pose proof (reset_counters_bounded cleared now) as (Hhb & Hdb).
    cbn zeta in *. rewrite Hage, Ha. split; [reflexivity|].
    rewrite <- Hh, <- Hd. auto.
  - cbn [snd]. rewrite account_state_after_update. intros [= <-]. exists state. auto.
Qed.

Lemma can_execute_action_others self now account action platform other :
  other <> account ->
  Scheduler._account_states
    (snd (Scheduler.can_execute_action str_of_datetime format_seconds_0f
            self now account action platform)) !! other
  = Scheduler._account_states self !! other.
Proof.
  intros Hne. unfold Scheduler.can_execute_action.
  destruct (Scheduler._account_states self !! account) as [state|]; [|reflexivity].
  destruct (if Scheduler.is_cooling state then _ else None); [reflexivity|].
  destruct (default ∅ (Scheduler._rate_limits self !! platform) !! action).
  - destruct (Scheduler.check_limits _ _ _ _ _). cbn.
    apply lookup_insert_ne. congruence.
  - cbn. apply lookup_insert_ne. congruence.
Qed.

Lemma can_execute_action_rate_limits self now account action platform :
  Scheduler._rate_limits
    (snd (Scheduler.can_execute_action str_of_datetime format_seconds_0f
            self now account action platform))
  = Scheduler._rate_limits self.
Proof.
  unfold Scheduler.can_execute_action.
  destruct (Scheduler._account_states self !! account) as [state|]; [|reflexivity].
  destruct (if Scheduler.is_cooling state then _ else None); [reflexivity|].
  destruct (default ∅ (Scheduler._rate_limits self !! platform) !! action).
  - destruct (Scheduler.check_limits _ _ _ _ _). reflexivity.
  - reflexivity.
Qed.

(** A permission leaves the account with counters below the limits. *)
Lemma can_execute_action_allows self now account action platform reason config :
  fst (Scheduler.can_execute_action str_of_datetime format_seconds_0f
         self now account action platform) = Ok (true, reason) ->
  default ∅ (Scheduler._rate_limits self !! platform) !! action = Some config ->
  exists state' hourly_limit daily_limit,
    Scheduler._account_states
      (snd (Scheduler.can_execute_action str_of_datetime format_seconds_0f
              self now account action platform)) !! account = Some state'
    /\ Scheduler.get_limit_for_age config (Scheduler.age_category state') "hourly"
       = Ok hourly_limit
    /\ default 0 (Scheduler.hourly_actions state' !! action) < hourly_limit
    /\ Scheduler.get_limit_for_age config (Scheduler.age_category state') "daily"
       = Ok daily_limit
    /\ default 0 (Scheduler.daily_actions state' !! action) < daily_limit.
Proof.
  unfold Scheduler.can_execute_action.
  destruct (Scheduler._account_states self !! account) as [state|] eqn:Hst;
    [|discriminate].
  destruct (if Scheduler.is_cooling state then _ else None) as [until|];
    [discriminate|].
  set (cleared := if Scheduler.is_cooling state
                  then Scheduler.clear_cooling state else state).
  intros Hans Hcfg. rewrite Hcfg in *.
  pose proof (check_limits_state format_seconds_0f cleared now action config) as Hs.
  pose proof (check_limits_answer format_seconds_0f cleared now action config
                true reason) as Hanswer.
  destruct (Scheduler.check_limits format_seconds_0f cleared now action config)
    as [r st']. cbn [fst snd] in *. subst r st'.
  destruct Hanswer as [Hyes _]; [reflexivity|].
  destruct (Hyes eq_refl) as (_ & hl & dl & H1 & H2 & H3 & H4 & _).
  exists (Scheduler._reset_counters_if_needed cleared now), hl, dl.
  rewrite account_state_after_update. auto.
Qed.

Lemma record_action_others self now account action success other :
  other <> account ->
  Scheduler._account_states
    (Scheduler.record_action self now account action success) !! other
  = Scheduler._account_states self !! other.
Proof.
  intros Hne. unfold Scheduler.record_action.
  destruct (Scheduler._account_states self !! account); [|reflexivity].
  cbn. apply lookup_insert_ne. congruence.
Qed.

Lemma record_action_rate_limits self now account action success :
  Scheduler._rate_limits (Scheduler.record_action self now account action success)
  = Scheduler._rate_limits self.
Proof.
  unfold Scheduler.record_action.
  destruct (Scheduler._account_states self !! account); reflexivity.
Qed.

(** A recorded success moves the counters of its own action by one and
    leaves those of the other actions. *)
Lemma record_action_counters self now account action state' other :
  Scheduler._account_states
    (Scheduler.record_action self now account action true) !! account
    = Some state' ->
  exists state,
    Scheduler._account_states self !! account = Some state
    /\ Scheduler.age_category state' = Scheduler.age_category state
    /\ default 0 (Scheduler.hourly_actions state' !! other)
       = default 0 (Scheduler.hourly_actions state !! other)
         + (if bool_decide (other = action) then 1 else 0)
    /\ default 0 (Scheduler.daily_actions state' !! other)
       = default 0 (Scheduler.daily_actions state !! other)
         + (if bool_decide (other = action) then 1 else 0).
Proof.
  unfold Scheduler.record_action.
  destruct (Scheduler._account_states self !! account) as [state|] eqn:Hst.
  2:{ rewrite Hst. discriminate. }
  rewrite account_state_after_update. intros [= <-]. exists state.
  split; [reflexivity|]. cbn. split; [reflexivity|].
  case_bool_decide as Heq.
  - subst other. rewrite !lookup_insert_eq. cbn. auto.
  - rewrite !lookup_insert_ne by congruence. lia.
Qed.

Lemma execute_limited_bounded platform self check_at record_at account action
    performed :
  counters_bounded platform self ->
  counters_bounded platform
    (snd (AutomationExecutor.execute_limited str_of_datetime format_seconds_0f
            self check_at record_at account platform action performed)).
Proof.
  intros Hinv. unfold AutomationExecutor.execute_limited.
  pose proof (can_execute_action_state self check_at account action platform)
    as Hstate.
  pose proof (can_execute_action_others self check_at account action platform)
    as Hothers.
  pose proof (can_execute_action_rate_limits self check_at account action platform)
    as Hlimits.
  pose proof (can_execute_action_allows self check_at account action platform)
    as Hallows.
  destruct (Scheduler.can_execute_action str_of_datetime format_seconds_0f
              self check_at account action platform) as [answer checked].
  cbn [fst snd] in *.
  assert (Hchecked : counters_bounded platform checked).
  { intros acc st act cfg Hst Hcfg. rewrite Hlimits in Hcfg.
    destruct (decide (acc = account)) as [->|Hne].
    - destruct (Hstate _ Hst) as (st0 & Hst0 & Hage & Hh & Hd).
      destruct (Hinv _ _ act cfg Hst0 Hcfg) as [Hhb Hdb].
      rewrite Hage.
      split; intros l Hl.
      + destruct Hh as [-> | ->]; [rewrite lookup_empty; cbn; lia | auto].
      + destruct Hd as [-> | ->]; [rewrite lookup_empty; cbn; lia | auto].
    - rewrite Hothers in Hst by exact Hne. exact (Hinv _ _ _ _ Hst Hcfg). }
  destruct answer as [[[|] reason]|e]; cbn [snd]; try exact Hchecked.
  destruct performed as [[|]|e]; cbn [snd]; try exact Hchecked.
  intros acc st act cfg Hst Hcfg. rewrite record_action_rate_limits in Hcfg.
  destruct (decide (acc = account)) as [->|Hne].
  2:{ rewrite record_action_others in Hst by exact Hne.
      exact (Hchecked _ _ _ _ Hst Hcfg). }
  destruct (record_action_counters _ _ _ _ _ act Hst)
    as (st1 & Hst1 & Hage & Hh & Hd).
  rewrite Hh, Hd, Hage. clear Hh Hd.
  destruct (Hchecked _ _ act cfg Hst1 Hcfg) as [Hhb Hdb].
  case_bool_decide as Heq.
  - subst act. rewrite Hlimits in Hcfg.
    destruct (Hallows reason cfg eq_refl Hcfg)
      as (st2 & hl & dl & Hst2 & Hhl & Hhc & Hdl & Hdc).
    rewrite Hst1 in Hst2. injection Hst2 as <-.
    split; intros l Hl.
    + rewrite Hhl in Hl. injection Hl as <-. lia.
    + rewrite Hdl in Hl. injection Hl as <-. lia.
  - split; intros l Hl; [specialize (Hhb l Hl)|specialize (Hdb l Hl)]; lia.
Qed.

Lemma scheduler_step_bounded platform self call :
  counters_bounded platform self ->
  counters_bounded platform
    (scheduler_step str_of_datetime format_seconds_0f platform self call).
Proof.
  intros Hinv. destruct call as [now account created tz|now account minutes reason
                                 |t1 t2 account performed|t1 t2 account performed];
    cbn [scheduler_step].
  - unfold Scheduler.register_account. cbn [snd].
    intros acc st act cfg Hst Hcfg. cbn in Hst, Hcfg.
    destruct (decide (acc = account)) as [->|Hne].
    + rewrite lookup_insert_eq in Hst. injection Hst as <-. cbn.
      rewrite !lookup_empty. cbn. split; intros; lia.
    + rewrite lookup_insert_ne in Hst by congruence.
      exact (Hinv _ _ _ _ Hst Hcfg).
  - unfold Scheduler.set_account_cooling.
    destruct (Scheduler._account_states self !! account) as [state|] eqn:Hstate;
      [|exact Hinv].
    intros acc st act cfg Hst Hcfg. cbn in Hst, Hcfg.
    destruct (decide (acc = account)) as [->|Hne].
    + rewrite lookup_insert_eq in Hst. injection Hst as <-. cbn.
      exact (Hinv _ _ _ _ Hstate Hcfg).
    + rewrite lookup_insert_ne in Hst by congruence.
      exact (Hinv _ _ _ _ Hst Hcfg).
  - apply execute_limited_bounded, Hinv.
  - apply execute_limited_bounded, Hinv.
Qed.

Lemma scheduler_step_rate_limits platform self call :
  Scheduler._rate_limits
    (scheduler_step str_of_datetime format_seconds_0f platform self call)
  = Scheduler._rate_limits self.
Proof.
  destruct call; cbn [scheduler_step]; try reflexivity.
  - unfold Scheduler.set_account_cooling.
    destruct (Scheduler._account_states self !! account); reflexivity.
  - unfold AutomationExecutor.execute_follow, AutomationExecutor.execute_limited.
    pose proof (can_execute_action_rate_limits self check_at account
                  Scheduler.FOLLOW platform) as H.
    destruct (Scheduler.can_execute_action _ _ _ _ _ _ _) as [[[[|] ?]|?] s];
      cbn [snd] in *; try exact H.
    destruct performed as [[|]|?]; cbn [snd]; try exact H.
    rewrite record_action_rate_limits. exact H.
  - unfold AutomationExecutor.execute_dm, AutomationExecutor.execute_limited.
    pose proof (can_execute_action_rate_limits self check_at account
                  Scheduler.DM platform) as H.
    destruct (Scheduler.can_execute_action _ _ _ _ _ _ _) as [[[[|] ?]|?] s];
      cbn [snd] in *; try exact H.
    destruct performed as [[|]|?]; cbn [snd]; try exact H.
    rewrite record_action_rate_limits. exact H.
Qed.

Lemma scheduler_run_bounded platform calls : forall self,
  counters_bounded platform self ->
  counters_bounded platform
    (scheduler_run str_of_datetime format_seconds_0f platform self calls)
  /\ Scheduler._rate_limits
       (scheduler_run str_of_datetime format_seconds_0f platform self calls)
     = Scheduler._rate_limits self.
Proof.
  unfold scheduler_run.
  induction calls as [|call calls IH]; intros self Hinv; cbn [fold_left].
  - auto.
  - destruct (IH _ (scheduler_step_bounded platform self call Hinv)) as [H1 H2].
    split; [exact H1|]. rewrite H2. apply scheduler_step_rate_limits.
Qed.

(** The limits of the default table are not negative, whatever the age. *)
Lemma default_limits_nonnegative platform action config age period limit :
  default ∅ (Scheduler.DEFAULT_LIMITS !! platform) !! action = Some config ->
  Scheduler.get_limit_for_age config age period = Ok limit ->
  (period = "hourly" \/ period = "daily") ->
  0 <= limit.
Proof.
  intros Hcfg Hlimit Hperiod. unfold Scheduler.DEFAULT_LIMITS in Hcfg.
  destruct (decide (platform = "instagram")) as [->|Hi].
  - rewrite lookup_insert_eq in Hcfg. cbn [default from_option id] in Hcfg.
    destruct action; vm_compute in Hcfg; try discriminate;
      injection Hcfg as <-;
      destruct age, Hperiod as [-> | ->]; vm_compute in Hlimit;
      injection Hlimit as <-; lia.
  - rewrite lookup_insert_ne in Hcfg by congruence.
    destruct (decide (platform = "x")) as [->|Hx].
    + rewrite lookup_insert_eq in Hcfg. cbn [default from_option id] in Hcfg.
      destruct action; vm_compute in Hcfg; try discriminate;
        injection Hcfg as <-;
        destruct age, Hperiod as [-> | ->]; vm_compute in Hlimit;
        injection Hlimit as <-; lia.
    + rewrite lookup_insert_ne in Hcfg by congruence.
      rewrite lookup_empty in Hcfg. cbn in Hcfg. rewrite lookup_empty in Hcfg.
      discriminate.
Qed.

(** X8.  On a scheduler created with the default limits, whatever accounts
    are registered or set cooling and whatever follows and direct messages
    the executor runs one after another on a platform: no counter of an
    action that has a limit on that platform ever exceeds the hourly or the
    daily limit the account's age gives it. *)
Theorem executor_never_exceeds_limits :
  forall (platform : string) (calls : list scheduler_call)
         (account : string) (state : Scheduler.AccountScheduleState)
         (action : Scheduler.ActionType) (config : Scheduler.RateLimitConfig)
         (hourly_limit daily_limit : Z),
    let self := scheduler_run str_of_datetime format_seconds_0f platform
                  Scheduler.init calls in
    Scheduler._account_states self !! account = Some state ->
    default ∅ (Scheduler.DEFAULT_LIMITS !! platform) !! action = Some config ->
    Scheduler.get_limit_for_age config (Scheduler.age_category state) "hourly"
      = Ok hourly_limit ->
    Scheduler.get_limit_for_age config (Scheduler.age_category state) "daily"
      = Ok daily_limit ->
    default 0 (Scheduler.hourly_actions state !! action) <= hourly_limit
    /\ default 0 (Scheduler.daily_actions state !! action) <= daily_limit.
Proof.
  intros platform calls account state action config hl dl self Hst Hcfg Hhl Hdl.
  assert (Hinit : counters_bounded platform Scheduler.init).
  { intros acc st act cfg H. cbn in H. rewrite lookup_empty in H. discriminate. }
  destruct (scheduler_run_bounded platform calls _ Hinit) as [Hinv Hlimits].
  fold self in Hinv, Hlimits.
  assert (Hcfg' : default ∅ (Scheduler._rate_limits self !! platform) !! action
                  = Some config) by (rewrite Hlimits; exact Hcfg).
  destruct (Hinv _ _ _ _ Hst Hcfg') as [Hh Hd].
  specialize (Hh _ Hhl). specialize (Hd _ Hdl).
  pose proof (default_limits_nonnegative _ _ _ _ _ _ Hcfg Hhl (or_introl eq_refl)).
  pose proof (default_limits_nonnegative _ _ _ _ _ _ Hcfg Hdl (or_intror eq_refl)).
  lia.
Qed.

End ExecutorLimits.
Lemma executor_never_exceeds_limits_witness :
  exists state,
    Scheduler._account_states
      (scheduler_run plain_datetime plain_seconds "instagram" Scheduler.init
         (CallRegister 0 "acc1" None "UTC" :: follows_every_two_minutes 25))
      !! "acc1" = Some state
    /\ default 0 (Scheduler.hourly_actions state !! Scheduler.FOLLOW) <= 20
    /\ default 0 (Scheduler.daily_actions state !! Scheduler.FOLLOW) <= 100.
Proof.
  eexists. split; [vm_compute; reflexivity|].
  apply (executor_never_exceeds_limits plain_datetime plain_seconds "instagram"
           (CallRegister 0 "acc1" None "UTC" :: follows_every_two_minutes 25)
           "acc1" _ Scheduler.FOLLOW
           (Scheduler.mkRateLimitConfig Scheduler.FOLLOW 20 100 60 300) 20 100);
    vm_compute; reflexivity.
Defined.
(** ** Scheduler: the action queue *)

Lemma queue_key_lt_false x y :
  Scheduler.queue_key_lt (Scheduler.queue_key y) (Scheduler.queue_key x) = false
  <-> queue_before x y.
Proof.
  unfold Scheduler.queue_key_lt, Scheduler.queue_key, queue_before. cbn [fst snd].
  destruct (Z.eqb_spec (- Scheduler.sa_priority y) (- Scheduler.sa_priority x)).
  - rewrite Z.ltb_ge. lia.
  - rewrite Z.ltb_ge. lia.
Qed.

Lemma queue_key_lt_true x y :
  Scheduler.queue_key_lt (Scheduler.queue_key y) (Scheduler.queue_key x) = true
  <-> ~ queue_before x y.
Proof.
  rewrite <- queue_key_lt_false. destruct (Scheduler.queue_key_lt _ _); split;
    congruence.
Qed.

Lemma queue_before_total x y : queue_before x y \/ queue_before y x.
Proof. unfold queue_before. lia. Qed.

Lemma queue_before_trans x y z :
  queue_before x y -> queue_before y z -> queue_before x z.
Proof. unfold queue_before. lia. Qed.

Lemma queue_insert_perm x l : Permutation (Scheduler.queue_insert x l) (x :: l).
Proof.
  induction l as [|y l IH]; cbn [Scheduler.queue_insert]; [reflexivity|].
  destruct (Scheduler.queue_key_lt _ _); [|reflexivity].
  rewrite IH. apply perm_swap.
Qed.

Lemma queue_sort_perm l : Permutation (Scheduler.queue_sort l) l.
Proof.
  induction l as [|x l IH]; cbn [Scheduler.queue_sort]; [reflexivity|].
  rewrite queue_insert_perm, IH. reflexivity.
Qed.

Lemma queue_insert_ordered x l :
  queue_ordered l -> queue_ordered (Scheduler.queue_insert x l).
Proof.
  induction l as [|y l IH]; cbn [Scheduler.queue_insert queue_ordered].
  - intros _. split; [constructor|exact I].
  - intros [Hy Hl].
    destruct (Scheduler.queue_key_lt _ _) eqn:Hlt; cbn [queue_ordered].
    + split; [|apply IH, Hl].
      apply List.Forall_forall. intros z Hz.
      apply (Permutation_in _ (queue_insert_perm x l)) in Hz.
      destruct Hz as [<-|Hz].
      * apply queue_key_lt_true in Hlt.
        destruct (queue_before_total y x); tauto.
      * rewrite List.Forall_forall in Hy. apply Hy, Hz.
    + apply queue_key_lt_false in Hlt. repeat split; try assumption.
      constructor; [exact Hlt|].
      eapply List.Forall_impl; [|exact Hy].
      intros z Hz. eapply queue_before_trans; eassumption.
Qed.

Lemma queue_sort_ordered l : queue_ordered (Scheduler.queue_sort l).
Proof.
  induction l as [|x l IH]; cbn [Scheduler.queue_sort]; [exact I|].
  apply queue_insert_ordered, IH.
Qed.

(** X9.  Whatever the queue held before, [schedule_action] leaves it sorted,
    higher priorities first and earlier times first among equal
    priorities, and holding exactly the actions it held plus the new one;
    the new action is pending, and its time is the given one or, failing
    that, now. *)
Theorem schedule_action_sorts_the_queue :
  forall (self : Scheduler.SmartSchedulerService) (now : datetime)
         (action_id : string) (action : Scheduler.ActionType)
         (account target_id : string) (payload : option (PyDict.t py_value))
         (scheduled_at : option datetime) (priority : Z),
    let scheduled :=
      Scheduler.schedule_action self now action_id action account target_id
        payload scheduled_at priority in
    queue_ordered (Scheduler._action_queue (snd scheduled))
    /\ Permutation (Scheduler._action_queue (snd scheduled))
         (fst scheduled :: Scheduler._action_queue self)
    /\ Scheduler.sa_status (fst scheduled) = "pending"
    /\ Scheduler.sa_scheduled_at (fst scheduled)
       = match scheduled_at with Some t => t | None => now end.
Proof.
  intros. subst scheduled. unfold Scheduler.schedule_action. cbn [fst snd].
  cbn [Scheduler._action_queue Scheduler.sa_status Scheduler.sa_scheduled_at].
  split; [apply queue_sort_ordered|].
  split; [|split; [reflexivity|destruct scheduled_at; reflexivity]].
  rewrite queue_sort_perm. symmetry. apply Permutation_cons_append.
Qed.

Lemma queue_insert_first x l :
  Forall (queue_before x) l -> Scheduler.queue_insert x l = x :: l.
Proof.
  destruct l as [|y l]; [reflexivity|]. intros H.
  apply List.Forall_inv in H. apply queue_key_lt_false in H.
  cbn [Scheduler.queue_insert]. rewrite H. reflexivity.
Qed.

Lemma queue_sort_append a l :
  queue_ordered l ->
  exists ahead behind,
    l = (ahead ++ behind)%list
    /\ Scheduler.queue_sort (l ++ [a]) = (ahead ++ a :: behind)%list
    /\ Forall (fun b => queue_before b a) ahead
    /\ Forall (fun b => ~ queue_before b a) behind.
Proof.
  induction l as [|x l IH]; cbn [queue_ordered].
  - intros _. exists [], []. repeat split; constructor.
  - intros [Hx Hl]. destruct (IH Hl) as (ahead & behind & -> & Hsort & Ha & Hb).
    change (Scheduler.queue_sort ((x :: ahead ++ behind) ++ [a]))
      with (Scheduler.queue_insert x
              (Scheduler.queue_sort ((ahead ++ behind) ++ [a]))).
    rewrite Hsort.
    destruct ahead as [|y ahead].
    + cbn [app Scheduler.queue_insert] in *.
      destruct (Scheduler.queue_key_lt _ _) eqn:Hlt.
      * apply queue_key_lt_true in Hlt.
        exists [], (x :: behind). rewrite (queue_insert_first x behind Hx).
        repeat split; auto.
      * apply queue_key_lt_false in Hlt.
        exists [x], behind. repeat split; auto.
    + cbn [app] in Hx. pose proof (List.Forall_inv Hx) as Hxy.
      pose proof (List.Forall_inv Ha) as Hya.
      exists (x :: y :: ahead), behind.
      split; [reflexivity|]. split.
      * cbn [app Scheduler.queue_insert].
        apply queue_key_lt_false in Hxy. rewrite Hxy. reflexivity.
      * split; [|exact Hb]. constructor; [|exact Ha].
        eapply queue_before_trans; eassumption.
Qed.

(** X10.  On a sorted queue [schedule_action] moves no action: the new one
    is put behind every action that is not behind it, those of its own
    priority and time included, and ahead of all the others. *)
Theorem schedule_action_is_first_come_first_served :
  forall (self : Scheduler.SmartSchedulerService) (now : datetime)
         (action_id : string) (action : Scheduler.ActionType)
         (account target_id : string) (payload : option (PyDict.t py_value))
         (scheduled_at : option datetime) (priority : Z),
    queue_ordered (Scheduler._action_queue self) ->
    let scheduled :=
      Scheduler.schedule_action self now action_id action account target_id
        payload scheduled_at priority in
    exists ahead behind,
      Scheduler._action_queue self = (ahead ++ behind)%list
      /\ Scheduler._action_queue (snd scheduled)
         = (ahead ++ fst scheduled :: behind)%list
      /\ Forall (fun b => queue_before b (fst scheduled)) ahead
      /\ Forall (fun b => ~ queue_before b (fst scheduled)) behind.
Proof.
  intros self now action_id action account target_id payload scheduled_at
    priority Hordered scheduled.
  subst scheduled. unfold Scheduler.schedule_action. cbn [fst snd].
  cbn [Scheduler._action_queue].
  apply queue_sort_append, Hordered.
Qed.

Lemma queue_ordered_filter f l :
  queue_ordered l -> queue_ordered (List.filter f l).
Proof.
  induction l as [|x l IH]; cbn [queue_ordered List.filter]; [auto|].
  intros [Hx Hl]. destruct (f x); [|auto]. cbn [queue_ordered].
  split; [|auto].
  apply List.Forall_forall. intros y Hy. apply List.filter_In in Hy.
  rewrite List.Forall_forall in Hx. apply Hx, Hy.
Qed.

Lemma queue_ordered_firstn n : forall l,
  queue_ordered l -> queue_ordered (firstn n l).
Proof.
  induction n as [|n IH]; intros [|x l]; cbn [queue_ordered firstn]; auto.
  intros [Hx Hl]. split; [|auto].
  apply List.Forall_forall. intros y Hy.
  rewrite List.Forall_forall in Hx. apply Hx.
  rewrite <- (firstn_skipn n l). apply in_or_app. left. exact Hy.
Qed.

Lemma slice_to_In {A} (l : list A) limit x : In x (slice_to l limit) -> In x l.
Proof.
  unfold slice_to. destruct (0 <=? limit); intros H.
  - rewrite <- (firstn_skipn (Z.to_nat limit) l). apply in_or_app. left. exact H.
  - rewrite <- (firstn_skipn (length l - Z.to_nat (- limit)) l).
    apply in_or_app. left. exact H.
Qed.

(** X11.  After [schedule_action], whatever the queue held before,
    [get_pending_actions] returns actions of the queue in queue order,
    highest priority first: each is pending, due at [now], and of the
    account and the action type asked for; a limit that is not negative
    bounds their number. *)
Theorem pending_actions_come_in_queue_order :
  forall (self : Scheduler.SmartSchedulerService) (scheduled_now : datetime)
         (action_id : string) (action : Scheduler.ActionType)
         (account target_id : string) (payload : option (PyDict.t py_value))
         (scheduled_at : option datetime) (priority : Z)
         (now : datetime) (account_filter : option string)
         (action_filter : option Scheduler.ActionType) (limit : Z),
    let self' :=
      snd (Scheduler.schedule_action self scheduled_now action_id action account
             target_id payload scheduled_at priority) in
    let actions :=
      Scheduler.get_pending_actions self' now account_filter action_filter limit in
    queue_ordered actions
    /\ Forall (fun a =>
                 In a (Scheduler._action_queue self')
                 /\ Scheduler.sa_status a = "pending"
                 /\ Scheduler.sa_scheduled_at a <= now
                 /\ (forall wanted, account_filter = Some wanted -> wanted <> "" ->
                       Scheduler.sa_account_id a = wanted)
                 /\ (forall wanted, action_filter = Some wanted ->
                       Scheduler.sa_action_type a = wanted))
              actions
    /\ (0 <= limit -> Z.of_nat (length actions) <= limit).
Proof.
  intros. subst actions. unfold Scheduler.get_pending_actions.
  set (queue := Scheduler._action_queue self').
  assert (Hq : queue_ordered queue).
  { subst queue self'. unfold Scheduler.schedule_action. cbn.
    apply queue_sort_ordered. }
  set (due := List.filter (Scheduler.is_pending now) queue).
  set (mine := match account_filter with
               | Some wanted =>
                   if truthy_str (Some wanted)
                   then List.filter
                          (fun a => (Scheduler.sa_account_id a =? wanted)%string) due
                   else due
               | None => due
               end).
  set (typed := match action_filter with
                | Some wanted =>
                    List.filter
                      (fun a => bool_decide (Scheduler.sa_action_type a = wanted))
                      mine
                | None => mine
                end).
  assert (Hdue : queue_ordered due) by (apply queue_ordered_filter, Hq).
  assert (Hmine : queue_ordered mine).
  { subst mine. destruct account_filter as [wanted|]; [|exact Hdue].
    destruct (truthy_str (Some wanted)); [|exact Hdue].
    apply queue_ordered_filter, Hdue. }
  assert (Htyped : queue_ordered typed).
  { subst typed. destruct action_filter; [|exact Hmine].
    apply queue_ordered_filter, Hmine. }
  split; [|split].
  - unfold slice_to. destruct (0 <=? limit);
      apply queue_ordered_firstn, Htyped.
  - apply List.Forall_forall. intros a Ha. apply slice_to_In in Ha.
    assert (Hin_mine : In a mine
                       /\ forall wanted, action_filter = Some wanted ->
                            Scheduler.sa_action_type a = wanted).
    { subst typed. destruct action_filter as [w|].
      - apply List.filter_In in Ha as [Ha Hw]. apply bool_decide_eq_true in Hw.
        split; [exact Ha|]. intros ? [= <-]. exact Hw.
      - split; [exact Ha|]. discriminate. }
    destruct Hin_mine as [Hin_mine Htype].
    assert (Hin_due : In a due
                      /\ forall wanted, account_filter = Some wanted ->
                           wanted <> "" -> Scheduler.sa_account_id a = wanted).
    { subst mine. destruct account_filter as [w|].
      - destruct w as [|c w].
        + cbn in Hin_mine. split; [exact Hin_mine|]. intros ? [= <-]. congruence.
        + cbn [truthy_str] in Hin_mine.
          apply List.filter_In in Hin_mine as [Hd Hw].
          apply String.eqb_eq in Hw. split; [exact Hd|]. intros ? [= <-]. auto.
      - split; [exact Hin_mine|]. discriminate. }
    destruct Hin_due as [Hin_due Hacc].
    subst due. apply List.filter_In in Hin_due as [Hin Hp].
    unfold Scheduler.is_pending in Hp. apply andb_true_iff in Hp as [Hs Ht].
    apply String.eqb_eq in Hs. apply Z.leb_le in Ht. auto.
  - intros Hlimit. unfold slice_to.
    replace (0 <=? limit) with true by (symmetry; apply Z.leb_le; exact Hlimit).
    pose proof (firstn_le_length (Z.to_nat limit) typed). lia.
Qed.
Lemma schedule_action_is_first_come_first_served_witness :
  exists ahead behind,
    Scheduler._action_queue scheduler_with_two_actions = (ahead ++ behind)%list
    /\ Scheduler._action_queue
         (snd (Scheduler.schedule_action scheduler_with_two_actions 0 "a3"
                 Scheduler.FOLLOW "acc1" "u3" None (Some (timedelta_seconds 5)) 0))
       = (ahead
          ++ fst (Scheduler.schedule_action scheduler_with_two_actions 0 "a3"
                    Scheduler.FOLLOW "acc1" "u3" None (Some (timedelta_seconds 5)) 0)
          :: behind)%list
    /\ Forall (fun b => queue_before b
                 (fst (Scheduler.schedule_action scheduler_with_two_actions 0 "a3"
                         Scheduler.FOLLOW "acc1" "u3" None
                         (Some (timedelta_seconds 5)) 0))) ahead
    /\ Forall (fun b => ~ queue_before b
                 (fst (Scheduler.schedule_action scheduler_with_two_actions 0 "a3"
                         Scheduler.FOLLOW "acc1" "u3" None
                         (Some (timedelta_seconds 5)) 0))) behind.
Proof.
  apply (schedule_action_is_first_come_first_served scheduler_with_two_actions 0
           "a3" Scheduler.FOLLOW "acc1" "u3" None (Some (timedelta_seconds 5)) 0).
  vm_compute.
  split; [constructor; [left; reflexivity|constructor]|split; [constructor|exact I]].
Defined.

(** ** Scheduler: waiting times *)

(** X12.  [get_next_available_time] never answers a time before [now].
    While a cooling deadline lies ahead it answers that deadline, whatever
    the last action was; otherwise it answers the earliest time from [now]
    on at which the minimum interval since the last action has passed. *)
Theorem next_available_time_is_earliest_after_interval :
  forall (state : Scheduler.AccountScheduleState) (now : datetime)
         (action : Scheduler.ActionType) (config : Scheduler.RateLimitConfig),
    let t := Scheduler.get_next_available_time state now action config in
    now <= t
    /\ (cooling_blocks state now -> Scheduler.cooling_until state = Some t)
    /\ (~ cooling_blocks state now ->
        interval_met state action config t
        /\ forall t', now <= t' -> interval_met state action config t' -> t <= t').
Proof.
  intros state now action config t. subst t.
  unfold Scheduler.get_next_available_time, interval_met.
  pose proof (cooling_blocks_spec state now) as Hblocks.
  destruct (if Scheduler.is_cooling state then _ else None) as [until|] eqn:Hb.
  - assert (Hc : cooling_blocks state now) by (apply Hblocks; eauto).
    destruct Hc as (Hc & u & Hu & Hlt). rewrite Hc, Hu in Hb.
    replace (now <? u) with true in Hb by (symmetry; apply Z.ltb_lt; exact Hlt).
    injection Hb as <-. split; [lia|]. split; [auto|].
    intros Hnot. exfalso. apply Hnot. split; eauto.
  - assert (Hfree : ~ cooling_blocks state now).
    { intros H. apply Hblocks in H as (u & [=]). }
    destruct (Scheduler.last_action_at state !! action) as [last|].
    + destruct (now <? last + _) eqn:Hlt.
      * apply Z.ltb_lt in Hlt. split; [lia|]. split; [tauto|]. intros _. split.
        -- intros ? [= <-]. lia.
        -- intros t' Ht' Hmet. specialize (Hmet _ eq_refl). lia.
      * apply Z.ltb_ge in Hlt. split; [lia|]. split; [tauto|]. intros _. split.
        -- intros ? [= <-]. lia.
        -- intros t' Ht' _. exact Ht'.
    + split; [lia|]. split; [tauto|]. intros _. split; [discriminate|].
      intros t' Ht' _. exact Ht'.
Qed.

Lemma randint_in_range_bounds r a b :
  a <= b -> a <= Scheduler.randint_in_range r a b <= b.
Proof.
  intros Hab. unfold Scheduler.randint_in_range.
  pose proof (Z.mod_pos_bound (Z.of_nat r) (b - a + 1)). lia.
Qed.

Lemma randint_spec r a b :
  if b <? a
  then exists message, Scheduler.randint r a b = Raise (ValueError message)
  else exists d, Scheduler.randint r a b = Ok d /\ a <= d <= b.
Proof.
  unfold Scheduler.randint. destruct (b <? a) eqn:Hlt; [eauto|].
  apply Z.ltb_ge in Hlt. eexists. split; [reflexivity|].
  apply randint_in_range_bounds, Hlt.
Qed.

(** X13.  [get_recommended_delay] answers a number of seconds between the
    minimum and the maximum interval of the limit configured for the
    action on the platform, and between 30 and 120 when there is none; it
    raises ValueError when the configured maximum is below the minimum,
    which no limit of the default table is: a scheduler created with the
    defaults always answers. *)
Theorem recommended_delay_lies_in_configured_interval :
  forall (self : Scheduler.SmartSchedulerService) (r : nat)
         (action : Scheduler.ActionType) (platform : string),
    match default ∅ (Scheduler._rate_limits self !! platform) !! action with
    | Some config =>
        if Scheduler.max_interval_seconds config
             <? Scheduler.min_interval_seconds config
        then exists message,
               Scheduler.get_recommended_delay self r action platform
               = Raise (ValueError message)
        else exists delay,
               Scheduler.get_recommended_delay self r action platform = Ok delay
               /\ Scheduler.min_interval_seconds config <= delay
                  <= Scheduler.max_interval_seconds config
    | None =>
        exists delay,
          Scheduler.get_recommended_delay self r action platform = Ok delay
          /\ 30 <= delay <= 120
    end
    /\ exists delay,
         Scheduler.get_recommended_delay Scheduler.init r action platform = Ok delay.
Proof.
  intros self r action platform. split.
  - unfold Scheduler.get_recommended_delay.
    destruct (default ∅ (Scheduler._rate_limits self !! platform) !! action)
      as [config|].
    + unfold Scheduler.get_random_interval. apply randint_spec.
    + apply (randint_spec r 30 120).
  - unfold Scheduler.get_recommended_delay. cbn [Scheduler.init Scheduler._rate_limits].
    destruct (default ∅ (Scheduler.DEFAULT_LIMITS !! platform) !! action)
      as [config|] eqn:Hcfg.
    2:{ pose proof (randint_spec r 30 120) as H. cbn in H.
        destruct H as (d & H & _). eauto. }
    assert (Hle : Scheduler.min_interval_seconds config
                  <= Scheduler.max_interval_seconds config).
    { unfold Scheduler.DEFAULT_LIMITS in Hcfg.
      destruct (decide (platform = "instagram")) as [->|Hi].
      - rewrite lookup_insert_eq in Hcfg. cbn [default from_option id] in Hcfg.
        destruct action; vm_compute in Hcfg; try discriminate;
          injection Hcfg as <-; vm_compute; discriminate.
      - rewrite lookup_insert_ne in Hcfg by congruence.
        destruct (decide (platform = "x")) as [->|Hx].
        + rewrite lookup_insert_eq in Hcfg. cbn [default from_option id] in Hcfg.
          destruct action; vm_compute in Hcfg; try discriminate;
            injection Hcfg as <-; vm_compute; discriminate.
        + rewrite lookup_insert_ne in Hcfg by congruence.
          rewrite lookup_empty in Hcfg. cbn in Hcfg. rewrite lookup_empty in Hcfg.
          discriminate. }
    unfold Scheduler.get_random_interval.
    pose proof (randint_spec r (Scheduler.min_interval_seconds config)
                  (Scheduler.max_interval_seconds config)) as H.
    replace (Scheduler.max_interval_seconds config
               <? Scheduler.min_interval_seconds config) with false in H
      by (symmetry; apply Z.ltb_ge; exact Hle).
    destruct H as (d & H & _). eauto.
Qed.

(** ** Scheduler: humanization actions *)

Lemma queue_ordered_split ahead a behind b :
  queue_ordered (ahead ++ a :: behind) -> In b behind -> queue_before a b.
Proof.
  induction ahead as [|x ahead IH]; cbn [app queue_ordered].
  - intros [Ha _] Hb. rewrite List.Forall_forall in Ha. apply Ha, Hb.
  - intros [_ H]. apply IH, H.
Qed.

(** X14.  [add_humanization_actions] returns one or two pending actions for
    the account and the target of the main action, each timed between 2
    and 15 seconds before it and of the priority just below its own; so in
    a sorted queue, which has higher priorities first, none of them stands
    ahead of the main action they are meant to precede. *)
Theorem humanization_actions_sort_behind_main_action :
  forall (account : string) (main_action : Scheduler.ScheduledAction)
         (r_scroll : nat) (view_profile : bool) (r_view : nat),
    let added :=
      Scheduler.add_humanization_actions account main_action r_scroll
        view_profile r_view in
    (length added = if view_profile then 2%nat else 1%nat)
    /\ Forall (fun h =>
                 Scheduler.sa_account_id h = account
                 /\ Scheduler.sa_target_id h = Scheduler.sa_target_id main_action
                 /\ Scheduler.sa_status h = "pending"
                 /\ Scheduler.sa_priority h = Scheduler.sa_priority main_action - 1
                 /\ Scheduler.sa_scheduled_at main_action - timedelta_seconds 15
                    <= Scheduler.sa_scheduled_at h
                    <= Scheduler.sa_scheduled_at main_action - timedelta_seconds 2
                 /\ forall ahead behind,
                      queue_ordered (ahead ++ h :: behind) ->
                      ~ In main_action behind)
              added.
Proof.
  intros account main_action r_scroll view_profile r_view added.
  assert (Hbehind : forall h,
             Scheduler.sa_priority h = Scheduler.sa_priority main_action - 1 ->
             forall ahead behind,
               queue_ordered (ahead ++ h :: behind) -> ~ In main_action behind).
  { intros h Hp ahead behind Hq Hin.
    pose proof (queue_ordered_split _ _ _ _ Hq Hin) as Hb.
    unfold queue_before in Hb. lia. }
  pose proof (randint_in_range_bounds r_scroll 5 15 ltac:(lia)) as Hs.
  pose proof (randint_in_range_bounds r_view 2 8 ltac:(lia)) as Hv.
  subst added. unfold Scheduler.add_humanization_actions.
  unfold timedelta_seconds, microseconds_per_second in *.
  destruct view_profile; (split; [reflexivity|]);
    repeat constructor; cbn; try lia; apply Hbehind; reflexivity.
Qed.

(** ** Proxy pool: the registry *)

Lemma PyDict_del_In {V} (d : PyDict.t V) k kv :
  In kv (PyDict.del d k) -> In kv d.
Proof.
  induction d as [|[k0 v0] d IH]; simpl; [auto|].
  destruct (k0 =? k)%string; simpl; [auto|]. intros [<-|H]; auto.
Qed.

Lemma PyDict_keys_del_In {V} (d : PyDict.t V) k k' :
  In k' (PyDict.keys (PyDict.del d k)) -> In k' (PyDict.keys d).
Proof.
  unfold PyDict.keys. rewrite !in_map_iff.
  intros (kv & <- & Hin). exists kv. split; [reflexivity|].
  eapply PyDict_del_In, Hin.
Qed.

Lemma PyDict_del_NoDup {V} (d : PyDict.t V) k :
  List.NoDup (PyDict.keys d) -> List.NoDup (PyDict.keys (PyDict.del d k)).
Proof.
  unfold PyDict.keys.
  induction d as [|[k0 v0] d IH]; simpl; [auto|].
  intros Hnd. inversion Hnd as [|? ? Hnotin Hrest]; subst.
  destruct (k0 =? k)%string; simpl; [exact Hrest|].
  constructor; [|auto]. intros Hin. apply Hnotin.
  apply (PyDict_keys_del_In d k k0 Hin).
Qed.

Lemma PyDict_get_del_same {V} (d : PyDict.t V) k :
  List.NoDup (PyDict.keys d) -> PyDict.get (PyDict.del d k) k = None.
Proof.
  unfold PyDict.keys.
  induction d as [|[k0 v0] d IH]; simpl; [auto|].
  intros Hnd. inversion Hnd as [|? ? Hnotin Hrest]; subst.
  destruct (String.eqb_spec k0 k) as [->|Hne]; simpl.
  - destruct (PyDict.get d k) as [v|] eqn:Hget; [|reflexivity].
    exfalso. apply Hnotin. apply PyDict_get_In in Hget.
    change k with (fst (k, v)). now apply in_map.
  - destruct (String.eqb_spec k0 k); [congruence|]. auto.
Qed.

Lemma PyDict_get_del_other {V} (d : PyDict.t V) k k' :
  k <> k' -> PyDict.get (PyDict.del d k) k' = PyDict.get d k'.
Proof.
  intros Hne. induction d as [|[k0 v0] d IH]; simpl; [reflexivity|].
  destruct (String.eqb_spec k0 k) as [->|Hk]; simpl.
  - destruct (String.eqb_spec k k'); [congruence|reflexivity].
  - destruct (String.eqb_spec k0 k'); [reflexivity|exact IH].
Qed.

Lemma PyDict_set_NoDup {V} (d : PyDict.t V) k v :
  List.NoDup (PyDict.keys d) -> List.NoDup (PyDict.keys (PyDict.set d k v)).
Proof.
  intros Hnd. rewrite PyDict_keys_set. unfold PyDict.contains.
  destruct (PyDict.get d k) as [v0|] eqn:Hget; [exact Hnd|].
  apply List.NoDup_app; [exact Hnd|repeat constructor; intros []|].
  intros k0 Hin [<-|[]]. unfold PyDict.keys in Hin.
  apply in_map_iff in Hin as ([k1 v1] & Hk & Hin). cbn in Hk. subst k1.
  apply PyDict_In_get in Hin; [congruence|].
  apply NoDup_ListNoDup. exact Hnd.
Qed.
Lemma visit_proxy_id now c q e p :
  ProxyPool.id (fst (ProxyPool.visit_proxy now c q e p)) = ProxyPool.id p.
Proof.
  unfold ProxyPool.visit_proxy.
  destruct (ProxyPool.status p);
    repeat match goal with
    | |- context [if ?b then _ else _] => destruct b
    end; reflexivity.
Qed.

Lemma get_available_proxies_stored self now c q e k :
  PyDict.get (ProxyPool._proxies
                (snd (ProxyPool.get_available_proxies self now c q e))) k
  = option_map (fun p => fst (ProxyPool.visit_proxy now c q e p))
      (PyDict.get (ProxyPool._proxies self) k).
Proof.
  unfold ProxyPool.get_available_proxies. cbn [snd ProxyPool.with_proxies
    ProxyPool._proxies].
  rewrite map_map. cbn [fst snd].
  apply (PyDict_get_map_values
           (fun _ p => fst (ProxyPool.visit_proxy now c q e p))).
Qed.

Lemma get_available_proxies_keyed self now c q e :
  pool_keyed self ->
  pool_keyed (snd (ProxyPool.get_available_proxies self now c q e)).
Proof.
  intros [Hnd Hid]. unfold pool_keyed, ProxyPool.get_available_proxies.
  cbn [snd ProxyPool.with_proxies ProxyPool._proxies]. rewrite map_map.
  cbn [fst snd]. split.
  - unfold PyDict.keys in *. rewrite map_map. cbn [fst]. exact Hnd.
  - intros k p Hin. apply in_map_iff in Hin as ([k0 p0] & [= <- <-] & Hin).
    cbn [fst snd]. rewrite visit_proxy_id. apply Hid, Hin.
Qed.

(** Writing back, under its key, a proxy that kept its id. *)
Lemma pool_keyed_store self k p p' :
  pool_keyed self ->
  PyDict.get (ProxyPool._proxies self) k = Some p ->
  ProxyPool.id p' = ProxyPool.id p ->
  pool_keyed (ProxyPool.with_proxies self
                (PyDict.set (ProxyPool._proxies self) k p')).
Proof.
  intros [Hnd Hid] Hget Hp. split; cbn.
  - apply PyDict_set_NoDup, Hnd.
  - intros k0 p0 Hin. apply PyDict_set_In in Hin as [[= -> ->]|Hin].
    + rewrite Hp. apply Hid, PyDict_get_In, Hget.
    + apply Hid, Hin.
Qed.

Lemma pool_keyed_map self m :
  pool_keyed self -> pool_keyed (ProxyPool.with_account_proxy_map self m).
Proof. intros H. exact H. Qed.

Lemma release_account_proxy_keyed self account :
  pool_keyed self -> pool_keyed (snd (ProxyPool.release_account_proxy self account)).
Proof.
  intros Hk. unfold ProxyPool.release_account_proxy.
  destruct (ProxyPool._account_proxy_map self !! account) as [pid|]; [|exact Hk].
  cbn [snd ProxyPool.with_account_proxy_map ProxyPool._proxies].
  destruct (PyDict.get (ProxyPool._proxies self) pid) as [p|] eqn:Hget; [|exact Hk].
  apply (pool_keyed_store (ProxyPool.with_account_proxy_map self _) pid p);
    [exact Hk|exact Hget|reflexivity].
Qed.

Lemma assign_proxy_to_account_keyed self now account proxy_id country :
  pool_keyed self ->
  pool_keyed (snd (ProxyPool.assign_proxy_to_account self now account proxy_id
                     country)).
Proof.
  intros Hk. unfold ProxyPool.assign_proxy_to_account.
  destruct (match ProxyPool._account_proxy_map self !! account with
            | Some existing => PyDict.get (ProxyPool._proxies self) existing
            | None => None
            end); [exact Hk|].
  destruct proxy_id as [pid|]; [|exact Hk].
  destruct (truthy_str (Some pid)); [|exact Hk].
  destruct (PyDict.get (ProxyPool._proxies self) pid) as [p|] eqn:Hget; [|exact Hk].
  cbn [snd]. apply pool_keyed_map.
  apply (pool_keyed_store self pid p); [exact Hk|exact Hget|reflexivity].
Qed.

Lemma check_failed_keyed self pid p0 p start_time finish e :
  pool_keyed self ->
  PyDict.get (ProxyPool._proxies self) pid = Some p0 ->
  ProxyPool.id p = ProxyPool.id p0 ->
  pool_keyed (snd (ProxyPool.check_failed self pid p start_time finish e)).
Proof.
  intros Hk Hget Hid. unfold ProxyPool.check_failed, ProxyPool.store_proxy.
  destruct (ProxyPool.elapsed_ms start_time finish); cbn [snd];
    [|apply (pool_keyed_store self pid p0); auto].
  destruct (ProxyPool.one_minus_ratio _ _); cbn [snd];
    apply (pool_keyed_store self pid p0); auto.
Qed.

Lemma check_proxy_health_keyed self pid start_time finish probe :
  pool_keyed self ->
  pool_keyed (snd (ProxyPool.check_proxy_health self pid start_time finish probe)).
Proof.
  intros Hk. unfold ProxyPool.check_proxy_health, ProxyPool.get_proxy.
  destruct (PyDict.get (ProxyPool._proxies self) pid) as [p|] eqn:Hget; [|exact Hk].
  destruct probe as [origin|e];
    [|apply (check_failed_keyed self pid p); auto].
  destruct (ProxyPool.elapsed_ms start_time finish);
    [|apply (check_failed_keyed self pid p); auto].
  destruct (match ProxyPool.float_mul_int _ _ with
            | ProxyPool.Returned _ => _ | ProxyPool.Escaped e => _ end);
    [|apply (check_failed_keyed self pid p); auto].
  destruct (ProxyPool.one_minus_ratio _ _);
    [|apply (check_failed_keyed self pid p); auto].
  cbn [snd]. apply (pool_keyed_store self pid p); auto.
Qed.

Lemma pool_step_keyed self call : pool_keyed self -> pool_keyed (pool_step self call).
Proof.
  intros Hk. destruct call; cbn [pool_step].
  - destruct Hk as [Hnd Hid]. split; cbn.
    + apply PyDict_set_NoDup, Hnd.
    + intros k p Hin. apply PyDict_set_In in Hin as [[= -> ->]|Hin]; auto.
  - unfold ProxyPool.remove_proxy.
    destruct (PyDict.contains _ _); [|exact Hk]. cbn [snd].
    destruct Hk as [Hnd Hid]. split; cbn.
    + apply PyDict_del_NoDup, Hnd.
    + intros k p Hin. apply Hid. eapply PyDict_del_In, Hin.
  - apply get_available_proxies_keyed, Hk.
  - unfold ProxyPool.get_best_proxy.
    pose proof (get_available_proxies_keyed self now country quality false Hk) as H.
    destruct (ProxyPool.get_available_proxies _ _ _ _ _) as [available s].
    destruct (ProxyPool.sort_by_key available); exact H.
  - unfold ProxyPool.get_random_proxy.
    pose proof (get_available_proxies_keyed self now country quality false Hk) as H.
    destruct (ProxyPool.get_available_proxies _ _ _ _ _) as [available s].
    destruct (nth_error _ _); exact H.
  - apply assign_proxy_to_account_keyed, Hk.
  - apply release_account_proxy_keyed, Hk.
  - unfold ProxyPool.rotate_account_proxy.
    pose proof (release_account_proxy_keyed self account Hk) as H.
    destruct (ProxyPool.release_account_proxy self account) as [b s].
    apply assign_proxy_to_account_keyed, H.
  - apply check_proxy_health_keyed, Hk.
  - unfold ProxyPool.mark_proxy_banned, ProxyPool.get_proxy.
    destruct (PyDict.get (ProxyPool._proxies self) proxy_id) as [p|] eqn:Hget;
      [|exact Hk].
    cbn [snd]. apply (pool_keyed_store self proxy_id p); auto.
Qed.

Lemma pool_run_keyed calls : forall self,
  pool_keyed self -> pool_keyed (pool_run self calls).
Proof.
  unfold pool_run. induction calls as [|call calls IH]; intros self Hk; cbn.
  - exact Hk.
  - apply IH, pool_step_keyed, Hk.
Qed.

Lemma pool_init_keyed : pool_keyed ProxyPool.init.
Proof. split; cbn; [constructor|intros ? ? []]. Qed.

(** X15.  In a pool that started empty, whatever calls were made on it,
    every proxy id is a key once only, and the proxy that [get_proxy]
    returns for an id carries that id. *)
Theorem pool_stores_each_proxy_under_its_id :
  forall (calls : list pool_call) (proxy_id : string),
    let self := pool_run ProxyPool.init calls in
    List.NoDup (PyDict.keys (ProxyPool._proxies self))
    /\ match ProxyPool.get_proxy self proxy_id with
       | Some proxy => ProxyPool.id proxy = proxy_id
       | None => True
       end.
Proof.
  intros calls proxy_id self.
  destruct (pool_run_keyed calls _ pool_init_keyed) as [Hnd Hid].
  split; [exact Hnd|].
  destruct (ProxyPool.get_proxy self proxy_id) as [proxy|] eqn:Hget; [|exact I].
  apply Hid, PyDict_get_In, Hget.
Qed.
(** ** Proxy pool: rotation and removal *)

(** X16.  [rotate_account_proxy] never returns a proxy: after releasing the
    assignment of the account it always ends in the [TypeError] of the
    call to [get_best_proxy], and leaves the account without a proxy; the
    proxy the account had is still in the pool, no longer marked as
    assigned. *)
Theorem rotate_account_proxy_always_raises :
  forall (self : ProxyPool.ProxyPoolService) (now : datetime) (account : string)
         (country : option string),
    let rotated := ProxyPool.rotate_account_proxy self now account country in
    (exists message, fst rotated = Raise (TypeError message))
    /\ ProxyPool._account_proxy_map (snd rotated) !! account = None
    /\ ProxyPool.get_account_proxy (snd rotated) account = None
    /\ match ProxyPool._account_proxy_map self !! account with
       | Some proxy_id =>
           ProxyPool.get_proxy (snd rotated) proxy_id
           = option_map (fun p => ProxyPool.with_assigned p None)
               (ProxyPool.get_proxy self proxy_id)
       | None => snd rotated = self
       end.
Proof.
  intros self now account country rotated. subst rotated.
  unfold ProxyPool.rotate_account_proxy.
  assert (Hreleased :
            ProxyPool._account_proxy_map
              (snd (ProxyPool.release_account_proxy self account)) !! account
            = None
            /\ match ProxyPool._account_proxy_map self !! account with
               | Some proxy_id =>
                   ProxyPool.get_proxy
                     (snd (ProxyPool.release_account_proxy self account)) proxy_id
                   = option_map (fun p => ProxyPool.with_assigned p None)
                       (ProxyPool.get_proxy self proxy_id)
               | None => snd (ProxyPool.release_account_proxy self account) = self
               end).
  { unfold ProxyPool.release_account_proxy, ProxyPool.get_proxy.
    destruct (ProxyPool._account_proxy_map self !! account) as [pid|] eqn:Hmap.
    - cbn [snd ProxyPool.with_account_proxy_map ProxyPool._proxies].
      destruct (PyDict.get (ProxyPool._proxies self) pid) as [p|] eqn:Hget;
        cbn [ProxyPool._account_proxy_map ProxyPool.with_account_proxy_map
             ProxyPool.with_proxies ProxyPool._proxies option_map].
      + rewrite lookup_delete_eq, PyDict_get_set_same. auto.
      + rewrite lookup_delete_eq, Hget. auto.
    - cbn [snd]. auto. }
  destruct (ProxyPool.release_account_proxy self account) as [b released].
  cbn [snd] in Hreleased. destruct Hreleased as [Hmap Hproxy].
  destruct (assign_without_proxy_id_raises released now account country Hmap)
    as (message & Hassign).
  rewrite Hassign. cbn [fst snd].
  split; [eauto|]. split; [exact Hmap|]. split; [|exact Hproxy].
  unfold ProxyPool.get_account_proxy. rewrite Hmap. reflexivity.
Qed.

Lemma PyDict_contains_set {V} (d : PyDict.t V) k v k' :
  PyDict.contains d k' = true -> PyDict.contains (PyDict.set d k v) k' = true.
Proof.
  unfold PyDict.contains. rewrite PyDict_get_set.
  destruct (k =? k')%string; [reflexivity|auto].
Qed.

Lemma pool_mapped_store self k p :
  pool_mapped self -> pool_mapped (ProxyPool.store_proxy self k p).
Proof.
  intros Hm account pid Hmap. cbn in *. apply PyDict_contains_set, (Hm account), Hmap.
Qed.

Lemma get_available_proxies_mapped self now c q e :
  pool_mapped self ->
  pool_mapped (snd (ProxyPool.get_available_proxies self now c q e)).
Proof.
  intros Hm account pid Hmap.
  unfold PyDict.contains. rewrite get_available_proxies_stored.
  specialize (Hm account pid Hmap). unfold PyDict.contains in Hm.
  destruct (PyDict.get (ProxyPool._proxies self) pid); [reflexivity|discriminate].
Qed.

Lemma release_account_proxy_mapped self account :
  pool_mapped self -> pool_mapped (snd (ProxyPool.release_account_proxy self account)).
Proof.
  intros Hm. unfold ProxyPool.release_account_proxy.
  destruct (ProxyPool._account_proxy_map self !! account) as [pid|] eqn:Hacc;
    [|exact Hm].
  cbn [snd ProxyPool.with_account_proxy_map ProxyPool._proxies].
  assert (Hdel : pool_mapped (ProxyPool.with_account_proxy_map self
                                (delete account (ProxyPool._account_proxy_map self)))).
  { intros a k Hmap. cbn in *. apply lookup_delete_Some in Hmap as [_ Hmap].
    apply (Hm a), Hmap. }
  destruct (PyDict.get (ProxyPool._proxies self) pid) as [p|]; [|exact Hdel].
  apply (pool_mapped_store _ pid _ Hdel).
Qed.

Lemma assign_proxy_to_account_mapped self now account proxy_id country :
  pool_keyed self -> pool_mapped self ->
  pool_mapped (snd (ProxyPool.assign_proxy_to_account self now account proxy_id
                      country)).
Proof.
  intros [_ Hid] Hm. unfold ProxyPool.assign_proxy_to_account.
  destruct (match ProxyPool._account_proxy_map self !! account with
            | Some existing => PyDict.get (ProxyPool._proxies self) existing
            | None => None
            end); [exact Hm|].
  destruct proxy_id as [pid|]; [|exact Hm].
  destruct (truthy_str (Some pid)); [|exact Hm].
  destruct (PyDict.get (ProxyPool._proxies self) pid) as [p|] eqn:Hget; [|exact Hm].
  cbn [snd]. intros a k Hmap. cbn in *.
  destruct (decide (a = account)) as [->|Hne].
  - rewrite lookup_insert_eq in Hmap. injection Hmap as <-.
    rewrite (Hid pid p (PyDict_get_In _ _ _ Hget)).
    unfold PyDict.contains. now rewrite PyDict_get_set_same.
  - rewrite lookup_insert_ne in Hmap by congruence.
    apply PyDict_contains_set, (Hm a), Hmap.
Qed.

Lemma check_failed_stores self pid p start_time finish e :
  exists p',
    snd (ProxyPool.check_failed self pid p start_time finish e)
    = ProxyPool.store_proxy self pid p'.
Proof.
  unfold ProxyPool.check_failed.
  destruct (ProxyPool.elapsed_ms start_time finish); cbn [snd]; [|eauto].
  destruct (ProxyPool.one_minus_ratio _ _); cbn [snd]; eauto.
Qed.

Lemma check_proxy_health_stores self pid start_time finish probe :
  snd (ProxyPool.check_proxy_health self pid start_time finish probe) = self
  \/ exists p',
       snd (ProxyPool.check_proxy_health self pid start_time finish probe)
       = ProxyPool.store_proxy self pid p'.
Proof.
  unfold ProxyPool.check_proxy_health, ProxyPool.get_proxy.
  destruct (PyDict.get (ProxyPool._proxies self) pid) as [p|]; [right|now left].
  destruct probe as [origin|e]; [|apply check_failed_stores].
  destruct (ProxyPool.elapsed_ms start_time finish); [|apply check_failed_stores].
  destruct (match ProxyPool.float_mul_int _ _ with
            | ProxyPool.Returned _ => _ | ProxyPool.Escaped e => _ end);
    [|apply check_failed_stores].
  destruct (ProxyPool.one_minus_ratio _ _); [|apply check_failed_stores].
  cbn [snd]. eauto.
Qed.

Lemma pool_step_mapped self call :
  pool_keyed self -> pool_mapped self -> pool_mapped (pool_step self call).
Proof.
  intros Hk Hm. destruct call; cbn [pool_step].
  - apply (pool_mapped_store self _ _ Hm).
  - unfold ProxyPool.remove_proxy.
    destruct (PyDict.contains _ _); [|exact Hm]. cbn [snd].
    intros a k Hmap. cbn in *.
    apply map_lookup_filter_Some in Hmap as [Hmap Hne]. cbn in Hne.
    unfold PyDict.contains. rewrite PyDict_get_del_other by congruence.
    apply (Hm a), Hmap.
  - apply get_available_proxies_mapped, Hm.
  - unfold ProxyPool.get_best_proxy.
    pose proof (get_available_proxies_mapped self now country quality false Hm) as H.
    destruct (ProxyPool.get_available_proxies _ _ _ _ _) as [available s].
    destruct (ProxyPool.sort_by_key available); exact H.
  - unfold ProxyPool.get_random_proxy.
    pose proof (get_available_proxies_mapped self now country quality false Hm) as H.
    destruct (ProxyPool.get_available_proxies _ _ _ _ _) as [available s].
    destruct (nth_error _ _); exact H.
  - apply assign_proxy_to_account_mapped; assumption.
  - apply release_account_proxy_mapped, Hm.
  - unfold ProxyPool.rotate_account_proxy.
    pose proof (release_account_proxy_keyed self account Hk) as Hk'.
    pose proof (release_account_proxy_mapped self account Hm) as Hm'.
    destruct (ProxyPool.release_account_proxy self account) as [b s].
    apply assign_proxy_to_account_mapped; assumption.
  - destruct (check_proxy_health_stores self proxy_id start_time finish probe)
      as [->|(p' & ->)]; [exact Hm|apply pool_mapped_store, Hm].
  - unfold ProxyPool.mark_proxy_banned, ProxyPool.get_proxy.
    destruct (PyDict.get (ProxyPool._proxies self) proxy_id) as [p|]; [|exact Hm].
    cbn [snd]. apply (pool_mapped_store self _ _ Hm).
Qed.

Lemma pool_run_mapped calls : forall self,
  pool_keyed self -> pool_mapped self -> pool_mapped (pool_run self calls).
Proof.
  unfold pool_run. induction calls as [|call calls IH]; intros self Hk Hm; cbn.
  - exact Hm.
  - apply IH; [apply pool_step_keyed, Hk|apply pool_step_mapped; assumption].
Qed.

Lemma pool_init_mapped : pool_mapped ProxyPool.init.
Proof. intros account pid Hmap. cbn in Hmap. rewrite lookup_empty in Hmap. discriminate. Qed.

(** X17.  In a pool that started empty, whatever calls were made on it,
    [remove_proxy] answers whether the proxy was there; afterwards the
    proxy is gone, no account is mapped to it, and every other proxy and
    every assignment to another proxy is as before. *)
Theorem remove_proxy_forgets_proxy_and_assignments :
  forall (calls : list pool_call) (proxy_id : string),
    let self := pool_run ProxyPool.init calls in
    let removed := ProxyPool.remove_proxy self proxy_id in
    fst removed = PyDict.contains (ProxyPool._proxies self) proxy_id
    /\ ProxyPool.get_proxy (snd removed) proxy_id = None
    /\ (forall account,
          ProxyPool._account_proxy_map (snd removed) !! account <> Some proxy_id)
    /\ (forall account,
          ProxyPool._account_proxy_map (snd removed) !! account
          = match ProxyPool._account_proxy_map self !! account with
            | Some assigned_id =>
                if bool_decide (assigned_id = proxy_id)
                then None else Some assigned_id
            | None => None
            end)
    /\ (forall other,
          other <> proxy_id ->
          ProxyPool.get_proxy (snd removed) other = ProxyPool.get_proxy self other).
Proof.
  intros calls proxy_id self removed. subst removed.
  destruct (pool_run_keyed calls _ pool_init_keyed) as [Hnd _]. fold self in Hnd.
  pose proof (pool_run_mapped calls _ pool_init_keyed pool_init_mapped) as Hm.
  fold self in Hm.
  unfold ProxyPool.remove_proxy, ProxyPool.get_proxy.
  assert (Hc : PyDict.contains (ProxyPool._proxies self) proxy_id
               = match PyDict.get (ProxyPool._proxies self) proxy_id with
                 | Some _ => true
                 | None => false
                 end) by reflexivity.
  destruct (PyDict.get (ProxyPool._proxies self) proxy_id) as [p|] eqn:Hget;
    rewrite Hc.
  - cbn [fst snd ProxyPool.with_account_proxy_map ProxyPool.with_proxies
         ProxyPool._proxies ProxyPool._account_proxy_map].
    split; [reflexivity|]. split; [apply PyDict_get_del_same, Hnd|].
    split; [|split].
    + intros account Hmap.
      apply map_lookup_filter_Some in Hmap as [_ Hne]. now apply Hne.
    + intros account.
      destruct (ProxyPool._account_proxy_map self !! account) as [aid|] eqn:Hmap.
      * case_bool_decide as Heq.
        -- apply map_lookup_filter_None. right. intros v Hv. cbn.
           rewrite Hmap in Hv. injection Hv as <-. auto.
        -- apply map_lookup_filter_Some. split; [exact Hmap|exact Heq].
      * apply map_lookup_filter_None. left. exact Hmap.
    + intros other Hne. apply PyDict_get_del_other. congruence.
  - cbn [fst snd].
    assert (Hfree : forall account,
               ProxyPool._account_proxy_map self !! account <> Some proxy_id).
    { intros account Hmap. apply Hm in Hmap. unfold PyDict.contains in Hmap.
      rewrite Hget in Hmap. discriminate. }
    split; [reflexivity|]. split; [exact Hget|]. split; [exact Hfree|].
    split; [|reflexivity].
    intros account. specialize (Hfree account).
    destruct (_ !! account) as [aid|]; [|reflexivity].
    case_bool_decide as Heq; [congruence|reflexivity].
Qed.

(** ** Proxy pool: statistics *)

Lemma has_status_sym st p :
  ProxyPool.status_eqb st (ProxyPool.status p) = has_status st p.
Proof. unfold has_status. destruct st, (ProxyPool.status p); reflexivity. Qed.

Lemma has_quality_sym q p :
  ProxyPool.quality_eqb q (ProxyPool.quality p) = has_quality q p.
Proof. unfold has_quality. destruct q, (ProxyPool.quality p); reflexivity. Qed.

Lemma count_proxy_fold l : forall counters,
  let counted := fold_left ProxyPool.count_proxy l counters in
  (forall st,
      ProxyPool.by_status counted st
      = ProxyPool.by_status counters st
        + Z.of_nat (length (List.filter (has_status st) l)))
  /\ (forall q,
        ProxyPool.by_quality counted q
        = ProxyPool.by_quality counters q
          + Z.of_nat (length (List.filter (has_quality q) l)))
  /\ ProxyPool.assigned counted
     = ProxyPool.assigned counters
       + Z.of_nat (length (List.filter is_assigned l)).
Proof.
  induction l as [|p l IH]; intros counters; cbn [fold_left].
  - cbn. repeat split; intros; lia.
  - destruct (IH (ProxyPool.count_proxy counters p)) as (Hs & Hq & Ha).
    cbn zeta. split; [|split].
    + intros st. rewrite Hs. cbn [ProxyPool.count_proxy ProxyPool.by_status
        List.filter].
      rewrite has_status_sym. destruct (has_status st p); cbn [length]; lia.
    + intros q. rewrite Hq. cbn [ProxyPool.count_proxy ProxyPool.by_quality
        List.filter].
      rewrite has_quality_sym. destruct (has_quality q p); cbn [length]; lia.
    + rewrite Ha. cbn [ProxyPool.count_proxy ProxyPool.assigned List.filter].
      fold (is_assigned p). destruct (is_assigned p); cbn [length]; lia.
Qed.

(** X18.  [get_pool_stats] counts each proxy under one status and one
    quality, so both groups of counters add up to the total; "assigned"
    and "banned" count the proxies so marked.  "available" is the number
    of proxies that are neither assigned nor banned less the number of
    those that are both: an assigned proxy that is banned is taken off
    twice, and cooling proxies are counted in. *)
Theorem pool_stats_count_every_proxy_once :
  forall (self : ProxyPool.ProxyPoolService),
    let stats := ProxyPool.get_pool_stats self in
    ProxyPool.stats_active stats + ProxyPool.stats_slow stats
      + ProxyPool.stats_cooling stats + ProxyPool.stats_banned stats
      + ProxyPool.stats_failed stats
    = ProxyPool.stats_total stats
    /\ match ProxyPool.stats_by_quality stats with
       | [(_, residential); (_, datacenter); (_, mobile)] =>
           residential + datacenter + mobile = ProxyPool.stats_total stats
       | _ => False
       end
    /\ ProxyPool.stats_assigned stats = count_proxies is_assigned self
    /\ ProxyPool.stats_banned stats
       = count_proxies (has_status ProxyPool.BANNED) self
    /\ ProxyPool.stats_available stats
       = count_proxies (fun p => negb (is_assigned p)
                                 && negb (has_status ProxyPool.BANNED p)) self
         - count_proxies (fun p => is_assigned p
                                   && has_status ProxyPool.BANNED p) self.
Proof.
  intros self stats. subst stats. unfold ProxyPool.get_pool_stats, count_proxies.
  set (l := PyDict.values (ProxyPool._proxies self)).
  assert (Hlen : length (ProxyPool._proxies self) = length l)
    by (subst l; unfold PyDict.values; rewrite length_map; reflexivity).
  destruct (count_proxy_fold l
              {| ProxyPool.by_status := fun _ => 0;
                 ProxyPool.by_quality := fun _ => 0;
                 ProxyPool.assigned := 0 |}) as (Hs & Hq & Ha).
  cbn zeta in *. cbn [ProxyPool.by_status ProxyPool.by_quality ProxyPool.assigned] in *.
  cbn [ProxyPool.stats_active ProxyPool.stats_slow ProxyPool.stats_cooling
       ProxyPool.stats_banned ProxyPool.stats_failed ProxyPool.stats_total
       ProxyPool.stats_by_quality ProxyPool.stats_assigned
       ProxyPool.stats_available].
  rewrite !Hs, !Hq, Ha, Hlen. clear Hs Hq Ha Hlen.
  assert (Hstatus :
            (length (List.filter (has_status ProxyPool.ACTIVE) l)
             + length (List.filter (has_status ProxyPool.SLOW) l)
             + length (List.filter (has_status ProxyPool.COOLING) l)
             + length (List.filter (has_status ProxyPool.BANNED) l)
             + length (List.filter (has_status ProxyPool.FAILED) l)
             = length l)%nat).
  { clear. induction l as [|p l IH]; [reflexivity|]. cbn [List.filter].
    unfold has_status in *.
    destruct (ProxyPool.status p); cbn [ProxyPool.status_eqb length]; lia. }
  assert (Hquality :
            (length (List.filter (has_quality ProxyPool.RESIDENTIAL) l)
             + length (List.filter (has_quality ProxyPool.DATACENTER) l)
             + length (List.filter (has_quality ProxyPool.MOBILE) l)
             = length l)%nat).
  { clear. induction l as [|p l IH]; [reflexivity|]. cbn [List.filter].
    unfold has_quality in *.
    destruct (ProxyPool.quality p); cbn [ProxyPool.quality_eqb length]; lia. }
  assert (Havailable :
            (length l
             = length (List.filter
                         (fun p => negb (is_assigned p)
                                   && negb (has_status ProxyPool.BANNED p)) l)
               + length (List.filter is_assigned l)
               + length (List.filter (has_status ProxyPool.BANNED) l)
               - length (List.filter
                           (fun p => is_assigned p
                                     && has_status ProxyPool.BANNED p) l))%nat
            /\ (length (List.filter
                          (fun p => is_assigned p
                                    && has_status ProxyPool.BANNED p) l)
                <= length (List.filter is_assigned l))%nat).
  { clear. induction l as [|p l IH]; [cbn; lia|]. cbn [List.filter].
    destruct (is_assigned p), (has_status ProxyPool.BANNED p);
      cbn [andb negb length]; lia. }
  repeat split; lia.
Qed.
(** ** Proxy pool: health checks *)

Lemma check_failed_spec self pid p start_time finish e res :
  fst (ProxyPool.check_failed self pid p start_time finish e)
    = ProxyPool.Returned res ->
  ProxyPool.hc_is_healthy res = false
  /\ exists rate,
       let cools :=
         ProxyPool._max_consecutive_failures self
           <=? ProxyPool.failed_requests p + 1 in
       snd (ProxyPool.check_failed self pid p start_time finish e)
       = ProxyPool.store_proxy self pid
           (ProxyPool.with_metrics p
              (if cools then ProxyPool.COOLING else ProxyPool.status p)
              (ProxyPool.avg_response_time_ms p) rate
              (ProxyPool.total_requests p + 1) (ProxyPool.failed_requests p + 1)
              (Some finish)
              (if cools then Some (finish + ProxyPool._cooling_duration self)
               else ProxyPool.cooling_until p)).
Proof.
  unfold ProxyPool.check_failed.
  destruct (ProxyPool.elapsed_ms start_time finish); [|discriminate].
  destruct (ProxyPool.one_minus_ratio _ _) as [rate|]; [|discriminate].
  cbn [fst snd]. intros [= <-]. split; [reflexivity|].
  exists rate. reflexivity.
Qed.

Lemma check_proxy_health_healthy self pid proxy start_time finish probe res :
  ProxyPool.get_proxy self pid = Some proxy ->
  fst (ProxyPool.check_proxy_health self pid start_time finish probe)
    = ProxyPool.Returned res ->
  ProxyPool.hc_is_healthy res = true ->
  exists st avg rate,
    (st = ProxyPool.ACTIVE \/ st = ProxyPool.SLOW)
    /\ snd (ProxyPool.check_proxy_health self pid start_time finish probe)
       = ProxyPool.store_proxy self pid
           (ProxyPool.with_metrics proxy st avg rate
              (ProxyPool.total_requests proxy + 1)
              (ProxyPool.failed_requests proxy) (Some finish)
              (ProxyPool.cooling_until proxy)).
Proof.
  intros Hget. unfold ProxyPool.check_proxy_health. rewrite Hget.
  assert (Hfailed : forall p e,
             fst (ProxyPool.check_failed self pid p start_time finish e)
               = ProxyPool.Returned res ->
             ProxyPool.hc_is_healthy res = true -> False).
  { intros p e H Hh. apply check_failed_spec in H as [H _]. congruence. }
  destruct probe as [origin|e]; [|intros H1 H2; destruct (Hfailed _ _ H1 H2)].
  destruct (ProxyPool.elapsed_ms start_time finish) as [elapsed|];
    [|intros H1 H2; destruct (Hfailed _ _ H1 H2)].
  destruct (match ProxyPool.float_mul_int _ _ with
            | ProxyPool.Returned _ => _ | ProxyPool.Escaped e => _ end)
    as [avg|]; [|intros H1 H2; destruct (Hfailed _ _ H1 H2)].
  destruct (ProxyPool.one_minus_ratio _ _) as [rate|];
    [|intros H1 H2; destruct (Hfailed _ _ H1 H2)].
  cbn [fst snd]. intros _ _.
  eexists _, avg, rate. split; [|reflexivity].
  destruct (SFltb _ _); auto.
Qed.

Lemma get_proxy_store self pid p :
  ProxyPool.get_proxy (ProxyPool.store_proxy self pid p) pid = Some p.
Proof.
  unfold ProxyPool.get_proxy, ProxyPool.store_proxy. cbn.
  apply PyDict_get_set_same.
Qed.

(** Without filters the availability loop lets through every proxy that is
    neither banned nor cooling. *)
Lemma get_available_proxies_complete self now k p :
  In (k, p) (ProxyPool._proxies self) ->
  ProxyPool.status p <> ProxyPool.BANNED ->
  ProxyPool.status p <> ProxyPool.COOLING ->
  In p (fst (ProxyPool.get_available_proxies self now None None false)).
Proof.
  intros Hin Hb Hc. unfold ProxyPool.get_available_proxies. cbn [fst].
  apply in_map_iff. exists (k, (p, true)). split; [reflexivity|].
  apply List.filter_In. split; [|reflexivity].
  apply in_map_iff. exists (k, p). split; [|exact Hin].
  cbn [fst snd]. f_equal. unfold ProxyPool.visit_proxy.
  destruct (ProxyPool.status p); try congruence; reflexivity.
Qed.

(** X19.  A health check that reports a proxy healthy leaves it active or
    slow whatever its status was, banned included, with one more request
    counted and no more failure: from then on the availability lookups
    hand it out again. *)
Theorem healthy_check_returns_proxy_to_rotation :
  forall (self : ProxyPool.ProxyPoolService) (proxy_id : string)
         (proxy : ProxyPool.ProxyConfig) (start_time finish : datetime)
         (probe : result string) (res : ProxyPool.HealthCheckResult),
    ProxyPool.get_proxy self proxy_id = Some proxy ->
    fst (ProxyPool.check_proxy_health self proxy_id start_time finish probe)
      = ProxyPool.Returned res ->
    ProxyPool.hc_is_healthy res = true ->
    let checked :=
      snd (ProxyPool.check_proxy_health self proxy_id start_time finish probe) in
    exists proxy',
      ProxyPool.get_proxy checked proxy_id = Some proxy'
      /\ (ProxyPool.status proxy' = ProxyPool.ACTIVE
          \/ ProxyPool.status proxy' = ProxyPool.SLOW)
      /\ ProxyPool.total_requests proxy' = ProxyPool.total_requests proxy + 1
      /\ ProxyPool.failed_requests proxy' = ProxyPool.failed_requests proxy
      /\ forall now,
           In proxy'
             (fst (ProxyPool.get_available_proxies checked now None None false)).
Proof.
  intros self pid proxy start_time finish probe res Hget Hres Hhealthy checked.
  destruct (check_proxy_health_healthy _ _ _ _ _ _ _ Hget Hres Hhealthy)
    as (st & avg & rate & Hst & Hchecked).
  subst checked. rewrite Hchecked. eexists. split; [apply get_proxy_store|].
  cbn [ProxyPool.with_metrics ProxyPool.status ProxyPool.total_requests
       ProxyPool.failed_requests].
  split; [exact Hst|]. split; [reflexivity|]. split; [reflexivity|].
  intros now. apply (get_available_proxies_complete _ now pid).
  - apply PyDict_get_In. apply get_proxy_store.
  - cbn. destruct Hst as [-> | ->]; discriminate.
  - cbn. destruct Hst as [-> | ->]; discriminate.
Qed.

Lemma healthy_check_returns_proxy_to_rotation_witness :
  exists proxy',
    ProxyPool.get_proxy
      (snd (ProxyPool.check_proxy_health pool_p1_banned "p1" 0
              (timedelta_seconds 1) (Ok "203.0.113.7")))
      "p1" = Some proxy'
    /\ (ProxyPool.status proxy' = ProxyPool.ACTIVE
        \/ ProxyPool.status proxy' = ProxyPool.SLOW)
    /\ ProxyPool.total_requests proxy'
       = ProxyPool.total_requests (ProxyPool.with_status (plain_proxy "p1")
                                     ProxyPool.BANNED) + 1
    /\ ProxyPool.failed_requests proxy'
       = ProxyPool.failed_requests (ProxyPool.with_status (plain_proxy "p1")
                                      ProxyPool.BANNED)
    /\ forall now,
         In proxy'
           (fst (ProxyPool.get_available_proxies
                   (snd (ProxyPool.check_proxy_health pool_p1_banned "p1" 0
                           (timedelta_seconds 1) (Ok "203.0.113.7")))
                   now None None false)).
Proof.
  apply (healthy_check_returns_proxy_to_rotation pool_p1_banned "p1"
           (ProxyPool.with_status (plain_proxy "p1") ProxyPool.BANNED) 0
           (timedelta_seconds 1) (Ok "203.0.113.7")
           {| ProxyPool.hc_proxy_id := "p1"; ProxyPool.hc_is_healthy := true;
              ProxyPool.hc_response_time_ms :=
                binary_normalize float_prec float_emax 1000 0 false;
              ProxyPool.hc_external_ip := Some "203.0.113.7";
              ProxyPool.hc_country_detected := None;
              ProxyPool.hc_error_message := None;
              ProxyPool.hc_checked_at := timedelta_seconds 1 |});
    vm_compute; reflexivity.
Defined.

Lemma get_available_proxies_origin self now c q e p :
  In p (fst (ProxyPool.get_available_proxies self now c q e)) ->
  exists k p0,
    In (k, p0) (ProxyPool._proxies self)
    /\ ProxyPool.visit_proxy now c q e p0 = (p, true).
Proof.
  unfold ProxyPool.get_available_proxies. cbn [fst].
  rewrite in_map_iff. intros ([k [p1 b]] & <- & Hin).
  apply List.filter_In in Hin as [Hin Hb]. cbn [fst snd] in *. subst b.
  apply in_map_iff in Hin as ([k0 p0] & [= <- Hv] & Hin).
  exists k0, p0. split; [exact Hin|]. cbn [snd] in Hv. exact Hv.
Qed.

(** X20.  Failures are counted over the life of a proxy: once a failed
    health check brings [failed_requests] to the threshold or beyond, the
    proxy is put in cooling for the cooling duration from the end of the
    check, whatever its status was.  Until that deadline no availability
    lookup returns it, whatever the filters; from the deadline on a first
    lookup without filters returns it, active again. *)
Theorem failed_checks_cool_the_proxy :
  forall (self : ProxyPool.ProxyPoolService) (proxy_id : string)
         (proxy : ProxyPool.ProxyConfig) (start_time finish : datetime)
         (e : exn) (res : ProxyPool.HealthCheckResult),
    pool_keyed self ->
    ProxyPool.get_proxy self proxy_id = Some proxy ->
    fst (ProxyPool.check_proxy_health self proxy_id start_time finish (Raise e))
      = ProxyPool.Returned res ->
    ProxyPool._max_consecutive_failures self
      <= ProxyPool.failed_requests proxy + 1 ->
    let checked :=
      snd (ProxyPool.check_proxy_health self proxy_id start_time finish
             (Raise e)) in
    let deadline := finish + ProxyPool._cooling_duration self in
    ProxyPool.hc_is_healthy res = false
    /\ (forall now country quality exclude_assigned p,
          now < deadline ->
          In p (fst (ProxyPool.get_available_proxies checked now country quality
                       exclude_assigned)) ->
          ProxyPool.id p <> proxy_id)
    /\ (forall now,
          deadline <= now ->
          exists p,
            In p (fst (ProxyPool.get_available_proxies checked now None None
                         false))
            /\ ProxyPool.id p = proxy_id
            /\ ProxyPool.status p = ProxyPool.ACTIVE
            /\ ProxyPool.failed_requests p = ProxyPool.failed_requests proxy + 1).
Proof.
  intros self pid proxy start_time finish e res Hkeyed Hget Hres Hmax checked
    deadline.
  pose proof (check_proxy_health_keyed self pid start_time finish (Raise e) Hkeyed)
    as Hkeyed'.
  fold checked in Hkeyed'.
  assert (Hid : ProxyPool.id proxy = pid).
  { destruct Hkeyed as [_ Hid]. apply Hid, PyDict_get_In, Hget. }
  assert (Hpath : ProxyPool.check_proxy_health self pid start_time finish (Raise e)
                  = ProxyPool.check_failed self pid proxy start_time finish
                      (ProxyPool.Raised e)).
  { unfold ProxyPool.check_proxy_health. rewrite Hget. reflexivity. }
  subst checked. rewrite Hpath in *.
  set (checked := snd (ProxyPool.check_failed self pid proxy start_time finish
                         (ProxyPool.Raised e))) in *.
  destruct (check_failed_spec _ _ _ _ _ _ _ Hres) as [Hunhealthy (rate & Hchecked)].
  cbn zeta in Hchecked. fold checked in Hchecked.
  replace (ProxyPool._max_consecutive_failures self
             <=? ProxyPool.failed_requests proxy + 1) with true in Hchecked
    by (symmetry; apply Z.leb_le; exact Hmax).
  fold deadline in Hchecked.
  set (cooled := ProxyPool.with_metrics proxy ProxyPool.COOLING
                   (ProxyPool.avg_response_time_ms proxy) rate
                   (ProxyPool.total_requests proxy + 1)
                   (ProxyPool.failed_requests proxy + 1) (Some finish)
                   (Some deadline)) in Hchecked.
  assert (Hstored : PyDict.get (ProxyPool._proxies checked) pid = Some cooled).
  { rewrite Hchecked. apply get_proxy_store. }
  split; [exact Hunhealthy|]. split.
  - intros now country quality exclude_assigned p Hnow Hin Hp.
    apply get_available_proxies_origin in Hin as (k & p0 & Hin & Hvisit).
    assert (Hk : ProxyPool.id p0 = k) by (destruct Hkeyed' as [_ H]; apply H, Hin).
    assert (Hp0 : ProxyPool.id p = ProxyPool.id p0).
    { rewrite <- (visit_proxy_id now country quality exclude_assigned p0).
      rewrite Hvisit. reflexivity. }
    assert (Hkp : k = pid) by congruence. clear Hk. subst k.
    destruct Hkeyed' as [Hnd _].
    apply (PyDict_In_get _ _ _ (proj2 (NoDup_ListNoDup _) Hnd)) in Hin.
    assert (Some p0 = Some cooled) as [= ->] by (rewrite <- Hin; exact Hstored).
    unfold ProxyPool.visit_proxy in Hvisit. cbn in Hvisit.
    replace (now <? deadline) with true in Hvisit
      by (symmetry; apply Z.ltb_lt; exact Hnow).
    discriminate.
  - intros now Hnow. exists (ProxyPool.with_status cooled ProxyPool.ACTIVE).
    split; [|split; [exact Hid|split; reflexivity]].
    unfold ProxyPool.get_available_proxies. cbn [fst].
    apply in_map_iff. exists (pid, (ProxyPool.with_status cooled ProxyPool.ACTIVE, true)).
    split; [reflexivity|].
    apply List.filter_In. split; [|reflexivity].
    apply in_map_iff. exists (pid, cooled). split; [|apply PyDict_get_In, Hstored].
    cbn [fst snd]. f_equal. unfold ProxyPool.visit_proxy. cbn.
    replace (now <? deadline) with false
      by (symmetry; apply Z.ltb_ge; exact Hnow).
    reflexivity.
Qed.
Lemma failed_checks_cool_the_proxy_witness :
  let checked :=
    snd (ProxyPool.check_proxy_health pool_p1_failed_twice "p1"
           (timedelta_seconds 120) (timedelta_seconds 121)
           (Raise (Exception "timeout"))) in
  let deadline := timedelta_seconds 121 + timedelta_minutes 30 in
  false = false
  /\ (forall now country quality exclude_assigned p,
        now < deadline ->
        In p (fst (ProxyPool.get_available_proxies checked now country quality
                     exclude_assigned)) ->
        ProxyPool.id p <> "p1")
  /\ (forall now,
        deadline <= now ->
        exists p,
          In p (fst (ProxyPool.get_available_proxies checked now None None false))
          /\ ProxyPool.id p = "p1"
          /\ ProxyPool.status p = ProxyPool.ACTIVE
          /\ ProxyPool.failed_requests p = 2 + 1).
Proof.
  apply (failed_checks_cool_the_proxy pool_p1_failed_twice "p1"
           (ProxyPool.with_metrics (plain_proxy "p1") ProxyPool.ACTIVE
              (float_literal 0 1) (float_literal 0 1) 2 2
              (Some (timedelta_seconds 61)) None)
           (timedelta_seconds 120) (timedelta_seconds 121) (Exception "timeout")
           {| ProxyPool.hc_proxy_id := "p1"; ProxyPool.hc_is_healthy := false;
              ProxyPool.hc_response_time_ms :=
                binary_normalize float_prec float_emax 1000 0 false;
              ProxyPool.hc_external_ip := None;
              ProxyPool.hc_country_detected := None;
              ProxyPool.hc_error_message := Some "timeout";
              ProxyPool.hc_checked_at := timedelta_seconds 121 |}).
  - split.
    + vm_compute. repeat constructor. intros H. inversion H.
    + intros k p. vm_compute. intros [[= <- <-]|[]]. reflexivity.
  - vm_compute. reflexivity.
  - vm_compute. reflexivity.
  - vm_compute. discriminate.
Defined.

(** ** Proxy pool: bans *)

Lemma get_best_proxy_pool self now c q :
  snd (ProxyPool.get_best_proxy self now c q)
  = snd (ProxyPool.get_available_proxies self now c q false).
Proof.
  unfold ProxyPool.get_best_proxy.
  destruct (ProxyPool.get_available_proxies self now c q false) as [available s].
  destruct (ProxyPool.sort_by_key available); reflexivity.
Qed.

Lemma get_random_proxy_pool self now r c q :
  snd (ProxyPool.get_random_proxy self now r c q)
  = snd (ProxyPool.get_available_proxies self now c q false).
Proof.
  unfold ProxyPool.get_random_proxy.
  destruct (ProxyPool.get_available_proxies self now c q false) as [available s].
  destruct (nth_error available _); reflexivity.
Qed.

Lemma ban_kept_refl pid self : ban_kept pid self self.
Proof. intros p Hp. eauto. Qed.

Lemma ban_kept_trans pid a b c :
  ban_kept pid a b -> ban_kept pid b c -> ban_kept pid a c.
Proof.
  intros Hab Hbc p Hp. destruct (Hab p Hp) as (p1 & Hp1 & H1).
  destruct (Hbc p1 Hp1) as (p2 & Hp2 & H2). eauto.
Qed.

(** Writing back a proxy under a key keeps the ban of [pid] when the
    status of the written proxy is the one it had. *)
Lemma ban_kept_store pid self k p0 p1 :
  PyDict.get (ProxyPool._proxies self) k = Some p0 ->
  (ProxyPool.status p0 = ProxyPool.BANNED -> ProxyPool.status p1 = ProxyPool.BANNED) ->
  ban_kept pid self
    (ProxyPool.with_proxies self (PyDict.set (ProxyPool._proxies self) k p1)).
Proof.
  intros Hget Hstatus p Hp. unfold ProxyPool.get_proxy in *. cbn.
  rewrite PyDict_get_set. destruct (String.eqb_spec k pid) as [->|Hne].
  - exists p1. split; [reflexivity|]. rewrite Hget in Hp. injection Hp as <-.
    exact Hstatus.
  - eauto.
Qed.

Lemma ban_kept_map pid before after m :
  ban_kept pid before after ->
  ban_kept pid before (ProxyPool.with_account_proxy_map after m).
Proof. intros H. exact H. Qed.

Lemma get_available_proxies_ban_kept pid self now c q e :
  ban_kept pid self (snd (ProxyPool.get_available_proxies self now c q e)).
Proof.
  intros p Hp. unfold ProxyPool.get_proxy in *.
  rewrite get_available_proxies_stored, Hp. cbn [option_map].
  eexists. split; [reflexivity|]. intros Hb.
  unfold ProxyPool.visit_proxy. rewrite Hb. exact Hb.
Qed.

Lemma release_account_proxy_ban_kept pid self account :
  ban_kept pid self (snd (ProxyPool.release_account_proxy self account)).
Proof.
  unfold ProxyPool.release_account_proxy.
  destruct (ProxyPool._account_proxy_map self !! account) as [k|];
    [|apply ban_kept_refl].
  cbn [snd ProxyPool.with_account_proxy_map ProxyPool._proxies].
  destruct (PyDict.get (ProxyPool._proxies self) k) as [p0|] eqn:Hget;
    [|apply ban_kept_map, ban_kept_refl].
  apply (ban_kept_store pid (ProxyPool.with_account_proxy_map self _) k p0);
    [exact Hget|auto].
Qed.

Lemma assign_proxy_to_account_ban_kept pid self now account proxy_id country :
  ban_kept pid self
    (snd (ProxyPool.assign_proxy_to_account self now account proxy_id country)).
Proof.
  unfold ProxyPool.assign_proxy_to_account.
  destruct (match ProxyPool._account_proxy_map self !! account with
            | Some existing => PyDict.get (ProxyPool._proxies self) existing
            | None => None
            end); [apply ban_kept_refl|].
  destruct proxy_id as [k|]; [|apply ban_kept_refl].
  destruct (truthy_str (Some k)); [|apply ban_kept_refl].
  destruct (PyDict.get (ProxyPool._proxies self) k) as [p0|] eqn:Hget;
    [|apply ban_kept_refl].
  cbn [snd]. apply ban_kept_map.
  apply (ban_kept_store pid self k p0); [exact Hget|auto].
Qed.

Lemma check_proxy_health_other pid self k start_time finish probe :
  k <> pid ->
  ProxyPool.get_proxy
    (snd (ProxyPool.check_proxy_health self k start_time finish probe)) pid
  = ProxyPool.get_proxy self pid.
Proof.
  intros Hne.
  assert (Hstore : forall p,
             ProxyPool.get_proxy (ProxyPool.store_proxy self k p) pid
             = ProxyPool.get_proxy self pid).
  { intros p. unfold ProxyPool.get_proxy, ProxyPool.store_proxy. cbn.
    apply PyDict_get_set_other, Hne. }
  assert (Hfailed : forall p e,
             ProxyPool.get_proxy
               (snd (ProxyPool.check_failed self k p start_time finish e)) pid
             = ProxyPool.get_proxy self pid).
  { intros p e. unfold ProxyPool.check_failed.
    destruct (ProxyPool.elapsed_ms start_time finish); cbn [snd]; [|apply Hstore].
    destruct (ProxyPool.one_minus_ratio _ _); cbn [snd]; apply Hstore. }
  unfold ProxyPool.check_proxy_health.
  destruct (ProxyPool.get_proxy self k) as [p|]; [|reflexivity].
  destruct probe as [origin|e]; [|apply Hfailed].
  destruct (ProxyPool.elapsed_ms start_time finish); [|apply Hfailed].
  destruct (match ProxyPool.float_mul_int _ _ with
            | ProxyPool.Returned _ => _ | ProxyPool.Escaped e => _ end);
    [|apply Hfailed].
  destruct (ProxyPool.one_minus_ratio _ _); [|apply Hfailed].
  cbn [snd]. apply Hstore.
Qed.

Lemma pool_step_ban_kept pid self call :
  leaves_proxy_alone pid call = true -> ban_kept pid self (pool_step self call).
Proof.
  intros Hcall. destruct call; cbn [pool_step leaves_proxy_alone] in *.
  - apply negb_true_iff, String.eqb_neq in Hcall.
    intros p Hp. exists p. split; [|auto].
    unfold ProxyPool.get_proxy, ProxyPool.add_proxy in *. cbn.
    rewrite PyDict_get_set_other by exact Hcall. exact Hp.
  - apply negb_true_iff, String.eqb_neq in Hcall.
    unfold ProxyPool.remove_proxy.
    destruct (PyDict.contains _ _); [|apply ban_kept_refl].
    intros p Hp. exists p. split; [|auto].
    unfold ProxyPool.get_proxy in *. cbn.
    rewrite PyDict_get_del_other by exact Hcall. exact Hp.
  - apply get_available_proxies_ban_kept.
  - rewrite get_best_proxy_pool. apply get_available_proxies_ban_kept.
  - rewrite get_random_proxy_pool. apply get_available_proxies_ban_kept.
  - apply assign_proxy_to_account_ban_kept.
  - apply release_account_proxy_ban_kept.
  - unfold ProxyPool.rotate_account_proxy.
    pose proof (release_account_proxy_ban_kept pid self account) as H.
    destruct (ProxyPool.release_account_proxy self account) as [b released].
    eapply ban_kept_trans; [exact H|apply assign_proxy_to_account_ban_kept].
  - apply negb_true_iff, String.eqb_neq in Hcall.
    intros p Hp. exists p. split; [|auto].
    rewrite check_proxy_health_other by exact Hcall. exact Hp.
  - unfold ProxyPool.mark_proxy_banned, ProxyPool.get_proxy.
    destruct (PyDict.get (ProxyPool._proxies self) proxy_id) as [p0|] eqn:Hget;
      [|apply ban_kept_refl].
    cbn [snd]. apply (ban_kept_store pid self proxy_id p0); [exact Hget|].
    reflexivity.
Qed.

(** X21.  A ban lasts: through any calls that do not add a proxy under the
    same id, remove the proxy or check its health, a banned proxy stays in
    the pool and stays banned, so that the availability lookups keep
    passing over it; assignments, releases, rotations, lookups and the
    health checks of other proxies do not touch the ban. *)
Theorem ban_lasts_until_proxy_is_replaced_or_checked :
  forall (self : ProxyPool.ProxyPoolService) (calls : list pool_call)
         (proxy_id : string) (proxy : ProxyPool.ProxyConfig),
    ProxyPool.get_proxy self proxy_id = Some proxy ->
    ProxyPool.status proxy = ProxyPool.BANNED ->
    forallb (leaves_proxy_alone proxy_id) calls = true ->
    exists proxy',
      ProxyPool.get_proxy (pool_run self calls) proxy_id = Some proxy'
      /\ ProxyPool.status proxy' = ProxyPool.BANNED
      /\ forall now country quality exclude_assigned,
           ~ In proxy'
               (fst (ProxyPool.get_available_proxies (pool_run self calls) now
                       country quality exclude_assigned)).
Proof.
  intros self calls pid proxy Hget Hbanned Hcalls.
  assert (Hkept : ban_kept pid self (pool_run self calls)).
  { clear Hget Hbanned. revert self. unfold pool_run.
    induction calls as [|call calls IH]; intros self; cbn [fold_left].
    - apply ban_kept_refl.
    - cbn [forallb] in Hcalls. apply andb_true_iff in Hcalls as [Hcall Hrest].
      eapply ban_kept_trans; [apply pool_step_ban_kept, Hcall|apply IH, Hrest]. }
  destruct (Hkept proxy Hget) as (proxy' & Hget' & Hstatus).
  exists proxy'. split; [exact Hget'|]. split; [auto|].
  intros now country quality exclude_assigned Hin.
  apply get_available_proxies_skip_banned in Hin. auto.
Qed.

Lemma ban_lasts_until_proxy_is_replaced_or_checked_witness :
  exists proxy',
    ProxyPool.get_proxy
      (pool_run pool_p1_banned
         [PoolAssign 0 "acc" (Some "p1") None; PoolBest 1 None None;
          PoolRotate 2 "acc" None;
          PoolCheckHealth "p2" 3 4 (Ok "203.0.113.7")])
      "p1" = Some proxy'
    /\ ProxyPool.status proxy' = ProxyPool.BANNED
    /\ forall now country quality exclude_assigned,
         ~ In proxy'
             (fst (ProxyPool.get_available_proxies
                     (pool_run pool_p1_banned
                        [PoolAssign 0 "acc" (Some "p1") None; PoolBest 1 None None;
                         PoolRotate 2 "acc" None;
                         PoolCheckHealth "p2" 3 4 (Ok "203.0.113.7")])
                     now country quality exclude_assigned)).
Proof.
  apply (ban_lasts_until_proxy_is_replaced_or_checked pool_p1_banned
           [PoolAssign 0 "acc" (Some "p1") None; PoolBest 1 None None;
            PoolRotate 2 "acc" None;
            PoolCheckHealth "p2" 3 4 (Ok "203.0.113.7")]
           "p1" (ProxyPool.with_status (plain_proxy "p1") ProxyPool.BANNED));
    vm_compute; reflexivity.
Defined.
(** ** Proxy pool: the best proxy *)

Lemma SFltb_rank x y :
  is_nan x = false -> is_nan y = false ->
  (SFltb x y = true <-> rank_lt (float_rank x) (float_rank y)).
Proof.
  unfold SFltb, SFcompare, rank_lt, float_rank.
  destruct x as [sx|sx| |sx mx ex], y as [sy|sy| |sy my ey];
    try discriminate; intros _ _;
    repeat match goal with
    | s : bool |- _ => destruct s
    end;
    try (split; [discriminate|lia]);
    try (split; [lia|reflexivity]);
    try (split; [intros _; lia|reflexivity]).
  all: change (Pos.compare_cont Eq mx my) with (Pos.compare mx my).
  all: destruct (Z.compare_spec ex ey) as [->|Hlt|Hlt];
    try destruct (Pos.compare_spec mx my) as [->|Hm|Hm]; cbn [CompOpp];
    split; try discriminate; try lia; intros _; lia.
Qed.

Lemma SFeqb_rank x y :
  is_nan x = false -> is_nan y = false ->
  (SFeqb x y = true <-> float_rank x = float_rank y).
Proof.
  unfold SFeqb, SFcompare, float_rank.
  destruct x as [sx|sx| |sx mx ex], y as [sy|sy| |sy my ey];
    try discriminate; intros _ _;
    repeat match goal with
    | s : bool |- _ => destruct s
    end;
    try (split; [discriminate|intros [=]; lia]);
    try (split; [discriminate|discriminate]);
    try (split; reflexivity).
  all: change (Pos.compare_cont Eq mx my) with (Pos.compare mx my).
  all: destruct (Z.compare_spec ex ey) as [->|Hlt|Hlt];
    try destruct (Pos.compare_spec mx my) as [->|Hm|Hm]; cbn [CompOpp];
    split; try discriminate; try reflexivity; intros [=]; lia.
Qed.

Lemma float_rank_opp x :
  float_rank (SFopp x)
  = let '(a, b, c) := float_rank x in (- a, - b, - c).
Proof.
  destruct x as [s|[|]| |[|] m e]; cbn; rewrite ?Z.opp_involutive; reflexivity.
Qed.

Lemma is_nan_opp x : is_nan (SFopp x) = is_nan x.
Proof. destruct x; reflexivity. Qed.

Lemma key_lt_better p q :
  metrics_known p = true -> metrics_known q = true ->
  (ProxyPool.key_lt (ProxyPool.sort_key p) (ProxyPool.sort_key q) = true
   <-> better_proxy p q).
Proof.
  unfold metrics_known, ProxyPool.key_lt, ProxyPool.sort_key, better_proxy.
  cbn [fst snd]. intros Hp Hq.
  apply andb_true_iff in Hp as [Hps Hpa]. apply andb_true_iff in Hq as [Hqs Hqa].
  apply negb_true_iff in Hps, Hpa, Hqs, Hqa.
  pose proof (SFeqb_rank (SFopp (ProxyPool.success_rate p))
                (SFopp (ProxyPool.success_rate q))) as Heq1.
  pose proof (SFltb_rank (SFopp (ProxyPool.success_rate p))
                (SFopp (ProxyPool.success_rate q))) as Hlt1.
  pose proof (SFeqb_rank (ProxyPool.avg_response_time_ms p)
                (ProxyPool.avg_response_time_ms q) Hpa Hqa) as Heq2.
  pose proof (SFltb_rank (ProxyPool.avg_response_time_ms p)
                (ProxyPool.avg_response_time_ms q) Hpa Hqa) as Hlt2.
  rewrite !is_nan_opp in Heq1, Hlt1.
  specialize (Heq1 Hps Hqs). specialize (Hlt1 Hps Hqs).
  rewrite !float_rank_opp in Heq1, Hlt1.
  destruct (float_rank (ProxyPool.success_rate p)) as [[a1 a2] a3].
  destruct (float_rank (ProxyPool.success_rate q)) as [[b1 b2] b3].
  destruct (float_rank (ProxyPool.avg_response_time_ms p)) as [[c1 c2] c3].
  destruct (float_rank (ProxyPool.avg_response_time_ms q)) as [[d1 d2] d3].
  unfold rank_lt in *.
  assert (Hsame : (- a1, - a2, - a3) = (- b1, - b2, - b3)
                  <-> (a1, a2, a3) = (b1, b2, b3)).
  { split; intros [=]; assert (a1 = b1) by lia; assert (a2 = b2) by lia;
      assert (a3 = b3) by lia; subst; reflexivity. }
  destruct (SFeqb (SFopp _) (SFopp _)).
  - assert (H : (a1, a2, a3) = (b1, b2, b3)) by (apply Hsame, Heq1; reflexivity).
    injection H as -> -> ->.
    destruct (SFeqb _ _).
    + assert (H : (c1, c2, c3) = (d1, d2, d3)) by (apply Heq2; reflexivity).
      injection H as -> -> ->. split; [discriminate|lia].
    + rewrite Hlt2. split; [auto|]. intros [H|[_ H]]; [lia|exact H].
  - rewrite Hlt1. split; [intros H; left; lia|].
    intros [H|[H _]]; [lia|].
    assert (true = true -> False); [|tauto].
    intros _. assert (false = true) by (apply Heq1, Hsame, H). discriminate.
Qed.

Lemma better_proxy_order p q r :
  ~ better_proxy p p
  /\ (better_proxy p q -> ~ better_proxy q p)
  /\ (~ better_proxy p q -> ~ better_proxy q r -> ~ better_proxy p r).
Proof.
  unfold better_proxy, rank_lt.
  destruct (float_rank (ProxyPool.success_rate p)) as [[a1 a2] a3].
  destruct (float_rank (ProxyPool.success_rate q)) as [[b1 b2] b3].
  destruct (float_rank (ProxyPool.success_rate r)) as [[e1 e2] e3].
  destruct (float_rank (ProxyPool.avg_response_time_ms p)) as [[c1 c2] c3].
  destruct (float_rank (ProxyPool.avg_response_time_ms q)) as [[d1 d2] d3].
  destruct (float_rank (ProxyPool.avg_response_time_ms r)) as [[f1 f2] f3].
  assert (Heq : forall x1 x2 x3 y1 y2 y3 : Z,
             (x1, x2, x3) = (y1, y2, y3) <-> x1 = y1 /\ x2 = y2 /\ x3 = y3).
  { intros. split; [intros [=]; auto|intros (-> & -> & ->); reflexivity]. }
  rewrite !Heq. lia.
Qed.

Lemma better_proxy_irrefl p : ~ better_proxy p p.
Proof. exact (proj1 (better_proxy_order p p p)). Qed.

Lemma better_proxy_asym p q : better_proxy p q -> ~ better_proxy q p.
Proof. exact (proj1 (proj2 (better_proxy_order p q q))). Qed.

Lemma better_proxy_negtrans p q r :
  ~ better_proxy p q -> ~ better_proxy q r -> ~ better_proxy p r.
Proof. exact (proj2 (proj2 (better_proxy_order p q r))). Qed.

Lemma sort_insert_head x l :
  exists rest,
    ProxyPool.sort_insert x l
    = match l with
      | [] => x
      | y :: _ =>
          if ProxyPool.key_lt (ProxyPool.sort_key y) (ProxyPool.sort_key x)
          then y else x
      end :: rest.
Proof.
  destruct l as [|y l]; cbn [ProxyPool.sort_insert]; [eauto|].
  destruct (ProxyPool.key_lt _ _); eauto.
Qed.

(** The head of the sorted list is in the list, and no element of the list
    goes before it. *)
Lemma sort_by_key_head l best rest :
  Forall (fun p => metrics_known p = true) l ->
  ProxyPool.sort_by_key l = best :: rest ->
  In best l /\ forall p, In p l -> ~ better_proxy p best.
Proof.
  revert best rest. induction l as [|x l IH]; intros best rest Hknown;
    cbn [ProxyPool.sort_by_key]; [discriminate|].
  inversion Hknown as [|? ? Hx Hl]; subst.
  destruct (sort_insert_head x (ProxyPool.sort_by_key l)) as (rest' & Hhead).
  rewrite Hhead. intros [= <- _].
  destruct (ProxyPool.sort_by_key l) as [|h t] eqn:Hsort.
  - assert (l = []) as ->.
    { destruct l as [|y l']; [reflexivity|].
      cbn [ProxyPool.sort_by_key] in Hsort.
      destruct (sort_insert_head y (ProxyPool.sort_by_key l')) as (r & Hr).
      rewrite Hr in Hsort. discriminate. }
    split; [now left|]. intros p [<-|[]]. apply better_proxy_irrefl.
  - destruct (IH h t Hl eq_refl) as [Hin Hmin].
    assert (Hh : metrics_known h = true)
      by (rewrite List.Forall_forall in Hl; apply Hl, Hin).
    destruct (ProxyPool.key_lt (ProxyPool.sort_key h) (ProxyPool.sort_key x))
      eqn:Hlt.
    + split; [now right|]. intros p [<-|Hp]; [|apply Hmin, Hp].
      apply better_proxy_asym. apply key_lt_better; assumption.
    + assert (Hnot : ~ better_proxy h x).
      { intros H. apply key_lt_better in H; [congruence|assumption|assumption]. }
      split; [now left|]. intros p [<-|Hp].
      * apply better_proxy_irrefl.
      * apply (better_proxy_negtrans p h x); [apply Hmin, Hp|exact Hnot].
Qed.

(** X22.  When no metric of an available proxy is NaN, the proxy that
    [get_best_proxy] returns is one of the available proxies, none of them
    has a higher success rate, and none with the same success rate has a
    lower average response time. *)
Theorem best_proxy_has_highest_success_rate :
  forall (self : ProxyPool.ProxyPoolService) (now : datetime)
         (country : option string) (quality : option ProxyPool.ProxyQuality)
         (best : ProxyPool.ProxyConfig),
    let available :=
      fst (ProxyPool.get_available_proxies self now country quality false) in
    (forall p, In p available -> metrics_known p = true) ->
    fst (ProxyPool.get_best_proxy self now country quality) = Ok best ->
    In best available
    /\ forall p,
         In p available ->
         SFltb (ProxyPool.success_rate best) (ProxyPool.success_rate p) = false
         /\ (SFeqb (ProxyPool.success_rate p) (ProxyPool.success_rate best) = true ->
             SFltb (ProxyPool.avg_response_time_ms p)
               (ProxyPool.avg_response_time_ms best) = false).
Proof.
  intros self now country quality best available Hknown.
  subst available. unfold ProxyPool.get_best_proxy.
  destruct (ProxyPool.get_available_proxies self now country quality false)
    as [available s]. cbn [fst] in *.
  destruct (ProxyPool.sort_by_key available) as [|b rest] eqn:Hsort;
    [discriminate|].
  intros [= <-].
  destruct (sort_by_key_head available b rest) as [Hin Hmin];
    [apply List.Forall_forall, Hknown|exact Hsort|].
  split; [exact Hin|]. intros p Hp.
  specialize (Hmin p Hp). unfold better_proxy in Hmin.
  pose proof (Hknown p Hp) as Hkp. pose proof (Hknown b Hin) as Hkb.
  unfold metrics_known in Hkp, Hkb.
  apply andb_true_iff in Hkp as [Hps Hpa]. apply andb_true_iff in Hkb as [Hbs Hba].
  apply negb_true_iff in Hps, Hpa, Hbs, Hba.
  split.
  - destruct (SFltb (ProxyPool.success_rate b) (ProxyPool.success_rate p)) eqn:Hlt;
      [|reflexivity].
    exfalso. apply Hmin. left. apply SFltb_rank; assumption.
  - intros Heq. apply SFeqb_rank in Heq; [|assumption|assumption].
    destruct (SFltb (ProxyPool.avg_response_time_ms p)
                (ProxyPool.avg_response_time_ms b)) eqn:Hlt; [|reflexivity].
    exfalso. apply Hmin. right. split; [exact Heq|].
    apply SFltb_rank; assumption.
Qed.

Lemma best_proxy_has_highest_success_rate_witness :
  In (proxy_with_metrics "p3" 100 250)
    (fst (ProxyPool.get_available_proxies pool_of_three 0 None None false))
  /\ forall p,
       In p (fst (ProxyPool.get_available_proxies pool_of_three 0 None None false)) ->
       SFltb (ProxyPool.success_rate (proxy_with_metrics "p3" 100 250))
         (ProxyPool.success_rate p) = false
       /\ (SFeqb (ProxyPool.success_rate p)
             (ProxyPool.success_rate (proxy_with_metrics "p3" 100 250)) = true ->
           SFltb (ProxyPool.avg_response_time_ms p)
             (ProxyPool.avg_response_time_ms (proxy_with_metrics "p3" 100 250))
           = false).
Proof.
  apply (best_proxy_has_highest_success_rate pool_of_three 0 None None
           (proxy_with_metrics "p3" 100 250)).
  - intros p Hp. vm_compute in Hp.
    destruct Hp as [<-|[<-|[<-|[]]]]; reflexivity.
  - vm_compute. reflexivity.
Defined.

(** ** Follow-back detector: life cycle of a relationship *)

Lemma relationship_consistent_step isoformat self call :
  Forall (fun kv => relationship_consistent (snd kv))
    (FollowBack._relationships self) ->
  Forall (fun kv => relationship_consistent (snd kv))
    (FollowBack._relationships (detector_step isoformat self call)).
Proof.
  intros Hall. rewrite List.Forall_forall in *.
  assert (Hget : forall k r,
             PyDict.get (FollowBack._relationships self) k = Some r ->
             relationship_consistent r).
  { intros k r H. apply PyDict_get_In in H. exact (Hall _ H). }
  destruct call as [now sub t n p|now probe rid|now a ex|now rid|days];
    cbn [detector_step].
  - unfold FollowBack.register_follow.
    cbn [snd FollowBack.with_relationships FollowBack._relationships].
    intros kv Hin. apply PyDict_set_In in Hin as [->|Hin]; [|auto].
    cbn [snd]. destruct (PyDict.get _ _) as [r0|] eqn:Hr0.
    + destruct (Hget _ _ Hr0) as (H1 & H2 & H3 & H4 & H5 & H6 & H7 & H8).
      unfold relationship_consistent. cbn.
      repeat split; try assumption; try discriminate;
        try (destruct p; discriminate); apply H8.
    + unfold relationship_consistent. cbn.
      repeat split; try reflexivity; try discriminate; try lia;
        destruct p; discriminate.
  - unfold FollowBack.check_stored.
    destruct (PyDict.get _ rid) as [r0|] eqn:Hr0; [|exact Hall].
    destruct (Hget _ _ Hr0) as (H1 & H2 & H3 & H4 & H5 & H6 & H7 & H8).
    unfold FollowBack.check_follow_back.
    destruct probe as [answer|e];
      cbn [snd FollowBack.with_relationships FollowBack._relationships];
      intros kv Hin; apply PyDict_set_In in Hin as [->|Hin]; auto; cbn [snd].
    + unfold relationship_consistent. cbn.
      repeat split; try assumption; try lia; try discriminate;
        try (destruct (answer && _); first [discriminate|assumption]).
    + exact (Hget _ _ Hr0).
  - unfold FollowBack.process_timeouts.
    cbn [snd FollowBack.with_relationships FollowBack._relationships].
    intros kv Hin. apply in_map_iff in Hin as ([k r0] & <- & Hin).
    cbn [fst snd]. pose proof (Hall _ Hin) as Hr0. cbn [snd] in Hr0.
    destruct (_ && _); [|exact Hr0].
    destruct Hr0 as (H1 & H2 & H3 & H4 & H5 & H6 & H7 & H8).
    unfold relationship_consistent. cbn.
    repeat split; try assumption; try discriminate; apply H8.
  - unfold FollowBack.mark_dm_sent.
    destruct (PyDict.get _ rid) as [r0|] eqn:Hr0; [|exact Hall].
    cbn [snd FollowBack.with_relationships FollowBack._relationships].
    intros kv Hin. apply PyDict_set_In in Hin as [->|Hin]; [|auto].
    exact (Hget _ _ Hr0).
  - exact Hall.
Qed.

(** X23.  In a detector that started empty, whatever was registered,
    checked, timed out and marked since: a relationship sits under the id
    made of its account and its target; it has a follow time and a
    timeout; a mutual one has the time of the follow-back and an
    unfollowed one the time of the unfollow; none is ever blocked; and
    the check count is zero exactly when no check time is recorded. *)
Theorem registered_relationships_are_consistent :
  forall (isoformat : datetime -> string) (executor : bool)
         (calls : list detector_call) (rid : string),
    match PyDict.get
            (FollowBack._relationships
               (detector_run isoformat (FollowBack.init executor) calls)) rid with
    | Some rel => FollowBack.id rel = rid /\ relationship_consistent rel
    | None => True
    end.
Proof.
  intros isoformat executor calls rid.
  pose proof (detector_registry_keyed isoformat executor calls) as Hkeyed.
  assert (Hall : Forall (fun kv => relationship_consistent (snd kv))
                   (FollowBack._relationships
                      (detector_run isoformat (FollowBack.init executor) calls))).
  { clear Hkeyed. unfold detector_run.
    assert (H0 : Forall (fun kv => relationship_consistent (snd kv))
                   (FollowBack._relationships (FollowBack.init executor)))
      by constructor.
    revert H0. generalize (FollowBack.init executor).
    induction calls as [|c calls IH]; intros self H; cbn [fold_left]; [exact H|].
    apply IH, relationship_consistent_step, H. }
  destruct (PyDict.get _ rid) as [rel|] eqn:Hget; [|exact I].
  split; [eapply keyed_by_id_get; eauto|].
  apply PyDict_get_In in Hget. rewrite List.Forall_forall in Hall.
  exact (Hall _ Hget).
Qed.
(** ** Follow-back detector: timeouts *)

Lemma timed_out_earlier earlier now account_filter rel :
  earlier <= now ->
  FollowBack.timed_out earlier account_filter rel = true ->
  FollowBack.timed_out now account_filter rel = true.
Proof.
  unfold FollowBack.timed_out. intros Hle H.
  apply andb_true_iff in H as [H Ht]. rewrite H. cbn [andb].
  destruct (FollowBack.timeout_at rel) as [t|]; [|discriminate].
  apply Z.leb_le in Ht. apply Z.leb_le. lia.
Qed.

Lemma timed_out_unfollowed earlier now account_filter rel :
  FollowBack.timed_out earlier account_filter (FollowBack.unfollowed now rel) = false.
Proof. reflexivity. Qed.

(** X24.  [process_timeouts] returns the user names of the relationships
    of the account that have timed out, those whose unfollow raised in the
    executor left out.  Afterwards the relationships still timed out, at
    [now] or at any earlier time, are exactly those left out.  Only
    relationships in status "following" are touched: a pending follow
    request is never unfollowed, however old it is. *)
Theorem process_timeouts_leaves_failed_unfollows_only :
  forall (self : FollowBack.FollowBackDetectorService) (now : datetime)
         (account : string)
         (executor_raises : FollowBack.FollowRelationship -> bool),
    let processed := FollowBack.process_timeouts self now account executor_raises in
    let failed rel :=
      FollowBack.has_automation_executor self && executor_raises rel in
    fst processed
    = map FollowBack.target_username
        (List.filter (fun rel => negb (failed rel))
           (FollowBack.get_timeout_relationships self now (Some account)))
    /\ (forall earlier,
          earlier <= now ->
          FollowBack.get_timeout_relationships (snd processed) earlier (Some account)
          = List.filter failed
              (FollowBack.get_timeout_relationships self earlier (Some account)))
    /\ (forall rid rel,
          PyDict.get (FollowBack._relationships self) rid = Some rel ->
          FollowBack.status rel <> FollowBack.FOLLOWING ->
          PyDict.get (FollowBack._relationships (snd processed)) rid = Some rel).
Proof.
  intros self now account executor_raises processed failed.
  subst processed failed. unfold FollowBack.process_timeouts.
  cbn [fst snd FollowBack.with_relationships FollowBack._relationships].
  unfold FollowBack.get_timeout_relationships, PyDict.values.
  cbn [FollowBack._relationships FollowBack.with_relationships].
  generalize (FollowBack.has_automation_executor self). intros executor.
  split; [|split].
  - f_equal. induction (FollowBack._relationships self) as [|[k rel] d IH];
      [reflexivity|].
    cbn [map List.filter snd].
    destruct (FollowBack.timed_out now (Some account) rel);
      cbn [andb List.filter]; [|exact IH].
    destruct (executor && executor_raises rel); cbn [negb]; [exact IH|].
    f_equal. exact IH.
  - intros earlier Hle.
    induction (FollowBack._relationships self) as [|[k rel] d IH];
      [reflexivity|].
    cbn [map List.filter fst snd]. rewrite IH. clear IH.
    destruct (FollowBack.timed_out earlier (Some account) rel) eqn:Hearlier.
    + rewrite (timed_out_earlier _ _ _ _ Hle Hearlier). cbn [andb List.filter].
      destruct (executor && executor_raises rel); cbn [negb].
      * rewrite Hearlier. reflexivity.
      * rewrite timed_out_unfollowed. reflexivity.
    + destruct (FollowBack.timed_out now (Some account) rel
                && negb (executor && executor_raises rel)).
      * rewrite timed_out_unfollowed. reflexivity.
      * rewrite Hearlier. reflexivity.
  - intros rid rel Hget Hstatus.
    rewrite (PyDict_get_map_values
               (fun _ r => if FollowBack.timed_out now (Some account) r
                              && negb (executor && executor_raises r)
                           then FollowBack.unfollowed now r else r)).
    rewrite Hget. cbn [option_map]. f_equal.
    unfold FollowBack.timed_out.
    destruct (FollowBack.status rel); try congruence; reflexivity.
Qed.

(** ** Follow-back detector: checks *)

(** X25.  In a detector that started empty, a check whose probe answered
    marks the relationship as checked: [get_pending_relationships] lists
    it again only when an hour has passed since the check, whatever the
    account filter. *)
Theorem checked_relationship_rests_for_an_hour :
  forall (isoformat : datetime -> string) (executor : bool)
         (calls : list detector_call) (now : datetime) (answer : bool)
         (rid : string) (later : datetime) (account_filter : option string),
    let self := detector_run isoformat (FollowBack.init executor) calls in
    let checked := snd (FollowBack.check_stored self now (Ok answer) rid) in
    Forall (fun rel =>
              FollowBack.id rel = rid -> now + timedelta_hours 1 <= later)
      (FollowBack.get_pending_relationships checked later account_filter).
Proof.
  intros isoformat executor calls now answer rid later account_filter self checked.
  pose proof (detector_registry_keyed isoformat executor calls) as Hkeyed.
  fold self in Hkeyed.
  assert (Hkeyed' : keyed_by_id (FollowBack._relationships checked)).
  { apply (keyed_by_id_step isoformat self (CallCheckFollowBack now (Ok answer) rid)).
    exact Hkeyed. }
  apply List.Forall_forall. intros rel Hin Hid.
  unfold FollowBack.get_pending_relationships in Hin.
  apply List.filter_In in Hin as [Hin Hpending].
  unfold PyDict.values in Hin. apply in_map_iff in Hin as ([k r] & Hr & Hin).
  cbn [snd] in Hr. subst r.
  assert (Hk : k = rid).
  { destruct Hkeyed' as [_ Hids]. rewrite List.Forall_forall in Hids.
    specialize (Hids _ Hin). cbn [fst snd] in Hids. congruence. }
  subst k. destruct Hkeyed' as [Hnd _].
  apply (PyDict_In_get _ _ _ Hnd) in Hin.
  subst checked. unfold FollowBack.check_stored in Hin.
  destruct (PyDict.get (FollowBack._relationships self) rid) as [r0|] eqn:Hr0.
  - unfold FollowBack.check_follow_back in Hin.
    cbn [snd FollowBack.with_relationships FollowBack._relationships] in Hin.
    rewrite PyDict_get_set_same in Hin. injection Hin as <-.
    cbn [FollowBack.last_checked_at] in Hpending.
    apply andb_true_iff in Hpending as [_ Hrest].
    apply negb_true_iff, Z.ltb_ge in Hrest.
    unfold FollowBack.MIN_CHECK_INTERVAL_HOURS in Hrest. lia.
  - cbn [snd] in Hin. congruence.
Qed.

Lemma firstn_length_firstn {A} (l : list A) m :
  firstn (length (firstn m l)) l = firstn m l.
Proof.
  revert l. induction m as [|m IH]; intros [|x l]; cbn; [reflexivity..|].
  f_equal. apply IH.
Qed.

Lemma slice_to_firstn {A} (l : list A) limit :
  firstn (length (slice_to l limit)) l = slice_to l limit.
Proof. unfold slice_to. destruct (0 <=? limit); apply firstn_length_firstn. Qed.

Lemma check_first_results eligible probes d : forall n,
  fst (FollowBack.check_first n eligible probes d)
  = map (fun rel =>
           fst (FollowBack.check_follow_back (fst (probes rel)) (snd (probes rel))
                  rel))
      (firstn n (List.filter eligible (PyDict.values d))).
Proof.
  induction d as [|[k rel] d IHd]; intros n.
  - destruct n; reflexivity.
  - destruct n as [|n']; [reflexivity|].
    cbn [FollowBack.check_first PyDict.values map List.filter snd].
    destruct (eligible rel).
    + destruct (FollowBack.check_follow_back _ _ rel) as [res rel'] eqn:Hcheck.
      specialize (IHd n').
      destruct (FollowBack.check_first n' eligible probes d) as [ress d''].
      cbn [fst firstn map] in *. rewrite Hcheck. cbn [fst]. f_equal. exact IHd.
    + specialize (IHd (S n')).
      destruct (FollowBack.check_first (S n') eligible probes d) as [ress d''].
      cbn [fst] in *. exact IHd.
Qed.

Lemma check_follow_back_new now probe rel :
  FollowBack.status_eqb (FollowBack.status rel) FollowBack.MUTUAL = false ->
  let checked := FollowBack.check_follow_back now probe rel in
  negb (truthy_str (FollowBack.error_message (fst checked)))
  && FollowBack.changed (fst checked)
  && FollowBack.status_eqb (FollowBack.current_status (fst checked))
       FollowBack.MUTUAL
  = FollowBack.status_eqb (FollowBack.status (snd checked)) FollowBack.MUTUAL.
Proof.
  intros Hstatus. unfold FollowBack.check_follow_back.
  destruct probe as [[|]|e]; cbn; rewrite ?Hstatus; cbn.
  - reflexivity.
  - reflexivity.
  - rewrite andb_false_r. reflexivity.
Qed.

Lemma check_first_mutual eligible probes d : forall n,
  (forall rel, eligible rel = true ->
     FollowBack.status_eqb (FollowBack.status rel) FollowBack.MUTUAL = false) ->
  let is_new res :=
    negb (truthy_str (FollowBack.error_message res))
    && FollowBack.changed res
    && FollowBack.status_eqb (FollowBack.current_status res) FollowBack.MUTUAL in
  let mutual rel :=
    FollowBack.status_eqb (FollowBack.status rel) FollowBack.MUTUAL in
  (length (List.filter mutual
             (PyDict.values (snd (FollowBack.check_first n eligible probes d))))
   = length (List.filter mutual (PyDict.values d))
     + length (List.filter is_new
                 (fst (FollowBack.check_first n eligible probes d))))%nat.
Proof.
  intros n Heligible. cbv zeta. revert n.
  induction d as [|[k rel] d IHd]; intros n.
  - destruct n; reflexivity.
  - destruct n as [|n']; [cbn; lia|].
    cbn [FollowBack.check_first].
    destruct (eligible rel) eqn:Hrel.
    + pose proof (check_follow_back_new (fst (probes rel)) (snd (probes rel)) rel
                    (Heligible rel Hrel)) as Hnew.
      cbn zeta in Hnew.
      destruct (FollowBack.check_follow_back _ _ rel) as [res rel'].
      specialize (IHd n').
      destruct (FollowBack.check_first n' eligible probes d) as [ress d''].
      cbn [fst snd PyDict.values map List.filter] in *.
      rewrite <- Hnew, (Heligible rel Hrel).
      unfold PyDict.values in *.
      destruct (negb _ && _ && _); cbn [length]; lia.
    + specialize (IHd (S n')).
      destruct (FollowBack.check_first (S n') eligible probes d) as [ress d''].
      cbn [fst snd PyDict.values map List.filter] in *.
      unfold PyDict.values in *.
      destruct (FollowBack.status_eqb _ _); cbn [length]; lia.
Qed.

Lemma filter_length_le {A} (f : A -> bool) l :
  (length (List.filter f l) <= length l)%nat.
Proof.
  induction l as [|x l IH]; cbn [List.filter length]; [lia|].
  destruct (f x); cbn [length]; lia.
Qed.

Lemma filter_disjoint_length {A} (f g : A -> bool) l :
  (forall x, f x = true -> g x = false) ->
  (length (List.filter f l) + length (List.filter g l) <= length l)%nat.
Proof.
  intros Hfg. induction l as [|x l IH]; cbn [List.filter length]; [lia|].
  destruct (f x) eqn:Hf; [rewrite (Hfg x Hf)|destruct (g x)]; cbn [length]; lia.
Qed.

(** X26.  [check_batch] checks the first [limit] relationships that
    [get_pending_relationships] lists for the account, each once and in
    that order.  Its counters agree with what it did: "total_checked" is
    the number of checks, no more than a limit that is not negative;
    "new_follow_backs" is the number of relationships the batch has turned
    mutual; "errors" counts the checks whose probe raised with a message
    that is not empty, so a check counts as an error or as a follow-back
    or as neither, never as both. *)
Theorem check_batch_counts_what_it_did :
  forall (self : FollowBack.FollowBackDetectorService) (now : datetime)
         (account : string) (limit : Z)
         (probes : FollowBack.FollowRelationship -> datetime * result bool)
         (finish : datetime),
    let batch := FollowBack.check_batch self now account limit probes finish in
    let pending :=
      slice_to (FollowBack.get_pending_relationships self now (Some account))
        limit in
    FollowBack.results (fst batch)
    = map (fun rel =>
             fst (FollowBack.check_follow_back (fst (probes rel))
                    (snd (probes rel)) rel))
        pending
    /\ FollowBack.total_checked (fst batch) = Z.of_nat (length pending)
    /\ (0 <= limit -> FollowBack.total_checked (fst batch) <= limit)
    /\ count_mutual (snd batch)
       = count_mutual self + FollowBack.new_follow_backs (fst batch)
    /\ FollowBack.errors (fst batch)
       = Z.of_nat
           (length
              (List.filter
                 (fun rel =>
                    match snd (probes rel) with
                    | Raise e => negb (exn_str e =? "")%string
                    | Ok _ => false
                    end)
                 pending))
    /\ FollowBack.errors (fst batch) + FollowBack.new_follow_backs (fst batch)
       <= FollowBack.total_checked (fst batch).
Proof.
  intros self now account limit probes finish batch pending.
  subst batch. unfold FollowBack.check_batch. fold pending.
  pose proof (check_first_results (FollowBack.is_pending_check now (Some account))
                probes (FollowBack._relationships self) (length pending))
    as Hresults.
  pose proof (check_first_mutual (FollowBack.is_pending_check now (Some account))
                probes (FollowBack._relationships self) (length pending))
    as Hmutual.
  destruct (FollowBack.check_first (length pending) _ probes _)
    as [checked registry].
  cbn [fst snd] in *.
  cbn [FollowBack.results FollowBack.total_checked FollowBack.new_follow_backs
       FollowBack.errors].
  change (List.filter (FollowBack.is_pending_check now (Some account))
            (PyDict.values (FollowBack._relationships self)))
    with (FollowBack.get_pending_relationships self now (Some account))
    in Hresults.
  subst pending. rewrite slice_to_firstn in Hresults.
  set (pending := slice_to
                    (FollowBack.get_pending_relationships self now (Some account))
                    limit) in *.
  assert (Hlen : length checked = length pending)
    by (rewrite Hresults, length_map; reflexivity).
  split; [exact Hresults|]. split; [rewrite Hlen; reflexivity|]. split; [|split].
  - intros Hlimit. rewrite Hlen. subst pending. unfold slice_to.
    replace (0 <=? limit) with true by (symmetry; apply Z.leb_le; exact Hlimit).
    pose proof (firstn_le_length (Z.to_nat limit)
                  (FollowBack.get_pending_relationships self now (Some account))).
    lia.
  - unfold count_mutual. cbn [FollowBack._relationships FollowBack.with_relationships].
    cbn zeta in Hmutual. rewrite Hmutual; [lia|].
    intros rel Hrel. unfold FollowBack.is_pending_check in Hrel.
    apply andb_true_iff in Hrel as [Hrel _]. apply andb_true_iff in Hrel as [Hrel _].
    apply negb_true_iff, orb_false_iff in Hrel as [Hrel _]. exact Hrel.
  - split.
    + f_equal. rewrite Hresults. clear.
      induction pending as [|rel l IH]; [reflexivity|].
      cbn [map List.filter].
      assert (Hhead :
                truthy_str
                  (FollowBack.error_message
                     (fst (FollowBack.check_follow_back (fst (probes rel))
                             (snd (probes rel)) rel)))
                = match snd (probes rel) with
                  | Raise e => negb (exn_str e =? "")%string
                  | Ok _ => false
                  end).
      { unfold FollowBack.check_follow_back.
        destruct (snd (probes rel)) as [answer|e]; reflexivity. }
      rewrite Hhead.
      destruct (match snd (probes rel) with
                | Raise e => negb (exn_str e =? "")%string
                | Ok _ => false
                end); cbn [length]; rewrite IH; reflexivity.
    + pose proof (filter_disjoint_length
                    (fun res => truthy_str (FollowBack.error_message res))
                    (fun res =>
                       negb (truthy_str (FollowBack.error_message res))
                       && FollowBack.changed res
                       && FollowBack.status_eqb (FollowBack.current_status res)
                            FollowBack.MUTUAL)
                    checked) as Hdisjoint.
      cbn beta in Hdisjoint.
      assert (Hle : (length (List.filter
                               (fun res => truthy_str (FollowBack.error_message res))
                               checked)
                     + length (List.filter
                                 (fun res =>
                                    negb (truthy_str (FollowBack.error_message res))
                                    && FollowBack.changed res
                                    && FollowBack.status_eqb
                                         (FollowBack.current_status res)
                                         FollowBack.MUTUAL)
                                 checked)
                     <= length checked)%nat).
      { apply Hdisjoint. intros res ->. reflexivity. }
      lia.
Qed.

(** ** Conversation flow: what a response tells *)

Lemma process_node_response spintax rng now node state :
  let resp := fst (Conversation._process_node spintax rng now node state) in
  (Conversation.should_respond resp = true -> Conversation.response_text resp <> None)
  /\ (Conversation.end_conversation resp = true ->
      Conversation.should_respond resp = false
      /\ Conversation.requires_human resp = false)
  /\ (Conversation.requires_human resp = true <->
      Conversation.node_type node = Conversation.HUMAN_HANDOFF).
Proof.
  unfold Conversation._process_node.
  destruct (Conversation.node_type node); cbn;
    try (repeat split; intros; congruence).
  destruct (if truthy_str (Conversation.template_id node) then _ else None),
    spintax; try destruct (Spintax.generate_message _ _ _ _ _); cbn;
    repeat split; intros; congruence.
Qed.

Local Ltac coherent_branch :=
  cbn [fst snd]; cbn; repeat split; intros;
  first [ congruence | reflexivity | left; reflexivity | right; reflexivity
        | apply lookup_insert_ne; congruence ].

(** X27.  Whatever the service, the conversation and the message, the
    response of [process_message] is of one piece: a response that is to be
    sent carries a text; a response that ends the conversation is not to be
    sent and asks for no human; the intent it reports is the one detected
    in the message, or unknown.  The flows are left as they are, and so is
    every other conversation. *)
Theorem process_message_response_is_coherent :
  forall (self : Conversation.ConversationFlowService) (rng : nat -> nat)
         (now : datetime) (cid message : string),
    let answer := Conversation.process_message self rng now cid message in
    (Conversation.should_respond (fst answer) = true ->
     Conversation.response_text (fst answer) <> None)
    /\ (Conversation.end_conversation (fst answer) = true ->
        Conversation.should_respond (fst answer) = false
        /\ Conversation.requires_human (fst answer) = false)
    /\ (Conversation.detected_intent (fst answer)
        = Conversation.detect_intent message
        \/ Conversation.detected_intent (fst answer) = Conversation.UNKNOWN)
    /\ Conversation._flows (snd answer) = Conversation._flows self
    /\ (forall other, other <> cid ->
          Conversation._states (snd answer) !! other
          = Conversation._states self !! other).
Proof.
  intros self rng now cid message answer. subst answer.
  unfold Conversation.process_message.
  destruct (Conversation._states self !! cid) as [state|];
    [|coherent_branch].
  destruct (Conversation._flows self !! Conversation.flow_id state) as [flow|];
    [|coherent_branch].
  destruct (Conversation.nodes flow !! Conversation.current_node_id state)
    as [node|]; [|coherent_branch].
  set (intent := Conversation.detect_intent message).
  assert (Hsaved : forall sp st other, other <> cid ->
             Conversation._states (Conversation.save_state self sp cid st) !! other
             = Conversation._states self !! other).
  { intros sp st other Hne. cbn. apply lookup_insert_ne. congruence. }
  destruct (Conversation.is_unknown intent && _).
  { coherent_branch. }
  destruct (if truthy_str _ then _ else None) as [n|].
  2:{ coherent_branch. }
  destruct (Conversation.nodes flow !! n) as [next_node|].
  2:{ coherent_branch. }
  match goal with
  | |- context [Conversation._process_node ?sp ?r ?t ?nd ?st] =>
      pose proof (process_node_response sp r t nd st) as Hnode;
      destruct (Conversation._process_node sp r t nd st) as [resp sp']
  end.
  cbn [fst snd] in *. cbn zeta in Hnode.
  destruct Hnode as (H1 & H2 & _).
  cbn [Conversation.with_intent Conversation.should_respond
       Conversation.response_text Conversation.end_conversation
       Conversation.requires_human Conversation.detected_intent].
  split; [exact H1|]. split; [exact H2|]. split; [auto|].
  split; [reflexivity|]. intros other Hne. apply Hsaved, Hne.
Qed.

(** X28.  [process_message] asks for a human in three cases only: the
    conversation or its flow is not known; the message is the third, or a
    later one, of unknown intent, and the answer is the hand-off text; or
    the flow has led to a hand-off node, which is then the current node
    of the conversation.  The intent detected in the message, a request
    for a human included, asks for nothing by itself: it does so only
    where the flow routes it to a hand-off node. *)
Theorem human_is_requested_by_handoff_nodes_only :
  forall (self : Conversation.ConversationFlowService) (rng : nat -> nat)
         (now : datetime) (cid message : string),
    let answer := Conversation.process_message self rng now cid message in
    Conversation.requires_human (fst answer) = true ->
    (Conversation._states self !! cid = None
     \/ exists state,
          Conversation._states self !! cid = Some state
          /\ Conversation._flows self !! Conversation.flow_id state = None)
    \/ (Conversation.detect_intent message = Conversation.UNKNOWN
        /\ Conversation.response_text (fst answer)
           = Some Conversation.handoff_text
        /\ exists state,
             Conversation._states (snd answer) !! cid = Some state
             /\ 3 <= Conversation.failed_intents state)
    \/ (exists state flow node,
          Conversation._states (snd answer) !! cid = Some state
          /\ Conversation._flows self !! Conversation.flow_id state = Some flow
          /\ Conversation.nodes flow !! Conversation.current_node_id state
             = Some node
          /\ Conversation.node_type node = Conversation.HUMAN_HANDOFF).
Proof.
  intros self rng now cid message answer. subst answer.
  unfold Conversation.process_message.
  destruct (Conversation._states self !! cid) as [state|] eqn:Hstate;
    [|intros _; left; left; reflexivity].
  destruct (Conversation._flows self !! Conversation.flow_id state) as [flow|]
    eqn:Hflow; [|intros _; left; right; eauto].
  destruct (Conversation.nodes flow !! Conversation.current_node_id state)
    as [node|]; [|discriminate].
  set (intent := Conversation.detect_intent message).
  cbn [Conversation.failed_intents].
  destruct (Conversation.is_unknown intent) eqn:Hunknown; cbn [andb].
  - destruct (3 <=? Conversation.failed_intents state + 1) eqn:Hthree.
    + intros _. right. left. cbn [fst snd].
      split; [apply is_unknown_iff, Hunknown|]. split; [reflexivity|].
      eexists. split; [apply saved_state_lookup|]. cbn. apply Z.leb_le, Hthree.
    + destruct (if truthy_str _ then _ else None) as [n|]; [|discriminate].
      destruct (Conversation.nodes flow !! n) as [next_node|] eqn:Hn;
        [|discriminate].
      match goal with
      | |- context [Conversation._process_node ?sp ?r ?t ?nd ?st] =>
          pose proof (process_node_response sp r t nd st) as Hnode;
          destruct (Conversation._process_node sp r t nd st) as [resp sp']
      end.
      cbn [fst snd] in *. cbn zeta in Hnode. destruct Hnode as (_ & _ & H3).
      cbn [Conversation.with_intent Conversation.requires_human].
      intros Hhuman. right. right.
      eexists _, flow, next_node. split; [apply saved_state_lookup|].
      cbn. split; [exact Hflow|]. split; [exact Hn|]. apply H3, Hhuman.
  - destruct (if truthy_str _ then _ else None) as [n|]; [|discriminate].
    destruct (Conversation.nodes flow !! n) as [next_node|] eqn:Hn;
      [|discriminate].
    match goal with
    | |- context [Conversation._process_node ?sp ?r ?t ?nd ?st] =>
        pose proof (process_node_response sp r t nd st) as Hnode;
        destruct (Conversation._process_node sp r t nd st) as [resp sp']
    end.
    cbn [fst snd] in *. cbn zeta in Hnode. destruct Hnode as (_ & _ & H3).
    cbn [Conversation.with_intent Conversation.requires_human].
    intros Hhuman. right. right.
    eexists _, flow, next_node. split; [apply saved_state_lookup|].
    cbn. split; [exact Hflow|]. split; [exact Hn|]. apply H3, Hhuman.
Qed.
Lemma human_is_requested_by_handoff_nodes_only_witness :
  let answer :=
    Conversation.process_message conversation_c1_greeted (fun _ => 0%nat) 2 "c1"
      "I would rather talk to a real person" in
  (Conversation._states conversation_c1_greeted !! "c1" = None
   \/ exists state,
        Conversation._states conversation_c1_greeted !! "c1" = Some state
        /\ Conversation._flows conversation_c1_greeted
             !! Conversation.flow_id state = None)
  \/ (Conversation.detect_intent "I would rather talk to a real person"
      = Conversation.UNKNOWN
      /\ Conversation.response_text (fst answer) = Some Conversation.handoff_text
      /\ exists state,
           Conversation._states (snd answer) !! "c1" = Some state
           /\ 3 <= Conversation.failed_intents state)
  \/ (exists state flow node,
        Conversation._states (snd answer) !! "c1" = Some state
        /\ Conversation._flows conversation_c1_greeted
             !! Conversation.flow_id state = Some flow
        /\ Conversation.nodes flow !! Conversation.current_node_id state = Some node
        /\ Conversation.node_type node = Conversation.HUMAN_HANDOFF).
Proof.
  apply (human_is_requested_by_handoff_nodes_only conversation_c1_greeted
           (fun _ => 0%nat) 2 "c1" "I would rather talk to a real person").
  vm_compute. reflexivity.
Defined.

(** ** Conversation flow: escalation keywords *)

Lemma str_lower_app a b : Conversation.str_lower (a +:+ b) = Conversation.str_lower a +:+ Conversation.str_lower b.
Proof.
  induction a as [|c a IH]; [reflexivity|].
  rewrite sapp_cons. cbn [Conversation.str_lower]. rewrite sapp_cons, IH. reflexivity.
Qed.

Lemma str_contains_step sub c s :
  Conversation.str_contains sub s = true -> Conversation.str_contains sub (String c s) = true.
Proof. intros H. rewrite str_contains_cons, H. apply orb_true_r. Qed.

Lemma str_contains_middle a k b : Conversation.str_contains k (a +:+ k +:+ b) = true.
Proof.
  induction a as [|c a IH].
  - rewrite sapp_nil. destruct (k +:+ b) eqn:E.
    + cbn. destruct k; [reflexivity|]. rewrite sapp_cons in E. discriminate.
    + rewrite str_contains_cons, <- E, prefix_app. reflexivity.
  - rewrite sapp_cons. apply str_contains_step, IH.
Qed.

Lemma str_contains_nonempty k : k <> "" -> Conversation.str_contains k "" = false.
Proof. destruct k; [congruence|reflexivity]. Qed.

(** A text that is its own [lstrip] does not begin with white space. *)
Lemma prefix_lstrip k c s :
  k <> "" -> lstrip k = k -> String.prefix k (String c s) = true ->
  is_space c = false.
Proof.
  destruct k as [|a k]; [congruence|]. intros _ Hk Hp.
  rewrite prefix_cons in Hp.
  destruct (ascii_dec a c) as [->|]; [|discriminate].
  cbn [lstrip] in Hk. destruct (is_space c); [|reflexivity].
  exfalso.
  assert (Hlen : forall s0, (String.length (lstrip s0) <= String.length s0)%nat).
  { induction s0 as [|x s0 IH]; cbn; [lia|]. destruct (is_space x); cbn; lia. }
  specialize (Hlen k). rewrite Hk in Hlen. cbn in Hlen. lia.
Qed.

Lemma str_contains_lstrip k s :
  k <> "" -> lstrip k = k ->
  Conversation.str_contains k s = true -> Conversation.str_contains k (lstrip s) = true.
Proof.
  intros Hne Hk. induction s as [|c s IH]; [auto|].
  intros H. cbn [lstrip]. destruct (is_space c) eqn:Hc; [|exact H].
  rewrite str_contains_cons in H. apply orb_true_iff in H as [H|H]; [|auto].
  rewrite (prefix_lstrip k c s Hne Hk H) in Hc. discriminate.
Qed.

Lemma rstrip_cons c s :
  rstrip s <> "" -> rstrip (String c s) = String c (rstrip s).
Proof. intros H. cbn [rstrip]. destruct (rstrip s); [congruence|reflexivity]. Qed.

Lemma rstrip_length s : (String.length (rstrip s) <= String.length s)%nat.
Proof.
  induction s as [|c s IH]; cbn [rstrip]; [cbn; lia|].
  destruct (rstrip s); [destruct (is_space c)|]; cbn in *; lia.
Qed.

Lemma prefix_rstrip k : forall s,
  k <> "" -> rstrip k = k ->
  String.prefix k s = true -> String.prefix k (rstrip s) = true.
Proof.
  induction k as [|a k IH]; [congruence|]. intros [|c s] _ Hk Hp;
    [discriminate|].
  rewrite prefix_cons in Hp. destruct (ascii_dec a c) as [->|]; [|discriminate].
  destruct k as [|b k].
  - cbn in Hk. destruct (is_space c) eqn:Hc; [discriminate Hk|].
    cbn [rstrip]. destruct (rstrip s); rewrite ?Hc; rewrite prefix_cons;
      destruct (ascii_dec c c); try congruence; reflexivity.
  - assert (Hk' : rstrip (String b k) = String b k).
    { destruct (rstrip (String b k)) as [|x r] eqn:E.
      - exfalso. pose proof (rstrip_length (String c (String b k))) as Hlen.
        change (rstrip (String c (String b k)))
          with (match rstrip (String b k) with
                | "" => if is_space c then "" else String c ""
                | r => String c r
                end) in Hk.
        rewrite E in Hk. destruct (is_space c); discriminate Hk.
      - change (rstrip (String c (String b k)))
          with (match rstrip (String b k) with
                | "" => if is_space c then "" else String c ""
                | r => String c r
                end) in Hk.
        rewrite E in Hk. injection Hk as -> ->. reflexivity. }
    specialize (IH s ltac:(discriminate) Hk' Hp).
    assert (Hrs : rstrip s <> "").
    { intros E. rewrite E in IH. discriminate. }
    rewrite (rstrip_cons c s Hrs), prefix_cons.
    destruct (ascii_dec c c); [exact IH|congruence].
Qed.

Lemma str_contains_rstrip k s :
  k <> "" -> rstrip k = k ->
  Conversation.str_contains k s = true -> Conversation.str_contains k (rstrip s) = true.
Proof.
  intros Hne Hk. induction s as [|c s IH]; [auto|].
  intros H. rewrite str_contains_cons in H. apply orb_true_iff in H as [H|H].
  - pose proof (prefix_rstrip k (String c s) Hne Hk H) as Hp.
    destruct (rstrip (String c s)) as [|x r] eqn:E.
    + destruct k; [congruence|discriminate].
    + rewrite str_contains_cons, Hp. reflexivity.
  - specialize (IH H).
    assert (Hrs : rstrip s <> "").
    { intros E. rewrite E, (str_contains_nonempty k Hne) in IH. discriminate. }
    rewrite (rstrip_cons c s Hrs). apply str_contains_step, IH.
Qed.

Lemma stripped_keywords keyword :
  In keyword Conversation.NEGATIVE_KEYWORDS ->
  keyword <> "" /\ lstrip keyword = keyword /\ rstrip keyword = keyword.
Proof.
  unfold Conversation.NEGATIVE_KEYWORDS. cbn [In].
  intros H; repeat (destruct H as [<-|H]; [repeat split; discriminate || reflexivity|]);
    destruct H.
Qed.

(** X29.  A message that contains one of the escalation keywords, in any
    mix of upper and lower case and wherever it stands, is taken as a
    request for a human, whatever else it says: the keywords are looked
    for before any intent pattern. *)
Theorem escalation_keyword_requests_human :
  forall (before after written keyword : string),
    In keyword Conversation.NEGATIVE_KEYWORDS ->
    Conversation.str_lower written = keyword ->
    Conversation.detect_intent (before +:+ written +:+ after)
    = Conversation.REQUEST_HUMAN.
Proof.
  intros before after written keyword Hin Hlower.
  destruct (stripped_keywords keyword Hin) as (Hne & Hl & Hr).
  unfold Conversation.detect_intent.
  assert (Hfound : Conversation.str_contains keyword
                     (str_strip (Conversation.str_lower (before +:+ written +:+ after)))
                   = true).
  { unfold str_strip. apply str_contains_rstrip; [exact Hne|exact Hr|].
    apply str_contains_lstrip; [exact Hne|exact Hl|].
    rewrite !str_lower_app, Hlower. apply str_contains_middle. }
  assert (Hexists : existsb
                      (fun k => Conversation.str_contains k
                                  (str_strip (Conversation.str_lower (before +:+ written +:+ after))))
                      Conversation.NEGATIVE_KEYWORDS = true).
  { apply existsb_exists. exists keyword. auto. }
  rewrite Hexists. reflexivity.
Qed.

Lemma escalation_keyword_requests_human_witness :
  Conversation.detect_intent ("Yes please, but is this a " +:+ "SCAM" +:+ "?  ")
  = Conversation.REQUEST_HUMAN.
Proof.
  apply (escalation_keyword_requests_human "Yes please, but is this a " "?  "
           "SCAM" "scam").
  - vm_compute. tauto.
  - reflexivity.
Defined.

(** ** Conversation flow: the first message *)

(** X30.  [get_initial_message] does not return for a flow whose start
    node is not a message node and names itself as its default next node:
    its loop goes round on that node for ever. *)
Theorem get_initial_message_loops_on_self_reference :
  forall (self : Conversation.ConversationFlowService) (rng : nat -> nat)
         (now : datetime) (fid : string) (vars : PyDict.t string)
         (flow : Conversation.ConversationFlow) (node : Conversation.FlowNode),
    Conversation._flows self !! fid = Some flow ->
    Conversation.nodes flow !! Conversation.start_node_id flow = Some node ->
    Conversation.node_type node <> Conversation.MESSAGE ->
    Conversation.default_next node = Some (Conversation.start_node_id flow) ->
    Conversation.start_node_id flow <> "" ->
    forall fuel,
      Conversation.get_initial_message self rng now fuel fid vars = None.
Proof.
  intros self rng now fid vars flow node Hflow Hnode Htype Hnext Hstart fuel.
  unfold Conversation.get_initial_message. rewrite Hflow, Hnode.
  assert (Hturn : Conversation.initial_message_turn flow (Some node)
                  = Conversation.GoOn (Some node)).
  { unfold Conversation.initial_message_turn. rewrite Hnext.
    assert (Htruthy : truthy_str (Some (Conversation.start_node_id flow)) = true).
    { cbn. destruct (Conversation.start_node_id flow); [congruence|reflexivity]. }
    rewrite Htruthy, Hnode.
    destruct (Conversation.node_type node); congruence. }
  assert (Hloop : Conversation.initial_message_loop fuel flow (Some node) = None).
  { induction fuel as [|fuel IH]; [reflexivity|].
    cbn [Conversation.initial_message_loop]. rewrite Hturn. exact IH. }
  rewrite Hloop. reflexivity.
Qed.

Lemma get_initial_message_loops_on_self_reference_witness :
  Conversation.get_initial_message
    (Conversation.add_flow (Conversation.init 0 None) flow_waiting_forever)
    (fun _ => 0%nat) 0 1000 "waiting" []
  = None.
Proof.
  apply (get_initial_message_loops_on_self_reference
           (Conversation.add_flow (Conversation.init 0 None) flow_waiting_forever)
           (fun _ => 0%nat) 0 "waiting" [] flow_waiting_forever
           (Conversation.mkNode "start" Conversation.DELAY None None 60 []
              (Some "start")));
    vm_compute; (reflexivity || discriminate).
Defined.
